(* ===== verification/_CoqProject ===== *)
-Q . S2P
Prelude.v
PyNum.v
PyStat.v
PyStr.v
Regex.v
PyTime.v
PyPrint.v
Json.v
World.v
Schema.v
Storage.v
Config.v
Alerts.v
Db.v
Enforcement.v
EnforcementFacts.v
Playbooks.v
PlaybooksFacts.v
Latency.v
Wire.v
WireFacts.v
IpText.v
IpAddr.v
Models.v
Startup.v
StageMain.v
PlaybooksApi.v
Api.v
Csv.v
Capture.v
CaptureFacts.v
Receiver.v
ReceiverFacts.v
TierFacts.v
WindowAlerts.v
PlaybookRuns.v
ApiFacts.v
AlertSend.v
Auth.v
AuthFacts.v
Routes.v
Environment.v
AutoLabel.v
AutoLabelFacts.v
System.v
Scripts.v
LabelBenchmark.v
Calibrate.v
CalibrateFacts.v
Reports.v
ReportData.v
ReportFacts.v
ReportText.v
ReportPdf.v
ReportPdfFacts.v
BenchTime.v
BenchData.v
BenchRun.v
BenchFacts.v
BenchReport.v
BenchReportFacts.v
CalibrateReport.v
CalibrateReportFacts.v
TrainData.v
TrainRun.v
ThresholdBench.v
TrainFacts.v
TrainPick.v
TrainChecks.v
TrainDemo.v
ThresholdReport.v
