(* ===== verification/Prelude.v ===== *)
(** * FLOD: a verification development

    FLOD protects the hosts behind a Linux gateway. Stage 1 (Rust and eBPF, not
    part of this development) measures the traffic to every protected host and
    sends one 216-byte feature vector per window over a Unix socket. Stage 2
    (Python, [src/stage2]) classifies the window, blocks or rate-limits sources
    through ipset and iptables, runs operator-defined playbooks, captures rows
    for later training, labels them, and serves a dashboard. The scripts in
    [src/scripts] calibrate the sensor and analyse benchmarks. This development
    models Stage 2, its training programs and the five scripts as executable
    definitions, and proves what makes them correct.

    ** How the model is put together

    [Prelude] has results and exceptions, the state-and-exception monad
    [M W A] (a Python call maps a world to a result and a world; effects before
    an exception persist), ordered dictionaries, Python's stable sort, and the
    proof rules: [pres I m] (an invariant through returns and exceptions),
    [goes], [for_each_prefix] for loops that may stop anywhere, [runs] (the call
    returns and its outcome satisfies ...), with the tactic [pres_auto] and the
    hint database [pres].

    The parts of Python and its standard library the program uses are modelled,
    not assumed: [PyNum] (int and binary64 float, exact comparison, formatting,
    parsing), [PyStat] (division, rounding, fsum, median, pstdev), [PyStr],
    [Regex] (a backtracking matcher, proved sound and complete for the language
    of a pattern), [PyTime] (strptime, gmtime, the calendar), [PyPrint] (padded
    columns, and numbers read back as printed), [Json], [Csv]
    (writer and reader, with their round trip), [IpAddr] (the ipaddress module).

    [World] is the state of the Stage 2 process: the variables of [state.py],
    JSON and CSV files, database tables, alert queue, latency samples and the
    trace of commands issued. The class [Env] is what it does not control:
    clock readings, subprocess outcomes, I/O failures, partial writes and the
    settings. Each consultation advances a counter, so the answers of [Env] at
    different moments are unrelated. Theorems quantify over [Env] unless a
    hypothesis restricts it. The classes [StEnv], [StCmd], [StAlert], [StCapture],
    [StState], [StDb] and [StEnforce] state which updates an invariant does not
    mind, so that one preservation lemma per operation serves every invariant.

    ** The components

    - [Wire], [WireFacts] (ipc_receiver.py, config.py): framing, struct layout,
      [decode_ip]. The handler sees the same frames however recv splits the
      stream; a vector is read back bit for bit.
    - [IpText], [IpAddr]: [decode_ip] is injective, and every text it yields
      parses as the address it came from.
    - [Receiver], [ReceiverFacts], [TierFacts], [WindowAlerts]
      (ipc_receiver.py): a window from frame to enforcement and the accept loop.
      No command touches a whitelisted address; nothing is blocked without
      hysteresis; no connection stops the loop; a DDoS window with flow data is
      handled; the safety overrides and the alerts are what they should be.
    - [Capture], [CaptureFacts] (ipc_receiver.py): the capture files behind a
      lock with a bounded queue, which refine an abstract log; per-source rates.
    - [Enforcement], [EnforcementFacts] (enforcement.py): block, rate-limit,
      release, the list of named attackers, the iptables rules under the
      documented behaviour of iptables.
    - [Playbooks], [PlaybooksFacts], [PlaybooksApi] (playbooks.py,
      playbooks_api.py): the vocabulary of definitions, triggers, the engine as
      one pass per window, and the routes, which only ever store valid ones.
      [PlaybookRuns]: a pass as a function of each run, and that runs complete.
    - [Db] (db.py), [Schema] (schema.py), [Storage] (storage.py), [Config]
      (config.py): transactions, migration of the file over statements that may
      fail, atomic replacement of JSON files, trusted model files, settings.
    - [Alerts], [AlertSend] (alerts.py): the queue, the worker, the four
      senders, redaction; non-interference of credentials.
    - [Auth], [AuthFacts] (auth.py, users.py): middleware, sessions, throttled
      login, accounts. [Startup]: the first account (setup_admin.py), the choice
      to serve over TLS (stage2.py), the version, the capacity check.
    - [StageMain] (stage2.py): [main], every call of which may fail: the database
      file and its mode, migration, the records restored, threads, the server.
    - [Models], [Api], [ApiFacts] (models.py, api.py): payload checks and the
      dashboard's routes. [Routes] (stage2.py and the decorators of every router):
      the routes in the order they are registered, behind the middleware; none
      hides another, and only those named are open.
    - [System]: windows and requests on one process, in any order; what is listed
      stays protected until it is removed.
    - [Environment] (config.py, api.py): the files behind the path constants, the
      settings as they are read, the interfaces the dashboard shows.
    - [Latency] (latency.py); [ReportData], [ReportFacts] (report_data.py):
      figures of a report and their conservation; [ReportText] their texts;
      [ReportPdf], [ReportPdfFacts] (report_pdf.py): the template as pieces, and
      what a value can change of the page; [Reports] (reports.py): the CSV
      export, read back.
    - [AutoLabel], [AutoLabelFacts] (auto_label.py, training_balance.py,
      auto_label_review.py): eligibility, two-model agreement, staging, merging,
      balancing. [Scripts], [LabelBenchmark] (trim_ddos_class.py,
      label_from_benchmark.py): the offline balance, equivalent to the
      dashboard's, and benchmark labels.
    - [TrainData], [TrainRun] (train.py, train_second_model.py,
      train_isolation_forest.py), [ThresholdBench] with its tables in
      [ThresholdReport] (benchmark_fixed_threshold.py):
      cleaning, sessions, folds, the sweeps, the models saved, and the benchmark
      against a fixed threshold. [TrainFacts]: folds are fair and the sweep is
      well defined; [TrainPick]: what is picked; [TrainChecks], [TrainDemo]:
      where programs that say they do the same agree and where they differ.
    - [Calibrate], [CalibrateFacts] (calibrate.py): journal parsing, floors, the
      patch of the service unit, the sampling loop and the clean-up.
      [CalibrateReport], [CalibrateReportFacts]: the table it prints, which the
      benchmark reads back.
    - [BenchTime], [BenchData], [BenchRun], [BenchFacts]
      (analyze_live_benchmark.py): phases, journal lines, measurements, one run
      and the comparison of runs. Timestamps compared as strings are in order of
      time; slices, running totals and counters add up. [BenchReport],
      [BenchReportFacts]: what it prints of a run and of a session.

    ** How components meet

    [Receiver.process_window] calls [Enforcement], [Capture], [Alerts], [Latency]
    and [Playbooks] on one [World]; the playbook stages call [Enforcement] and
    [Alerts]; the routes of [Api] write the JSON files that [Enforcement] and
    [Config] read, and [AlertSend] empties the queue [Alerts] fills. [AutoLabel]
    rewrites the files [Capture] appends to, under the same lock. [StageMain]
    migrates the file by [Schema], restores by [Enforcement] and [Storage], and
    serves by [Startup]; [ReportPdf] composes [ReportData] and [ReportText];
    [BenchData] parses what [CalibrateReport] prints. So a theorem
    about the whole loop ([receiver_protects], [receiver_invariants]) is proved
    from one preservation lemma per operation of the components it calls, and
    [System] composes [Receiver] with every route that changes state, by the same
    lemmas, over lists of operations.

    ** Kinds of theorems

    Safety and invariants: [receiver_protects], [protected_while_listed], [tiers_need_hysteresis],
    [receiver_invariants], [incidents_kept], [gate_sound],
    [account_changes_authorised], [credentials_hidden], [stored_playbooks_valid],
    [routes_gated], [start_is_ordered], [folds_fair], [bench_predictions_held_out],
    [report_markup_fixed].
    Functional behaviour on every branch: [overrides_spec], [window_counts],
    [alerts_follow_edges], [routes_reached], [restart_names_attackers], [labeling_sound],
    [pick_depth_spec], [contamination_spec], [session_covers_runs],
    [label_run_written], [unit_patch], [phases_spec], [files_distinct],
    [load_settings_ok], [interfaces_listed], [promisc_bit].
    Refinement: [capture_refines_log], [advance_runs_exact]. Equivalence: [trim_scripts_agree],
    [sessions_agree], [frames_independent_of_chunking]. Round trips:
    [unpack_pack], [decode_ip_parses], [export_reads_back], [report_read_back].
    Termination and liveness:
    [collect_terminates], [ddos_window_handled], [every_run_completes],
    [worker_delivers]. Errors: [receiver_survives], [benchmark_is_printed], and the defects found, each shown by a theorem:
    [quoted_threshold_stops_engine], [quoted_tier_stops_runs],
    [spelling_defeats_whitelist], [failed_copy_strands],
    [null_entropy_breaks_export], [nan_floor_disables_tier2],
    [whitelist_add_unsaved], [scope_id_unchecked], [debug_log_left],
    [new_year_lines_lost], [staged_row_lost], [trim_only_loses_appended],
    [blocked_alert_for_whitelisted], [two_label_report_crashes],
    [stranded_start_names_nobody], [bench_depth_differs], [bench_rows_differ],
    [bench_contamination_differs], [nan_row_splits_session],
    [one_benign_class_caps_differ], [schema_without_session].

    ** Bounds and fuel

    Loops over lists are structural. Fuel appears in [Wire.fill] (a
    frame's length), [Wire.serve] and [Wire.frames_of] (one unit per frame; the
    framing theorem takes enough for the whole stream), in [Auth.replace_from]
    (the length of the text), in [Calibrate.collect_loop] ([collect_terminates] gives the
    number of rounds from the clock), in [AlertSend.run_alert_worker] (one unit
    per queued alert; the worker itself never ends), in [BenchReport.entries_in]
    (the length of the text and one) and in [PyTime.find_year] (the last year
    Python has). Integers of the program are Python's; the widths
    that matter are the 64 bits of a double and the bytes of an address, kept
    exactly. Text is bytes: a length is a number of characters for ASCII.

    ** Parameters

    The trained models and numpy's mean, bcrypt, the secrets module, PyYAML,
    requests and smtplib (one oracle per attempt), SQLite's AVG and the order of
    its GROUP BY, the mode SQLite gives its side files, math.log10, the shuffle of
    the balance, and the builtin sum of floats, which changed in Python 3.12. For
    training: the learners of scikit-learn, [resample], [classification_report],
    pandas' [read_csv], [sort_values], [sample] and the mean of a column. For the
    PDF: the template's own text, markupsafe's escaping, WeasyPrint. For the
    routes: how Starlette matches a path (class [Routes.Router], with an instance).
    For the interfaces: the files of /sys, the socket and the ioctl.

    ** Not modelled

    - The printed text of the training programs, the lines the threshold benchmark
      prints during its sweeps and calibrate.py between its steps: they decide
      nothing and no program reads them.
    - joblib.dump and the layout WeasyPrint makes.
    - The framework glue of stage2.py (uvicorn, the headers of static files), socket
      set-up, logging beyond its level and file, argparse beyond the parsed
      arguments.
    - Threads: each critical section is one step of the model, so interleaving
      within one is not considered. Where two processes meet at a file (the
      receiver and the labeler), the interleaving is explicit in the theorems. *)

From Stdlib Require Export ZArith Lia Bool Ascii String.
From stdpp Require Export base gmap strings list fin_maps sorting.

#[export] Set Default Proof Using "Type*".

Declare Scope flod_scope.
Delimit Scope flod_scope with flod.
#[global] Open Scope flod_scope.

(** ** Python exceptions and results

    Exceptions are kept by class; their messages are not modelled, except
    for the status code of an [HTTPException] and the code of a [SystemExit]. *)

Inductive exn : Type :=
  | OSError
  | FileNotFoundError
  | TypeError
  | KeyError
  | IndexError
  | ValueError
  | AttributeError
  | OverflowError
  | SqliteError
  | IntegrityError
  | JSONDecodeError
  | DefinitionError
  | PermissionError
  | ModelError
  | ZeroDivisionError
  | EOFError
  | SystemExit (code : Z)
  | HTTPException (status : Z).

Inductive res (A : Type) : Type :=
  | Ok (a : A)
  | Exn (e : exn).
Arguments Ok {A} a.
Arguments Exn {A} e.

#[global] Instance exn_eq_dec : EqDecision exn.
Proof. solve_decision. Defined.

#[global] Instance res_eq_dec `{EqDecision A} : EqDecision (res A).
Proof. solve_decision. Defined.

(** The pure exception monad. *)
#[global] Instance res_ret : MRet res := @Ok.
#[global] Instance res_bind : MBind res := λ A B f m,
  match m with Ok a => f a | Exn e => Exn e end.

Definition res_map {A B} (f : A → B) (r : res A) : res B := match r with Ok a => Ok (f a) | Exn e => Exn e end.

(** A list comprehension whose body may raise. *)
Fixpoint map_res {A B} (f : A → res B) (l : list A) : res (list B) :=
  match l with [] => Ok [] | x :: l' => y ← f x; ys ← map_res f l'; Ok (y :: ys) end.

(** ** Stateful code: a Python call maps a world to a result and a world

    Effects performed before an exception is raised persist, as they do in
    Python. *)

Definition M (W A : Type) : Type := W → res A * W.

#[global] Instance M_ret {W} : MRet (M W) := λ A a w, (Ok a, w).
#[global] Instance M_bind {W} : MBind (M W) := λ A B f m w,
  match m w with
  | (Ok a, w') => f a w'
  | (Exn e, w') => (Exn e, w')
  end.

Definition raise {W A} (e : exn) : M W A := λ w, (Exn e, w).
Definition lift {W A} (r : res A) : M W A := λ w, (r, w).
Definition gets {W A} (f : W → A) : M W A := λ w, (Ok (f w), w).
Definition modify {W} (f : W → W) : M W unit := λ w, (Ok tt, f w).

(** [try: m except ...: h e], where [h] returns [None] for an exception the
    clause does not name. *)
Definition try_except {W A} (m : M W A) (h : exn → option (M W A)) : M W A := λ w,
  match m w with
  | (Ok a, w') => (Ok a, w')
  | (Exn e, w') => match h e with Some k => k w' | None => (Exn e, w') end
  end.

(** [try: m except Exception: k]. *)
Definition try_all {W A} (m : M W A) (k : M W A) : M W A :=
  try_except m (λ _, Some k).

(** [try: m finally: f], where [f] itself does not raise. *)
Definition try_finally {W A} (m : M W A) (f : W → W) : M W A := λ w,
  match m w with (r, w') => (r, f w') end.

(** [for x in l: body x]; [continue] is a return of the body. *)
Fixpoint for_each {W A} (l : list A) (body : A → M W unit) : M W unit :=
  match l with
  | [] => mret tt
  | x :: l' => body x ≫= λ _, for_each l' body
  end.

Definition when {W} (b : bool) (m : M W unit) : M W unit :=
  if b then m else mret tt.

(** ** Invariants of stateful code

    [pres I m]: running [m] from a world satisfying [I] ends in a world
    satisfying [I], whether it returns or raises. *)

Definition pres {W A} (I : W → Prop) (m : M W A) : Prop :=
  ∀ w, I w → I (m w).2.

(** [triple P m Q]: from [P], the result and the final world satisfy [Q]. *)
Definition triple {W A} (P : W → Prop) (m : M W A) (Q : res A → W → Prop) : Prop :=
  ∀ w, P w → Q (m w).1 (m w).2.

Create HintDb pres.
Create HintDb flod.

Section pres_rules.
Context {W : Type} (I : W → Prop).

Lemma pres_ret {A} (a : A) : pres I (mret a).
Proof. by intros w. Qed.

Lemma pres_raise {A} e : pres I (raise (A:=A) e).
Proof. by intros w. Qed.

Lemma pres_lift {A} (r : res A) : pres I (lift r).
Proof. by intros w. Qed.

Lemma pres_gets {A} (f : W → A) : pres I (gets f).
Proof. by intros w. Qed.

Lemma pres_modify f : (∀ w, I w → I (f w)) → pres I (modify f).
Proof. intros H w. apply H. Qed.

Lemma pres_bind {A B} (m : M W A) (k : A → M W B) :
  pres I m → (∀ a, pres I (k a)) → pres I (m ≫= k).
Proof.
  intros Hm Hk w Hw. unfold mbind, M_bind. specialize (Hm w Hw).
  destruct (m w) as [[a|e] w'] eqn:E; simpl in *; [by apply Hk|done].
Qed.

Lemma pres_lift_ok {A B} (a : A) (k : A → M W B) : pres I (k a) → pres I (lift (Ok a) ≫= k).
Proof. done. Qed.

Lemma pres_try_except {A} (m : M W A) h :
  pres I m → (∀ e k, h e = Some k → pres I k) → pres I (try_except m h).
Proof.
  intros Hm Hh w Hw. unfold try_except. specialize (Hm w Hw).
  destruct (m w) as [[a|e] w'] eqn:E; simpl in *; [done|].
  destruct (h e) as [k|] eqn:Hk; [by eapply Hh|done].
Qed.

Lemma pres_try_all {A} (m k : M W A) : pres I m → pres I k → pres I (try_all m k).
Proof. intros Hm Hk. apply pres_try_except; [done|]. by intros e k' [= <-]. Qed.

Lemma pres_try_finally {A} (m : M W A) f :
  pres I m → (∀ w, I w → I (f w)) → pres I (try_finally m f).
Proof.
  intros Hm Hf w Hw. unfold try_finally. specialize (Hm w Hw).
  destruct (m w) as [r w'] eqn:E; simpl in *. by apply Hf.
Qed.

Lemma pres_for_each {A} (l : list A) body :
  (∀ x, x ∈ l → pres I (body x)) → pres I (for_each l body).
Proof.
  induction l as [|x l IH]; intros H; [apply pres_ret|].
  apply pres_bind; [apply H; left|intros _]. apply IH. intros y Hy. apply H. by right.
Qed.

Lemma pres_when b m : pres I m → pres I (when b m).
Proof. destruct b; [done|intros _; apply pres_ret]. Qed.

Lemma pres_if {A} (b : bool) (m1 m2 : M W A) :
  pres I m1 → pres I m2 → pres I (if b then m1 else m2).
Proof. by destruct b. Qed.
End pres_rules.

(** [goes I I' m]: from [I], running [m] ends in [I'], a weakening of [I]
    reached by the last effect of [m]. *)
Definition goes {W A} (I I' : W → Prop) (m : M W A) : Prop := ∀ w, I w → I' (m w).2.

Section goes_rules.
Context {W : Type} (I I' : W → Prop) (Hweak : ∀ w, I w → I' w).

Lemma goes_pres {A} (m : M W A) : pres I m → goes I I' m.
Proof using Hweak. intros Hm w Hw. by apply Hweak, Hm. Qed.

Lemma goes_bind {A B} (m : M W A) (k : A → M W B) :
  pres I m → (∀ a, goes I I' (k a)) → goes I I' (m ≫= k).
Proof using Hweak.
  intros Hm Hk w Hw. unfold mbind, M_bind. specialize (Hm w Hw).
  destruct (m w) as [[a|e] w'] eqn:E; simpl in *; [by apply Hk|by apply Hweak].
Qed.
End goes_rules.

(** A loop stops after some prefix of its list, with the invariant indexed by
    what was processed. *)
Lemma for_each_prefix {W A} (J : list A → W → Prop) (l : list A) body w :
  J [] w →
  (∀ done x rest, l = done ++ x :: rest → goes (J done) (J (done ++ [x])) (body x)) →
  ∃ done, done `prefix_of` l ∧ J done (for_each l body w).2.
Proof.
  intros H0 Hstep.
  assert (Hgen : ∀ rest done w', l = done ++ rest → J done w' →
                 ∃ done', done' `prefix_of` l ∧ J done' (for_each rest body w').2).
  { induction rest as [|x rest IH]; intros done w' Hl HJ; simpl.
    - exists done. split; [by exists []|done].
    - unfold mbind, M_bind. specialize (Hstep done x rest Hl w' HJ).
      assert (Hl' : l = (done ++ [x]) ++ rest) by by rewrite <-app_assoc.
      destruct (body x w') as [[[]|e] w'']; simpl in *; [by apply (IH (done ++ [x]))|].
      exists (done ++ [x]). split; [by exists rest|done]. }
  by apply (Hgen l []).
Qed.

(** [runs m w P]: [m] returns from [w], and the value and world satisfy [P]. *)
Definition runs {W A} (m : M W A) (w : W) (P : A → W → Prop) : Prop :=
  ∃ a w', m w = (Ok a, w') ∧ P a w'.

Section runs_rules.
Context {W : Type}.

Lemma runs_ret {A} (a : A) (w : W) (P : A → W → Prop) : P a w → runs (mret a) w P.
Proof. intros H. by exists a, w. Qed.

Lemma runs_bind {A B} (m : M W A) (k : A → M W B) w (P : B → W → Prop) :
  runs m w (λ a w', runs (k a) w' P) → runs (m ≫= k) w P.
Proof.
  intros (a & w1 & Hm & b & w2 & Hk & HP). exists b, w2. split; [|done].
  unfold mbind, M_bind. by rewrite Hm.
Qed.

Lemma runs_lift {A} (r : res A) a w (P : A → W → Prop) : r = Ok a → P a w → runs (lift r) w P.
Proof. intros -> H. by exists a, w. Qed.

Lemma runs_gets {A} (f : W → A) w (P : A → W → Prop) : P (f w) w → runs (gets f) w P.
Proof. intros H. by exists (f w), w. Qed.

Lemma runs_modify f (w : W) (P : unit → W → Prop) : P tt (f w) → runs (modify f) w P.
Proof. intros H. by exists tt, (f w). Qed.

Lemma runs_impl {A} (m : M W A) w (P Q : A → W → Prop) :
  runs m w P → (∀ a w', P a w' → Q a w') → runs m w Q.
Proof. intros (a & w' & Hm & HP) HQ. exists a, w'. auto. Qed.

(** What is preserved by [m] also holds where it returns. *)
Lemma runs_pres {A} (I : W → Prop) (m : M W A) w (P : A → W → Prop) :
  pres I m → I w → runs m w P → runs m w (λ a w', P a w' ∧ I w').
Proof.
  intros Hp Hw (a & w' & Hm & HP). exists a, w'. split_and!; try done.
  specialize (Hp w Hw). by rewrite Hm in Hp.
Qed.
End runs_rules.

#[export] Hint Resolve pres_ret pres_raise pres_lift pres_gets pres_bind
  pres_try_all pres_for_each pres_when : pres.

(** Walk down a program text, leaving the goals about state updates. *)
Ltac pres_step :=
  match goal with
  | |- pres _ (mret _) => apply pres_ret
  | |- pres _ (raise _) => apply pres_raise
  | |- pres _ (lift _) => apply pres_lift
  | |- pres _ (gets _) => apply pres_gets
  | |- pres _ (_ ≫= _) => apply pres_bind
  | |- pres _ (when _ _) => apply pres_when
  | |- pres _ (try_all _ _) => apply pres_try_all
  | |- pres _ (try_finally _ _) => apply pres_try_finally
  | |- pres _ (for_each _ _) => apply pres_for_each
  | |- pres _ (if _ then _ else _) => apply pres_if
  | |- pres _ (match ?x with _ => _ end) => destruct x
  | |- pres _ (let '_ := ?x in _) => destruct x
  | |- ∀ _, _ => intro
  end.
Ltac pres_auto := repeat first [ assumption | solve [eauto 2 with pres] | pres_step ].

(** ** Ordered dictionaries

    Python dictionaries iterate in insertion order; assigning to an existing
    key keeps its position. *)

Section dict.
Context {V : Type}.

Fixpoint dict_get (k : string) (d : list (string * V)) : option V :=
  match d with
  | [] => None
  | (k', v) :: d' => if decide (k = k') then Some v else dict_get k d'
  end.

Fixpoint dict_set (k : string) (v : V) (d : list (string * V)) : list (string * V) :=
  match d with
  | [] => [(k, v)]
  | (k', v') :: d' =>
      if decide (k = k') then (k', v) :: d' else (k', v') :: dict_set k v d'
  end.

Definition dict_pop (k : string) (d : list (string * V)) : list (string * V) :=
  filter (λ kv, kv.1 ≠ k) d.

(** [d.update(l)]: later bindings win. *)
Definition dict_update (d l : list (string * V)) : list (string * V) :=
  foldl (λ d kv, dict_set kv.1 kv.2 d) d l.

Lemma dict_get_set_eq k v d : dict_get k (dict_set k v d) = Some v.
Proof.
  induction d as [|[k' v'] d IH]; simpl; [by rewrite decide_True|].
  destruct (decide (k = k')); simpl; [by rewrite decide_True|by rewrite decide_False].
Qed.

Lemma dict_get_set_ne k k' v d : k ≠ k' → dict_get k' (dict_set k v d) = dict_get k' d.
Proof.
  intros Hne. induction d as [|[k2 v2] d IH]; simpl; [by rewrite decide_False|].
  destruct (decide (k = k2)); simpl; subst; [by rewrite !decide_False|].
  by destruct (decide (k' = k2)).
Qed.

Lemma dict_set_length k v d : length (dict_set k v d) ≤ S (length d).
Proof. induction d as [|[k' v'] d IH]; simpl; [lia|]. case_decide; simpl; lia. Qed.

Lemma dict_get_pop_eq k d : dict_get k (dict_pop k d) = None.
Proof.
  unfold dict_pop. induction d as [|[k' v'] d IH]; [done|].
  rewrite filter_cons; simpl. case_decide; simpl; [by rewrite decide_False|done].
Qed.

Lemma dict_get_pop_ne k k' d : k ≠ k' → dict_get k' (dict_pop k d) = dict_get k' d.
Proof.
  intros Hne. unfold dict_pop. induction d as [|[k2 v2] d IH]; [done|].
  rewrite filter_cons; simpl. case_decide; simpl; [by rewrite IH|].
  rewrite IH. destruct (decide (k' = k2)); [subst; naive_solver|done].
Qed.

Lemma dict_get_elem k v d : dict_get k d = Some v → (k, v) ∈ d.
Proof.
  induction d as [|[k' v'] d IH]; simpl; [done|].
  case_decide; [intros [= ->]; subst; left|intros; right; auto].
Qed.

Lemma dict_get_fst k d : is_Some (dict_get k d) ↔ k ∈ d.*1.
Proof.
  induction d as [|[k' v'] d IH]; simpl; [split; [by intros [? ?]|set_solver]|].
  case_decide; subst; [split; [left|eauto]|]. rewrite IH. set_solver.
Qed.

Lemma dict_set_keys k v d j : j ∈ (dict_set k v d).*1 ↔ j = k ∨ j ∈ d.*1.
Proof.
  rewrite <-!dict_get_fst. destruct (decide (k = j)) as [->|Hne].
  - rewrite dict_get_set_eq. naive_solver.
  - rewrite dict_get_set_ne by done. naive_solver.
Qed.

Lemma dict_set_NoDup k v d : NoDup d.*1 → NoDup (dict_set k v d).*1.
Proof.
  induction d as [|[k' v'] d IH]; simpl; intros Hd; [by apply NoDup_singleton|].
  apply NoDup_cons in Hd as [Hni Hd]. case_decide; simpl; apply NoDup_cons; split; auto.
  rewrite dict_set_keys. naive_solver.
Qed.

Lemma elem_dict_get k v d : NoDup d.*1 → (k, v) ∈ d → dict_get k d = Some v.
Proof.
  induction d as [|[k' v'] d IH]; simpl; intros Hnd Hin; [set_solver|].
  apply NoDup_cons in Hnd as [Hni Hnd]. apply elem_of_cons in Hin as [[= -> ->]|Hin].
  - by rewrite decide_True.
  - rewrite decide_False; [by apply IH|]. intros ->. apply Hni.
    apply list_elem_of_fmap. by exists (k', v).
Qed.
End dict.

(** ** Python's stable sort

    [py_sort lt] models [sorted(l, key=..)] for a strict order [lt] on the
    keys: a stable insertion sort. [sorted(.., reverse=True)] keeps the
    original order of equal elements too, and is [py_sort (flip lt)]. *)

Section py_sort.
Context {A : Type} (lt : A → A → bool).

Fixpoint py_insert (x : A) (l : list A) : list A :=
  match l with
  | [] => [x]
  | y :: l' => if lt y x then y :: py_insert x l' else x :: l
  end.

Definition py_sort (l : list A) : list A := foldr py_insert [] l.

Lemma py_insert_perm x l : py_insert x l ≡ₚ x :: l.
Proof.
  induction l as [|y l IH]; simpl; [done|]. destruct (lt y x); [|done].
  rewrite IH. by apply Permutation_swap.
Qed.

Lemma py_sort_perm l : py_sort l ≡ₚ l.
Proof. induction l as [|x l IH]; simpl; [done|]. by rewrite py_insert_perm, IH. Qed.

Lemma py_sort_length l : length (py_sort l) = length l.
Proof. apply Permutation_length, py_sort_perm. Qed.

(** Not-greater: the relation a sorted list satisfies between each element
    and everything after it. *)
Definition py_le (x y : A) : Prop := lt y x = false.

(** A domain on which [lt] is a strict weak order. *)
Context (D : A → Prop).
Hypothesis lt_asym : ∀ x y, D x → D y → lt x y = true → lt y x = false.
Hypothesis le_trans : ∀ x y z, D x → D y → D z → py_le x y → py_le y z → py_le x z.

Lemma py_insert_sorted x l :
  D x → Forall D l → StronglySorted py_le l → StronglySorted py_le (py_insert x l).
Proof using lt_asym le_trans.
  intros Dx. induction l as [|y l IH]; intros HD Hs; simpl.
  { repeat constructor. }
  apply Forall_cons in HD as [Dy HD]. apply StronglySorted_inv in Hs as [Hs Hy].
  destruct (lt y x) eqn:E.
  - constructor; [by apply IH|]. apply Forall_forall. intros z Hz.
    rewrite py_insert_perm in Hz. apply elem_of_cons in Hz as [->|Hz].
    + unfold py_le. by apply lt_asym.
    + by eapply Forall_forall in Hy.
  - constructor; [by constructor|]. constructor; [done|].
    apply Forall_forall. intros z Hz.
    apply (le_trans x y z); try done; [by eapply Forall_forall in HD|].
    by eapply Forall_forall in Hy.
Qed.

Lemma py_sort_sorted l : Forall D l → StronglySorted py_le (py_sort l).
Proof using lt_asym le_trans.
  induction l as [|x l IH]; intros HD; simpl; [constructor|].
  apply Forall_cons in HD as [Dx HD]. apply py_insert_sorted; auto.
  by rewrite py_sort_perm.
Qed.
End py_sort.

Lemma dict_set_app_new {V} k (v : V) d : k ∉ d.*1 → dict_set k v d = d ++ [(k, v)].
Proof.
  induction d as [|[k' v'] d IH]; simpl; intros Hk; [done|].
  rewrite decide_False by set_solver. rewrite IH; set_solver.
Qed.

(** ** Selection by a boolean *)

Lemma List_filter_sublist {A} (f : A → bool) l : List.filter f l `sublist_of` l.
Proof. induction l as [|x l IH]; simpl; [done|]. destruct (f x); by constructor. Qed.

Lemma elem_of_List_filter {A} (f : A → bool) (l : list A) x :
  x ∈ List.filter f l ↔ x ∈ l ∧ f x = true.
Proof. by rewrite !list_elem_of_In, filter_In. Qed.

Lemma filter_all {A} (p : A → bool) l : Forall (λ x, p x = true) l → List.filter p l = l.
Proof. induction 1 as [|x l Hx _ IH]; simpl; [done|]. by rewrite Hx, IH. Qed.

Lemma filter_fmap_eq {A B} (f : A → B) (p : B → bool) (q : A → bool) l :
  (∀ x, p (f x) = q x) → List.filter p (f <$> l) = f <$> List.filter q l.
Proof.
  intros H. induction l as [|x l IH]; [done|]. rewrite fmap_cons. cbn [List.filter]. rewrite H, IH.
  by destruct (q x).
Qed.

(** ** Integers *)

Lemma NoDup_Z_interval (l : list Z) (lo : Z) (n : nat) :
  NoDup l → Forall (λ z, (lo < z ≤ lo + Z.of_nat n)%Z) l → (length l ≤ n)%nat.
Proof.
  intros Hnd Hl.
  assert (Hin : (λ z, Z.to_nat (z - lo - 1)%Z) <$> l ⊆ seq 0 n).
  { intros k Hk. apply list_elem_of_fmap in Hk as (z & -> & Hz).
    eapply Forall_forall in Hl; [|done]. apply elem_of_seq. simpl in *. lia. }
  assert (Hnd' : NoDup ((λ z, Z.to_nat (z - lo - 1)%Z) <$> l)).
  { apply NoDup_fmap_2_strong; [|done]. intros x y Hx Hy Heq.
    eapply Forall_forall in Hl as Hlx; [|exact Hx]. eapply Forall_forall in Hl; [|exact Hy].
    simpl in *. lia. }
  rewrite <-(length_fmap (λ z, Z.to_nat (z - lo - 1)%Z)), <-(length_seq n 0).
  apply submseteq_length, NoDup_submseteq; done.
Qed.

Lemma foldl_min_le (l : list Z) b x : x ∈ b :: l → (foldl Z.min b l <= x)%Z.
Proof.
  revert b x. induction l as [|y l IH]; intros b x Hx; simpl.
  - apply list_elem_of_singleton in Hx. lia.
  - assert (foldl Z.min (Z.min b y) l <= Z.min b y)%Z by (apply IH; left).
    apply elem_of_cons in Hx as [->|[->|Hx]%elem_of_cons]; [lia|lia|]. apply IH. by right.
Qed.
Lemma foldl_max_ge (l : list Z) b x : x ∈ b :: l → (x <= foldl Z.max b l)%Z.
Proof.
  revert b x. induction l as [|y l IH]; intros b x Hx; simpl.
  - apply list_elem_of_singleton in Hx. lia.
  - assert (Z.max b y <= foldl Z.max (Z.max b y) l)%Z by (apply IH; left).
    apply elem_of_cons in Hx as [->|[->|Hx]%elem_of_cons]; [lia|lia|]. apply IH. by right.
Qed.

(** ** Strings *)

(** The addresses that stand for "no attributable source". *)
Definition is_sentinel (ip : string) : bool :=
  bool_decide (ip ∈ ["Unknown"; "0.0.0.0"; "::"]%string).

Notation "s1 ^^ s2" := (String.append s1 s2) (at level 60, right associativity) : flod_scope.
