(* ===== verification/PyNum.v ===== *)
(** * Python numbers

    Stage 2 computes with Python [int] (unbounded) and [float] (IEEE-754
    binary64). Floats are the Standard Library's executable [spec_float] at
    precision 53, so rounding, infinities and NaN are those of the program.
    Comparisons between the two kinds are exact, as CPython's are. An integer
    too large for a float, on which CPython raises [OverflowError], becomes an
    infinity here; no integer of the program comes near that size. *)

From S2P Require Import Prelude.
From stdpp Require Import pretty.
From Stdlib Require Import SpecFloat.

#[local] Open Scope Z_scope.

Abbreviation prec64 := 53%Z.
Abbreviation emax64 := 1024%Z.

Inductive num : Type :=
  | NInt (z : Z)
  | NFlt (f : spec_float).

#[global] Instance spec_float_eq_dec : EqDecision spec_float.
Proof. solve_decision. Defined.
#[global] Instance num_eq_dec : EqDecision num.
Proof. solve_decision. Defined.

Definition float_of_Z (z : Z) : spec_float := binary_normalize prec64 emax64 z 0 false.

Definition to_float (n : num) : spec_float :=
  match n with NInt z => float_of_Z z | NFlt f => f end.

(** A decimal literal [m * 10^-k] of the source, correctly rounded. *)
Definition float_of_frac (p q : Z) : spec_float :=
  match p with
  | Z0 => S754_zero false
  | _ =>
    let '(mz, ez, lz) := SFdiv_core_binary prec64 emax64 (Z.abs p) 0 q 0 in
    binary_round_aux prec64 emax64 (p <? 0) mz ez lz
  end.

Definition flt (p q : Z) : num := NFlt (float_of_frac p q).

(** ** Arithmetic *)

Definition nadd (a b : num) : num :=
  match a, b with
  | NInt x, NInt y => NInt (x + y)
  | _, _ => NFlt (SFadd prec64 emax64 (to_float a) (to_float b))
  end.

Definition nsub (a b : num) : num :=
  match a, b with
  | NInt x, NInt y => NInt (x - y)
  | _, _ => NFlt (SFsub prec64 emax64 (to_float a) (to_float b))
  end.

Definition nmul (a b : num) : num :=
  match a, b with
  | NInt x, NInt y => NInt (x * y)
  | _, _ => NFlt (SFmul prec64 emax64 (to_float a) (to_float b))
  end.

(** ** Exact order *)

Inductive ext : Type :=
  | ENaN
  | ENegInf
  | EFin (m e : Z)
  | EPosInf.

Definition ext_of (n : num) : ext :=
  match n with
  | NInt z => EFin z 0
  | NFlt S754_nan => ENaN
  | NFlt (S754_infinity s) => if s then ENegInf else EPosInf
  | NFlt (S754_zero _) => EFin 0 0
  | NFlt (S754_finite s m e) => EFin (cond_Zopp s (Zpos m)) e
  end.

(** [m * 2^e1] against [m2 * 2^e2], aligned to the smaller exponent. *)
Definition fin_cmp (m1 e1 m2 e2 : Z) : comparison :=
  let e := Z.min e1 e2 in
  Z.compare (m1 * 2 ^ (e1 - e)) (m2 * 2 ^ (e2 - e)).

Definition ext_cmp (a b : ext) : option comparison :=
  match a, b with
  | ENaN, _ | _, ENaN => None
  | ENegInf, ENegInf | EPosInf, EPosInf => Some Eq
  | ENegInf, _ | _, EPosInf => Some Lt
  | EPosInf, _ | _, ENegInf => Some Gt
  | EFin m1 e1, EFin m2 e2 => Some (fin_cmp m1 e1 m2 e2)
  end.

Definition ncmp (a b : num) : option comparison := ext_cmp (ext_of a) (ext_of b).

Definition nlt (a b : num) : bool :=
  match ncmp a b with Some Lt => true | _ => false end.
Definition nle (a b : num) : bool :=
  match ncmp a b with Some Lt | Some Eq => true | _ => false end.
Definition neq (a b : num) : bool :=
  match ncmp a b with Some Eq => true | _ => false end.
Abbreviation nge a b := (nle b a).
Abbreviation ngt a b := (nlt b a).

Definition is_nan (n : num) : bool :=
  match n with NFlt S754_nan => true | _ => false end.
Definition is_finite (n : num) : bool :=
  match ext_of n with EFin _ _ => true | _ => false end.

(** [max(a, b)] returns its first argument unless the second is greater;
    [min(a, b)] likewise. *)
Definition py_max (a b : num) : num := if nlt a b then b else a.
Definition py_min (a b : num) : num := if nlt b a then b else a.

(** [int(x)]: truncation towards zero. *)
Definition py_int (n : num) : res Z :=
  match n with
  | NInt z => Ok z
  | NFlt S754_nan => Exn ValueError
  | NFlt (S754_infinity _) => Exn OverflowError
  | NFlt (S754_zero _) => Ok 0
  | NFlt (S754_finite s m e) =>
      Ok (cond_Zopp s (if 0 <=? e then Zpos m * 2 ^ e else Zpos m / 2 ^ (- e)))
  end.

(** ** Formatting: [format(x, ".<d>f")] *)

(** [m * 2^e * 10^d] rounded to an integer, ties to even, [m] non-negative. *)
Definition round_dec (m e : Z) (d : nat) : Z :=
  let p := m * 10 ^ Z.of_nat d in
  if 0 <=? e then p * 2 ^ e
  else
    let q := p / 2 ^ (- e) in
    let r := p mod 2 ^ (- e) in
    match Z.compare (2 * r) (2 ^ (- e)) with
    | Lt => q
    | Gt => q + 1
    | Eq => if Z.even q then q else q + 1
    end.

Fixpoint zeros_to (k : nat) (s : string) : string :=
  match k with O => s | S k' => String "0" (zeros_to k' s) end.

Definition pad_left (d : nat) (s : string) : string := zeros_to (d - String.length s) s.

Definition fixed_digits (z : Z) (d : nat) : string :=
  match d with
  | O => pretty z
  | _ => pretty (z / 10 ^ Z.of_nat d) ^^ "." ^^ pad_left d (pretty (z mod 10 ^ Z.of_nat d))
  end.

Definition fmt_float (f : spec_float) (d : nat) : string :=
  match f with
  | S754_nan => "nan"
  | S754_infinity s => if s then "-inf" else "inf"
  | S754_zero s => (if s then "-" else "") ^^ fixed_digits 0 d
  | S754_finite s m e => (if s then "-" else "") ^^ fixed_digits (round_dec (Zpos m) e d) d
  end.

Definition fmt_fixed (n : num) (d : nat) : string := fmt_float (to_float n) d.

(** [format(x, "+.<d>f")]: an explicit sign on non-negative values. *)
Definition fmt_signed (n : num) (d : nat) : string :=
  match to_float n with
  | S754_nan => "+nan"
  | S754_infinity false | S754_zero false | S754_finite false _ _ => "+" ^^ fmt_fixed n d
  | _ => fmt_fixed n d
  end.

(** [format(x, ".<d>%")]. *)
Definition fmt_percent (n : num) (d : nat) : string :=
  fmt_float (SFmul prec64 emax64 (to_float n) (float_of_Z 100)) d ^^ "%".

(** ** Parsing: [float(s)] *)

Definition is_space (c : ascii) : bool :=
  let n := nat_of_ascii c in
  ((n =? 32) || ((9 <=? n) && (n <=? 13)) || ((28 <=? n) && (n <=? 31)))%nat.

Fixpoint drop_spaces (l : list ascii) : list ascii :=
  match l with c :: l' => if is_space c then drop_spaces l' else l | [] => [] end.

Definition strip_list (l : list ascii) : list ascii :=
  rev (drop_spaces (rev (drop_spaces l))).

Definition digit_of (c : ascii) : option Z :=
  let n := nat_of_ascii c in
  if ((48 <=? n) && (n <=? 57))%nat then Some (Z.of_nat n - 48) else None.

(** Digits with single underscores between them: value, count, rest. *)
Fixpoint take_digits (acc : Z) (k : nat) (l : list ascii) : Z * nat * list ascii :=
  match l with
  | [] => (acc, k, [])
  | c :: l' =>
      match digit_of c with
      | Some d => take_digits (acc * 10 + d) (S k) l'
      | None =>
          match k, c, l' with
          | S _, "_"%char, c2 :: l2 =>
              match digit_of c2 with
              | Some d => take_digits (acc * 10 + d) (S k) l2
              | None => (acc, k, l)
              end
          | _, _, _ => (acc, k, l)
          end
      end
  end.

Definition lower (c : ascii) : ascii :=
  let n := nat_of_ascii c in
  if ((65 <=? n) && (n <=? 90))%nat then ascii_of_nat (n + 32) else c.

Definition take_sign (l : list ascii) : bool * list ascii :=
  match l with "-"%char :: l' => (true, l') | "+"%char :: l' => (false, l') | _ => (false, l) end.

Definition scale10 (s : bool) (m k : Z) : spec_float :=
  match m with
  | Z0 => S754_zero s
  | _ => if 0 <=? k then float_of_Z (cond_Zopp s (m * 10 ^ k))
         else float_of_frac (cond_Zopp s m) (10 ^ (- k))
  end.

Definition parse_exponent (l : list ascii) : option Z :=
  match l with
  | [] => Some 0
  | c :: l' =>
      if bool_decide (lower c = "e"%char) then
        let '(s, l2) := take_sign l' in
        match take_digits 0 0 l2 with
        | (e, S _, []) => Some (cond_Zopp s e)
        | _ => None
        end
      else None
  end.

Definition parse_decimal (s : bool) (l : list ascii) : option spec_float :=
  let '(ip, nip, l1) := take_digits 0 0 l in
  let '(m, nf, l2) :=
    match l1 with
    | "."%char :: l1' => match take_digits ip 0 l1' with (m, nf, l2) => (m, nf, l2) end
    | _ => (ip, 0%nat, l1)
    end in
  if ((nip =? 0) && (nf =? 0))%nat then None
  else e ← parse_exponent l2; Some (scale10 s m (e - Z.of_nat nf)).

Definition float_of_string (str : string) : option spec_float :=
  let '(s, l) := take_sign (strip_list (list_ascii_of_string str)) in
  let low := string_of_list_ascii (lower <$> l) in
  if bool_decide (low = "inf" \/ low = "infinity")%string then Some (S754_infinity s)
  else if bool_decide (low = "nan")%string then Some S754_nan
  else parse_decimal s l.

(** ** The order is a strict weak order away from NaN *)

Lemma fin_cmp_at e m1 e1 m2 e2 :
  e ≤ e1 → e ≤ e2 → fin_cmp m1 e1 m2 e2 = Z.compare (m1 * 2 ^ (e1 - e)) (m2 * 2 ^ (e2 - e)).
Proof.
  intros H1 H2. unfold fin_cmp. set (e0 := Z.min e1 e2).
  assert (Hs : ∀ x, e0 ≤ x → 2 ^ (x - e) = 2 ^ (x - e0) * 2 ^ (e0 - e)).
  { intros x Hx. rewrite <-Z.pow_add_r by lia. f_equal. lia. }
  rewrite (Hs e1), (Hs e2) by lia. rewrite !Z.mul_assoc.
  assert (0 < 2 ^ (e0 - e)) by (apply Z.pow_pos_nonneg; lia).
  set (a := m1 * _). set (b := m2 * _).
  destruct (Z.compare_spec a b) as [->|?|?]; symmetry.
  - apply Z.compare_eq_iff. done.
  - apply Z.compare_lt_iff. nia.
  - apply Z.compare_gt_iff. nia.
Qed.

(** A common exponent turns two or three comparisons into integer ones. *)
Definition fin_key (e m e1 : Z) : Z := m * 2 ^ (e1 - e).

Inductive ord_key : Type := KNeg | KFin (z : Z) | KPos.

Definition okey (e : Z) (x : ext) : option ord_key :=
  match x with
  | ENaN => None
  | ENegInf => Some KNeg
  | EFin m e1 => Some (KFin (fin_key e m e1))
  | EPosInf => Some KPos
  end.

Definition kcmp (a b : ord_key) : comparison :=
  match a, b with
  | KNeg, KNeg | KPos, KPos => Eq
  | KNeg, _ | _, KPos => Lt
  | KPos, _ | _, KNeg => Gt
  | KFin x, KFin y => Z.compare x y
  end.

Definition ext_exp (x : ext) : Z := match x with EFin _ e => e | _ => 0 end.

Lemma ext_cmp_key e x y :
  e ≤ ext_exp x → e ≤ ext_exp y →
  ext_cmp x y = match okey e x, okey e y with Some a, Some b => Some (kcmp a b) | _, _ => None end.
Proof.
  destruct x, y; simpl; intros; try done. f_equal. unfold fin_key. by apply fin_cmp_at.
Qed.

Lemma ncmp_key3 a b c :
  ∃ ka kb kc,
    (is_nan a = false → ∃ k, ka = Some k) ∧ (is_nan b = false → ∃ k, kb = Some k) ∧
    (is_nan c = false → ∃ k, kc = Some k) ∧
    let cmp x y := match x, y with Some u, Some v => Some (kcmp u v) | _, _ => None end in
    ncmp a b = cmp ka kb ∧ ncmp b a = cmp kb ka ∧ ncmp b c = cmp kb kc ∧
    ncmp c b = cmp kc kb ∧ ncmp a c = cmp ka kc ∧ ncmp c a = cmp kc ka ∧ ncmp a a = cmp ka ka.
Proof.
  set (e := Z.min (ext_exp (ext_of a)) (Z.min (ext_exp (ext_of b)) (ext_exp (ext_of c)))).
  exists (okey e (ext_of a)), (okey e (ext_of b)), (okey e (ext_of c)).
  assert (Hn : ∀ n, is_nan n = false → ∃ k, okey e (ext_of n) = Some k).
  { intros [z|[s|[]| |s m e']]; simpl; eauto; done. }
  cbv zeta. split_and!; auto; unfold ncmp; apply ext_cmp_key; lia.
Qed.

Ltac num_order a b c :=
  let ka := fresh "ka" in let kb := fresh "kb" in let kc := fresh "kc" in
  let H := fresh "H" in
  destruct (ncmp_key3 a b c) as (ka & kb & kc & ? & ? & ? & H); simpl in H;
  destruct_and! H; unfold nlt, nle, neq in *;
  repeat match goal with E : ncmp _ _ = _ |- _ => rewrite ?E in *; clear E end.

Ltac num_cases :=
  repeat match goal with
  | H : is_nan ?x = false → _, H' : is_nan ?x = false |- _ =>
      let k := fresh "k" in destruct (H H') as [k ->]; clear H
  | k : option ord_key |- _ => destruct k as [[|?|]|]
  | k : ord_key |- _ => destruct k as [|?|]
  end; simpl in *;
  repeat match goal with
  | |- context [Z.compare ?x ?y] => destruct (Z.compare_spec x y)
  | H : context [Z.compare ?x ?y] |- _ => destruct (Z.compare_spec x y)
  end; try done; try lia.

Lemma nlt_irrefl a : nlt a a = false.
Proof. num_order a a a. num_cases. Qed.

Lemma nlt_asym a b : nlt a b = true → nlt b a = false.
Proof. intros H. num_order a b b. num_cases. Qed.

Lemma nlt_trans a b c : nlt a b = true → nlt b c = true → nlt a c = true.
Proof. intros H1 H2. num_order a b c. num_cases. Qed.

Lemma nle_trans a b c : nle a b = true → nle b c = true → nle a c = true.
Proof. intros H1 H2. num_order a b c. num_cases. Qed.

Lemma nlt_nle_trans a b c : nlt a b = true → nle b c = true → nlt a c = true.
Proof. intros H1 H2. num_order a b c. num_cases. Qed.

Lemma nle_nlt_trans a b c : nle a b = true → nlt b c = true → nlt a c = true.
Proof. intros H1 H2. num_order a b c. num_cases. Qed.

Lemma nlt_nle a b : nlt a b = true → nle a b = true.
Proof. intros H. num_order a b b. num_cases. Qed.

Lemma nle_refl a : is_nan a = false → nle a a = true.
Proof. intros H. num_order a a a. num_cases. Qed.

(** The negation of [<] is [>=] exactly when neither side is NaN. *)
Lemma nlt_nge a b : is_nan a = false → is_nan b = false → nlt a b = negb (nle b a).
Proof. intros H1 H2. num_order a b b. num_cases. Qed.

Lemma nle_not_nan a b : nle a b = true → is_nan a = false ∧ is_nan b = false.
Proof.
  unfold nle, ncmp. destruct a as [z|[]], b as [z'|[]]; simpl; try done; by destruct s.
Qed.

Lemma nlt_not_nan a b : nlt a b = true → is_nan a = false ∧ is_nan b = false.
Proof. intros H%nlt_nle. by apply nle_not_nan. Qed.

(** [max(a, b)] is at least its first argument, even when [b] is NaN. *)
Lemma py_max_ge_l a b : is_nan a = false → nle a (py_max a b) = true.
Proof.
  intros Ha. unfold py_max. destruct (nlt a b) eqn:E; [by apply nlt_nle|by apply nle_refl].
Qed.

Lemma py_max_ge_r a b : is_nan a = false → is_nan b = false → nle b (py_max a b) = true.
Proof.
  intros Ha Hb. unfold py_max. destruct (nlt a b) eqn:E; [by apply nle_refl|].
  rewrite nlt_nge in E by done. by destruct (nle b a).
Qed.

Lemma py_max_nan_r a b : is_nan b = true → py_max a b = a.
Proof.
  unfold py_max. destruct (nlt a b) eqn:E; [|done].
  apply nlt_not_nan in E as [_ E]. by rewrite E.
Qed.

#[export] Hint Resolve nlt_nle py_max_ge_l : flod.
