(* ===== verification/PyStat.v ===== *)
(** * Division, rounding and the [statistics] module

    [math.fsum] and [statistics.pstdev] sum exactly and round once; so do the
    definitions here, on the dyadic value of each float. *)

From S2P Require Import Prelude PyNum.
From Stdlib Require Import SpecFloat.
#[local] Open Scope Z_scope.

Definition is_zero (n : num) : bool := neq n (NInt 0).

(** [a / b]: two integers are divided exactly and rounded once. *)
Definition ndiv (a b : num) : res num :=
  if is_zero b then Exn ZeroDivisionError
  else Ok (match a, b with
           | NInt x, NInt y => if y <? 0 then flt (- x) (- y) else flt x y
           | _, _ => NFlt (SFdiv prec64 emax64 (to_float a) (to_float b))
           end).

Definition nneg (a : num) : num := match a with NInt z => NInt (- z) | NFlt f => NFlt (SFopp f) end.
Definition nabs (a : num) : num := match a with NInt z => NInt (Z.abs z) | NFlt f => NFlt (SFabs f) end.

(** [math.floor(x)] and [math.ceil(x)]. *)
Definition nfloor (n : num) : res Z :=
  match ext_of n with
  | ENaN => Exn ValueError
  | ENegInf | EPosInf => Exn OverflowError
  | EFin m e => Ok (if 0 <=? e then m * 2 ^ e else m / 2 ^ (- e))
  end.
Definition nceil (n : num) : res Z :=
  match nfloor (nneg n) with Ok z => Ok (- z) | Exn e => Exn e end.

(** [int(x // d)] for a positive integer [d]. *)
Definition nfloordiv (n : num) (d : Z) : res Z :=
  match ext_of n with
  | EFin m e => Ok (if 0 <=? e then (m * 2 ^ e) / d else m / (d * 2 ^ (- e)))
  | _ => Exn ValueError
  end.

(** [round(x, d)] of a float, [d] at least one: the decimal [format] prints, read back. *)
Definition py_round (n : num) (d : nat) : num :=
  match to_float n with
  | S754_finite s m e => flt (cond_Zopp s (round_dec (Zpos m) e d)) (10 ^ Z.of_nat d)
  | f => NFlt f
  end.

(** ** Exact sums *)

(** The exponent every finite value of the list can be written with, and its
    mantissa there. *)
Definition low_exp (l : list num) : Z :=
  foldl (λ e x, match ext_of x with EFin _ e' => Z.min e e' | _ => e end) 0 l.
Definition mantissa (e : Z) (n : num) : Z :=
  match ext_of n with EFin m e' => m * 2 ^ (e' - e) | _ => 0 end.
Definition exact_sum (e : Z) (l : list num) : Z := foldl (λ s x, s + mantissa e x) 0 l.

Definition round_dyadic (m e : Z) : num := NFlt (binary_normalize prec64 emax64 m e false).

Definition fsum (l : list num) : res num :=
  if forallb is_finite l then Ok (round_dyadic (exact_sum (low_exp l) l) (low_exp l))
  else
    if existsb is_nan l then Ok (NFlt S754_nan)
    else if existsb (λ n, match ext_of n with EPosInf => true | _ => false end) l then
      if existsb (λ n, match ext_of n with ENegInf => true | _ => false end) l then Exn ValueError
      else Ok (NFlt (S754_infinity false))
    else Ok (NFlt (S754_infinity true)).

(** ** statistics *)

Definition len_num {A} (l : list A) : num := NInt (Z.of_nat (length l)).

Definition fmean (l : list num) : res num :=
  match l with [] => Exn ValueError | _ => s ← fsum l; ndiv s (len_num l) end.

Definition py_sorted (l : list num) : list num := py_sort nlt l.

Definition median (l : list num) : res num :=
  let s := py_sorted l in
  let n := length l in
  if (n =? 0)%nat then Exn ValueError
  else if Nat.odd n then match s !! (n / 2)%nat with Some x => Ok x | None => Exn IndexError end
  else match s !! (n / 2 - 1)%nat, s !! (n / 2)%nat with
       | Some x, Some y => ndiv (nadd x y) (NInt 2)
       | _, _ => Exn IndexError
       end.

(** [isqrt(n // m)] with its last bit set when the root is not exact. *)
Definition isqrt_odd (n m : Z) : Z :=
  let a := Z.sqrt (n / m) in if a * a * m =? n then a else Z.lor a 1.

Definition bit_length (z : Z) : Z := if z =? 0 then 0 else Z.log2 z + 1.

(** The square root of a fraction, correctly rounded. *)
Definition sqrt_of_frac (n m : Z) : num :=
  let q := (bit_length n - bit_length m - 109) / 2 in
  if 0 <=? q then flt (isqrt_odd n (m * 2 ^ (2 * q)) * 2 ^ q) 1
  else flt (isqrt_odd (n * 2 ^ (- (2 * q))) m) (2 ^ (- q)).

(** The population variance is [(N * sum of squares - square of the sum) / N^2]. *)
Definition pstdev (l : list num) : res num :=
  let e := low_exp l in
  let n := Z.of_nat (length l) in
  if n =? 0 then Exn ValueError
  else if negb (forallb is_finite l) then Exn AttributeError
  else
    let s := exact_sum e l in
    let ss := foldl (λ a x, a + mantissa e x * mantissa e x) 0 l in
    Ok (sqrt_of_frac (n * ss - s * s) (n * n * 2 ^ (- (2 * e)))).

(** ** Facts *)

Lemma positive_not_zero x : nlt (NInt 0) x = true → is_zero x = false.
Proof.
  intros Hlt. unfold is_zero. destruct (neq x (NInt 0)) eqn:Hz; [|done].
  assert (Hle : nle x (NInt 0) = true).
  { revert Hz. unfold neq, nle. by destruct (ncmp x (NInt 0)) as [[]|]. }
  pose proof (nle_nlt_trans _ _ _ Hle Hlt) as H. by rewrite nlt_irrefl in H.
Qed.

Lemma int_not_zero z : z ≠ 0 → is_zero (NInt z) = false.
Proof.
  intros Hz. unfold is_zero, neq, ncmp, ext_cmp, ext_of, fin_cmp. simpl. rewrite !Z.mul_1_r.
  by destruct (Z.compare_spec z 0).
Qed.

Lemma ndiv_positive a x : nlt (NInt 0) x = true → ∃ q, ndiv a x = Ok q.
Proof. intros H. unfold ndiv. rewrite (positive_not_zero x H). by eexists. Qed.


(** [max(l)] of a non-empty list, and [min(l)]. *)
Definition py_max_list (x : num) (l : list num) : num := foldl py_max x l.
Definition py_min_list (x : num) (l : list num) : num := foldl py_min x l.

Lemma py_max_is a b : py_max a b = a ∨ py_max a b = b.
Proof. unfold py_max. destruct (nlt a b); auto. Qed.

Lemma py_max_list_in x l : py_max_list x l ∈ x :: l.
Proof.
  unfold py_max_list. revert x. induction l as [|y l IH]; intros x; simpl; [left|].
  destruct (py_max_is x y) as [H|H]; pose proof (IH (py_max x y)) as Hi; rewrite H in Hi |- *; set_solver.
Qed.

(** Without NaN, the maximum is an upper bound. *)
Lemma py_max_list_ge x l y :
  Forall (λ n, is_nan n = false) (x :: l) → y ∈ x :: l → nle y (py_max_list x l) = true.
Proof.
  unfold py_max_list. revert x y. induction l as [|z l IH]; intros x y HF Hy; simpl.
  { apply list_elem_of_singleton in Hy as ->. apply nle_refl. by apply Forall_inv in HF. }
  apply Forall_cons in HF as [Hx HF]. pose proof HF as HF'. apply Forall_cons in HF' as [Hz HF'].
  assert (Hm : is_nan (py_max x z) = false) by (destruct (py_max_is x z) as [->| ->]; done).
  assert (HF2 : Forall (λ n, is_nan n = false) (py_max x z :: l)) by by constructor.
  apply elem_of_cons in Hy as [->|[->|Hy]%elem_of_cons].
  - eapply nle_trans; [by apply py_max_ge_l|]. apply IH; [done|left].
  - eapply nle_trans; [by apply (py_max_ge_r x)|]. apply IH; [done|left].
  - apply IH; [done|]. by right.
Qed.

(** ** Equality of numbers *)

Lemma neq_refl a : is_nan a = false → neq a a = true.
Proof. intros H. num_order a a a. num_cases. Qed.

Lemma neq_sym a b : neq a b = neq b a.
Proof. num_order a b b. num_cases. Qed.

Lemma neq_trans a b c : neq a b = true → neq b c = true → neq a c = true.
Proof. intros H1 H2. num_order a b c. num_cases. Qed.

Lemma neq_int x y : neq (NInt x) (NInt y) = (x =? y).
Proof.
  unfold neq, ncmp, ext_cmp, ext_of, fin_cmp. cbn. rewrite !Z.mul_1_r, Z.eqb_compare. by destruct (x ?= y).
Qed.

(** ** Where no NaN can come from *)

Lemma shr_1_nonneg r : 0 <= shr_m r → 0 <= shr_m (shr_1 r).
Proof. destruct r as [[|[p|p|]|p] ? ?]; simpl; lia. Qed.

Lemma iter_pos_nonneg p r : 0 <= shr_m r → 0 <= shr_m (iter_pos shr_1 p r).
Proof.
  revert r. induction p as [p IH|p IH|]; intros r Hr; cbn [iter_pos]; auto using shr_1_nonneg.
Qed.

Lemma shr_fexp_nonneg m e l : 0 <= m → 0 <= shr_m (shr_fexp prec64 emax64 m e l).1.
Proof.
  intros Hm. unfold shr_fexp, shr.
  assert (Hr : shr_m (shr_record_of_loc m l) = m) by by destruct l as [|[]].
  destruct (_ - e) as [|p|p]; cbn [fst]; [lia| |lia].
  apply iter_pos_nonneg. lia.
Qed.

Lemma round_aux_not_nan s m e l : 0 <= m → binary_round_aux prec64 emax64 s m e l ≠ S754_nan.
Proof.
  intros Hm. unfold binary_round_aux.
  pose proof (shr_fexp_nonneg m e l Hm) as H1. destruct (shr_fexp prec64 emax64 m e l) as [r1 e1]; cbn [fst] in H1.
  assert (H2 : 0 <= round_nearest_even (shr_m r1) (loc_of_shr_record r1)).
  { unfold round_nearest_even. destruct (loc_of_shr_record r1) as [|[]]; try lia. destruct (Z.even _); lia. }
  pose proof (shr_fexp_nonneg _ e1 loc_Exact H2) as H3.
  destruct (shr_fexp prec64 emax64 _ e1 loc_Exact) as [r2 e2]; cbn [fst] in H3.
  destruct (shr_m r2); [done| |lia]. by destruct (_ <=? _).
Qed.

Lemma normalize_not_nan m e s : binary_normalize prec64 emax64 m e s ≠ S754_nan.
Proof.
  destruct m as [|p|p]; cbn [binary_normalize]; [done| |]; unfold binary_round;
    match goal with |- context [shl_align ?m ?e ?f] => destruct (shl_align m e f) as [q e'] end; by apply round_aux_not_nan.
Qed.

Lemma not_nan_float f : f ≠ S754_nan → is_nan (NFlt f) = false.
Proof. by destruct f. Qed.

(** A quotient of counts is a number. *)
Lemma flt_not_nan p q : 0 <= p → 0 < q → is_nan (flt p q) = false.
Proof.
  intros Hp Hq. apply not_nan_float. unfold float_of_frac. destruct p as [|p|p]; [done| |lia].
  destruct (SFdiv_core_binary _ _ _ _ _ _) as [[m e] l] eqn:Hd. apply round_aux_not_nan.
  unfold SFdiv_core_binary in Hd.
  set (w := match _ - _ with 0 => _ | Z.pos _ => _ | Z.neg _ => 0 end) in Hd.
  assert (Hw : 0 <= w).
  { unfold w. destruct (_ - _); [lia| |lia]. apply Z.shiftl_nonneg. lia. }
  pose proof (Z_div_pos w q) as Hpos. unfold Z.div in Hpos.
  destruct (Z.div_eucl w q) as [q' r']. injection Hd as <- <- <-. apply Hpos; lia.
Qed.

(** Neither is the difference of two finite floats. *)
Lemma nsub_not_nan f g :
  is_finite (NFlt f) = true → is_finite (NFlt g) = true → is_nan (nsub (NFlt f) (NFlt g)) = false.
Proof.
  intros Hf Hg. apply not_nan_float. cbn [to_float].
  destruct f as [s|s| |s m e], g as [s'|s'| |s' m' e']; cbn [is_finite ext_of] in Hf, Hg;
    try (by destruct s); try (by destruct s'); cbn [SFsub]; try done.
  - by destruct s, s'.
  - apply normalize_not_nan.
Qed.

(** A share, one count of another that is no smaller, is finite. *)
Lemma digits2_pos_low p : 2 ^ (Zpos (digits2_pos p) - 1) <= Zpos p.
Proof.
  assert (Hs : ∀ q, Zpos (Pos.succ q) - 1 = Z.succ (Zpos q - 1)) by lia.
  induction p as [p IH|p IH|]; cbn [digits2_pos]; [..|done]; rewrite Hs, Z.pow_succ_r by lia; lia.
Qed.

Lemma digits2_pos_high p : Zpos p < 2 ^ Zpos (digits2_pos p).
Proof.
  assert (Hs : ∀ q, Zpos (Pos.succ q) = Z.succ (Zpos q)) by lia.
  induction p as [p IH|p IH|]; cbn [digits2_pos]; [..|done]; rewrite Hs, Z.pow_succ_r by lia; lia.
Qed.

Lemma Zdigits2_le m k : 0 <= m < 2 ^ k → 0 <= k → Zdigits2 m <= k.
Proof.
  intros [Hm Hlt] Hk. destruct m as [|p|p]; cbn [Zdigits2]; [lia| |lia].
  pose proof (digits2_pos_low p) as Hp. assert (Zpos (digits2_pos p) - 1 < k); [|lia].
  apply (Z.pow_lt_mono_r_iff 2); lia.
Qed.

Lemma shr_1_le r : 0 <= shr_m r → shr_m (shr_1 r) <= shr_m r.
Proof. destruct r as [[|[p|p|]|p] ? ?]; simpl; lia. Qed.

Lemma iter_pos_le p r : 0 <= shr_m r → shr_m (iter_pos shr_1 p r) <= shr_m r.
Proof.
  revert r. induction p as [p IH|p IH|]; intros r Hr; cbn [iter_pos].
  - pose proof (shr_1_nonneg r Hr) as H1. pose proof (shr_1_le r Hr).
    pose proof (iter_pos_nonneg p _ H1) as H2. pose proof (IH _ H1). pose proof (IH _ H2). lia.
  - pose proof (iter_pos_nonneg p _ Hr) as H2. pose proof (IH _ Hr). pose proof (IH _ H2). lia.
  - by apply shr_1_le.
Qed.

Lemma shr_fexp_le m e l : 0 <= m →
  shr_m (shr_fexp prec64 emax64 m e l).1 <= m ∧
  (shr_fexp prec64 emax64 m e l).2 = Z.max e (fexp prec64 emax64 (Zdigits2 m + e)).
Proof.
  intros Hm. unfold shr_fexp, shr.
  assert (Hr : shr_m (shr_record_of_loc m l) = m) by by destruct l as [|[]].
  destruct (_ - e) as [|p|p] eqn:He; cbn [fst snd]; [lia| |lia].
  split; [|lia]. etrans; [apply iter_pos_le|]; lia.
Qed.

Lemma fexp64 e : fexp prec64 emax64 e = Z.max (e - 53) (-1074).
Proof. unfold fexp, SpecFloat.emin. lia. Qed.

Lemma round_aux_finite m e l s :
  0 <= m <= 2 ^ (- e) → -1074 <= e <= -53 → is_finite (NFlt (binary_round_aux prec64 emax64 s m e l)) = true.
Proof.
  intros Hm He. unfold binary_round_aux.
  assert (Hd : Zdigits2 m <= 1 - e).
  { apply Zdigits2_le; [|lia]. replace (1 - e) with (Z.succ (- e)) by lia. rewrite Z.pow_succ_r by lia. lia. }
  pose proof (shr_fexp_nonneg m e l) as H0. pose proof (shr_fexp_le m e l) as H1.
  destruct (shr_fexp prec64 emax64 m e l) as [r1 e1]; cbn [fst snd] in *.
  destruct H1 as [H1 He1]; [lia|]. specialize (H0 ltac:(lia)). rewrite fexp64 in He1.
  set (m1 := round_nearest_even _ _).
  assert (Hm1 : 0 <= m1 <= m + 1).
  { unfold m1, round_nearest_even. destruct (loc_of_shr_record r1) as [|[]]; try lia. destruct (Z.even _); lia. }
  assert (Hd1 : Zdigits2 m1 <= 1 - e).
  { apply Zdigits2_le; [|lia]. replace (1 - e) with (Z.succ (- e)) by lia. rewrite Z.pow_succ_r by lia.
    assert (2 ^ 1 <= 2 ^ (- e)) by (apply Z.pow_le_mono_r; lia). lia. }
  pose proof (shr_fexp_nonneg m1 e1 loc_Exact) as H2. pose proof (shr_fexp_le m1 e1 loc_Exact) as H3.
  destruct (shr_fexp prec64 emax64 m1 e1 loc_Exact) as [r2 e2]; cbn [fst snd] in *.
  destruct H3 as [_ He2]; [lia|]. specialize (H2 ltac:(lia)). rewrite fexp64 in He2.
  destruct (shr_m r2); [done| |lia]. destruct (Z.leb_spec e2 (emax64 - prec64)); [done|lia].
Qed.

Lemma flt_ratio_finite p q : 0 <= p <= q → 0 < q → is_finite (flt p q) = true.
Proof.
  intros Hp Hq. unfold flt, float_of_frac. destruct p as [|p|p]; [done| |lia].
  unfold SFdiv_core_binary. change (Z.abs (Zpos p)) with (Zpos p). rewrite !Z.add_0_r, Z.sub_diag, fexp64.
  assert (Hd : Zdigits2 (Zpos p) <= Zdigits2 q).
  { destruct q as [|q|q]; [lia| |lia]. pose proof (digits2_pos_high q). apply Zdigits2_le; cbn [Zdigits2]; lia. }
  set (d := Zdigits2 (Zpos p) - Zdigits2 q) in *. assert (Hd0 : d <= 0) by (unfold d; lia). clearbody d.
  set (e := Z.min _ 0). assert (He : -1074 <= e <= -53) by (unfold e; lia). clearbody e.
  assert (Hs : 0 < 0 - e) by lia. destruct (0 - e) as [|s|s] eqn:Hse; [lia| |lia].
  assert (Hw : 0 <= Z.shiftl (Zpos p) (Zpos s) <= 2 ^ (- e) * q).
  { rewrite Z.shiftl_mul_pow2 by lia. replace (- e) with (Zpos s) by lia. nia. }
  assert (H1 : 0 <= Z.shiftl (Zpos p) (Zpos s) / q) by (apply Z.div_pos; lia).
  assert (H2 : Z.shiftl (Zpos p) (Zpos s) / q <= 2 ^ (- e)) by (apply Z.div_le_upper_bound; lia).
  unfold Z.div in H1, H2. destruct (Z.div_eucl _ _) as [m r]. apply round_aux_finite; lia.
Qed.
