(* ===== verification/PyStr.v ===== *)
(** * The string methods the program uses *)

From S2P Require Import Prelude PyNum.

(** [s.startswith(p)], [p in s]. *)
Fixpoint str_prefix (p s : string) : bool :=
  match p, s with
  | EmptyString, _ => true
  | String a p', String b s' => bool_decide (a = b) && str_prefix p' s'
  | _, _ => false
  end.

Fixpoint str_contains (p s : string) : bool :=
  str_prefix p s || match s with EmptyString => false | String _ s' => str_contains p s' end.

Fixpoint str_rev_acc (s acc : string) : string :=
  match s with EmptyString => acc | String c s' => str_rev_acc s' (String c acc) end.
Definition str_rev (s : string) : string := str_rev_acc s EmptyString.

(** [s.endswith(p)]. *)
Definition str_suffix (p s : string) : bool := str_prefix (str_rev p) (str_rev s).

(** [s.strip()]. *)
Definition str_strip (s : string) : string :=
  string_of_list_ascii (strip_list (list_ascii_of_string s)).

(** [s.split(c)]: every separator splits, so the result is never empty. *)
Fixpoint split_on (c : ascii) (cur : list ascii) (l : list ascii) : list string :=
  match l with
  | [] => [string_of_list_ascii (rev cur)]
  | x :: l' =>
      if bool_decide (x = c) then string_of_list_ascii (rev cur) :: split_on c [] l'
      else split_on c (x :: cur) l'
  end.
Definition str_split (c : ascii) (s : string) : list string :=
  split_on c [] (list_ascii_of_string s).

(** [s.split()]: runs of whitespace separate, no empty words. *)
Definition flush (cur : list ascii) : list string :=
  match cur with [] => [] | _ => [string_of_list_ascii (rev cur)] end.
Fixpoint split_ws (cur : list ascii) (l : list ascii) : list string :=
  match l with
  | [] => flush cur
  | x :: l' => if is_space x then flush cur ++ split_ws [] l' else split_ws (x :: cur) l'
  end.
Definition str_words (s : string) : list string := split_ws [] (list_ascii_of_string s).

(** [int(s)] in base ten. *)
Definition int_of_string (s : string) : res Z :=
  let '(neg, l) := take_sign (strip_list (list_ascii_of_string s)) in
  match take_digits 0 0 l with
  | (z, S _, []) => Ok (if neg then - z else z)%Z
  | _ => Exn ValueError
  end.

(** [float(s)]. *)
Definition parse_float (s : string) : res num :=
  match float_of_string s with Some f => Ok (NFlt f) | None => Exn ValueError end.

(** [s[:n]]. *)
Definition str_take (n : nat) (s : string) : string := String.substring 0 n s.

(** [str.upper] of ASCII text. *)
Definition upper_ascii (c : ascii) : ascii :=
  let n := nat_of_ascii c in if ((97 <=? n) && (n <=? 122))%nat then ascii_of_nat (n - 32) else c.
Definition upper (s : string) : string := string_of_list_ascii (upper_ascii <$> list_ascii_of_string s).

Definition newline : ascii := ascii_of_nat 10.

(** [s.splitlines()]: a line ends at LF, CR, CR LF or one of the other ASCII
    separators; the last one opens no empty line. *)
Definition is_line_end (c : ascii) : bool := bool_decide (nat_of_ascii c ∈ [10; 11; 12; 13; 28; 29; 30]).

Fixpoint lines_from (cur : list ascii) (after_cr : bool) (l : list ascii) : list string :=
  match l with
  | [] => match cur with [] => [] | _ => [string_of_list_ascii (rev cur)] end
  | c :: l' =>
      if after_cr && bool_decide (c = newline) then lines_from cur false l'
      else if is_line_end c then
        string_of_list_ascii (rev cur) :: lines_from [] (bool_decide (nat_of_ascii c = 13)) l'
      else lines_from (c :: cur) false l'
  end.
Definition splitlines (s : string) : list string := lines_from [] false (list_ascii_of_string s).

(** [s.rstrip("\n")]. *)
Fixpoint drop_newlines (l : list ascii) : list ascii :=
  match l with c :: l' => if bool_decide (c = newline) then drop_newlines l' else l | [] => [] end.
Definition rstrip_newline (s : string) : string :=
  string_of_list_ascii (rev (drop_newlines (rev (list_ascii_of_string s)))).

Lemma str_prefix_refl s : str_prefix s s = true.
Proof. induction s; simpl; [done|]. by rewrite bool_decide_eq_true_2. Qed.

Lemma str_prefix_app p s : str_prefix p (p ^^ s) = true.
Proof. induction p; simpl; [done|]. by rewrite bool_decide_eq_true_2. Qed.

Lemma str_prefix_spec p s : str_prefix p s = true ↔ ∃ t, s = p ^^ t.
Proof.
  split; [|intros [t ->]; apply str_prefix_app].
  revert s. induction p as [|a p IH]; intros s; simpl; [eauto|].
  destruct s as [|b s]; [done|]. rewrite andb_true_iff, bool_decide_eq_true.
  intros [-> [t ->]%IH]. by exists t.
Qed.

Lemma str_app_assoc a b c : (a ^^ b) ^^ c = a ^^ (b ^^ c).
Proof. induction a as [|x a IH]; [done|]. exact (f_equal (String x) IH). Qed.

Lemma str_app_nil a : a ^^ EmptyString = a.
Proof. induction a as [|x a IH]; [done|]. exact (f_equal (String x) IH). Qed.

Lemma length_app_str a b : String.length (a ^^ b) = (String.length a + String.length b)%nat.
Proof. induction a as [|c a IH]; [done|]. exact (f_equal S IH). Qed.

Lemma list_ascii_app s t :
  list_ascii_of_string (s ^^ t) = list_ascii_of_string s ++ list_ascii_of_string t.
Proof. induction s as [|a s IH]; simpl; [done|]. by rewrite IH. Qed.

(** Lines of a text file without their newline; a final newline ends the last line. *)
Definition file_lines (text : string) : list string :=
  match rev (str_split newline text) with
  | EmptyString :: ls => rev ls
  | ls => rev ls
  end.
