(* ===== verification/Regex.v ===== *)
(** * The regular expressions the program uses

    Every pattern of the program is an alternative of sequences of literals
    and repeated character classes. [match_toks] searches such a sequence the
    way [re] does, a greedy repetition from its longest candidate and a lazy
    one from its shortest; [match_sound] and [match_complete] tie it to the
    language of the sequence. Text is bytes, so [\d], [\w] and [\s] are their
    ASCII ranges. *)

From S2P Require Import Prelude PyNum PyStr.

(** ** Character classes *)

Definition ascii_in (lo hi c : ascii) : bool :=
  (nat_of_ascii lo <=? nat_of_ascii c)%nat && (nat_of_ascii c <=? nat_of_ascii hi)%nat.
Definition c_digit (c : ascii) : bool := ascii_in "0" "9" c.
Definition c_lower (c : ascii) : bool := ascii_in "a" "z" c.
Definition c_alpha (c : ascii) : bool := c_lower c || ascii_in "A" "Z" c.
Definition c_hex (c : ascii) : bool := c_digit c || ascii_in "a" "f" c || ascii_in "A" "F" c.
Definition c_one (l : list ascii) (c : ascii) : bool := bool_decide (c ∈ l).
Definition c_word (c : ascii) : bool := c_alpha c || c_digit c || c_one ["_"%char] c.
Definition c_space (c : ascii) : bool := is_space c.
Definition c_nonspace (c : ascii) : bool := negb (is_space c).
Definition c_not (l : list ascii) (c : ascii) : bool := negb (bool_decide (c ∈ l)).
(** [.], and the class [[-\d.]] of a printed number. *)
Definition c_any (c : ascii) : bool := c_not [newline] c.
Definition c_decimal (c : ascii) : bool := c_digit c || c_one ["."%char] c.
Definition c_number (c : ascii) : bool := c_decimal c || c_one ["-"%char] c.

(** ** Patterns *)

Inductive tok :=
  | TLit (s : string)
  | TRep (cls : ascii → bool) (lo : nat) (hi : option nat) (greedy captured : bool).

(** [c+], [(c+)], [(c+?)], [c*], [.*]. *)
Abbreviation plus c := (TRep c 1 None true false).
Abbreviation group c := (TRep c 1 None true true).
Abbreviation lazy_group c := (TRep c 1 None false true).
Abbreviation lazy c := (TRep c 1 None false false).
Abbreviation star c := (TRep c 0 None true false).
Abbreviation group_star c := (TRep c 0 None true true).

Fixpoint chop (n : nat) (s : string) : string * string :=
  match n, s with
  | S n', String c s' => let '(a, b) := chop n' s' in (String c a, b)
  | _, _ => (EmptyString, s)
  end.

Fixpoint span_len (cls : ascii → bool) (s : string) : nat :=
  match s with
  | String c s' => if cls c then S (span_len cls s') else 0
  | EmptyString => 0
  end.

(** The lengths a repetition may take, in the order they are tried. *)
Definition rep_lens (cls : ascii → bool) (lo : nat) (hi : option nat) (greedy : bool) (s : string) : list nat :=
  let most := match hi with Some h => Nat.min h (span_len cls s) | None => span_len cls s end in
  let up := seq lo (S most - lo) in
  if greedy then rev up else up.

Fixpoint first_some {A B} (f : A → option B) (l : list A) : option B :=
  match l with
  | [] => None
  | x :: l' => match f x with Some b => Some b | None => first_some f l' end
  end.

Fixpoint match_toks (ts : list tok) (s : string) : option (list string * string) :=
  match ts with
  | [] => Some ([], s)
  | TLit l :: ts' => if str_prefix l s then match_toks ts' (chop (String.length l) s).2 else None
  | TRep cls lo hi greedy captured :: ts' =>
      first_some (λ n,
        match match_toks ts' (chop n s).2 with
        | Some (caps, rest) => Some (if captured then (chop n s).1 :: caps else caps, rest)
        | None => None
        end) (rep_lens cls lo hi greedy s)
  end.

(** [re.match], [re.fullmatch] and [re.search], by their groups. *)
Definition re_match (ts : list tok) (s : string) : option (list string) := fst <$> match_toks ts s.

Definition re_fullmatch (ts : list tok) (s : string) : option (list string) :=
  match match_toks ts s with Some (caps, EmptyString) => Some caps | _ => None end.

Fixpoint re_search (ts : list tok) (s : string) : option (list string) :=
  match match_toks ts s with
  | Some (caps, _) => Some caps
  | None => match s with EmptyString => None | String _ s' => re_search ts s' end
  end.

(** [re.sub]: [m s] is the length of the match at the start of [s], if any;
    [skip] characters are still part of the last match. *)
Fixpoint sub_from (m : string → option nat) (repl : string) (skip : nat) (s : string) : string :=
  match s with
  | EmptyString => EmptyString
  | String c s' =>
      match skip with
      | S k => sub_from m repl k s'
      | O => match m s with
             | Some (S n) => repl ^^ sub_from m repl n s'
             | _ => String c (sub_from m repl 0 s')
             end
      end
  end.

Definition match_len (ts : list tok) (s : string) : option nat :=
  (λ r, String.length s - String.length (snd r)) <$> match_toks ts s.

Definition re_sub (ts : list tok) (repl s : string) : string := sub_from (match_len ts) repl 0 s.

(** [s.replace(p, repl)] for a non-empty [p]. *)
Definition str_replace (p repl s : string) : string := re_sub [TLit p] repl s.

(** ** The matcher and the language of a pattern *)

Definition class_run (cls : ascii → bool) (s : string) : Prop :=
  Forall (λ c, cls c = true) (list_ascii_of_string s).

Inductive in_lang : list tok → string → list string → Prop :=
  | in_nil : in_lang [] EmptyString []
  | in_lit l ts s caps : in_lang ts s caps → in_lang (TLit l :: ts) (l ^^ s) caps
  | in_rep cls lo hi greedy captured ts r s caps :
      class_run cls r → lo ≤ String.length r → (∀ h, hi = Some h → String.length r ≤ h) →
      in_lang ts s caps →
      in_lang (TRep cls lo hi greedy captured :: ts) (r ^^ s) (if captured then r :: caps else caps).

Lemma chop_app n s : (chop n s).1 ^^ (chop n s).2 = s.
Proof.
  revert s. induction n as [|n IH]; intros [|c s]; simpl; try done.
  specialize (IH s). destruct (chop n s) as [a b]. exact (f_equal (String c) IH).
Qed.

Lemma chop_length r s : chop (String.length r) (r ^^ s) = (r, s).
Proof. induction r as [|c r IH]; simpl; [by destruct s|]. by rewrite IH. Qed.

Lemma chop_span cls n s :
  n ≤ span_len cls s → class_run cls (chop n s).1 ∧ String.length (chop n s).1 = n.
Proof.
  revert s. induction n as [|n IH]; intros [|c s]; simpl; try by (intros; split; [constructor|lia]).
  destruct (cls c) eqn:Hc; [|lia]. intros Hn. destruct (IH s) as [H1 H2]; [lia|].
  destruct (chop n s) as [a b]. simpl in *. split; [by constructor|lia].
Qed.

Lemma span_run cls r s : class_run cls r → String.length r ≤ span_len cls (r ^^ s).
Proof.
  unfold class_run. induction r as [|c r IH]; simpl; intros H; [lia|].
  apply Forall_cons in H as [-> H]. apply IH in H. lia.
Qed.

Lemma first_some_spec {A B} (f : A → option B) l b :
  first_some f l = Some b → ∃ x, x ∈ l ∧ f x = Some b.
Proof.
  induction l as [|x l IH]; simpl; [done|]. destruct (f x) eqn:Hx.
  - intros [= <-]. exists x. set_solver.
  - intros H. destruct (IH H) as (y & ? & ?). exists y. set_solver.
Qed.

Lemma first_some_none {A B} (f : A → option B) l : first_some f l = None → ∀ x, x ∈ l → f x = None.
Proof.
  induction l as [|x l IH]; simpl; [set_solver|]. destruct (f x) eqn:Hx; [done|].
  intros H y [->|Hy]%elem_of_cons; auto.
Qed.

Lemma rep_lens_spec cls lo hi greedy s n :
  n ∈ rep_lens cls lo hi greedy s ↔ lo ≤ n ≤ span_len cls s ∧ (∀ h, hi = Some h → n ≤ h).
Proof.
  unfold rep_lens. assert (Hrev : ∀ l : list nat, n ∈ (if greedy then rev l else l) ↔ n ∈ l).
  { intros l. destruct greedy; [|done]. rewrite !list_elem_of_In. symmetry. apply in_rev. }
  rewrite Hrev, elem_of_seq. destruct hi as [h|]; split; naive_solver lia.
Qed.

(** What the matcher returns is a match. *)
Lemma match_sound ts s caps rest :
  match_toks ts s = Some (caps, rest) → ∃ m, s = m ^^ rest ∧ in_lang ts m caps.
Proof.
  revert s caps. induction ts as [|[l|cls lo hi greedy captured] ts IH]; intros s caps; cbn [match_toks].
  - intros [= <- <-]. exists EmptyString. split; [done|constructor].
  - destruct (str_prefix l s) eqn:Hp; [|done]. apply str_prefix_spec in Hp as [t ->]. rewrite chop_length. cbn [snd].
    intros (m & -> & Hm)%IH. exists (l ^^ m). split; [by rewrite str_app_assoc|by constructor].
  - intros (n & Hn & Hf)%first_some_spec. apply rep_lens_spec in Hn as [[Hlo Hhi] Hh].
    destruct (match_toks ts (chop n s).2) as [[caps' rest']|] eqn:Hm; [|done]. injection Hf as <- <-.
    apply IH in Hm as (m & Hs & Hm). destruct (chop_span cls n s Hhi) as [Hr Hl].
    exists ((chop n s).1 ^^ m). split.
    + rewrite <-(chop_app n s) at 1. rewrite Hs. by rewrite str_app_assoc.
    + constructor; rewrite ?Hl; auto.
Qed.

(** If the text starts with a match, the matcher finds one. *)
Lemma match_complete ts m caps rest : in_lang ts m caps → is_Some (match_toks ts (m ^^ rest)).
Proof.
  intros H. revert rest.
  induction H as [|l ts s caps _ IH|cls lo hi greedy captured ts r s caps Hr Hlo Hhi _ IH]; intros rest;
    cbn [match_toks]; [by eexists|..].
  - rewrite str_app_assoc, str_prefix_app, chop_length. apply IH.
  - rewrite str_app_assoc.
    match goal with |- is_Some (first_some ?f ?l) => destruct (first_some f l) eqn:Hf; [by eexists|] end.
    apply first_some_none with (x := String.length r) in Hf.
    + rewrite chop_length in Hf. destruct (IH rest) as [[c b] Hm]. cbn [snd] in Hf. by rewrite Hm in Hf.
    + apply rep_lens_spec. split; [split; [done|by apply span_run]|done].
Qed.

(** A greedy repetition takes the whole run of its class when what follows
    then matches. *)
Lemma match_rep_greedy cls lo hi captured ts r s caps rest :
  class_run cls r → lo ≤ String.length r →
  (∀ h, hi = Some h → String.length r ≤ h) →
  (hi = Some (String.length r) ∨ span_len cls (r ^^ s) = String.length r) →
  match_toks ts s = Some (caps, rest) →
  match_toks (TRep cls lo hi true captured :: ts) (r ^^ s) =
  Some (if captured then r :: caps else caps, rest).
Proof.
  intros Hr Hlo Hhi Hmost Hts. cbn [match_toks]. pose proof (span_run cls r s Hr) as Hspan.
  assert (Hlens : ∃ l, rep_lens cls lo hi true (r ^^ s) = String.length r :: l).
  { unfold rep_lens. set (most := match hi with Some h => _ | None => _ end).
    assert (most = String.length r) as ->.
    { subst most. destruct Hmost as [-> | Hm]; [lia|]. rewrite Hm. destruct hi as [h|]; [|done].
      specialize (Hhi h eq_refl). lia. }
    replace (S (String.length r) - lo) with (String.length r - lo + 1) by lia.
    rewrite seq_app, rev_app_distr. simpl. eexists. do 2 f_equal. lia. }
  destruct Hlens as [l ->]. cbn [first_some]. rewrite chop_length. cbn [fst snd]. by rewrite Hts.
Qed.

Lemma span_stops cls r c s :
  class_run cls r → cls c = false → span_len cls (r ^^ String c s) = String.length r.
Proof.
  unfold class_run. induction r as [|x r IH]; simpl; intros H Hc; [by rewrite Hc|].
  apply Forall_cons in H as [-> H]. by rewrite IH.
Qed.

Lemma span_all cls r : class_run cls r → span_len cls r = String.length r.
Proof.
  unfold class_run. induction r as [|x r IH]; simpl; intros H; [done|].
  apply Forall_cons in H as [-> H]. by rewrite IH.
Qed.

Lemma match_lit l ts s caps rest :
  match_toks ts s = Some (caps, rest) → match_toks (TLit l :: ts) (l ^^ s) = Some (caps, rest).
Proof. intros H. cbn [match_toks]. by rewrite str_prefix_app, chop_length. Qed.
