(* ===== verification/PyTime.v ===== *)
(** * [datetime.strptime] for the two formats the scripts use

    "%Y-%m-%d %H:%M:%S", with and without "%.f". A naive datetime is kept as
    its microseconds since the first of January of the year 1. *)

From S2P Require Import Prelude PyNum PyStat PyStr Regex.
#[local] Open Scope Z_scope.

(** ** The calendar *)

Definition is_leap (y : Z) : bool := (y mod 4 =? 0) && (negb (y mod 100 =? 0) || (y mod 400 =? 0)).

Definition days_in_month (y m : Z) : Z :=
  if m =? 2 then if is_leap y then 29 else 28
  else if bool_decide (m ∈ [4; 6; 9; 11]) then 30 else 31.

(** Days of the year before the first of month [m]. *)
Definition days_before_month (y m : Z) : Z :=
  (if m <=? 1 then 0 else if m =? 2 then 31 else if m =? 3 then 59 else if m =? 4 then 90
   else if m =? 5 then 120 else if m =? 6 then 151 else if m =? 7 then 181 else if m =? 8 then 212
   else if m =? 9 then 243 else if m =? 10 then 273 else if m =? 11 then 304 else 334)
  + (if (2 <? m) && is_leap y then 1 else 0).

Definition days_before_year (y : Z) : Z := (y - 1) * 365 + (y - 1) / 4 - (y - 1) / 100 + (y - 1) / 400.

Definition ordinal (y m d : Z) : Z := days_before_year y + days_before_month y m + d.

Record fields := mkFields { f_y : Z; f_m : Z; f_d : Z; f_hh : Z; f_mm : Z; f_ss : Z; f_us : Z }.

(** [datetime(...)] raises [ValueError] for a field out of range. *)
Definition fields_ok (f : fields) : bool :=
  (1 <=? f_y f) && (f_y f <=? 9999) && (1 <=? f_m f) && (f_m f <=? 12) &&
  (1 <=? f_d f) && (f_d f <=? days_in_month (f_y f) (f_m f)) &&
  (0 <=? f_hh f) && (f_hh f <=? 23) && (0 <=? f_mm f) && (f_mm f <=? 59) && (0 <=? f_ss f) && (f_ss f <=? 59) &&
  (0 <=? f_us f) && (f_us f <=? 999999).

Definition seconds_of_day (f : fields) : Z := (f_hh f * 60 + f_mm f) * 60 + f_ss f.
Definition microseconds (f : fields) : Z :=
  (ordinal (f_y f) (f_m f) (f_d f) * 86400 + seconds_of_day f) * 1000000 + f_us f.

(** ** Parsing *)

Definition digits_value (s : string) : Z :=
  foldl (λ a c, a * 10 + default 0 (digit_of c)) 0 (list_ascii_of_string s).

(** One or two digits. *)
Definition two : tok := TRep c_digit 1 (Some 2%nat) true true.

(** The regular expression of "%Y-%m-%d %H:%M:%S"; a space of the format
    matches any run of white space, and a day may be written [ 5]. *)
Definition DATE_TIME (day : list tok) : list tok :=
  [TRep c_digit 4 (Some 4%nat) true true; TLit "-"; two; TLit "-"] ++ day ++
  [plus c_space; two; TLit ":"; two; TLit ":"; two].
Definition match_date_time (s : string) : option (list string * string) :=
  match match_toks (DATE_TIME [two]) s with
  | Some r => Some r
  | None => match_toks (DATE_TIME [TLit " "; TRep c_digit 1 (Some 1%nat) true true]) s
  end.

Definition FRACTION : list tok := [TLit "."; TRep c_digit 1 (Some 6%nat) true true].

(** "%f": up to six digits, of a second. *)
Definition microsecond_of (digits : string) : Z :=
  digits_value digits * 10 ^ (6 - Z.of_nat (String.length digits)).

Definition fields_of (groups : list string) (us : Z) : option fields :=
  match digits_value <$> groups with
  | [y; m; d; hh; mm; ss] => Some (mkFields y m d hh mm ss us)
  | _ => None
  end.

Definition datetime_of (f : option fields) : res Z :=
  match f with
  | Some f => if fields_ok f then Ok (microseconds f) else Exn ValueError
  | None => Exn ValueError
  end.

(** [strptime(s, "%Y-%m-%d %H:%M:%S")]: text left over is an error. *)
Definition strptime_secs (s : string) : res Z :=
  match match_date_time s with
  | Some (g, EmptyString) => datetime_of (fields_of g 0)
  | _ => Exn ValueError
  end.

(** [strptime(s, "%Y-%m-%d %H:%M:%S.%f")]. *)
Definition strptime_micros (s : string) : res Z :=
  match match_date_time s with
  | Some (g, rest) =>
      match match_toks FRACTION rest with
      | Some ([digits], EmptyString) => datetime_of (fields_of g (microsecond_of digits))
      | _ => Exn ValueError
      end
  | None => Exn ValueError
  end.

(** [(b - a).total_seconds()]. *)
Definition total_seconds (us : Z) : res num := ndiv (NInt us) (NInt 1000000).

(** [dt.replace(tzinfo=timezone.utc).timestamp()]. *)
Definition UNIX_EPOCH : Z := ordinal 1970 1 1 * 86400 * 1000000.
Definition utc_timestamp (us : Z) : res num := total_seconds (us - UNIX_EPOCH).

Example strptime_day : strptime_secs "2026-02-28 12:30:05" = Ok (UNIX_EPOCH + 1772281805 * 1000000).
Proof. vm_compute. reflexivity. Qed.
Example strptime_leap : strptime_secs "2026-02-29 12:30:05" = Exn ValueError.
Proof. vm_compute. reflexivity. Qed.
Example strptime_half : strptime_micros "2026-02-28 12:30:05.5" = Ok (UNIX_EPOCH + 1772281805 * 1000000 + 500000).
Proof. vm_compute. reflexivity. Qed.

(** ** Calendar order *)

Lemma day_of_year_bound y m d :
  1 <= m <= 12 → 1 <= d <= days_in_month y m →
  1 <= days_before_month y m + d <= 365 + (if is_leap y then 1 else 0).
Proof.
  intros Hm. assert (m = 1 ∨ m = 2 ∨ m = 3 ∨ m = 4 ∨ m = 5 ∨ m = 6 ∨ m = 7 ∨ m = 8 ∨ m = 9 ∨ m = 10 ∨ m = 11 ∨ m = 12)
    as Hcase by lia.
  unfold days_in_month, days_before_month.
  repeat (destruct Hcase as [->|Hcase]); [..|subst m]; simpl; destruct (is_leap y); simpl; lia.
Qed.

Lemma months_in_order y m m' d :
  1 <= m → m < m' → m' <= 12 → d <= days_in_month y m → days_before_month y m + d <= days_before_month y m'.
Proof.
  intros H1 Hlt H2 Hd. refine (Z.le_trans _ _ _ (proj1 (Z.add_le_mono_l _ _ (days_before_month y m)) Hd) _). clear Hd.
  assert (m' = 2 ∨ m' = 3 ∨ m' = 4 ∨ m' = 5 ∨ m' = 6 ∨ m' = 7 ∨ m' = 8 ∨ m' = 9 ∨ m' = 10 ∨ m' = 11 ∨ m' = 12)
    as Hcase by lia.
  assert (m = 1 ∨ m = 2 ∨ m = 3 ∨ m = 4 ∨ m = 5 ∨ m = 6 ∨ m = 7 ∨ m = 8 ∨ m = 9 ∨ m = 10 ∨ m = 11)
    as Hcase' by lia.
  unfold days_in_month, days_before_month.
  repeat (destruct Hcase as [->|Hcase]); [..|subst m'];
    (repeat (destruct Hcase' as [->|Hcase']); [..|subst m]); try lia; simpl; destruct (is_leap y); simpl; lia.
Qed.

Lemma year_length y : days_before_year (y + 1) = days_before_year y + 365 + (if is_leap y then 1 else 0).
Proof.
  unfold days_before_year, is_leap. replace (y + 1 - 1) with y by lia.
  destruct (Z.eqb_spec (y mod 4) 0), (Z.eqb_spec (y mod 100) 0), (Z.eqb_spec (y mod 400) 0); simpl;
    Z.to_euclidean_division_equations; lia.
Qed.

Lemma years_in_order y y' : y < y' → days_before_year (y + 1) <= days_before_year y'.
Proof. intros H. unfold days_before_year. Z.to_euclidean_division_equations; lia. Qed.

Lemma fields_ok_bounds f :
  fields_ok f = true →
  (1 <= f_m f <= 12 ∧ 1 <= f_d f <= days_in_month (f_y f) (f_m f)) ∧
  0 <= f_hh f <= 23 ∧ 0 <= f_mm f <= 59 ∧ 0 <= f_ss f <= 59 ∧ 0 <= f_us f <= 999999.
Proof. unfold fields_ok. rewrite !andb_true_iff, !Z.leb_le. lia. Qed.

(** The fields in lexicographic order. *)
Fixpoint lex_le (l l' : list Z) : Prop :=
  match l, l' with
  | [], [] => True
  | x :: l, x' :: l' => x < x' ∨ x = x' ∧ lex_le l l'
  | _, _ => False
  end.

Definition field_list (f : fields) : list Z := [f_y f; f_m f; f_d f; f_hh f; f_mm f; f_ss f; f_us f].

Lemma lexicographic_time f f' :
  fields_ok f = true → fields_ok f' = true →
  lex_le (field_list f) (field_list f') → microseconds f <= microseconds f'.
Proof.
  intros Hf Hf'. apply fields_ok_bounds in Hf as [[Hm Hd] Ht], Hf' as [[Hm' Hd'] Ht'].
  pose proof (day_of_year_bound _ _ _ Hm Hd). pose proof (day_of_year_bound _ _ _ Hm' Hd').
  unfold microseconds, seconds_of_day, ordinal. destruct f as [y m d hh mm ss us], f' as [y' m' d' hh' mm' ss' us'].
  simpl in *. intros [Hy|[<- [Hmm|[<- [Hdd|[<- Hrest]]]]]].
  - pose proof (years_in_order y y' Hy). pose proof (year_length y). lia.
  - pose proof (months_in_order y m m' d). lia.
  - lia.
  - lia.
Qed.

(** ** Digits and the order of strings *)

Definition digits (s : string) : Prop := class_run c_digit s.

Lemma digit_value c : c_digit c = true → ∃ d, digit_of c = Some d ∧ 0 <= d <= 9 ∧ Z.of_nat (nat_of_ascii c) = d + 48.
Proof.
  unfold c_digit, ascii_in, digit_of. change (nat_of_ascii "0") with 48%nat. change (nat_of_ascii "9") with 57%nat.
  intros H. rewrite H. apply andb_true_iff in H as [H1%Nat.leb_le H2%Nat.leb_le].
  eexists. split; [done|]. lia.
Qed.

Lemma digits_value_cons c s :
  digits_value (String c s) = default 0 (digit_of c) * 10 ^ Z.of_nat (String.length s) + digits_value s.
Proof.
  unfold digits_value. cbn [list_ascii_of_string foldl]. rewrite Z.mul_0_l, Z.add_0_l.
  generalize (default 0 (digit_of c)). intros a.
  assert (Hgen : ∀ l a b, foldl (λ a c, a * 10 + default 0 (digit_of c)) (a * b) l =
                 a * (b * 10 ^ Z.of_nat (length l)) + foldl (λ a c, a * 10 + default 0 (digit_of c)) 0 l).
  { clear. induction l as [|c l IH] using rev_ind; intros a b; simpl; [lia|].
    rewrite !foldl_app. simpl. rewrite IH, length_app. simpl. rewrite Nat2Z.inj_add, Z.pow_add_r by lia. lia. }
  specialize (Hgen (list_ascii_of_string s) a 1). rewrite Z.mul_1_r, Z.mul_1_l in Hgen. rewrite Hgen.
  assert (Hlen : length (list_ascii_of_string s) = String.length s) by (clear; induction s; simpl; congruence).
  by rewrite Hlen.
Qed.

Lemma digits_value_bound s : digits s → 0 <= digits_value s < 10 ^ Z.of_nat (String.length s).
Proof.
  unfold digits, class_run. induction s as [|c s IH]; simpl list_ascii_of_string; intros H; [done|].
  apply Forall_cons in H as [Hc H]. destruct (digit_value c Hc) as (d & Hd & Hb & _). specialize (IH H).
  rewrite digits_value_cons, Hd. simpl String.length. rewrite Nat2Z.inj_succ, Z.pow_succ_r by lia. simpl default. nia.
Qed.

Lemma ascii_compare_digits c c' d d' :
  Z.of_nat (nat_of_ascii c) = d + 48 → Z.of_nat (nat_of_ascii c') = d' + 48 → Ascii.compare c c' = Z.compare d d'.
Proof.
  unfold Ascii.compare, nat_of_ascii. intros H H'. rewrite !N_nat_Z in *. rewrite <-N2Z.inj_compare, H, H'.
  by rewrite (Z.add_comm d), (Z.add_comm d'), Z.add_compare_mono_l.
Qed.

(** Two digit strings of one length compare as their values. *)
Lemma compare_digits p q r r' :
  digits p → digits q → String.length p = String.length q →
  String.compare (p ^^ r) (q ^^ r') =
  match Z.compare (digits_value p) (digits_value q) with Eq => String.compare r r' | c => c end.
Proof.
  unfold digits, class_run. revert q. induction p as [|c p IH]; intros [|c' q]; simpl; try done.
  intros [Hc Hp]%Forall_cons [Hc' Hq]%Forall_cons [= Hl].
  destruct (digit_value c Hc) as (d & Hd & Hb & Ha), (digit_value c' Hc') as (d' & Hd' & Hb' & Ha').
  rewrite (ascii_compare_digits _ _ d d') by done.
  rewrite (IH q Hp Hq Hl), !digits_value_cons, Hd, Hd', Hl. simpl default.
  pose proof (digits_value_bound p Hp) as Bp. pose proof (digits_value_bound q Hq) as Bq. rewrite Hl in Bp.
  set (P := 10 ^ Z.of_nat (String.length q)) in *.
  destruct (Z.compare_spec d d') as [->|Hlt|Hgt].
  - by rewrite Z.add_compare_mono_l.
  - rewrite (proj2 (Z.compare_lt_iff _ _)); [done|]. nia.
  - rewrite (proj2 (Z.compare_gt_iff _ _)); [done|]. nia.
Qed.

(** Fractions of a second compare as their microseconds, up to trailing zeros. *)
Lemma microsecond_cons c s d :
  digit_of c = Some d → (String.length (String c s) <= 6)%nat →
  microsecond_of (String c s) = (d * 10 ^ Z.of_nat (String.length s) + digits_value s) * 10 ^ (5 - Z.of_nat (String.length s)).
Proof. intros Hd Hl. unfold microsecond_of. rewrite digits_value_cons, Hd. simpl in *. do 2 f_equal. lia. Qed.

Lemma fraction_order_at k p q :
  digits p → digits q → Z.of_nat (String.length p) <= k → Z.of_nat (String.length q) <= k →
  String.compare p q = Lt →
  digits_value p * 10 ^ (k - Z.of_nat (String.length p)) <= digits_value q * 10 ^ (k - Z.of_nat (String.length q)).
Proof.
  unfold digits, class_run. revert k q. induction p as [|c p IH]; intros k [|c' q]; simpl String.compare; try done.
  - intros _ Hq _ _ _. pose proof (digits_value_bound _ Hq) as Bq. change (digits_value "") with 0.
    apply Z.mul_nonneg_nonneg; [lia|]. by apply Z.pow_nonneg.
  - intros [Hc Hp]%Forall_cons [Hc' Hq]%Forall_cons. simpl String.length. intros Lp Lq.
    destruct (digit_value c Hc) as (d & Hd & Hb & Ha), (digit_value c' Hc') as (d' & Hd' & Hb' & Ha').
    rewrite (ascii_compare_digits _ _ d d') by done. rewrite !digits_value_cons, Hd, Hd'. simpl default.
    pose proof (digits_value_bound p Hp) as Bp. pose proof (digits_value_bound q Hq) as Bq.
    assert (Hscale : ∀ s : string, Z.of_nat (S (String.length s)) <= k →
              10 ^ Z.of_nat (String.length s) * 10 ^ (k - Z.of_nat (S (String.length s))) = 10 ^ (k - 1) ∧
              k - Z.of_nat (S (String.length s)) = (k - 1) - Z.of_nat (String.length s)).
    { intros s Hs. rewrite <-Z.pow_add_r by lia. split; [f_equal|]; lia. }
    destruct (Hscale p Lp) as [Sp Ep], (Hscale q Lq) as [Sq Eq']. rewrite !Z.mul_add_distr_r, <-!Z.mul_assoc, Sp, Sq.
    assert (Hup : digits_value p * 10 ^ (k - Z.of_nat (S (String.length p))) <= 10 ^ (k - 1)).
    { rewrite <-Sp. apply Z.mul_le_mono_nonneg_r; [apply Z.pow_nonneg|]; lia. }
    assert (Hlow : 0 <= digits_value q * 10 ^ (k - Z.of_nat (S (String.length q)))).
    { apply Z.mul_nonneg_nonneg; [lia|]. apply Z.pow_nonneg; lia. }
    assert (HP : 0 <= 10 ^ (k - 1)) by (apply Z.pow_nonneg; lia).
    destruct (Z.compare_spec d d') as [->|Hlt|Hgt]; [|intros _; nia|done].
    intros Hcmp. rewrite Ep, Eq'. apply Z.add_le_mono_l. apply IH; try done; lia.
Qed.

(** ** Timestamps as text *)

Definition digits_of (n : nat) (s : string) : Prop := digits s ∧ String.length s = n.

Definition stamp_text (y m d hh mm ss tail : string) : string :=
  y ^^ "-" ^^ m ^^ "-" ^^ d ^^ " " ^^ hh ^^ ":" ^^ mm ^^ ":" ^^ ss ^^ tail.

(** The part of a timestamp after its seconds, and the microseconds in it. *)
Inductive is_fraction : string → Z → Prop :=
  | no_fraction : is_fraction "" 0
  | some_fraction f : digits f → (1 ≤ String.length f ≤ 6)%nat → is_fraction ("." ^^ f) (microsecond_of f).

(** A timestamp as benchmark_live.sh and the journal write it. *)
Inductive is_stamp : string → fields → Prop :=
  | stamp y m d hh mm ss tail us :
      digits_of 4 y → digits_of 2 m → digits_of 2 d → digits_of 2 hh → digits_of 2 mm → digits_of 2 ss →
      is_fraction tail us →
      is_stamp (stamp_text y m d hh mm ss tail)
               (mkFields (digits_value y) (digits_value m) (digits_value d) (digits_value hh) (digits_value mm)
                         (digits_value ss) us).

Lemma match_two s ts rest caps tail :
  digits_of 2 s → match_toks ts rest = Some (caps, tail) →
  match_toks (two :: ts) (s ^^ rest) = Some (s :: caps, tail).
Proof.
  intros [Hd Hl] H. unfold two. eapply (match_rep_greedy c_digit 1 (Some 2%nat) true); try done.
  - rewrite Hl. lia.
  - intros h [= <-]. by rewrite Hl.
  - left. by rewrite Hl.
Qed.

Lemma digit_not_space c : c_digit c = true → c_space c = false.
Proof.
  intros Hc. destruct (digit_value c Hc) as (v & _ & Hv & Hn). unfold c_space, is_space.
  destruct (Nat.eqb_spec (nat_of_ascii c) 32), (Nat.leb_spec 9 (nat_of_ascii c)), (Nat.leb_spec (nat_of_ascii c) 13),
    (Nat.leb_spec 28 (nat_of_ascii c)), (Nat.leb_spec (nat_of_ascii c) 31); lia || done.
Qed.

Lemma match_date_time_stamp y m d hh mm ss tail :
  digits_of 4 y → digits_of 2 m → digits_of 2 d → digits_of 2 hh → digits_of 2 mm → digits_of 2 ss →
  match_date_time (stamp_text y m d hh mm ss tail) = Some ([y; m; d; hh; mm; ss], tail).
Proof.
  intros [Hy Ly] Hm Hd Hh Hmm Hs. unfold match_date_time.
  assert (H : match_toks (DATE_TIME [two]) (stamp_text y m d hh mm ss tail) = Some ([y; m; d; hh; mm; ss], tail));
    [|by rewrite H].
  unfold DATE_TIME, stamp_text. cbn [app].
  eapply (match_rep_greedy c_digit 4 (Some 4%nat) true _ y); try done; [lia|intros h [= <-]; lia|left; by rewrite Ly|].
  apply match_lit, match_two, match_lit, match_two; try done.
  eapply (match_rep_greedy c_space 1 None false _ " "); try done; [by repeat constructor|..].
  - right. destruct Hh as [Hh Lh]. destruct hh as [|c hh]; [done|]. apply Forall_cons in Hh as [Hc _].
    apply (span_stops c_space " "); [by repeat constructor|by apply digit_not_space].
  - apply match_two, match_lit, match_two, match_lit, match_two; done.
Qed.

Lemma match_fraction f :
  digits f → (1 ≤ String.length f ≤ 6)%nat → match_toks FRACTION ("." ^^ f) = Some ([f], ""%string).
Proof.
  intros Hf Hl. unfold FRACTION. apply match_lit. rewrite <-(str_app_nil f) at 1.
  eapply (match_rep_greedy c_digit 1 (Some 6%nat) true _ f); try done; [lia|intros h [= <-]; lia|].
  right. rewrite str_app_nil. by apply span_all.
Qed.

Lemma datetime_of_cases f : datetime_of f = Exn ValueError ∨ ∃ v, datetime_of f = Ok v.
Proof. unfold datetime_of. destruct f as [f|]; [|auto]. destruct (fields_ok f); eauto. Qed.

(** ** [time.gmtime] and [time.strftime("%Y-%m-%d %H:%M:%S")]

    Dates of the years 1000 to 9999; outside of them the width of %Y depends on
    the C library, and the definition raises. *)

Definition year_days (y : Z) : Z := 365 + (if is_leap y then 1 else 0).

(** The year and the day of the year of day [d] counted from the start of [y]. *)
Fixpoint find_year (fuel : nat) (y d : Z) : Z * Z :=
  match fuel with
  | O => (y, d)
  | S fuel => if d <=? year_days y then (y, d) else find_year fuel (y + 1) (d - year_days y)
  end.

Fixpoint find_month (fuel : nat) (y m d : Z) : Z * Z :=
  match fuel with
  | O => (m, d)
  | S fuel => if d <=? days_in_month y m then (m, d) else find_month fuel y (m + 1) (d - days_in_month y m)
  end.

(** [n] in exactly [k] decimal digits. *)
Fixpoint dec (k : nat) (n : Z) : string :=
  match k with
  | O => EmptyString
  | S k => dec k (n / 10) ^^ String (ascii_of_nat (48 + Z.to_nat (n mod 10))) EmptyString
  end.

Definition utc_text (t : num) : res string :=
  s ← nfloor t;
  let d := s / 86400 + ordinal 1970 1 1 in
  let r := s mod 86400 in
  let '(y, yd) := find_year (Z.to_nat 10000) 1 d in
  let '(m, md) := find_month 12 y 1 yd in
  if (1000 <=? y) && (y <=? 9999) && (1 <=? d)
  then Ok (stamp_text (dec 4 y) (dec 2 m) (dec 2 md) (dec 2 (r / 3600)) (dec 2 (r / 60 mod 60)) (dec 2 (r mod 60)) "")
  else Exn OverflowError.

Lemma year_days_next y : days_before_year (y + 1) = days_before_year y + year_days y.
Proof. rewrite year_length. unfold year_days. lia. Qed.

Lemma find_year_spec fuel y d y' d' :
  1 <= d → find_year fuel y d = (y', d') → y' < y + Z.of_nat fuel →
  days_before_year y' + d' = days_before_year y + d ∧ 1 <= d' <= year_days y'.
Proof.
  revert y d. induction fuel as [|fuel IH]; intros y d H1; [intros [= <- <-]; lia|]. cbn [find_year].
  destruct (Z.leb_spec d (year_days y)); [intros [= <- <-]; lia|].
  intros Hf Hlt. pose proof (year_days_next y).
  apply IH in Hf; lia.
Qed.

Lemma month_days_next y m :
  1 <= m <= 11 → days_before_month y (m + 1) = days_before_month y m + days_in_month y m.
Proof.
  intros Hm. assert (m = 1 ∨ m = 2 ∨ m = 3 ∨ m = 4 ∨ m = 5 ∨ m = 6 ∨ m = 7 ∨ m = 8 ∨ m = 9 ∨ m = 10 ∨ m = 11) as Hc by lia.
  unfold days_in_month, days_before_month.
  repeat (destruct Hc as [->|Hc]); [..|subst m]; simpl; destruct (is_leap y); simpl; lia.
Qed.

Lemma find_month_spec fuel y m d m' d' :
  1 <= m <= 12 → m + Z.of_nat fuel = 13 → 1 <= d → days_before_month y m + d <= year_days y →
  find_month fuel y m d = (m', d') →
  days_before_month y m' + d' = days_before_month y m + d ∧ 1 <= m' <= 12 ∧ 1 <= d' <= days_in_month y m'.
Proof.
  revert m d. induction fuel as [|fuel IH]; intros m d H1 H2 H3 H4.
  { lia. }
  cbn [find_month]. destruct (Z.leb_spec d (days_in_month y m)) as [|Hgt]; [intros [= <- <-]; lia|].
  assert (Hm : m <= 11).
  { destruct (Z.le_gt_cases m 11); [done|]. assert (m = 12) as -> by lia.
    unfold days_before_month, days_in_month, year_days in *. simpl in *. destruct (is_leap y); lia. }
  pose proof (month_days_next y m ltac:(lia)) as Hn. intros Hf. apply IH in Hf; lia.
Qed.

Lemma digits_value_app a b :
  digits_value (a ^^ b) = digits_value a * 10 ^ Z.of_nat (String.length b) + digits_value b.
Proof.
  induction a as [|c a IH]; [change ("" ^^ b) with b; change (digits_value "") with 0; lia|].
  change (String c a ^^ b) with (String c (a ^^ b)). rewrite !digits_value_cons, IH.
  rewrite length_app_str, Nat2Z.inj_add, Z.pow_add_r by lia. lia.
Qed.

Lemma dec_spec k n : 0 <= n < 10 ^ Z.of_nat k → digits_of k (dec k n) ∧ digits_value (dec k n) = n.
Proof.
  revert n. induction k as [|k IH]; intros n Hn.
  { change (10 ^ Z.of_nat 0) with 1 in Hn. assert (n = 0) as -> by lia. split; [split; [constructor|]|]; done. }
  rewrite Nat2Z.inj_succ, Z.pow_succ_r in Hn by lia. cbn [dec].
  destruct (IH (n / 10)) as [[Hd Hl] Hv]; [split; [apply Z.div_pos; lia|apply Z.div_lt_upper_bound; lia]|].
  pose proof (Z.mod_pos_bound n 10 ltac:(lia)) as Hr.
  set (c := ascii_of_nat (48 + Z.to_nat (n mod 10))).
  assert (Hc : nat_of_ascii c = (48 + Z.to_nat (n mod 10))%nat) by (apply nat_ascii_embedding; lia).
  assert (Hdig : c_digit c = true).
  { unfold c_digit, ascii_in. rewrite Hc. change (nat_of_ascii "0") with 48%nat. change (nat_of_ascii "9") with 57%nat.
    apply andb_true_iff. split; apply Nat.leb_le; lia. }
  split; [split|].
  - unfold digits, class_run in *. rewrite list_ascii_app. apply Forall_app. split; [done|]. by repeat constructor.
  - rewrite length_app_str, Hl. simpl. lia.
  - rewrite digits_value_app, Hv. destruct (digit_value c Hdig) as (v & Hd' & _ & Hcv). rewrite digits_value_cons, Hd'. simpl.
    change (digits_value "") with 0. rewrite Hc in Hcv. pose proof (Z.div_mod n 10 ltac:(lia)). lia.
Qed.

Lemma fields_of_six a b c d e f us :
  fields_of [a; b; c; d; e; f] us =
  Some (mkFields (digits_value a) (digits_value b) (digits_value c) (digits_value d) (digits_value e) (digits_value f) us).
Proof. done. Qed.

(** The text reads back as the second it was made from. *)
Lemma utc_text_parses t s text :
  nfloor t = Ok s → utc_text t = Ok text → strptime_secs text = Ok (UNIX_EPOCH + s * 1000000).
Proof.
  unfold utc_text. intros ->. cbn [mbind res_bind]. set (d := s / 86400 + ordinal 1970 1 1).
  pose proof (Z.mod_pos_bound s 86400 ltac:(lia)) as Hr. pose proof (Z.div_mod s 86400 ltac:(lia)) as Hs.
  set (r := s mod 86400) in *. set (q := s / 86400) in *.
  destruct (find_year (Z.to_nat 10000) 1 d) as [y yd] eqn:Hy. destruct (find_month 12 y 1 yd) as [m md] eqn:Hm.
  destruct ((1000 <=? y) && (y <=? 9999) && (1 <=? d)) eqn:Hb; [|done]. intros Htext.
  assert (Hinj : ∀ a b : string, Ok a = Ok b → b = a) by congruence. apply Hinj in Htext as ->. clear Hinj.
  apply andb_true_iff in Hb as [[H1%Z.leb_le H2%Z.leb_le]%andb_true_iff H3%Z.leb_le].
  apply find_year_spec in Hy as [Ey By]; [|done|lia].
  apply find_month_spec in Hm as (Em & Bm & Bd); [|lia|done|lia|unfold days_before_month; simpl; lia].
  assert (Hmd : md <= 31) by (unfold days_in_month in Bd; repeat case_match; lia).
  destruct (dec_spec 4 y) as [Dy Vy]; [simpl; lia|]. destruct (dec_spec 2 m) as [Dm Vm]; [simpl; lia|].
  destruct (dec_spec 2 md) as [Dd Vd]; [simpl; lia|].
  destruct (dec_spec 2 (r / 3600)) as [Dh Vh]; [split; [apply Z.div_pos; lia|apply Z.div_lt_upper_bound; simpl; lia]|].
  pose proof (Z.mod_pos_bound (r / 60) 60 ltac:(lia)) as Bmm. pose proof (Z.mod_pos_bound r 60 ltac:(lia)) as Bss.
  destruct (dec_spec 2 (r / 60 mod 60)) as [Dmm Vmm]; [simpl; lia|].
  destruct (dec_spec 2 (r mod 60)) as [Dss Vss]; [simpl; lia|].
  unfold strptime_secs. rewrite match_date_time_stamp, fields_of_six by done.
  rewrite Vy, Vm, Vd, Vh, Vmm, Vss. unfold datetime_of, fields_ok. cbn [f_y f_m f_d f_hh f_mm f_ss f_us].
  assert (Bh : 0 <= r / 3600 <= 23).
  { split; [apply Z.div_pos; lia|]. apply Z.lt_succ_r, Z.div_lt_upper_bound; lia. }
  repeat rewrite (proj2 (Z.leb_le _ _)) by lia. cbn [andb]. f_equal.
  unfold microseconds, seconds_of_day, ordinal, UNIX_EPOCH. cbn [f_y f_m f_d f_hh f_mm f_ss f_us].
  assert (Er : (r / 3600 * 60 + r / 60 mod 60) * 60 + r mod 60 = r) by (Z.to_euclidean_division_equations; lia).
  rewrite Er. replace (days_before_year y + days_before_month y m + md) with d.
  - subst d. unfold ordinal. lia.
  - change (days_before_month y 1) with 0 in Em. change (days_before_year 1) with 0 in Ey. lia.
Qed.
