(* ===== verification/PyPrint.v ===== *)
(** * Printed numbers and padded columns

    [format] of a non-negative number, the alignment of columns, and what
    [int] and [float] read back from them. *)

From stdpp Require Import pretty.
From Stdlib Require Import SpecFloat.
From S2P Require Import Prelude PyNum PyStr Regex PyTime.

#[local] Open Scope Z_scope.

(** ** Alignment *)

Fixpoint spaces (n : nat) : string := match n with O => EmptyString | S n' => String " " (spaces n') end.
(** [f"{s:>w}"] and [f"{s:<w}"]; widths count bytes. *)
Definition right (w : nat) (s : string) : string := spaces (w - String.length s) ^^ s.
Definition left (w : nat) (s : string) : string := s ^^ spaces (w - String.length s).

Lemma spaces_app a b : spaces a ^^ spaces b = spaces (a + b)%nat.
Proof. induction a as [|a IH]; [done|]. exact (f_equal (String " ") IH). Qed.

Lemma length_spaces n : String.length (spaces n) = n.
Proof. induction n as [|n IH]; [done|]. exact (f_equal S IH). Qed.

Lemma spaces_run n : class_run c_space (spaces n).
Proof. unfold class_run. induction n; constructor; done. Qed.

(** A column is its text behind at least one blank. *)
Lemma column b t rest : " " ^^ right b t ^^ rest = spaces (S (b - String.length t)) ^^ t ^^ rest.
Proof. unfold right. rewrite str_app_assoc. reflexivity. Qed.

Lemma first_column a s k rest :
  left a s ^^ spaces (S k) ^^ rest = s ^^ spaces (S (a - String.length s + k)) ^^ rest.
Proof.
  unfold left. rewrite str_app_assoc, <-(str_app_assoc (spaces _) (spaces _)), spaces_app. do 3 f_equal. lia.
Qed.

(** ** Decimal digits of an integer *)

Lemma digits_run s : digits s ↔ Forall (λ c, c_digit c = true) (list_ascii_of_string s).
Proof. done. Qed.

Lemma pretty_char n : (n < 10)%N →
  c_digit (pretty_N_char n) = true ∧ digit_of (pretty_N_char n) = Some (Z.of_N n).
Proof.
  intros H. assert (∃ k, (k < 10)%nat ∧ n = N.of_nat k) as (k & Hk & ->) by (exists (N.to_nat n); lia).
  do 10 (destruct k as [|k]; [by vm_compute|]). lia.
Qed.

Lemma digits_go n s :
  ∃ ds, pretty_N_go n s = ds ^^ s ∧ digits ds ∧ digits_value ds = Z.of_N n ∧
        ((0 < n)%N → ds ≠ EmptyString) ∧ ∀ d, Z.of_N n < 10 ^ Z.of_nat d → (String.length ds ≤ d)%nat.
Proof.
  revert s. induction (N.lt_wf_0 n) as [n _ IH]. intros s.
  destruct (decide (n = 0)%N) as [->|Hn].
  { exists EmptyString. split; [by rewrite pretty_N_go_0|]. split; [constructor|]. split; [done|]. split; [lia|]. intros d _. simpl. lia. }
  rewrite pretty_N_go_step by lia.
  destruct (IH (n / 10)%N ltac:(apply N.div_lt; lia) (String (pretty_N_char (n mod 10)) s)) as (ds & Hs & Hd & Hv & _ & Hl).
  assert (Hm : (n mod 10 < 10)%N) by (apply N.mod_lt; lia). destruct (pretty_char _ Hm) as [Hc Hdc].
  exists (ds ^^ String (pretty_N_char (n mod 10)) EmptyString). split; [|split; [|split; [|split]]].
  - rewrite Hs, str_app_assoc. done.
  - rewrite digits_run, list_ascii_app, Forall_app. split; [exact Hd|]. by apply Forall_singleton.
  - rewrite digits_value_app, digits_value_cons, Hv, Hdc. cbn [String.length default].
    change (digits_value "") with 0. pose proof (N.div_mod n 10 ltac:(lia)) as E.
    change (10 ^ Z.of_nat 1) with 10. change (10 ^ Z.of_nat 0) with 1. unfold id. lia.
  - intros _ E. apply (f_equal String.length) in E. rewrite length_app_str in E. simpl in E. lia.
  - intros d Hd'. rewrite length_app_str. cbn [String.length]. destruct d as [|d]; [simpl in Hd'; lia|].
    assert (Hq : Z.of_N (n / 10) < 10 ^ Z.of_nat d).
    { rewrite Nat2Z.inj_succ, Z.pow_succ_r in Hd' by lia. rewrite N2Z.inj_div. apply Z.div_lt_upper_bound; lia. }
    specialize (Hl d Hq). lia.
Qed.

Lemma digits_pretty z : 0 <= z →
  digits (pretty z) ∧ pretty z ≠ EmptyString ∧ digits_value (pretty z) = z ∧
  ∀ d, z < 10 ^ Z.of_nat (S d) → (String.length (pretty z) ≤ S d)%nat.
Proof.
  intros Hz. destruct z as [|p|p]; [|clear Hz|lia].
  { split; [by repeat constructor|]. split; [done|]. split; [done|]. intros d _. simpl. lia. }
  change (pretty (Zpos p)) with (pretty_N_go (Npos p) ""). destruct (digits_go (Npos p) "") as (ds & -> & Hd & Hv & Hne & Hl).
  rewrite str_app_nil. split; [done|]. split; [by apply Hne|]. split; [done|]. intros d Hp. by apply Hl.
Qed.

(** ** Reading digits *)

Definition value_from (acc : Z) (l : list ascii) : Z := foldl (λ a c, a * 10 + default 0 (digit_of c)) acc l.

(** Nothing a number could go on with. *)
Definition stops (l : list ascii) : Prop :=
  match l with [] => True | c :: _ => digit_of c = None ∧ c ≠ "_"%char end.

Lemma take_digits_run acc k ds rest :
  Forall (λ c, c_digit c = true) ds → stops rest →
  take_digits acc k (ds ++ rest) = (value_from acc ds, (k + length ds)%nat, rest).
Proof.
  intros H Hr. revert acc k. induction H as [|c ds Hc H IH]; intros acc k; cbn [app length value_from foldl].
  - rewrite Nat.add_0_r. destruct rest as [|c rest]; [done|]. destruct Hr as [Hc Hu]. cbn [take_digits]. rewrite Hc.
    destruct k; [done|]. destruct c as [[] [] [] [] [] [] [] []]; try done.
  - cbn [take_digits]. destruct (digit_value c Hc) as (d & Hd & _). rewrite Hd, IH. unfold value_from.
    cbn [default]. do 2 f_equal. lia.
Qed.

(** ** Stripping *)

Definition visible (s : string) : Prop := s ≠ EmptyString ∧ class_run c_nonspace s.

Lemma drop_spaces_visible l : Forall (λ c, c_nonspace c = true) l → drop_spaces l = l.
Proof. intros H. destruct H as [|c l Hc _]; [done|]. cbn [drop_spaces]. unfold c_nonspace in Hc. by destruct (is_space c). Qed.

Lemma drop_spaces_head l a : head l = Some a → is_space a = false → drop_spaces l = l.
Proof. destruct l as [|x l]; [done|]. intros [= ->] Ha. cbn [drop_spaces]. by rewrite Ha. Qed.

(** A text that begins and ends with a visible character is its own strip. *)
Lemma strip_list_ends l a b :
  head l = Some a → last l = Some b → is_space a = false → is_space b = false → strip_list l = l.
Proof.
  intros Ha Hb Hsa Hsb. unfold strip_list. rewrite (drop_spaces_head l a Ha Hsa).
  rewrite (drop_spaces_head (rev l) b), rev_involutive; [done| |done].
  destruct l as [|x l _] using rev_ind; [done|]. rewrite rev_app_distr. rewrite last_snoc in Hb. by injection Hb as ->.
Qed.

Lemma strip_visible l : Forall (λ c, c_nonspace c = true) l → strip_list l = l.
Proof.
  intros H. unfold strip_list. rewrite (drop_spaces_visible l H), drop_spaces_visible, rev_involutive; [done|].
  rewrite Forall_forall in H |- *. intros x Hx. apply H. rewrite list_elem_of_In in Hx |- *. by apply in_rev in Hx.
Qed.

(** ** [int] and [float] of a printed number *)

Lemma digit_nonspace c : c_digit c = true → c_nonspace c = true.
Proof. destruct c as [[] [] [] [] [] [] [] []]; vm_compute; done. Qed.

Lemma digit_sign c l : c_digit c = true → take_sign (c :: l) = (false, c :: l).
Proof. destruct c as [[] [] [] [] [] [] [] []]; vm_compute; done. Qed.

Lemma nonempty_list s : s ≠ EmptyString → ∃ c l, list_ascii_of_string s = c :: l.
Proof. destruct s as [|c s]; [done|]. eauto. Qed.

Lemma int_pretty z : 0 <= z → int_of_string (pretty z) = Ok z.
Proof.
  intros Hz. destruct (digits_pretty z Hz) as (Hd & Hne & Hv & _). unfold int_of_string.
  rewrite strip_visible. 2: { eapply Forall_impl; [exact Hd|]. apply digit_nonspace. }
  destruct (nonempty_list _ Hne) as (c & l & Hl). unfold digits, class_run in Hd. unfold digits_value in Hv. rewrite Hl in *.
  rewrite digit_sign by by inversion Hd. rewrite <-(app_nil_r (c :: l)). rewrite take_digits_run by done.
  unfold value_from. by rewrite Hv.
Qed.

(** The text of [format(x, ".<d>f")] for the [n] that [x * 10 ** d] rounds to. *)
Lemma fixed_digits_shape n d : 0 <= n →
  ∃ a b, digits a ∧ digits b ∧ a ≠ EmptyString ∧ String.length b = d ∧ digits_value (a ^^ b) = n ∧
         fixed_digits n d = match d with O => a | _ => a ^^ "." ^^ b end.
Proof.
  intros Hn. destruct d as [|d].
  { destruct (digits_pretty n Hn) as (Hd & Hne & Hv & _). exists (pretty n), EmptyString. rewrite str_app_nil.
    by split_and!; [done|constructor|..]. }
  set (p := 10 ^ Z.of_nat (S d)). assert (Hp : 0 < p) by (apply Z.pow_pos_nonneg; lia).
  destruct (digits_pretty (n / p)) as (Ha & Hane & Hav & _); [by apply Z.div_pos|].
  destruct (digits_pretty (n mod p)) as (Hb & _ & Hbv & Hbl); [by apply Z.mod_pos_bound|].
  specialize (Hbl d (proj2 (Z.mod_pos_bound n p Hp))).
  set (b := pretty (n mod p)) in *. set (k := (S d - String.length b)%nat).
  assert (Hz : ∀ k, digits (zeros_to k b) ∧ digits_value (zeros_to k b) = digits_value b ∧
                    String.length (zeros_to k b) = (k + String.length b)%nat).
  { intros j. clear -Hb. induction j as [|j (Hd & Hv & Hl)]; [done|]. cbn [zeros_to]. split; [|split].
    - apply Forall_cons. split; [done|exact Hd].
    - rewrite digits_value_cons, Hv. change (default 0 (digit_of "0")) with 0. lia.
    - cbn [String.length]. lia. }
  destruct (Hz k) as (Hd & Hv & Hl). exists (pretty (n / p)), (zeros_to k b). split_and!; try done.
  - rewrite Hl. unfold k. lia.
  - rewrite digits_value_app, Hl, Hav, Hv, Hbv. replace (k + String.length b)%nat with (S d) by (unfold k; lia).
    fold p. pose proof (Z.div_mod n p ltac:(lia)). lia.
Qed.

Lemma float_fixed n d : 0 <= n → float_of_string (fixed_digits n d) = Some (scale10 false n (- Z.of_nat d)).
Proof.
  intros Hn. destruct (fixed_digits_shape n d Hn) as (a & b & Ha & Hb & Hne & Hl & Hv & ->).
  destruct (nonempty_list a Hne) as (c & l & Hc).
  assert (Hla : list_ascii_of_string (match d with O => a | _ => a ^^ "." ^^ b end) =
                list_ascii_of_string a ++ match d with O => [] | _ => "."%char :: list_ascii_of_string b end).
  { destruct d; [by rewrite app_nil_r|]. by rewrite list_ascii_app. }
  assert (Hvis : Forall (λ c, c_nonspace c = true) (list_ascii_of_string (match d with O => a | _ => a ^^ "." ^^ b end))).
  { rewrite Hla. apply Forall_app. split; [eapply Forall_impl; [exact Ha|apply digit_nonspace]|]. destruct d; [constructor|].
    constructor; [done|]. eapply Forall_impl; [exact Hb|apply digit_nonspace]. }
  unfold float_of_string. rewrite (strip_visible _ Hvis), Hla. rewrite Hc. cbn [app].
  assert (Hdc : c_digit c = true) by (unfold digits, class_run in Ha; rewrite Hc in Ha; by inversion Ha).
  rewrite digit_sign by done.
  rewrite bool_decide_eq_false_2.
  2: { intros [E|E]; injection E as E _; revert Hdc E; clear; destruct c as [[] [] [] [] [] [] [] []]; vm_compute; done. }
  rewrite bool_decide_eq_false_2.
  2: { intros E; injection E as E _; revert Hdc E; clear; destruct c as [[] [] [] [] [] [] [] []]; vm_compute; done. }
  rewrite app_comm_cons, <-Hc. unfold parse_decimal.
  rewrite take_digits_run by (try exact Ha; by destruct d).
  assert (Hla0 : length (list_ascii_of_string a) ≠ 0%nat) by by rewrite Hc.
  unfold digits_value in Hv. rewrite list_ascii_app, foldl_app in Hv.
  destruct d as [|d].
  - destruct b; [|done]. cbn [list_ascii_of_string foldl] in Hv. unfold value_from. rewrite Hv.
    destruct (Nat.eqb_spec (0 + length (list_ascii_of_string a)) 0) as [E|_]; [lia|]. reflexivity.
  - rewrite <-(app_nil_r (list_ascii_of_string b)). rewrite take_digits_run by done.
    unfold value_from. rewrite Hv.
    destruct (Nat.eqb_spec (0 + length (list_ascii_of_string a)) 0) as [E|_]; [lia|]. cbn [andb].
    assert (Hlb : length (list_ascii_of_string b) = S d).
    { rewrite <-Hl. clear. induction b as [|c b IH]; [done|]. exact (f_equal S IH). }
    rewrite Hlb. cbn [parse_exponent mbind option_bind]. do 2 f_equal.
Qed.

(** What a printed non-negative number is, to [d] decimals. *)
Definition printable (x : num) : Prop :=
  match to_float x with S754_zero false | S754_finite false _ _ => True | _ => False end.
Definition rounded (x : num) (d : nat) : num :=
  match to_float x with
  | S754_finite _ m e => NFlt (scale10 false (round_dec (Zpos m) e d) (- Z.of_nat d))
  | f => NFlt f
  end.

Lemma round_dec_nonneg m e d : 0 <= m → 0 <= round_dec m e d.
Proof.
  intros Hm. unfold round_dec. assert (Hp : 0 <= m * 10 ^ Z.of_nat d) by (apply Z.mul_nonneg_nonneg; [done|apply Z.pow_nonneg; lia]).
  destruct (Z.leb_spec 0 e); [apply Z.mul_nonneg_nonneg; [done|apply Z.pow_nonneg; lia]|].
  assert (Hq : 0 <= m * 10 ^ Z.of_nat d / 2 ^ (- e)) by (apply Z.div_pos; [done|apply Z.pow_pos_nonneg; lia]).
  destruct (Z.compare _ _); [destruct (Z.even _)|..]; lia.
Qed.

Lemma fmt_fixed_digits x d : printable x → ∃ n, 0 <= n ∧ fmt_fixed x d = fixed_digits n d ∧
  rounded x d = NFlt (scale10 false n (- Z.of_nat d)).
Proof.
  unfold printable, fmt_fixed, rounded. destruct (to_float x) as [[]|[]| |[] m e]; try done; intros _.
  - by exists 0.
  - exists (round_dec (Zpos m) e d). split; [by apply round_dec_nonneg|]. done.
Qed.

Lemma float_printed x d : printable x → parse_float (fmt_fixed x d) = Ok (rounded x d).
Proof. intros H. destruct (fmt_fixed_digits x d H) as (n & Hn & -> & ->). unfold parse_float. by rewrite float_fixed. Qed.

Lemma decimal_printed x d : printable x → class_run c_decimal (fmt_fixed x d) ∧ fmt_fixed x d ≠ EmptyString.
Proof.
  intros H. destruct (fmt_fixed_digits x d H) as (n & Hn & -> & _).
  destruct (fixed_digits_shape n d Hn) as (a & b & Ha & Hb & Hne & _ & _ & ->).
  assert (Hdd : ∀ s, digits s → class_run c_decimal s).
  { intros s Hs. eapply Forall_impl; [exact Hs|]. intros c Hc. unfold c_decimal. by rewrite Hc. }
  destruct d; [by auto|]. split; [|by destruct a].
  unfold class_run. rewrite list_ascii_app. apply Forall_app. split; [by apply Hdd|]. constructor; [done|by apply Hdd].
Qed.
