(* ===== verification/Json.v ===== *)
(** * JSON values

    What [json.load] returns, with the Python operations the program applies
    to such values without checking their type first: each has the exception
    Python raises when the type is wrong. *)

From S2P Require Import Prelude PyNum PyStr.

Inductive json : Type :=
  | JNull
  | JBool (b : bool)
  | JNum (n : num)
  | JStr (s : string)
  | JArr (l : list json)
  | JObj (l : list (string * json)).

(** Text on disk or in a TEXT column: parseable JSON, or something else. *)
Inductive jtext : Type :=
  | JGood (j : json)
  | JBad.

Definition json_loads (t : jtext) : res json :=
  match t with JGood j => Ok j | JBad => Exn JSONDecodeError end.

(** [bool] is a subclass of [int], so a JSON boolean takes part in arithmetic
    and comparisons; every other non-number raises [TypeError]. *)
Definition as_num (j : json) : res num :=
  match j with
  | JNum n => Ok n
  | JBool b => Ok (NInt (if b then 1 else 0)%Z)
  | _ => Exn TypeError
  end.

(** [float(j)] of a value that came out of JSON. *)
Definition py_float (j : json) : res num :=
  match j with
  | JNum n => Ok (NFlt (to_float n))
  | JBool b => Ok (NFlt (float_of_Z (if b then 1 else 0)%Z))
  | JStr s => match float_of_string s with Some f => Ok (NFlt f) | None => Exn ValueError end
  | _ => Exn TypeError
  end.

(** [d.get(k)] on a value expected to be a dict. *)
Definition py_get (j : json) (k : string) : res (option json) :=
  match j with
  | JObj l => Ok (dict_get k l)
  | _ => Exn AttributeError
  end.

(** [d.get(k, default)]. *)
Definition py_get_default (j : json) (k : string) (d : json) : res json :=
  o ← py_get j k; mret (default d o).

Definition json_is_str (s : string) (j : json) : bool :=
  match j with JStr t => bool_decide (s = t) | _ => false end.

(** [s in j]: list membership, dict key, or substring. *)
Definition json_contains (s : string) (j : json) : res bool :=
  match j with
  | JArr l => Ok (existsb (json_is_str s) l)
  | JObj l => Ok (bool_decide (s ∈ l.*1))
  | JStr t => Ok (str_contains s t)
  | _ => Exn TypeError
  end.

(** Truth value of a JSON value. *)
Definition json_truthy (j : json) : bool :=
  match j with
  | JNull => false
  | JBool b => b
  | JNum n => negb (neq n (NInt 0))
  | JStr s => negb (bool_decide (s = EmptyString))
  | JArr l => negb (bool_decide (l = []))
  | JObj l => negb (bool_decide (l = []))
  end.

(** Iterating over a value in a [for]: a list's elements, a dict's keys, a
    string's characters. *)
Definition json_iter (j : json) : res (list json) :=
  match j with
  | JArr l => Ok l
  | JObj l => Ok (JStr <$> l.*1)
  | JStr s => Ok ((λ c, JStr (String c EmptyString)) <$> String.list_ascii_of_string s)
  | _ => Exn TypeError
  end.

(** ** Decidable equality *)

Fixpoint json_eqb (a b : json) {struct a} : bool :=
  match a, b with
  | JNull, JNull => true
  | JBool x, JBool y => eqb x y
  | JNum x, JNum y => bool_decide (x = y)
  | JStr x, JStr y => bool_decide (x = y)
  | JArr l, JArr l' =>
      (fix go l l' := match l, l' with
                      | [], [] => true
                      | x :: r, y :: r' => json_eqb x y && go r r'
                      | _, _ => false
                      end) l l'
  | JObj l, JObj l' =>
      (fix go l l' := match l, l' with
                      | [], [] => true
                      | (k, x) :: r, (k', y) :: r' => bool_decide (k = k') && json_eqb x y && go r r'
                      | _, _ => false
                      end) l l'
  | _, _ => false
  end.

Lemma json_eqb_eq : ∀ a b, json_eqb a b = true ↔ a = b.
Proof.
  fix IH 1. intros a b. destruct a as [|x|x|x|l|l], b as [|y|y|y|l'|l'];
    simpl; try (split; congruence).
  - rewrite eqb_true_iff. split; congruence.
  - rewrite bool_decide_eq_true. split; congruence.
  - rewrite bool_decide_eq_true. split; congruence.
  - transitivity (l = l'); [|split; congruence].
    revert l'. induction l as [|x l IHl]; intros [|y l']; try (split; congruence).
    rewrite andb_true_iff, (IH x y), IHl. split; [by intros [-> ->]|by intros [= -> ->]].
  - transitivity (l = l'); [|split; congruence].
    revert l'. induction l as [|[k x] l IHl]; intros [|[k' y] l']; try (split; congruence).
    rewrite !andb_true_iff, bool_decide_eq_true, (IH x y), IHl.
    split; [by intros [[-> ->] ->]|by intros [= -> -> ->]].
Qed.

#[global] Instance json_eq_dec : EqDecision json.
Proof.
  intros a b. destruct (json_eqb a b) eqn:H; [left|right].
  - by apply json_eqb_eq.
  - intros ->. assert (json_eqb b b = true) by by apply json_eqb_eq. congruence.
Defined.

(** [a == b] on scalars: numbers (booleans included) compare by value. *)
Definition json_py_eq (a b : json) : bool :=
  match as_num a, as_num b with
  | Ok x, Ok y => neq x y
  | _, _ => bool_decide (a = b)
  end.
