(* ===== verification/World.v ===== *)
(** * The process state of Stage 2 and its environment

    [World] gathers everything a handler can read or write: the module
    [state.py], the JSON and CSV files, the SQLite tables, the alert queue,
    the receiver's own module variables, and the trace of commands and alerts
    sent out. [Env] is what the process does not control: clock readings,
    subprocess results, I/O failures, the trained models and the values of
    [config.py] that the operator can set. Every consultation of the
    environment advances [w_ticks], so two readings are unrelated unless a
    hypothesis says so. *)

From S2P Require Import Prelude PyNum Json.

(** ** Shared state: state.py *)

(** The dictionary [last_metrics]. *)
Record Metrics := mkMetrics {
  mt_entropy : num; mt_ewma_rate : num; mt_mean_h : num; mt_mean_r : num;
  mt_sigma_h : num; mt_sigma_r : num; mt_proto_ratio : num;
  mt_dominant_ip_ratio : num; mt_timestamp : num; mt_k_multiplier : num;
  mt_cooldown : Z; mt_latest_classification : string; mt_victim_ip : option string;
  mt_egress_rate : option num; mt_drop_ratio : option num;
  mt_proto_tcp : num; mt_proto_udp : num; mt_proto_icmp : num;
  mt_proto_sctp : num; mt_proto_gre : num; mt_proto_esp : num;
  mt_source_port_entropy : option num; mt_ttl_variance : option num;
  mt_fingerprint_diversity : option num }.

Record DdosSource := mkDdosSource {
  ds_ip : string; ds_victim_ip : string; ds_rate : option num;
  ds_timestamp : num; ds_action : string }.

Record Session := mkSession { se_username : string; se_last_active : num }.

Record SharedState := mkShared {
  last_metrics : Metrics;
  last_metrics_by_target : list (string * Metrics);
  consecutive_ddos_windows : gmap string Z;
  recently_blocked : gmap string num;
  active_sessions : gmap string Session;
  failed_login_attempts : gmap string (list num);
  failed_reauth_attempts : gmap string (list num);
  last_classification_by_target : gmap string string;
  last_block_alert : gmap string num;
  last_tier_reached : gmap string Z;
  ddos_sources : list (string * DdosSource) }.

Definition LOGIN_MAX_ATTEMPTS : nat := 5.
Definition LOGIN_WINDOW_SECS : num := NInt 300.
Definition SESSION_IDLE_TIMEOUT_SECS : num := NInt 600.
Definition DDOS_SOURCES_MAX : nat := 4096.

Definition f0 : num := flt 0 1.
Definition f1 : num := flt 1 1.

Definition initial_metrics : Metrics :=
  mkMetrics f0 f0 f0 f0 f0 f0 f1 f0 f0 (flt 2 1) 0%Z "Normal" None None None
            f1 f0 f0 f0 f0 f0 None None None.

Definition initial_state : SharedState :=
  mkShared initial_metrics [] ∅ ∅ ∅ ∅ ∅ ∅ ∅ ∅ [].

(** ** The database: schema.py *)

(** A table with an AUTOINCREMENT key: [tb_seq] is the last id handed out. *)
Record table (R : Type) := mkTable { tb_rows : list R; tb_seq : Z }.
Arguments mkTable {R} tb_rows tb_seq.
Arguments tb_rows {R} t.
Arguments tb_seq {R} t.

Record LogRow := mkLog {
  lg_id : Z; lg_timestamp : num; lg_src_ip : string; lg_dst_ip : string;
  lg_proto : string; lg_rate : option num; lg_entropy : option num;
  lg_classification : string }.

Record MetricRow := mkMetric {
  mr_id : Z; mr_timestamp : num; mr_ewma_rate : num; mr_entropy : num;
  mr_mean_h : num; mr_mean_r : num; mr_sigma_h : num; mr_sigma_r : num;
  mr_k : num; mr_victim_ip : string }.

Record AutoLabelRun := mkAutoLabelRun {
  al_id : Z; al_timestamp : num; al_rows_labeled : Z; al_resolved : bool }.

Record Playbook := mkPlaybook {
  pb_id : Z; pb_name : string; pb_scope_type : string; pb_scope_value : option string;
  pb_enabled : bool; pb_definition : jtext; pb_created_at : num; pb_updated_at : num }.

Inductive run_status := Running | Completed.

Record PlaybookRun := mkRun {
  rn_id : Z; rn_playbook_id : Z; rn_target_host : string; rn_target_source : option string;
  rn_stage_index : Z; rn_status : run_status; rn_reason : string;
  rn_started_at : num; rn_updated_at : num }.

(** The detail text of an event, by the parts it is formatted from. *)
Inductive stage_detail :=
  | DSkipped
  | DBlocked (source : string) (tier : json)
  | DRateLimited (source : string) (tier : json)
  | DNotified (channel : json)
  | DReport (host : string) (at_secs : Z)
  | DReportFailed
  | DUnknown (stage_type : json).

Record PlaybookEvent := mkEvent {
  pe_id : Z; pe_run_id : Z; pe_stage_index : Z; pe_stage_type : json;
  pe_fired_at : num; pe_target_source : option string; pe_detail : stage_detail }.

Record User := mkUser { us_username : string; us_password_hash : string; us_salt : string }.

Record Database := mkDb {
  db_users : list User;
  db_logs : table LogRow;
  db_metrics : table MetricRow;
  db_auto_label_runs : table AutoLabelRun;
  db_playbooks : table Playbook;
  db_runs : table PlaybookRun;
  db_events : table PlaybookEvent }.

#[global] Instance run_status_eq_dec : EqDecision run_status.
Proof. solve_decision. Defined.

Definition empty_table {R} : table R := mkTable [] 0%Z.
Definition empty_db : Database :=
  mkDb [] empty_table empty_table empty_table empty_table empty_table empty_table.

(** ** Files *)

(** The paths of config.py, which are pairwise distinct. *)
Inductive path : Type :=
  | WHITELIST_PATH | SHARED_IPS_PATH | VICTIMS_PATH
  | ENFORCEMENT_CONFIG_PATH | ALERTS_CONFIG_PATH | FLOWS_PATH
  | ANOMALOUS_CSV_PATH | PRETRAINING_CSV_PATH | DDOS_CAPTURE_CSV_PATH
  | AUTO_LABELED_CSV_PATH | TRAINING_CSV_PATH.

#[global] Instance path_eq_dec : EqDecision path.
Proof. solve_decision. Defined.

Definition path_code (p : path) : nat :=
  match p with
  | WHITELIST_PATH => 0 | SHARED_IPS_PATH => 1 | VICTIMS_PATH => 2
  | ENFORCEMENT_CONFIG_PATH => 3 | ALERTS_CONFIG_PATH => 4 | FLOWS_PATH => 5
  | ANOMALOUS_CSV_PATH => 6 | PRETRAINING_CSV_PATH => 7 | DDOS_CAPTURE_CSV_PATH => 8
  | AUTO_LABELED_CSV_PATH => 9 | TRAINING_CSV_PATH => 10
  end.
Definition path_decode (n : nat) : option path :=
  [WHITELIST_PATH; SHARED_IPS_PATH; VICTIMS_PATH; ENFORCEMENT_CONFIG_PATH;
   ALERTS_CONFIG_PATH; FLOWS_PATH; ANOMALOUS_CSV_PATH; PRETRAINING_CSV_PATH;
   DDOS_CAPTURE_CSV_PATH; AUTO_LABELED_CSV_PATH; TRAINING_CSV_PATH] !! n.
#[global] Program Instance path_countable : Countable path :=
  inj_countable path_code path_decode _.
Next Obligation. by intros []. Qed.

(** A file the process may open for reading JSON: a regular file, a symlink
    to readable text (refused under O_NOFOLLOW), or a path whose open fails. *)
Inductive jfile : Type :=
  | JText (t : jtext)
  | JSymlink (t : jtext)
  | JDenied.

(** ** Commands and alerts sent out *)

Inductive ipset_name := ddos_blocklist | ddos_ratelimit.
Inductive chain := INPUT | FORWARD.

(** The two rules Stage 2 manages: drop everything from ddos_blocklist, and
    drop what exceeds [pps] from ddos_ratelimit. *)
Inductive rule := RuleBlock | RuleHashlimit (pps : json).

Inductive cmd :=
  | IpsetCreate (s : ipset_name)
  | IpsetAdd (s : ipset_name) (ip : string) (timeout : json)
  | IpsetDel (s : ipset_name) (ip : string)
  | IpsetList (s : ipset_name)
  | IptCheck (c : chain) (r : rule)
  | IptInsert (c : chain) (r : rule)
  | IptDelete (c : chain) (r : rule).

(** [subprocess.run] returns an exit status and output, or raises. *)
Inductive proc_result :=
  | PDone (rc : Z) (out : string)
  | PRaise (e : exn).

Inductive event :=
  | EvCmd (c : cmd) (r : proc_result)
  | EvAlert (subject message channel : string).

(** ** The receiver's module variables *)

Record Capture := mkCapture {
  cp_pending : gmap path (list (list string));
  cp_lock_warned : gset path;
  cp_cap_warned : gset path }.

(** Latency samples by kind: handoff, inference, enforcement, window_to_rule, busy. *)
Inductive lat_kind := LHandoff | LInference | LEnforcement | LWindowToRule | LBusy.
#[global] Instance lat_kind_eq_dec : EqDecision lat_kind.
Proof. solve_decision. Defined.
Definition KINDS : list lat_kind := [LHandoff; LInference; LEnforcement; LWindowToRule; LBusy].

Record LatencyStats := mkLatency {
  la_samples : lat_kind → list num;
  la_counts : lat_kind → Z }.

Record StepSecs := mkSteps { ss_database : num; ss_flows : num; ss_enforcement : num }.

Definition empty_latency : LatencyStats := mkLatency (λ _, []) (λ _, 0%Z).

(** ** The world *)

Record World := mkWorld {
  w_ticks : nat;
  w_state : SharedState;
  w_json : gmap path jfile;
  w_tmp : gset path;
  w_csv : gmap path string;
  w_db : Database;
  w_conn : option string;
  w_last_purge : option num;
  w_alertq : list (string * string * string);
  w_capture : Capture;
  w_latency : LatencyStats;
  w_steps : StepSecs;
  w_lat_last : num;
  w_trace : list event }.

Definition set_ticks (n : nat) (w : World) : World :=
  let 'mkWorld _ a b c d e f g h i j k l m := w in mkWorld n a b c d e f g h i j k l m.
Definition upd_state (u : SharedState → SharedState) (w : World) : World :=
  let 'mkWorld z a b c d e f g h i j k l m := w in mkWorld z (u a) b c d e f g h i j k l m.
Definition set_json (x : gmap path jfile) (w : World) : World :=
  let 'mkWorld z a b c d e f g h i j k l m := w in mkWorld z a x c d e f g h i j k l m.
Definition set_tmp (x : gset path) (w : World) : World :=
  let 'mkWorld z a b c d e f g h i j k l m := w in mkWorld z a b x d e f g h i j k l m.
Definition set_csv (x : gmap path string) (w : World) : World :=
  let 'mkWorld z a b c d e f g h i j k l m := w in mkWorld z a b c x e f g h i j k l m.
Definition upd_db (u : Database → Database) (w : World) : World :=
  let 'mkWorld z a b c d e f g h i j k l m := w in mkWorld z a b c d (u e) f g h i j k l m.
Definition set_conn (x : option string) (w : World) : World :=
  let 'mkWorld z a b c d e f g h i j k l m := w in mkWorld z a b c d e x g h i j k l m.
Definition set_last_purge (x : option num) (w : World) : World :=
  let 'mkWorld z a b c d e f g h i j k l m := w in mkWorld z a b c d e f x h i j k l m.
Definition set_alertq (x : list (string * string * string)) (w : World) : World :=
  let 'mkWorld z a b c d e f g h i j k l m := w in mkWorld z a b c d e f g x i j k l m.
Definition upd_capture (u : Capture → Capture) (w : World) : World :=
  let 'mkWorld z a b c d e f g h i j k l m := w in mkWorld z a b c d e f g h (u i) j k l m.
Definition upd_latency (u : LatencyStats → LatencyStats) (w : World) : World :=
  let 'mkWorld z a b c d e f g h i j k l m := w in mkWorld z a b c d e f g h i (u j) k l m.
Definition upd_steps (u : StepSecs → StepSecs) (w : World) : World :=
  let 'mkWorld z a b c d e f g h i j k l m := w in mkWorld z a b c d e f g h i j (u k) l m.
Definition set_lat_last (x : num) (w : World) : World :=
  let 'mkWorld z a b c d e f g h i j k l m := w in mkWorld z a b c d e f g h i j k x m.
Definition emit (ev : event) (w : World) : World :=
  let 'mkWorld z a b c d e f g h i j k l m := w in mkWorld z a b c d e f g h i j k l (m ++ [ev]).

(** Updates of single fields of the shared state. *)
Definition upd_consecutive (u : gmap string Z → gmap string Z) (s : SharedState) : SharedState :=
  let 'mkShared a b c d e f g h i j k := s in mkShared a b (u c) d e f g h i j k.
Definition upd_recently_blocked (u : gmap string num → gmap string num) (s : SharedState) : SharedState :=
  let 'mkShared a b c d e f g h i j k := s in mkShared a b c (u d) e f g h i j k.
Definition upd_sessions (u : gmap string Session → gmap string Session) (s : SharedState) : SharedState :=
  let 'mkShared a b c d e f g h i j k := s in mkShared a b c d (u e) f g h i j k.
Definition upd_failed_login (u : gmap string (list num) → gmap string (list num)) (s : SharedState) : SharedState :=
  let 'mkShared a b c d e f g h i j k := s in mkShared a b c d e (u f) g h i j k.
Definition upd_failed_reauth (u : gmap string (list num) → gmap string (list num)) (s : SharedState) : SharedState :=
  let 'mkShared a b c d e f g h i j k := s in mkShared a b c d e f (u g) h i j k.
Definition upd_last_class (u : gmap string string → gmap string string) (s : SharedState) : SharedState :=
  let 'mkShared a b c d e f g h i j k := s in mkShared a b c d e f g (u h) i j k.
Definition upd_last_block_alert (u : gmap string num → gmap string num) (s : SharedState) : SharedState :=
  let 'mkShared a b c d e f g h i j k := s in mkShared a b c d e f g h (u i) j k.
Definition upd_last_tier (u : gmap string Z → gmap string Z) (s : SharedState) : SharedState :=
  let 'mkShared a b c d e f g h i j k := s in mkShared a b c d e f g h i (u j) k.
Definition upd_ddos_sources (u : list (string * DdosSource) → list (string * DdosSource)) (s : SharedState) : SharedState :=
  let 'mkShared a b c d e f g h i j k := s in mkShared a b c d e f g h i j (u k).
Definition set_metrics (m : Metrics) (s : SharedState) : SharedState :=
  let 'mkShared a b c d e f g h i j k := s in mkShared m b c d e f g h i j k.
Definition upd_metrics_by_target (u : list (string * Metrics) → list (string * Metrics)) (s : SharedState) : SharedState :=
  let 'mkShared a b c d e f g h i j k := s in mkShared a (u b) c d e f g h i j k.

(** ** The environment *)

(** Operator-set values of config.py. *)
Record Settings := mkSettings {
  DB_PATH : string;
  FLOWS_MAX_AGE_SECS : num;
  SLOW_WINDOW_LOG_SECS : num;
  CAPTURE_PENDING_MAX_ROWS : nat;
  PRETRAINING_MAX_BYTES : Z;
  LATENCY_LOG_INTERVAL_SECS : num;
  AUTO_LABEL_DELAY_HOURS : num;
  AUTO_LABEL_CONFIDENCE_THRESHOLD : num;
  AUTO_LABEL_MAX_QUEUE_ROWS : nat }.

Definition default_settings : Settings :=
  mkSettings "stage2.db" (flt 30 1) (flt 1 1) 5000 52428800 (flt 30 1)
             (flt 24 1) (flt 9 10) (N.to_nat 50000).

Class Env := mkEnv {
  clk : nat → num;
  sub : nat → list event → cmd → proc_result;
  io_ok : nat → bool;
  partial_write : nat → nat;
  settings : Settings }.

Section effects.
Context {E : Env}.

Definition tick (w : World) : World := set_ticks (S (w_ticks w)) w.

(** [time.time()], [time.monotonic()] and [time.perf_counter()]. *)
Definition time_time : M World num := λ w, (Ok (clk (w_ticks w)), tick w).

(** [subprocess.run(...)]: the command and its outcome go on the trace. *)
Definition run_cmd (c : cmd) : M World (Z * string) := λ w,
  let r := sub (w_ticks w) (w_trace w) c in
  let w' := emit (EvCmd c r) (tick w) in
  match r with PDone rc out => (Ok (rc, out), w') | PRaise e => (Exn e, w') end.

(** Does this I/O operation succeed? A write that fails may have put some
    of its bytes in the file already; [partial_write] says how many. *)
Definition io : M World bool := λ w, (Ok (io_ok (w_ticks w)), tick w).
End effects.

(** A plain [open] for reading: follows a symlink. *)
Definition open_read (files : gmap path jfile) (p : path) : res jtext :=
  match files !! p with
  | Some (JText t) | Some (JSymlink t) => Ok t
  | Some JDenied => Exn OSError
  | None => Exn FileNotFoundError
  end.

(** ** Invariants the plumbing cannot break

    Most invariants speak about a few fields of the world. These classes say
    which kinds of update an invariant is insensitive to, so that one lemma
    per function covers all of them. *)

Definition publish_json (p : path) (j : json) (w : World) : World :=
  set_json (<[p := JText (JGood j)]> (w_json w)) w.

Class StEnv (I : World → Prop) : Prop := {
  st_ticks n w : I w → I (set_ticks n w);
  st_tmp x w : I w → I (set_tmp x w);
  st_conn x w : I w → I (set_conn x w);
  st_purge x w : I w → I (set_last_purge x w);
  st_new_file p j w : w_json w !! p = None → I w → I (publish_json p j w);
  st_latency u w : I w → I (upd_latency u w);
  st_steps u w : I w → I (upd_steps u w);
  st_lat_last x w : I w → I (set_lat_last x w) }.

(** Insensitive to alerts going out. *)
Class StAlert (I : World → Prop) : Prop := {
  st_emit_alert s m c w : I w → I (emit (EvAlert s m c) w);
  st_alertq q w : I w → I (set_alertq q w) }.

(** Insensitive to any command of a class [P]. *)
Class StCmd (P : cmd → Prop) (I : World → Prop) : Prop :=
  st_emit_cmd c r w : P c → I w → I (emit (EvCmd c r) w).

(** Insensitive to the capture files and their queues. *)
Class StCapture (I : World → Prop) : Prop := {
  st_capture u w : I w → I (upd_capture u w);
  st_csv x w : I w → I (set_csv x w) }.

(** Insensitive to the shared state, or to the database. *)
Class StState (I : World → Prop) : Prop := st_state u w : I w → I (upd_state u w).
Class StDb (I : World → Prop) : Prop := st_db u w : I w → I (upd_db u w).

Section env_rules.
Context {E : Env} (I : World → Prop) `{!StEnv I}.

Lemma pres_time_time : pres I time_time.
Proof. intros w Hw. by apply st_ticks. Qed.

Lemma pres_io : pres I io.
Proof. intros w Hw. by apply st_ticks. Qed.

Lemma pres_run_cmd P c `{!StCmd P I} : P c → pres I (run_cmd c).
Proof.
  intros Hc w Hw. unfold run_cmd. destruct (sub _ _ _); simpl;
    apply st_emit_cmd; try done; by apply st_ticks.
Qed.
End env_rules.

#[export] Hint Resolve pres_time_time pres_io : pres.
#[export] Hint Extern 1 (pres _ (modify (upd_state _))) =>
  (apply pres_modify; intros; apply st_state; assumption) : pres.

(** [fs] is still on disk and everything sent out since [t0] satisfies [P]. *)
Definition trace_inv (fs : gmap path jfile) (t0 : list event) (P : event → Prop)
    (w : World) : Prop :=
  fs ⊆ w_json w ∧ ∃ l, w_trace w = t0 ++ l ∧ Forall P l.

Lemma trace_inv_init fs P w : fs ⊆ w_json w → trace_inv fs (w_trace w) P w.
Proof. intros H. split; [done|]. exists []. by rewrite app_nil_r. Qed.

Lemma trace_inv_emit fs t0 (P : event → Prop) ev w :
  P ev → trace_inv fs t0 P w → trace_inv fs t0 P (emit ev w).
Proof.
  intros Hev (Hfs & l & Hl & HP). split; [by destruct w|].
  exists (l ++ [ev]). split; [destruct w; simpl in *; by rewrite Hl, app_assoc|].
  apply Forall_app_2; auto.
Qed.

#[global] Instance trace_inv_env fs t0 P : StEnv (trace_inv fs t0 P).
Proof.
  split; try (by intros ? []; unfold trace_inv; simpl).
  intros p j w Hp (Hfs & l & Hl & HP). split; [|by exists l; destruct w].
  destruct w; simpl in *. transitivity w_json0; [done|]. by apply insert_subseteq.
Qed.

#[global] Instance trace_inv_state fs t0 P : StState (trace_inv fs t0 P).
Proof. by intros ? []. Qed.
#[global] Instance trace_inv_capture fs t0 P : StCapture (trace_inv fs t0 P).
Proof. split; by intros ? []. Qed.
#[global] Instance trace_inv_db fs t0 P : StDb (trace_inv fs t0 P).
Proof. by intros ? []. Qed.

#[global] Instance trace_inv_cmd fs t0 P : StCmd (λ c, ∀ r, P (EvCmd c r)) (trace_inv fs t0 P).
Proof. intros c r w Hc Hw. by apply trace_inv_emit. Qed.

(** A predicate of the shared state, or of the database, alone. *)
Definition state_inv (Q : SharedState → Prop) (w : World) : Prop := Q (w_state w).
Definition db_inv (Q : Database → Prop) (w : World) : Prop := Q (w_db w).

#[global] Instance state_inv_env Q : StEnv (state_inv Q).
Proof. split; try (by intros ? []); by intros ? ? []. Qed.
#[global] Instance state_inv_alert Q : StAlert (state_inv Q).
Proof. split; [by intros ? ? ? []|by intros ? []]. Qed.
#[global] Instance state_inv_cmd P Q : StCmd P (state_inv Q).
Proof. by intros ? ? []. Qed.
#[global] Instance state_inv_capture Q : StCapture (state_inv Q).
Proof. split; by intros ? []. Qed.
#[global] Instance state_inv_db Q : StDb (state_inv Q).
Proof. by intros ? []. Qed.
#[global] Instance db_inv_env Q : StEnv (db_inv Q).
Proof. split; try (by intros ? []); by intros ? ? []. Qed.
#[global] Instance db_inv_alert Q : StAlert (db_inv Q).
Proof. split; [by intros ? ? ? []|by intros ? []]. Qed.
#[global] Instance db_inv_cmd P Q : StCmd P (db_inv Q).
Proof. by intros ? ? []. Qed.
#[global] Instance db_inv_capture Q : StCapture (db_inv Q).
Proof. split; by intros ? []. Qed.
#[global] Instance db_inv_state Q : StState (db_inv Q).
Proof. by intros ? []. Qed.

Lemma emit_trace ev w : w_trace (emit ev w) = w_trace w ++ [ev].
Proof. by destruct w. Qed.

(** ** A process that has just started

    Nothing on disk, an empty database, commands and I/O that succeed and a
    clock that advances by a second per reading. *)
Definition empty_world : World :=
  mkWorld 0 initial_state ∅ ∅ ∅ empty_db None None [] (mkCapture ∅ ∅ ∅) empty_latency
          (mkSteps f0 f0 f0) f0 [].

Definition calm_env : Env :=
  mkEnv (λ n, NInt (1000000 + Z.of_nat n)) (λ _ _ _, PDone 0 EmptyString) (λ _, true) (λ _, 0%nat)
        default_settings.

(** The same with the clock standing still. *)
Definition still_env : Env :=
  mkEnv (λ _, NInt 1000000) (λ _ _ _, PDone 0 EmptyString) (λ _, true) (λ _, 0%nat) default_settings.
