(* ===== verification/Schema.v ===== *)
(** * schema.py: creating and migrating the database file

    The tables with their columns, and [apply] over a connection of Python's
    [sqlite3] in its default mode: a transaction is opened before an INSERT and
    before nothing else, so every other statement takes effect at once unless
    a transaction is open. Any statement may fail. Only the incident records
    are followed row by row. *)

From S2P Require Import Prelude PyNum World.

(** ** The database file *)

(** A table: its columns with their NOT NULL flags, and the rows of [logs]. *)
Record Table := mkTable { tl_columns : list (string * bool); tl_logs : list LogRow }.

(** The tables by name, and each index with the table it is on. *)
Record Store := mkStore { st_tables : gmap string Table; st_indexes : gmap string string }.

(** What a connection sees, and what the file holds while a transaction is open. *)
Record Conn := mkConn { cn_store : Store; cn_saved : option Store; cn_tick : nat }.

Definition on_disk (c : Conn) : Store := default (cn_store c) (cn_saved c).

Definition TABLES : list (string * list (string * bool)) :=
  [("users", [("username", false); ("password_hash", true); ("salt", false)]);
   ("logs", [("id", false); ("timestamp", true); ("src_ip", true); ("dst_ip", false); ("proto", false);
             ("rate", false); ("entropy", false); ("classification", true)]);
   ("metrics_history", [("id", false); ("timestamp", true); ("ewma_rate", false); ("entropy", false);
             ("mean_h", false); ("mean_r", false); ("sigma_h", false); ("sigma_r", false);
             ("k_multiplier", false); ("victim_ip", false)]);
   ("auto_label_runs", [("id", false); ("timestamp", true); ("rows_labeled", true); ("resolved", true)]);
   ("playbooks", [("id", false); ("name", true); ("target_scope_type", true); ("target_scope_value", false);
             ("enabled", true); ("definition", true); ("created_at", true); ("updated_at", true)]);
   ("playbook_runs", [("id", false); ("playbook_id", true); ("target_host", true); ("target_source", false);
             ("current_stage_index", true); ("status", true); ("trigger_reason", false); ("started_at", true);
             ("updated_at", true)]);
   ("playbook_events", [("id", false); ("run_id", true); ("stage_index", true); ("stage_type", true);
             ("fired_at", true); ("target_source", false); ("detail", false)])]%string.

Definition INDEXES : list (string * string) :=
  [("idx_logs_classification_id", "logs"); ("idx_auto_label_runs_resolved", "auto_label_runs");
   ("idx_playbook_runs_status", "playbook_runs"); ("idx_playbook_events_run_id", "playbook_events")]%string.

Definition OLD_LOGS : string := "logs_pre_migration".
Definition logs_columns : list (string * bool) := default [] (dict_get "logs" TABLES).

(** ** Statements, as partial functions on the store *)

Definition create_table (name : string) (columns : list (string * bool)) (s : Store) : option Store :=
  Some (match st_tables s !! name with
        | Some _ => s
        | None => mkStore (<[name := mkTable columns []]> (st_tables s)) (st_indexes s)
        end).

(** [CREATE TABLE IF NOT EXISTS] leaves a table that is there alone. *)
Definition create_index (name table : string) (s : Store) : option Store :=
  match st_indexes s !! name, st_tables s !! table with
  | Some _, _ => Some s
  | None, Some _ => Some (mkStore (st_tables s) (<[name := table]> (st_indexes s)))
  | None, None => None
  end.

Definition add_column (table column : string) (s : Store) : option Store :=
  match st_tables s !! table with
  | Some t => if bool_decide (column ∈ (tl_columns t).*1) then None
              else Some (mkStore (<[table := mkTable (tl_columns t ++ [(column, false)]) (tl_logs t)]> (st_tables s))
                                 (st_indexes s))
  | None => None
  end.

(** The indexes of a renamed table follow it. *)
Definition rename_table (old new : string) (s : Store) : option Store :=
  match st_tables s !! old, st_tables s !! new with
  | Some t, None =>
      Some (mkStore (<[new := t]> (delete old (st_tables s)))
                    ((λ on, if bool_decide (on = old) then new else on) <$> st_indexes s))
  | _, _ => None
  end.

Definition copy_logs (from to : string) (s : Store) : option Store :=
  match st_tables s !! from, st_tables s !! to with
  | Some f, Some t =>
      Some (mkStore (<[to := mkTable (tl_columns t) (tl_logs t ++ tl_logs f)]> (st_tables s)) (st_indexes s))
  | _, _ => None
  end.

Definition drop_table (name : string) (s : Store) : option Store :=
  match st_tables s !! name with
  | Some _ => Some (mkStore (delete name (st_tables s)) (filter (λ i, i.2 ≠ name) (st_indexes s)))
  | None => None
  end.

(** ** [apply] *)

Section apply.
Context (sql_ok : nat → bool).

Definition next (c : Conn) : Conn := mkConn (cn_store c) (cn_saved c) (S (cn_tick c)).
Definition set_store (s : Store) (c : Conn) : Conn := mkConn s (cn_saved c) (cn_tick c).
Definition begin_tx (c : Conn) : Conn := mkConn (cn_store c) (Some (on_disk c)) (cn_tick c).

(** [conn.execute(sql)] of anything but an INSERT. *)
Definition ddl (f : Store → option Store) : M Conn unit := λ c,
  if sql_ok (cn_tick c) then
    match f (cn_store c) with
    | Some s => (Ok tt, set_store s (next c))
    | None => (Exn SqliteError, next c)
    end
  else (Exn SqliteError, next c).

(** [conn.execute("INSERT ...")]: a transaction is opened first. *)
Definition insert (f : Store → option Store) : M Conn unit := λ c, ddl f (begin_tx c).

Definition commit : M Conn unit := λ c,
  if sql_ok (cn_tick c) then (Ok tt, mkConn (cn_store c) None (S (cn_tick c))) else (Exn SqliteError, next c).
Definition rollback : M Conn unit := λ c, (Ok tt, mkConn (on_disk c) None (cn_tick c)).

(** Column name to its NOT NULL flag. *)
Definition _columns (table : string) : M Conn (list (string * bool)) := λ c,
  if sql_ok (cn_tick c) then
    (Ok (match st_tables (cn_store c) !! table with Some t => tl_columns t | None => [] end), next c)
  else (Exn SqliteError, next c).

Definition sqlite_error (k : M Conn unit) (e : exn) : option (M Conn unit) :=
  match e with SqliteError => Some k | _ => None end.

Definition _add_victim_ip : M Conn unit :=
  columns ← _columns "metrics_history";
  if bool_decide ("victim_ip"%string ∈ columns.*1) then mret tt
  else try_except (ddl (add_column "metrics_history" "victim_ip")) (sqlite_error (mret tt)).

Definition rebuild_logs : M Conn unit :=
  ddl (rename_table "logs" OLD_LOGS);;
  ddl (create_table "logs" logs_columns);;
  insert (copy_logs OLD_LOGS "logs");;
  ddl (drop_table OLD_LOGS);;
  commit.

Definition _relax_logs_rate : M Conn unit :=
  columns ← _columns "logs";
  if negb (default false (dict_get "rate" columns)) then mret tt
  else try_except rebuild_logs (sqlite_error rollback).

Definition apply : M Conn unit :=
  for_each TABLES (λ t, ddl (create_table t.1 t.2));;
  _add_victim_ip;;
  _relax_logs_rate;;
  for_each INDEXES (λ i, ddl (create_index i.1 i.2));;
  commit.
End apply.

(** ** No incident is lost *)

Definition rows_of (name : string) (s : Store) : list LogRow :=
  match st_tables s !! name with Some t => tl_logs t | None => [] end.

(** The incident records of a file: those of [logs] and those of a table that
    a migration has set aside. *)
Definition incidents (s : Store) : list LogRow := rows_of "logs" s ++ rows_of OLD_LOGS s.

(** A connection with no open transaction that holds these incidents. *)
Definition settled (l : list LogRow) (c : Conn) : Prop := cn_saved c = None ∧ incidents (cn_store c) ≡ₚ l.

Definition keeps (f : Store → option Store) : Prop := ∀ s s', f s = Some s' → incidents s' ≡ₚ incidents s.

Lemma rows_insert n m t x s :
  rows_of n (mkStore (<[m := t]> (st_tables s)) x) = if decide (m = n) then tl_logs t else rows_of n s.
Proof. unfold rows_of. simpl. rewrite lookup_insert. by destruct (decide (m = n)). Qed.

Lemma keeps_create name columns : keeps (create_table name columns).
Proof.
  intros s s' [= <-]. destruct (st_tables s !! name) eqn:Hn; [done|]. unfold incidents. rewrite !rows_insert.
  assert (rows_of name s = []) as Hr by (unfold rows_of; by rewrite Hn).
  repeat case_decide; subst; simpl; by rewrite ?Hr.
Qed.

Lemma keeps_index name table : keeps (create_index name table).
Proof.
  intros s s'. unfold create_index. destruct (st_indexes s !! name); [by intros [= <-]|].
  destruct (st_tables s !! table); [|done]. by intros [= <-].
Qed.

Lemma keeps_column table column : keeps (add_column table column).
Proof.
  intros s s'. unfold add_column. destruct (st_tables s !! table) as [t|] eqn:Ht; [|done].
  case_bool_decide; [done|]. intros [= <-]. unfold incidents. rewrite !rows_insert.
  assert (rows_of table s = tl_logs t) as Hr by (unfold rows_of; by rewrite Ht).
  repeat case_decide; subst; simpl; by rewrite ?Hr.
Qed.

Lemma keeps_rename : keeps (rename_table "logs" OLD_LOGS).
Proof.
  intros s s'. unfold rename_table. destruct (st_tables s !! "logs"%string) as [t|] eqn:Ht; [|done].
  destruct (st_tables s !! OLD_LOGS) eqn:Ho; [done|]. intros [= <-]. unfold incidents, rows_of. simpl.
  rewrite lookup_insert_ne, lookup_delete_eq, lookup_insert_eq, Ht, Ho by done. simpl. by rewrite app_nil_r.
Qed.

Section facts.
Context (sql_ok : nat → bool) (l : list LogRow).

Lemma settled_ddl f : keeps f → pres (settled l) (ddl sql_ok f).
Proof.
  intros Hf c [Hs Hl]. unfold ddl. destruct (sql_ok _); [|done]. destruct (f (cn_store c)) as [s|] eqn:E; [|done].
  split; [done|]. simpl. by rewrite (Hf _ _ E).
Qed.

Lemma settled_commit : pres (settled l) (commit sql_ok).
Proof. intros c [Hs Hl]. unfold commit. by destruct (sql_ok _). Qed.

Lemma settled_columns t : pres (settled l) (_columns sql_ok t).
Proof. intros c [Hs Hl]. unfold _columns. by destruct (sql_ok _). Qed.

Lemma settled_add_victim_ip : pres (settled l) (_add_victim_ip sql_ok).
Proof.
  apply pres_bind; [apply settled_columns|]. intros cols. apply pres_if; [apply pres_ret|].
  apply pres_try_except; [apply settled_ddl, keeps_column|]. intros [] k; simpl; intros [= <-]. apply pres_ret.
Qed.

Lemma ddl_cases f c :
  (∃ s, f (cn_store c) = Some s ∧ ddl sql_ok f c = (Ok tt, set_store s (next c))) ∨
  ddl sql_ok f c = (Exn SqliteError, next c).
Proof. unfold ddl. destruct (sql_ok _); [|by right]. destruct (f _) as [s|]; [left; by exists s|by right]. Qed.

(** What the rebuild leaves: everything in place, or a failure with the file
    still holding every incident. *)
Lemma rebuild_cases c :
  settled l c →
  (∃ c', rebuild_logs sql_ok c = (Ok tt, c') ∧ settled l c') ∨
  (∃ c', rebuild_logs sql_ok c = (Exn SqliteError, c') ∧ incidents (on_disk c') ≡ₚ l).
Proof.
  intros [Hs Hl]. unfold rebuild_logs, mbind, M_bind.
  destruct (ddl_cases (rename_table "logs" OLD_LOGS) c) as [(s1 & H1 & ->)| ->];
    [|right; eexists; split; [done|]; unfold on_disk; simpl; by rewrite Hs].
  pose proof (keeps_rename _ _ H1) as K1. set (c1 := set_store s1 (next c)).
  assert (Hs1 : cn_saved c1 = None) by done.
  destruct (ddl_cases (create_table "logs" logs_columns) c1) as [(s2 & H2 & ->)| ->];
    [|right; eexists; split; [done|]; unfold on_disk; simpl; rewrite Hs; simpl; by rewrite K1].
  pose proof (keeps_create _ _ _ _ H2) as K2. simpl in K2. set (c2 := set_store s2 (next c1)).
  assert (Hdisk : incidents s2 ≡ₚ l) by by rewrite K2, K1.
  unfold insert. set (c3 := begin_tx c2).
  assert (Hs3 : on_disk c3 = s2) by (unfold c3, begin_tx, on_disk; simpl; by rewrite Hs).
  assert (Hsv : cn_saved c3 = Some s2) by (unfold c3, begin_tx, on_disk; simpl; by rewrite Hs).
  destruct (ddl_cases (copy_logs OLD_LOGS "logs") c3) as [(s4 & H4 & ->)| ->];
    [|right; eexists; split; [done|]; unfold on_disk in *; simpl in *; by rewrite Hs3].
  set (c4 := set_store s4 (next c3)).
  destruct (ddl_cases (drop_table OLD_LOGS) c4) as [(s5 & H5 & ->)| ->];
    [|right; eexists; split; [done|]; unfold on_disk in *; simpl in *; by rewrite Hs3].
  unfold commit. simpl. destruct (sql_ok _);
    [|right; eexists; split; [done|]; unfold on_disk in *; simpl in *; by rewrite Hs3].
  left. eexists. split; [done|]. split; [done|]. simpl. etransitivity; [|exact Hdisk].
  (* the new table has the rows of the old one *)
  unfold create_table in H2. unfold rename_table in H1.
  destruct (st_tables (cn_store c) !! "logs"%string) as [t|] eqn:Ht; [|done].
  destruct (st_tables (cn_store c) !! OLD_LOGS) eqn:Ho; [done|]. injection H1 as H1.
  assert (L1 : st_tables s1 !! "logs"%string = None ∧ st_tables s1 !! OLD_LOGS = Some t).
  { subst s1. simpl. by rewrite lookup_insert_ne, lookup_delete_eq, lookup_insert_eq. }
  destruct L1 as [L1 L2]. simpl in H2. rewrite L1 in H2. injection H2 as H2.
  assert (M2 : st_tables s2 = <["logs"%string := mkTable logs_columns []]> (st_tables s1)) by by subst s2.
  change (cn_store c3) with s2 in H4. unfold copy_logs in H4. rewrite M2 in H4.
  rewrite lookup_insert_ne, L2, lookup_insert_eq in H4 by done. injection H4 as H4.
  assert (M4 : st_tables s4 = <["logs"%string := mkTable logs_columns (tl_logs t)]> (st_tables s2)) by (subst s4; simpl; by rewrite M2).
  change (cn_store c4) with s4 in H5. unfold drop_table in H5. rewrite M4 in H5.
  destruct (<["logs"%string := mkTable logs_columns (tl_logs t)]> (st_tables s2) !! OLD_LOGS); [|done]. injection H5 as <-.
  unfold incidents, rows_of. simpl. rewrite M2. rewrite lookup_delete_ne, lookup_insert_eq, lookup_delete_eq by done.
  rewrite lookup_insert_eq, lookup_insert_ne, L2 by done. simpl. by rewrite app_nil_r.
Qed.

Lemma settled_relax : pres (settled l) (_relax_logs_rate sql_ok).
Proof.
  apply pres_bind; [apply settled_columns|]. intros cols. apply pres_if; [apply pres_ret|].
  intros c Hc. unfold try_except. destruct (rebuild_cases c Hc) as [(c' & -> & Hc')|(c' & -> & Hc')]; [done|].
  simpl. split; done.
Qed.
End facts.

(** C13: No incident is lost to a migration: whatever statement fails, wherever the
    run breaks off, every incident record of the file is in it afterwards, in
    [logs] or in the table the migration set aside, exactly as often. *)
Theorem incidents_kept sql_ok c :
  cn_saved c = None → incidents (on_disk (apply sql_ok c).2) ≡ₚ incidents (on_disk c).
Proof.
  intros Hs. set (l := incidents (on_disk c)).
  assert (H : settled l (apply sql_ok c).2); [|destruct H as [H1 H2]; unfold on_disk; by rewrite H1].
  revert Hs. assert (Hl : cn_saved c = None → settled l c).
  { intros Hs. split; [done|]. unfold l, on_disk. by rewrite Hs. }
  intros Hs. apply Hl in Hs. revert Hs. unfold apply. generalize l. clear. intros l Hc.
  refine (_ c Hc). apply pres_bind; [apply pres_for_each; intros [] _; apply settled_ddl, keeps_create|intros _].
  apply pres_bind; [apply settled_add_victim_ip|intros _]. apply pres_bind; [apply settled_relax|intros _].
  apply pres_bind; [|intros _; apply settled_commit].
  apply pres_for_each. intros [] _. apply settled_ddl, keeps_index.
Qed.

(** ** A file of an earlier release *)

(** [logs.rate] still required, [metrics_history] without [victim_ip]. *)
Definition old_columns (name : string) (columns : list (string * bool)) : list (string * bool) :=
  if bool_decide (name = "logs"%string) then (λ c, (c.1, c.2 || bool_decide (c.1 = "rate"%string))) <$> columns
  else List.filter (λ c, negb (bool_decide (c.1 = "victim_ip"%string))) columns.

Definition old_release (rows : list LogRow) : Store :=
  mkStore (list_to_map ((λ t, (t.1, mkTable (old_columns t.1 t.2) (if bool_decide (t.1 = "logs"%string) then rows else [])))
                          <$> TABLES))
          (list_to_map INDEXES).

Definition opened (s : Store) : Conn := mkConn s None 0.

(** When every statement succeeds the file is migrated: the records are where
    they were, the rate is optional, the victim column is there, nothing is set
    aside, and the rebuilt table has its index again. *)
Theorem migration_completes rows :
  let '(r, c) := apply (λ _, true) (opened (old_release rows)) in
  r = Ok tt ∧ cn_saved c = None ∧ rows_of "logs" (cn_store c) = rows ∧
  tl_columns <$> st_tables (cn_store c) !! "logs"%string = Some logs_columns ∧
  tl_columns <$> st_tables (cn_store c) !! "metrics_history"%string = dict_get "metrics_history" TABLES ∧
  st_tables (cn_store c) !! OLD_LOGS = None ∧
  st_indexes (cn_store c) !! "idx_logs_classification_id"%string = Some "logs"%string.
Proof. vm_compute. repeat split. Qed.

(** The records that [logs] no longer shows, and a [logs] that needs no migration. *)
Definition stranded (rows : list LogRow) (c : Conn) : Prop :=
  cn_saved c = None ∧ rows_of OLD_LOGS (cn_store c) = rows ∧
  ∃ t, st_tables (cn_store c) !! "logs"%string = Some t ∧ tl_logs t = [] ∧ dict_get "rate" (tl_columns t) = Some false.

Lemma stranded_ddl sql_ok rows f :
  (∀ s s', f s = Some s' → ∀ n, is_Some (st_tables s !! n) → n ∈ ["logs"%string; OLD_LOGS] →
           st_tables s' !! n = st_tables s !! n) →
  (∀ s s', f s = Some s' → st_tables s !! OLD_LOGS = None → rows_of OLD_LOGS s' = []) →
  pres (stranded rows) (ddl sql_ok f).
Proof.
  intros Hf Hnew c (Hs & Hr & t & Ht & Hc). unfold ddl. destruct (sql_ok _); [|by split_and!; eauto].
  destruct (f (cn_store c)) as [s|] eqn:E; [|by split_and!; eauto]. split; [done|]. simpl. split.
  - unfold rows_of in *. destruct (st_tables (cn_store c) !! OLD_LOGS) as [o|] eqn:Ho.
    + rewrite (Hf _ _ E), Ho; [done|by rewrite Ho; eauto|set_solver].
    + by rewrite (Hnew _ _ E Ho).
  - exists t. split; [|done]. rewrite (Hf _ _ E); [done|by eauto|set_solver].
Qed.

Lemma stranded_apply sql_ok rows : pres (stranded rows) (apply sql_ok).
Proof.
  apply pres_bind; [|intros _].
  { apply pres_for_each. intros [name columns] Hin. apply stranded_ddl.
    - intros s s' [= <-] n Hn _. simpl in *. destruct (st_tables s !! name) eqn:E; [done|]. simpl.
      rewrite lookup_insert_ne; [done|]. intros ->. by rewrite E in Hn; apply is_Some_None in Hn.
    - intros s s' [= <-] Ho. simpl in *. destruct (st_tables s !! name) eqn:E; [by unfold rows_of; rewrite Ho|].
      unfold rows_of. simpl. rewrite lookup_insert. destruct (decide (name = OLD_LOGS)); [done|by rewrite Ho]. }
  apply pres_bind; [|intros _].
  { apply pres_bind; [|intros cols; apply pres_if; [apply pres_ret|]].
    - intros c H. unfold _columns. by destruct (sql_ok _).
    - apply pres_try_except; [|intros [] k; simpl; intros [= <-]; apply pres_ret].
      apply stranded_ddl; unfold add_column; intros s s'; (destruct (st_tables s !! "metrics_history"%string); [|done]);
        (case_bool_decide; [done|]); intros [= <-].
      + intros n _ Hn. simpl. rewrite lookup_insert_ne; [done|]. intros <-.
        by apply elem_of_cons in Hn as [?|?%list_elem_of_singleton].
      + intros Ho. unfold rows_of. simpl. by rewrite lookup_insert_ne, Ho. }
  apply pres_bind; [|intros _].
  { intros c Hc. unfold _relax_logs_rate, _columns, mbind, M_bind. destruct (sql_ok _); [|done].
    destruct Hc as (? & ? & t & Ht & Hl & Hr). rewrite Ht, Hr. simpl. split_and!; eauto. }
  apply pres_bind; [|intros _ c Hc; unfold commit; destruct (sql_ok _); [|done]; destruct Hc as (_ & Hr & Ht); by split_and!].
  apply pres_for_each. intros [name table] _. cbn [fst snd]. apply stranded_ddl; unfold create_index; intros s s';
    (destruct (st_indexes s !! name); [|destruct (st_tables s !! table); [|done]]); intros [= <-];
    first [by intros n | by intros Ho; unfold rows_of; simpl; rewrite Ho].
Qed.

(** When the copy fails, the error is logged as one that left the table as it
    was. The rename has already taken effect: [logs] is empty, the incidents
    are in the table set aside, and no later start brings them back. *)
Theorem failed_copy_strands rows later :
  let '(r, c) := apply (λ n, negb (n =? 12)) (opened (old_release rows)) in
  r = Ok tt ∧ stranded rows c ∧ stranded rows (foldl (λ c ok, (apply ok c).2) c later).
Proof.
  destruct (apply _ _) as [r c] eqn:E.
  assert (H : r = Ok tt ∧ stranded rows c).
  { vm_compute in E. injection E as <- <-. split; [done|]. split; [done|]. split; [done|]. by eexists. }
  destruct H as [-> Hc]. split; [done|]. split; [done|]. clear E. revert c Hc.
  induction later as [|ok later IH]; intros c Hc; [done|]. simpl. apply IH. by apply stranded_apply.
Qed.

Lemma incidents_kept_witness :
  let ok := λ n, negb (n =? 12) in
  incidents (on_disk (apply ok (opened (old_release []))).2) ≡ₚ incidents (on_disk (opened (old_release []))).
Proof. intros ok. apply (incidents_kept ok (opened (old_release []))). reflexivity. Defined.
