(* ===== verification/Storage.v ===== *)
(** * storage.py: JSON persistence and trusted model loading *)

From S2P Require Import Prelude PyNum Json World.

Section storage.
Context {E : Env}.

(** [_atomic_write]: create the temporary file exclusively, write it, rename
    it over the target; whatever happens after the creation, a leftover
    temporary file is removed. [publish] is the effect of the rename. *)
Definition _atomic_write (p : path) (publish : World → World) : M World unit :=
  tmps ← gets w_tmp;
  created ← io;
  if bool_decide (p ∈ tmps) || negb created then raise OSError
  else
    modify (λ w, set_tmp ({[p]} ∪ w_tmp w) w);;
    try_finally
      (written ← io;
       if negb written then raise OSError
       else
         renamed ← io;
         if negb renamed then raise OSError
         else modify (λ w, set_tmp (w_tmp w ∖ {[p]}) (publish w)))
      (λ w, set_tmp (w_tmp w ∖ {[p]}) w).

Definition load_json_file (p : path) (dflt : json) : M World json :=
  files ← gets w_json;
  match files !! p with
  | None => _atomic_write p (publish_json p dflt);; mret dflt
  | Some JDenied | Some (JSymlink _) => mret dflt
  | Some (JText JBad) => mret dflt
  | Some (JText (JGood j)) => mret j
  end.

Definition save_json_file (p : path) (data : json) : M World unit :=
  try_all (_atomic_write p (publish_json p data)) (mret tt).
End storage.

(** ** load_trusted_model *)

Section trusted_model.
#[local] Open Scope Z_scope.

Record Stat := mkStat { st_uid : Z; st_mode : Z }.

Definition S_IWGRP : Z := 16.     (* 0o020 *)
Definition S_IWOTH : Z := 2.      (* 0o002 *)
Definition S_IFMT : Z := 61440.   (* 0o170000 *)
Definition S_IFREG : Z := 32768.  (* 0o100000 *)

Definition S_ISREG (mode : Z) : bool := Z.land mode S_IFMT =? S_IFREG.

Definition _check_model_owner_and_mode (euid : Z) (st : Stat) : res unit :=
  let '(allowed, forbidden) :=
    if euid =? 0 then ([0], Z.lor S_IWGRP S_IWOTH) else ([0; euid], S_IWOTH) in
  if negb (bool_decide (st_uid st ∈ allowed)) then Exn PermissionError
  else if negb (Z.land (st_mode st) forbidden =? 0) then Exn PermissionError
  else Ok tt.

(** [opened] is the result of [os.open] with O_NOFOLLOW: the descriptor's
    [fstat], or [None] when the open fails; [dir] the directory's [stat];
    [load] what [joblib.load] returns on that descriptor. *)
Definition load_trusted_model {A} (euid : Z) (opened : option Stat) (dir : Stat)
    (load : res A) : res A :=
  match opened with
  | None => Exn OSError
  | Some st =>
      if negb (S_ISREG (st_mode st)) then Exn PermissionError
      else
        _ ← _check_model_owner_and_mode euid st;
        _ ← _check_model_owner_and_mode euid dir;
        load
  end.
End trusted_model.

(** ** Properties *)

Section storage_pres.
Context {E : Env} (I : World → Prop) `{!StEnv I}.

(** Writing a file that does not exist yet. *)
Lemma pres_atomic_write_new p j w :
  w_json w !! p = None → I w → I (_atomic_write p (publish_json p j) w).2.
Proof using Type*.
  intros Hp Hw.
  unfold _atomic_write, mbind, M_bind, gets, io, modify, try_finally, raise; simpl.
  assert (H1 : I (tick w)) by by apply st_ticks.
  destruct (_ || _); simpl; [done|].
  set (w1 := set_tmp _ (tick w)).
  assert (I w1 ∧ w_json w1 !! p = None) as [Hw1 Hp1].
  { split; [by apply st_tmp|by destruct w]. }
  clearbody w1.
  assert (I (tick w1) ∧ I (tick (tick w1)) ∧ w_json (tick (tick w1)) !! p = None)
    as (H2 & H3 & Hp3).
  { split_and!; [by apply st_ticks|by do 2 apply st_ticks|by destruct w1]. }
  destruct (io_ok (w_ticks w1)); simpl; [|by apply st_tmp].
  destruct (io_ok (w_ticks (tick w1))); simpl; [|by apply st_tmp].
  by apply st_tmp, st_tmp, st_new_file.
Qed.

Lemma pres_load_json_file p dflt : pres I (load_json_file p dflt).
Proof using Type*.
  intros w Hw. unfold load_json_file, gets, mbind at 1, M_bind.
  destruct (w_json w !! p) as [[[]| |]|] eqn:E'; try done.
  pose proof (pres_atomic_write_new p dflt w E' Hw) as H.
  unfold mbind. destruct (_atomic_write _ _ w) as [[] ?]; done.
Qed.
End storage_pres.

#[export] Hint Resolve pres_load_json_file : pres.

(** Reading a present, well-formed file returns its content and changes nothing. *)
Lemma load_json_file_good {E : Env} p dflt j w :
  w_json w !! p = Some (JText (JGood j)) → load_json_file p dflt w = (Ok j, w).
Proof. intros H. unfold load_json_file, gets, mbind, M_bind. by rewrite H. Qed.

Section storage_props.
Context {E : Env}.

(** Frame: what an atomic write can change. *)
Lemma _atomic_write_cases p publish w :
  p ∉ w_tmp w →
  (∃ n, (_atomic_write p publish w).2 = set_ticks n w ∧ (_atomic_write p publish w).1 = Exn OSError) ∨
  (∃ n, (_atomic_write p publish w).1 = Ok tt ∧
        (_atomic_write p publish w).2 =
          set_tmp (w_tmp w) (publish (set_ticks n (set_tmp ({[p]} ∪ w_tmp w) w)))).
Proof.
  intros Hp.
  assert (Hset : ({[p]} ∪ w_tmp w) ∖ {[p]} = w_tmp w) by set_solver.
  unfold _atomic_write, mbind, M_bind, gets, io, modify, try_finally, raise.
  simpl. rewrite bool_decide_eq_false_2 by done. simpl.
  destruct (io_ok (w_ticks w)); simpl; [|left; exists (S (w_ticks w)); by destruct w].
  destruct w as [n ? ? tmp ? ? ? ? ? ? ? ? ? ?]; simpl in *.
  destruct (io_ok (S n)); simpl.
  2: { left. exists (S (S n)). by rewrite Hset. }
  destruct (io_ok (S (S n))); simpl.
  2: { left. exists (S (S (S n))). by rewrite Hset. }
  right. exists (S (S (S n))). split; [done|].
  match goal with |- context [publish ?x] => destruct (publish x) end.
  simpl. f_equal. set_solver.
Qed.

(** On a healthy disk the write goes through. *)
Lemma _atomic_write_runs p publish w :
  (∀ n, io_ok n = true) → p ∉ w_tmp w →
  runs (_atomic_write p publish) w (λ _ w', ∃ n,
    w' = set_tmp (w_tmp w) (publish (set_ticks n (set_tmp ({[p]} ∪ w_tmp w) w)))).
Proof.
  intros Hio Hp. destruct (_atomic_write_cases p publish w Hp) as [(n & _ & Hexn)|(n & Hok & Hw)].
  { exfalso. revert Hexn. unfold _atomic_write, mbind, M_bind, gets, io, modify, try_finally, raise. simpl.
    rewrite bool_decide_eq_false_2, Hio by done. simpl. rewrite !Hio. simpl. destruct w; simpl. by rewrite !Hio. }
  destruct (_atomic_write p publish w) as [o w'] eqn:Ha. simpl in Hok, Hw. subst o. exists tt, w'. eauto.
Qed.

(** C35: A JSON file is replaced in one step or not at all: after any write it holds
    the new document when the write reported success and exactly what it held
    before when it did not, and no temporary file is left behind. *)
Theorem atomic_write_json_spec p j w :
  p ∉ w_tmp w →
  w_tmp (_atomic_write p (publish_json p j) w).2 = w_tmp w ∧
  match (_atomic_write p (publish_json p j) w).1 with
  | Ok _ => w_json (_atomic_write p (publish_json p j) w).2 = <[p := JText (JGood j)]> (w_json w)
  | Exn _ => w_json (_atomic_write p (publish_json p j) w).2 = w_json w
  end.
Proof.
  intros Hp.
  destruct (_atomic_write_cases p (publish_json p j) w Hp) as [(n & -> & ->)|(n & -> & ->)];
    by destruct w.
Qed.
End storage_props.

Lemma atomic_write_json_spec_witness :
  let r := @_atomic_write calm_env WHITELIST_PATH (publish_json WHITELIST_PATH (JArr [])) empty_world in
  w_tmp r.2 = w_tmp empty_world ∧
  match r.1 with
  | Ok _ => w_json r.2 = <[WHITELIST_PATH := JText (JGood (JArr []))]> (w_json empty_world)
  | Exn _ => w_json r.2 = w_json empty_world
  end.
Proof. intros r. apply (@atomic_write_json_spec calm_env). simpl. set_solver. Defined.
