(* ===== verification/Config.v ===== *)
(** * config.py: the operator-tunable enforcement configuration *)

From S2P Require Import Prelude PyNum Json World Storage.

(** A configuration is a Python dict with string keys. *)
Definition cfgdict : Type := list (string * json).

Definition DEFAULT_ENFORCEMENT_CONFIG : cfgdict :=
  [ ("dominant_ip_ratio_block_threshold", JNum (flt 40 100));
    ("dominant_ip_ratio_extreme_threshold", JNum (flt 75 100));
    ("block_rate_floor_pps", JNum (flt 300 1));
    ("ratelimit_rate_floor_pps", JNum (flt 50 1));
    ("block_sigma_multiplier", JNum (flt 10 1));
    ("block_hysteresis_windows", JNum (NInt 2));
    ("block_duration_seconds", JNum (NInt 3600));
    ("ratelimit_duration_seconds", JNum (NInt 3600));
    ("ratelimit_hashlimit_pps", JNum (NInt 50)) ].

Definition DEFAULT_ALERTS_CONFIG : cfgdict :=
  [ ("discord_enabled", JBool false); ("discord_webhook_url", JStr "");
    ("email_enabled", JBool false); ("smtp_host", JStr "smtp.gmail.com");
    ("smtp_port", JNum (NInt 587)); ("smtp_username", JStr "");
    ("smtp_app_password", JStr ""); ("email_recipients", JArr []);
    ("telegram_enabled", JBool false); ("telegram_bot_token", JStr "");
    ("telegram_chat_id", JStr ""); ("webhook_enabled", JBool false);
    ("webhook_url", JStr ""); ("webhook_headers", JObj []) ].

(** [{**defaults, **saved}]: [saved] must be a mapping. *)
Definition merge_over (defaults : cfgdict) (saved : json) : res cfgdict :=
  match saved with
  | JObj l => Ok (dict_update defaults l)
  | _ => Exn TypeError
  end.

(** [cfg[k]], and [cfg[k]] where a number is needed. *)
Definition cfg_get (cfg : cfgdict) (k : string) : res json :=
  match dict_get k cfg with Some j => Ok j | None => Exn KeyError end.
Definition cfg_num (cfg : cfgdict) (k : string) : res num :=
  j ← cfg_get cfg k; as_num j.

Section config.
Context {E : Env}.

Definition get_enforcement_config : M World cfgdict :=
  saved ← load_json_file ENFORCEMENT_CONFIG_PATH (JObj DEFAULT_ENFORCEMENT_CONFIG);
  lift (merge_over DEFAULT_ENFORCEMENT_CONFIG saved).

Definition get_alerts_config : M World cfgdict :=
  saved ← load_json_file ALERTS_CONFIG_PATH (JObj DEFAULT_ALERTS_CONFIG);
  lift (merge_over DEFAULT_ALERTS_CONFIG saved).
End config.

(** [get_sniffer_interfaces] on the words of the unit file; the loop stops at
    the last word, which has no successor. *)
Fixpoint sniffer_scan (parts : list string) (ingress egress : option string)
    : option string * option string :=
  match parts with
  | part :: ((nxt :: _) as rest) =>
      if bool_decide (part = "--interface") then sniffer_scan rest (Some nxt) egress
      else if bool_decide (part = "--egress-interface") then sniffer_scan rest ingress (Some nxt)
      else sniffer_scan rest ingress egress
  | _ => (ingress, egress)
  end.

Definition get_sniffer_interfaces (unit_file : option (list string))
    : option string * option string :=
  match unit_file with Some parts => sniffer_scan parts None None | None => (None, None) end.

(** ** Lemmas *)

Lemma dict_get_update (d l : cfgdict) k :
  is_Some (dict_get k d) → is_Some (dict_get k (dict_update d l)).
Proof.
  unfold dict_update. revert d. induction l as [|[k' v] l IH]; intros d Hd; simpl; [done|].
  apply IH. simpl. destruct (decide (k' = k)) as [->|Hne].
  - by rewrite dict_get_set_eq.
  - by rewrite dict_get_set_ne.
Qed.

(** A saved file can override a key but never remove one: every key of the
    defaults is present after the merge. *)
Lemma merge_over_total defaults saved cfg k :
  merge_over defaults saved = Ok cfg → is_Some (dict_get k defaults) → is_Some (dict_get k cfg).
Proof. destruct saved; simpl; try done. intros [= <-]. apply dict_get_update. Qed.
