(* ===== verification/Alerts.v ===== *)
(** * alerts.py: the bounded alert queue *)

From S2P Require Import Prelude PyNum Json World.

Definition ALERT_QUEUE_MAX : nat := 100.
Definition ALERT_CHANNELS : list string := ["discord"; "email"; "telegram"; "webhook"; "all"].

(** [dispatch_alert]: an unknown channel falls back to all; a full queue drops
    the alert instead of blocking the caller. *)
Definition dispatch_alert (subject message channel : string) : M World unit :=
  let channel := if bool_decide (channel ∈ ALERT_CHANNELS) then channel else "all"%string in
  modify (emit (EvAlert subject message channel));;
  q ← gets w_alertq;
  if (length q <? ALERT_QUEUE_MAX)%nat
  then modify (set_alertq (q ++ [(subject, message, channel)]))
  else mret tt.

Lemma pres_dispatch_alert I `{!StAlert I} s m c : pres I (dispatch_alert s m c).
Proof.
  unfold dispatch_alert. pres_auto; apply pres_modify; intros w Hw;
    [by apply st_emit_alert|by apply st_alertq].
Qed.
#[export] Hint Resolve pres_dispatch_alert : pres.
