(* ===== verification/Db.v ===== *)
(** * db.py: the SQLite writers and readers

    Writes go through the cached connection [_conn]: a failing open, statement
    or commit raises before the transaction is committed, so the tables are
    unchanged, the connection is dropped and the call returns its error
    value. Reads open their own connection and let the error through. *)

From S2P Require Import Prelude PyNum Json World.

#[local] Open Scope Z_scope.

Definition METRICS_RETENTION_ROWS : Z := 1000.
Definition PURGE_INTERVAL_SECONDS : num := flt 60 1.

(** ** Statements on tables *)

Definition tb_insert {R} (mk : Z → R) (t : table R) : table R :=
  mkTable (tb_rows t ++ [mk (tb_seq t + 1)]) (tb_seq t + 1).

Definition tb_filter {R} (P : R → bool) (t : table R) : table R :=
  mkTable (List.filter P (tb_rows t)) (tb_seq t).

Definition tb_map {R} (f : R → R) (t : table R) : table R :=
  mkTable (f <$> tb_rows t) (tb_seq t).

Definition upd_logs (u : table LogRow → table LogRow) (d : Database) : Database :=
  let 'mkDb a b c e f g h := d in mkDb a (u b) c e f g h.
Definition upd_metrics (u : table MetricRow → table MetricRow) (d : Database) : Database :=
  let 'mkDb a b c e f g h := d in mkDb a b (u c) e f g h.
Definition upd_auto_label_runs (u : table AutoLabelRun → table AutoLabelRun) (d : Database) : Database :=
  let 'mkDb a b c e f g h := d in mkDb a b c (u e) f g h.
Definition upd_playbooks (u : table Playbook → table Playbook) (d : Database) : Database :=
  let 'mkDb a b c e f g h := d in mkDb a b c e (u f) g h.
Definition upd_runs (u : table PlaybookRun → table PlaybookRun) (d : Database) : Database :=
  let 'mkDb a b c e f g h := d in mkDb a b c e f (u g) h.
Definition upd_events (u : table PlaybookEvent → table PlaybookEvent) (d : Database) : Database :=
  let 'mkDb a b c e f g h := d in mkDb a b c e f g (u h).
Definition upd_users (u : list User → list User) (d : Database) : Database :=
  let 'mkDb a b c e f g h := d in mkDb (u a) b c e f g h.

(** [SELECT MAX(id)], NULL on an empty table. *)
Definition max_id (ids : list Z) : option Z :=
  match ids with [] => None | i :: l => Some (foldr Z.max i l) end.

(** The DELETE of [_purge_metrics_history]; a NULL bound deletes nothing. *)
Definition purge_rows (t : table MetricRow) : table MetricRow :=
  match max_id (mr_id <$> tb_rows t) with
  | None => t
  | Some m => tb_filter (λ r, negb (mr_id r <=? m - METRICS_RETENTION_ROWS)) t
  end.

Section db.
Context {E : Env}.

(** ** The cached connection *)

Definition _close : M World unit := modify (set_conn None).

Definition _open : M World unit :=
  conn ← gets w_conn;
  if bool_decide (conn = Some (DB_PATH settings)) then mret tt
  else
    _close;;
    ok ← io;
    if negb ok then raise SqliteError
    else modify (set_conn (Some (DB_PATH settings))).

Definition execute : M World unit :=
  ok ← io; if negb ok then raise SqliteError else mret tt.

(** A write: statements, then commit, on the shared connection. *)
Definition write_tx {A} (f : Database → Database * A) (dflt : A) : M World A :=
  try_all
    (_open;;
     execute;;
     d ← gets w_db;
     modify (upd_db (λ _, (f d).1));;
     mret (f d).2)
    (_close;; mret dflt).

(** A read through [connect()]. *)
Definition read_tx {A} (f : Database → A) : M World A :=
  execute;; gets (λ w, f (w_db w)).

(** ** Incidents and metrics *)

Definition log_incident (timestamp : num) (src_ip classification victim_ip : string)
    (src_rate entropy : option num) : M World unit :=
  write_tx (λ d, (upd_logs (tb_insert (λ i,
    mkLog i timestamp src_ip victim_ip "MIXED" src_rate entropy classification)) d, tt)) tt.

Definition record_auto_label_run (timestamp : num) (rows_labeled : Z) : M World unit :=
  try_all
    (execute;;
     modify (upd_db (upd_auto_label_runs (tb_insert (λ i,
       mkAutoLabelRun i timestamp rows_labeled false)))))
    (mret tt).

(** Runs inside the caller's transaction, on the uncommitted database [d]. *)
Definition _purge_metrics_history (d : Database) (force : bool) : M World Database :=
  now ← time_time;
  last ← gets w_last_purge;
  if negb force &&
     match last with Some l => nlt (nsub now l) PURGE_INTERVAL_SECONDS | None => false end
  then mret d
  else
    modify (set_last_purge (Some now));;
    execute;;
    mret (upd_metrics purge_rows d).

Definition log_metrics_history (timestamp rate entropy mean_h mean_r sigma_h sigma_r k : num)
    (victim_ip : string) : M World unit :=
  try_all
    (_open;;
     execute;;
     d ← gets w_db;
     let d1 := upd_metrics (tb_insert (λ i,
       mkMetric i timestamp rate entropy mean_h mean_r sigma_h sigma_r k victim_ip)) d in
     d2 ← _purge_metrics_history d1 false;
     execute;;
     modify (upd_db (λ _, d2)))
    _close.

Definition purge_metrics_history : M World unit :=
  try_all
    (_open;;
     d ← gets w_db;
     d2 ← _purge_metrics_history d true;
     execute;;
     modify (upd_db (λ _, d2)))
    _close.

(** ** Playbooks: the engine's queries *)

Definition scope_matches (victim_ip : string) (p : Playbook) : bool :=
  pb_enabled p &&
  (bool_decide (pb_scope_type p = "all"%string) ||
   (bool_decide (pb_scope_type p = "host"%string) &&
    bool_decide (pb_scope_value p = Some victim_ip))).

Definition get_enabled_playbooks_for_host (victim_ip : string) : M World (list (Z * jtext)) :=
  read_tx (λ d, (λ p, (pb_id p, pb_definition p)) <$>
                List.filter (scope_matches victim_ip) (tb_rows (db_playbooks d))).

Definition is_active_run (playbook_id : Z) (target_host : string) (r : PlaybookRun) : bool :=
  (rn_playbook_id r =? playbook_id) && bool_decide (rn_target_host r = target_host) &&
  bool_decide (rn_status r = Running).

Definition active_runs (d : Database) (playbook_id : Z) (target_host : string) : list PlaybookRun :=
  List.filter (is_active_run playbook_id target_host) (tb_rows (db_runs d)).

Definition get_active_playbook_run (playbook_id : Z) (target_host : string)
    : M World (option PlaybookRun) :=
  read_tx (λ d, head (active_runs d playbook_id target_host)).

Definition start_playbook_run (playbook_id : Z) (target_host : string)
    (target_source : option string) (reason : string) (now : num) : M World (option Z) :=
  write_tx (λ d, (upd_runs (tb_insert (λ i,
    mkRun i playbook_id target_host target_source 0 Running reason now now)) d,
    Some (tb_seq (db_runs d) + 1))) None.

Definition get_running_playbook_runs : M World (list PlaybookRun) :=
  read_tx (λ d, List.filter (λ r, bool_decide (rn_status r = Running)) (tb_rows (db_runs d))).

Definition get_playbook_definition (playbook_id : Z) : M World (option jtext) :=
  read_tx (λ d, pb_definition <$> head (List.filter (λ p, pb_id p =? playbook_id)
                                                    (tb_rows (db_playbooks d)))).

Definition record_playbook_event (run_id stage_index : Z) (stage_type : json)
    (target_source : option string) (detail : stage_detail) (now : num) : M World unit :=
  write_tx (λ d, (upd_events (tb_insert (λ i,
    mkEvent i run_id stage_index stage_type now target_source detail)) d, tt)) tt.

Definition advance_run (run_id : Z) (next : option Z) (now : num) (r : PlaybookRun) : PlaybookRun :=
  let 'mkRun i p h s st status reason started updated := r in
  if i =? run_id then
    match next with
    | None => mkRun i p h s st Completed reason started now
    | Some n => mkRun i p h s n status reason started now
    end
  else r.

Definition advance_playbook_run (run_id : Z) (next_stage_index : option Z) (now : num)
    : M World unit :=
  write_tx (λ d, (upd_runs (tb_map (advance_run run_id next_stage_index now)) d, tt)) tt.

(** ** Playbooks: the editing surfaces *)

Definition get_all_playbooks : M World (list Playbook) :=
  read_tx (λ d, py_sort (λ a b, pb_id a <? pb_id b) (tb_rows (db_playbooks d))).

Definition get_playbook (playbook_id : Z) : M World (option Playbook) :=
  read_tx (λ d, head (List.filter (λ p, pb_id p =? playbook_id) (tb_rows (db_playbooks d)))).

Definition create_playbook (name scope_type : string) (scope_value : option string)
    (enabled : bool) (definition : jtext) (now : num) : M World (option Z) :=
  write_tx (λ d, (upd_playbooks (tb_insert (λ i,
    mkPlaybook i name scope_type scope_value enabled definition now now)) d,
    Some (tb_seq (db_playbooks d) + 1))) None.

Definition edit_playbook (playbook_id : Z) (f : Playbook → Playbook) (d : Database) : Database :=
  upd_playbooks (tb_map (λ p, if pb_id p =? playbook_id then f p else p)) d.

Definition has_playbook (playbook_id : Z) (d : Database) : bool :=
  existsb (λ p, pb_id p =? playbook_id) (tb_rows (db_playbooks d)).

Definition update_playbook (playbook_id : Z) (name scope_type : string)
    (scope_value : option string) (enabled : bool) (definition : jtext) (now : num)
    : M World bool :=
  write_tx (λ d, (edit_playbook playbook_id (λ p,
      mkPlaybook (pb_id p) name scope_type scope_value enabled definition (pb_created_at p) now) d,
    has_playbook playbook_id d)) false.

Definition set_playbook_enabled (playbook_id : Z) (enabled : bool) (now : num) : M World bool :=
  write_tx (λ d, (edit_playbook playbook_id (λ p,
      mkPlaybook (pb_id p) (pb_name p) (pb_scope_type p) (pb_scope_value p) enabled
        (pb_definition p) (pb_created_at p) now) d,
    has_playbook playbook_id d)) false.

Definition delete_rows (playbook_id : Z) (d : Database) : Database :=
  let run_ids := rn_id <$> List.filter (λ r, rn_playbook_id r =? playbook_id) (tb_rows (db_runs d)) in
  let d1 :=
    if bool_decide (run_ids = []) then d
    else upd_events (tb_filter (λ e, negb (bool_decide (pe_run_id e ∈ run_ids)))) d in
  let d2 := upd_runs (tb_filter (λ r, negb (rn_playbook_id r =? playbook_id))) d1 in
  upd_playbooks (tb_filter (λ p, negb (pb_id p =? playbook_id))) d2.

Definition delete_playbook (playbook_id : Z) : M World bool :=
  write_tx (λ d, (delete_rows playbook_id d, has_playbook playbook_id d)) false.

(** ** History views *)

Definition get_recent_playbook_runs (limit : nat) : M World (list (PlaybookRun * string)) :=
  read_tx (λ d,
    take limit (py_sort (λ a b, nlt (rn_started_at b.1) (rn_started_at a.1))
      (r ← tb_rows (db_runs d);
       p ← List.filter (λ p, pb_id p =? rn_playbook_id r) (tb_rows (db_playbooks d));
       [(r, pb_name p)]))).

Definition get_playbook_events (run_id : Z) : M World (list PlaybookEvent) :=
  read_tx (λ d, py_sort (λ a b, pe_stage_index a <? pe_stage_index b)
    (List.filter (λ e, pe_run_id e =? run_id) (tb_rows (db_events d)))).

Definition get_playbook_events_between (start_ts end_ts : num)
    : M World (list (PlaybookEvent * string * string)) :=
  read_tx (λ d,
    py_sort (λ a b, nlt (pe_fired_at a.1.1) (pe_fired_at b.1.1))
      (e ← List.filter (λ e, nle start_ts (pe_fired_at e) && nle (pe_fired_at e) end_ts)
             (tb_rows (db_events d));
       r ← List.filter (λ r, rn_id r =? pe_run_id e) (tb_rows (db_runs d));
       p ← List.filter (λ p, pb_id p =? rn_playbook_id r) (tb_rows (db_playbooks d));
       [(e, rn_target_host r, pb_name p)])).
End db.

(** ** Which invariants the writers preserve *)

Class StLogs (I : World → Prop) : Prop := st_logs u w : I w → I (upd_db (upd_logs u) w).
Class StMetricsTbl (I : World → Prop) : Prop := st_metrics u w : I w → I (upd_db (upd_metrics u) w).
Class StEvents (I : World → Prop) : Prop := st_events u w : I w → I (upd_db (upd_events u) w).

#[global] Instance st_db_logs I `{!StDb I} : StLogs I.
Proof. intros u w. apply st_db. Qed.
#[global] Instance st_db_metrics I `{!StDb I} : StMetricsTbl I.
Proof. intros u w. apply st_db. Qed.
#[global] Instance st_db_events I `{!StDb I} : StEvents I.
Proof. intros u w. apply st_db. Qed.

Lemma upd_db_here f w : upd_db (λ _, f (w_db w)) w = upd_db f w.
Proof. by destruct w. Qed.

Section db_pres.
Context {E : Env} (I : World → Prop) `{!StEnv I}.

Lemma pres_close : pres I _close.
Proof. apply pres_modify. intros; by apply st_conn. Qed.

Lemma pres_execute : pres I execute.
Proof. unfold execute. pres_auto. Qed.

Lemma pres_open : pres I _open.
Proof.
  unfold _open. pres_auto; [apply pres_close|]. apply pres_modify. intros; by apply st_conn.
Qed.

Lemma pres_write_tx {A} (f : Database → Database * A) dflt :
  (∀ w, I w → I (upd_db (λ d, (f d).1) w)) → pres I (write_tx f dflt).
Proof.
  intros Hf. unfold write_tx. apply pres_try_all.
  - apply pres_bind; [apply pres_open|intros _].
    apply pres_bind; [apply pres_execute|intros _].
    intros w Hw. unfold gets, mbind, M_bind, modify; simpl.
    rewrite (upd_db_here (λ d, (f d).1)). by apply Hf.
  - apply pres_bind; [apply pres_close|]. pres_auto.
Qed.

Lemma pres_read_tx {A} (f : Database → A) : pres I (read_tx f).
Proof. unfold read_tx. apply pres_bind; [apply pres_execute|]. pres_auto. Qed.

Lemma pres_log_incident `{!StLogs I} t s c v r e : pres I (log_incident t s c v r e).
Proof. apply pres_write_tx. intros w Hw. by apply (st_logs (I:=I) _ w). Qed.

Lemma pres_record_playbook_event `{!StEvents I} a b c d e f :
  pres I (record_playbook_event a b c d e f).
Proof. apply pres_write_tx. intros w Hw. by apply (st_events (I:=I) _ w). Qed.

(** The transaction works on the database it read: nothing before the
    commit changes the tables. *)
#[global] Instance at_db_env d : StEnv (λ w, I w ∧ w_db w = d).
Proof.
  split; intros; destruct_and!; split;
    (by apply st_ticks || by apply st_tmp || by apply st_conn || by apply st_purge ||
     by apply st_new_file || by apply st_latency || by apply st_steps ||
     by apply st_lat_last || by destruct w).
Qed.

Lemma purge_result d force w d' w' :
  _purge_metrics_history d force w = (Ok d', w') → ∃ u, d' = upd_metrics u d.
Proof.
  unfold _purge_metrics_history, mbind, M_bind, time_time, gets; simpl.
  destruct (_ && _); simpl.
  { intros [= <- <-]. exists id. by destruct d. }
  unfold modify, execute, io, mbind, M_bind; simpl.
  destruct (io_ok _); simpl; [|done]. intros [= <- <-]. by exists purge_rows.
Qed.
End db_pres.

(** A write that takes [I] to [I'], justified by the tables the caller has
    just read. *)
Lemma write_tx_to {E : Env} I (I' : World → Prop) `{!StEnv I} {A}
    (f : Database → Database * A) dflt w :
  (∀ w', I w' → I' w') → I w →
  (∀ w', I w' → w_db w' = w_db w → I' (upd_db (λ d, (f d).1) w')) →
  I' (write_tx f dflt w).2.
Proof.
  intros Hweak Hw Hf. set (J := λ w', I w' ∧ w_db w' = w_db w). unfold write_tx, try_all, try_except.
  unfold mbind, M_bind.
  pose proof (pres_open J w (conj Hw eq_refl)) as H1.
  destruct (_open w) as [[[]|] w1]; simpl in *; [|by apply Hweak, st_conn; destruct H1].
  pose proof (pres_execute J w1 H1) as H2.
  destruct (execute w1) as [[[]|] w2]; simpl in *; [|by apply Hweak, st_conn; destruct H2].
  rewrite (upd_db_here (λ d, (f d).1)). by apply Hf; destruct H2.
Qed.

Lemma write_tx_from {E : Env} I `{!StEnv I} {A} (f : Database → Database * A) dflt w :
  I w → (∀ w', I w' → w_db w' = w_db w → I (upd_db (λ d, (f d).1) w')) →
  I (write_tx f dflt w).2.
Proof. by apply write_tx_to. Qed.

Lemma pres_purge {E : Env} I `{!StEnv I} d force : pres I (_purge_metrics_history d force).
Proof.
  unfold _purge_metrics_history. pres_auto; [|by apply pres_execute].
  apply pres_modify; intros; by apply st_purge.
Qed.

(** Purge and commit what was prepared from the current tables. *)
Lemma pres_purge_commit {E : Env} I `{!StEnv I, !StMetricsTbl I} u force :
  pres I (d ← gets w_db;
          d2 ← _purge_metrics_history (upd_metrics u d) force;
          execute;;
          modify (upd_db (λ _, d2))).
Proof.
  intros w Hw. unfold gets, mbind at 1, M_bind at 1.
  pose proof (pres_purge (λ v, I v ∧ w_db v = w_db w) (upd_metrics u (w_db w)) force w) as Hp.
  unfold mbind at 1, M_bind at 1.
  destruct (_purge_metrics_history _ _ w) as [[d2|e] w2] eqn:Epurge; simpl in *; [|by apply Hp].
  apply purge_result in Epurge as [u' ->].
  destruct Hp as [Hw2 Hdb]; [done|].
  pose proof (pres_execute (λ v, I v ∧ w_db v = w_db w) w2) as He.
  unfold mbind, M_bind. destruct (execute w2) as [[[]|e] w3]; simpl in *; [|by apply He].
  destruct He as [Hw3 Hdb3]; [done|]. rewrite <-Hdb3.
  rewrite (upd_db_here (λ d, upd_metrics u' (upd_metrics u d))).
  assert (I (upd_db (upd_metrics (λ t, u' (u t))) w3)) as H' by by apply st_metrics.
  by destruct w3 as [? ? ? ? ? [] ? ? ? ? ? ? ? ?].
Qed.

Lemma pres_log_metrics_history {E : Env} I `{!StEnv I, !StMetricsTbl I} a b c d e f g h v :
  pres I (log_metrics_history a b c d e f g h v).
Proof.
  unfold log_metrics_history. apply pres_try_all; [|by apply pres_close].
  apply pres_bind; [by apply pres_open|intros _].
  apply pres_bind; [by apply pres_execute|intros _]. by apply pres_purge_commit.
Qed.

#[export] Hint Resolve pres_close pres_open pres_execute pres_read_tx pres_log_incident
  pres_record_playbook_event pres_log_metrics_history : pres.

(** ** Retention of metrics_history *)

Lemma max_id_spec ids m : max_id ids = Some m → m ∈ ids ∧ Forall (λ i, i ≤ m) ids.
Proof.
  destruct ids as [|i l]; simpl; [done|]. intros [= <-].
  induction l as [|j l [Hin Hle]]; simpl.
  { split; [left|repeat constructor; lia]. }
  apply Forall_cons in Hle as [Hi Hle]. split.
  - destruct (Z.max_spec j (foldr Z.max i l)) as [[_ ->]|[_ ->]]; set_solver.
  - constructor; [lia|]. constructor; [lia|]. eapply Forall_impl; [done|]. simpl; lia.
Qed.

Lemma purge_rows_elem t m r :
  max_id (mr_id <$> tb_rows t) = Some m →
  r ∈ tb_rows (purge_rows t) ↔ r ∈ tb_rows t ∧ m - METRICS_RETENTION_ROWS < mr_id r.
Proof.
  intros Hm. unfold purge_rows. rewrite Hm. simpl.
  rewrite !list_elem_of_In, filter_In, negb_true_iff, Z.leb_gt. done.
Qed.

(** Trimming leaves at most METRICS_RETENTION_ROWS rows, keeps the relative
    order, and drops only rows older than every row it keeps. *)
Theorem purge_retention t :
  NoDup (mr_id <$> tb_rows t) →
  (length (tb_rows (purge_rows t)) ≤ Z.to_nat METRICS_RETENTION_ROWS)%nat ∧
  tb_rows (purge_rows t) `sublist_of` tb_rows t ∧
  ∀ r s, r ∈ tb_rows (purge_rows t) → s ∈ tb_rows t → s ∉ tb_rows (purge_rows t) →
         mr_id s < mr_id r.
Proof.
  intros Hnd. destruct (max_id (mr_id <$> tb_rows t)) as [m|] eqn:Hm.
  2: { unfold purge_rows. rewrite Hm. destruct t as [[|r l] q]; [|done]; simpl.
       split_and!; [lia|done|set_solver]. }
  pose proof (max_id_spec _ _ Hm) as [_ Hle].
  assert (Hsub : tb_rows (purge_rows t) `sublist_of` tb_rows t).
  { unfold purge_rows. rewrite Hm. apply List_filter_sublist. }
  split_and!; [|done|].
  - rewrite <-(length_fmap mr_id). apply (NoDup_Z_interval _ (m - METRICS_RETENTION_ROWS)).
    + eapply sublist_NoDup; [done|]. by apply fmap_sublist.
    + apply Forall_fmap, Forall_forall. intros r Hr. apply (purge_rows_elem t m) in Hr; [|done].
      apply Forall_fmap, Forall_forall with (x:=r) in Hle; [|tauto].
      unfold METRICS_RETENTION_ROWS in *. simpl in *. lia.
  - intros r s Hr Hs Hns. rewrite (purge_rows_elem t m) in Hr, Hns by done.
    destruct (decide (m - METRICS_RETENTION_ROWS < mr_id s)); [naive_solver|lia].
Qed.

(** ** Deleting a playbook *)

(** Every run belongs to a stored playbook, every event to a stored run. *)
Definition refs_ok (d : Database) : Prop :=
  (∀ r, r ∈ tb_rows (db_runs d) → ∃ p, p ∈ tb_rows (db_playbooks d) ∧ pb_id p = rn_playbook_id r) ∧
  (∀ e, e ∈ tb_rows (db_events d) → ∃ r, r ∈ tb_rows (db_runs d) ∧ rn_id r = pe_run_id e).

Lemma delete_rows_runs pid d r :
  r ∈ tb_rows (db_runs (delete_rows pid d)) ↔ r ∈ tb_rows (db_runs d) ∧ rn_playbook_id r ≠ pid.
Proof.
  unfold delete_rows. destruct d; simpl. case_bool_decide; simpl;
    rewrite elem_of_List_filter, negb_true_iff, Z.eqb_neq; done.
Qed.

Lemma delete_rows_playbooks pid d p :
  p ∈ tb_rows (db_playbooks (delete_rows pid d)) ↔ p ∈ tb_rows (db_playbooks d) ∧ pb_id p ≠ pid.
Proof.
  unfold delete_rows. destruct d; simpl. case_bool_decide; simpl;
    rewrite elem_of_List_filter, negb_true_iff, Z.eqb_neq; done.
Qed.

Lemma delete_rows_events pid d e :
  e ∈ tb_rows (db_events (delete_rows pid d)) ↔
  e ∈ tb_rows (db_events d) ∧
  ¬ ∃ r, r ∈ tb_rows (db_runs d) ∧ rn_playbook_id r = pid ∧ rn_id r = pe_run_id e.
Proof.
  unfold delete_rows. destruct d as [? ? ? ? ? runs evs]; simpl.
  set (ids := rn_id <$> _).
  assert (Hids : ∀ i, i ∈ ids ↔ ∃ r, r ∈ tb_rows runs ∧ rn_playbook_id r = pid ∧ rn_id r = i).
  { intros i. unfold ids. rewrite list_elem_of_fmap. split.
    - intros (r & -> & Hr). rewrite elem_of_List_filter, Z.eqb_eq in Hr. naive_solver.
    - intros (r & ? & ? & <-). exists r. by rewrite elem_of_List_filter, Z.eqb_eq. }
  rewrite <-Hids. case_bool_decide as Hnil; simpl.
  - rewrite Hnil. set_solver.
  - rewrite elem_of_List_filter, negb_true_iff, bool_decide_eq_false. done.
Qed.

(** Deleting a playbook removes it with its runs and their events, removes
    nothing of another playbook, and leaves no dangling reference. *)
Theorem delete_rows_integrity pid d :
  refs_ok d → NoDup (rn_id <$> tb_rows (db_runs d)) →
  refs_ok (delete_rows pid d) ∧
  has_playbook pid (delete_rows pid d) = false ∧
  (∀ r, r ∈ tb_rows (db_runs d) →
        r ∈ tb_rows (db_runs (delete_rows pid d)) ↔ rn_playbook_id r ≠ pid) ∧
  (∀ e r, e ∈ tb_rows (db_events d) → r ∈ tb_rows (db_runs d) → rn_id r = pe_run_id e →
          e ∈ tb_rows (db_events (delete_rows pid d)) ↔ rn_playbook_id r ≠ pid).
Proof.
  intros [Hruns Hevs] Hnd.
  assert (Huniq : ∀ r s, r ∈ tb_rows (db_runs d) → s ∈ tb_rows (db_runs d) →
                         rn_id r = rn_id s → r = s).
  { intros r s Hr Hs Heq. apply list_elem_of_lookup in Hr as [i Hi], Hs as [j Hj].
    assert (i = j) as ->; [|congruence].
    eapply (NoDup_lookup (rn_id <$> tb_rows (db_runs d)) i j (rn_id r)); try done;
      rewrite list_lookup_fmap; [by rewrite Hi|by rewrite Hj, Heq]. }
  split_and!.
  - split.
    + intros r [Hr Hne]%delete_rows_runs. destruct (Hruns r Hr) as (p & Hp & Hid).
      exists p. rewrite delete_rows_playbooks. split; [|done]. split; congruence.
    + intros e [He Hno]%delete_rows_events. destruct (Hevs e He) as (r & Hr & Hid).
      exists r. rewrite delete_rows_runs. naive_solver.
  - unfold has_playbook. apply Bool.not_true_iff_false. rewrite existsb_exists.
    intros (p & Hp & Hid). apply list_elem_of_In, delete_rows_playbooks in Hp. lia.
  - intros r Hr. rewrite delete_rows_runs. naive_solver.
  - intros e r He Hr Hid. rewrite delete_rows_events. split.
    + intros [_ Hno] Heq. apply Hno. by exists r.
    + intros Hne. split; [done|]. intros (s & Hs & Hp & Hs2).
      assert (r = s) as -> by (apply Huniq; congruence). done.
Qed.

Lemma purge_retention_witness :
  let t := mkTable [mkMetric 2 (NInt 20) f0 f0 f0 f0 f0 f0 f0 "10.0.0.5";
                    mkMetric 1 (NInt 10) f0 f0 f0 f0 f0 f0 f0 "10.0.0.5"] 2 in
  (length (tb_rows (purge_rows t)) ≤ Z.to_nat METRICS_RETENTION_ROWS)%nat ∧
  tb_rows (purge_rows t) `sublist_of` tb_rows t ∧
  ∀ r s, r ∈ tb_rows (purge_rows t) → s ∈ tb_rows t → s ∉ tb_rows (purge_rows t) → mr_id s < mr_id r.
Proof. intros t. apply purge_retention. simpl. apply NoDup_ListNoDup. repeat constructor; simpl; lia. Defined.

Lemma delete_rows_integrity_witness :
  let p := mkPlaybook 1 "p" "all" None true JBad (NInt 0) (NInt 0) in
  let r := mkRun 1 1 "10.0.0.5" None 0 Running "tier" (NInt 0) (NInt 0) in
  let d := upd_runs (λ _, mkTable [r] 1) (upd_playbooks (λ _, mkTable [p] 1) empty_db) in
  refs_ok (delete_rows 1 d) ∧ has_playbook 1 (delete_rows 1 d) = false ∧
  (∀ r, r ∈ tb_rows (db_runs d) → r ∈ tb_rows (db_runs (delete_rows 1 d)) ↔ rn_playbook_id r ≠ 1) ∧
  (∀ e r, e ∈ tb_rows (db_events d) → r ∈ tb_rows (db_runs d) → rn_id r = pe_run_id e →
          e ∈ tb_rows (db_events (delete_rows 1 d)) ↔ rn_playbook_id r ≠ 1).
Proof.
  intros p r d. apply delete_rows_integrity; [|apply NoDup_singleton].
  split; repeat constructor; set_solver.
Defined.

(** ** Reads *)

Lemma read_tx_cases {E : Env} {A} (f : Database → A) w :
  read_tx f w = (Ok (f (w_db w)), tick w) ∨ read_tx f w = (Exn SqliteError, tick w).
Proof.
  unfold read_tx, execute, io, gets, mbind, M_bind. simpl.
  destruct (io_ok (w_ticks w)); simpl; [left|by right]. by destruct w.
Qed.

Lemma read_tx_runs {E : Env} {A} (f : Database → A) w (P : A → World → Prop) :
  (∀ n, io_ok n = true) → P (f (w_db w)) (tick w) → runs (read_tx f) w P.
Proof.
  intros Hio HP. destruct (read_tx_cases f w) as [H|H]; [by eexists _, _|].
  exfalso. revert H. unfold read_tx, execute, io, gets, mbind, M_bind. rewrite Hio. done.
Qed.
