(* ===== verification/Enforcement.v ===== *)
(** * enforcement.py: ipset/iptables control and the list of named attackers *)

From S2P Require Import Prelude PyNum PyStr Json World Storage Config Db.

Definition CLASS_BLOCKED : string := "Blocked".
Definition CLASS_RATELIMITED : string := "Rate Limited".
Definition CLASS_RATELIMITED_FLASH : string := "Rate Limited (Flash Crowd)".
Definition CLASS_RELEASED : string := "Released".
Definition DDOS_CLASSIFICATIONS : list string := [CLASS_BLOCKED].

(** [int(DDOS_SOURCES_MAX * 0.9)] *)
Definition PRUNE_KEEP : nat := 3686.

(** ** The DDoS source list *)

Definition newer (a b : string * DdosSource) : bool :=
  nlt (ds_timestamp b.2) (ds_timestamp a.2).

Definition _prune_ddos_sources (d : list (string * DdosSource)) : list (string * DdosSource) :=
  if (length d <=? DDOS_SOURCES_MAX)%nat then d
  else dict_update [] (take PRUNE_KEEP (py_sort newer d)).

Definition record_ddos_source_pure (ip classification victim_ip : string) (src_rate : option num)
    (when_ : num) (d : list (string * DdosSource)) : list (string * DdosSource) :=
  if negb (bool_decide (classification ∈ DDOS_CLASSIFICATIONS)) then dict_pop ip d
  else _prune_ddos_sources
         (dict_set ip (mkDdosSource ip victim_ip src_rate when_ classification) d).

Definition record_ddos_source (ip classification victim_ip : string) (src_rate : option num)
    (when_ : num) : M World unit :=
  modify (upd_state (upd_ddos_sources
    (record_ddos_source_pure ip classification victim_ip src_rate when_))).

(** The loop of [load_ddos_sources]: [rows] newest first, [seen] the addresses met. *)
Fixpoint restore_sources (rows : list LogRow) (seen : gset string)
    (d : list (string * DdosSource)) : list (string * DdosSource) :=
  match rows with
  | [] => d
  | r :: rows' =>
      if bool_decide (lg_src_ip r ∈ seen) then restore_sources rows' seen d
      else restore_sources rows' ({[lg_src_ip r]} ∪ seen)
             (record_ddos_source_pure (lg_src_ip r) (lg_classification r) (lg_dst_ip r)
                (lg_rate r) (lg_timestamp r) d)
  end.

(** The SELECT of [load_ddos_sources]. *)
Definition enforcement_rows (d : Database) : list LogRow :=
  take (DDOS_SOURCES_MAX * 4)
    (py_sort (λ a b, (lg_id b <? lg_id a)%Z)
      (List.filter (λ r, bool_decide (lg_classification r ∈
         [CLASS_BLOCKED; CLASS_RATELIMITED; CLASS_RATELIMITED_FLASH])) (tb_rows (db_logs d)))).

(** ** Victim resolution *)

(** [v["ip"]], a string in every victims.json the API writes; any other value
    is treated as a failed lookup. *)
Definition victim_field_ip (v : json) : res string :=
  o ← match v with JObj l => Ok (dict_get "ip" l) | _ => Exn TypeError end;
  match o with Some (JStr s) => Ok s | Some _ => Exn TypeError | None => Exn KeyError end.

(** [[v["ip"] for v in victims if v.get("active")]] *)
Fixpoint active_ips (victims : list json) : res (list string) :=
  match victims with
  | [] => Ok []
  | v :: vs =>
      a ← py_get v "active";
      if match a with Some j => json_truthy j | None => false end then
        ip ← victim_field_ip v; rest ← active_ips vs; mret (ip :: rest)
      else active_ips vs
  end.

(** The body of the [try] in [resolve_victim_ip]: [None] falls through. *)
Definition victim_from_file (files : gmap path jfile) : res (option string) :=
  match files !! VICTIMS_PATH with
  | None => Ok None
  | Some _ =>
      t ← open_read files VICTIMS_PATH;
      victims ← json_loads t;
      vs ← json_iter victims;
      active ← active_ips vs;
      match active with
      | ip :: _ => Ok (Some ip)
      | [] =>
          match victims with
          | JArr (v :: _) => ip ← victim_field_ip v; mret (Some ip)
          | JArr [] => Ok None
          | _ => if json_truthy victims then Exn KeyError else Ok None
          end
      end
  end.

Definition resolve_victim (files : gmap path jfile) (st : SharedState)
    (victim_ip : option string) : string :=
  match victim_ip with
  | Some ip =>
      if negb (bool_decide (ip = EmptyString)) && negb (is_sentinel ip) then ip
      else
        match victim_from_file files with
        | Ok (Some v) => v
        | _ => match last_metrics_by_target st with (v, _) :: _ => v | [] => "Unknown" end
        end
  | None =>
      match victim_from_file files with
      | Ok (Some v) => v
      | _ => match last_metrics_by_target st with (v, _) :: _ => v | [] => "Unknown" end
      end
  end.

Definition resolve_victim_ip (victim_ip : option string) : M World string :=
  gets (λ w, resolve_victim (w_json w) (w_state w) victim_ip).

(** [now - recently_blocked[ip] < 10.0] *)
Definition debounced (rb : gmap string num) (ip : string) (now : num) : bool :=
  match rb !! ip with Some t => nlt (nsub now t) (flt 10 1) | None => false end.

Definition mark_acted (ip : string) (now : num) (w : World) : World :=
  upd_state (upd_recently_blocked (<[ip := now]>)) w.

Section enforcement.
Context {E : Env}.

Definition load_ddos_sources : M World unit :=
  rows ← try_all (read_tx (λ d, Some (enforcement_rows d))) (mret None);
  match rows with
  | None => mret tt
  | Some rows => modify (upd_state (upd_ddos_sources (restore_sources rows ∅)))
  end.

(** ** iptables rules *)

(** [iptables -C] and, when the rule is missing, [iptables -I]. *)
Definition ensure_rule (c : chain) (r : rule) : M World unit :=
  check ← run_cmd (IptCheck c r);
  if (check.1 =? 0)%Z then mret tt else run_cmd (IptInsert c r);; mret tt.

Definition _ensure_hashlimit_rule (pps : json) : M World unit :=
  for_each [INPUT; FORWARD] (λ c, ensure_rule c (RuleHashlimit pps)).

Definition update_ratelimit_hashlimit (old_pps new_pps : json) : M World unit :=
  if json_py_eq old_pps new_pps then mret tt
  else
    for_each [INPUT; FORWARD] (λ c, run_cmd (IptDelete c (RuleHashlimit old_pps));; mret tt);;
    _ensure_hashlimit_rule new_pps.

Definition setup_ipset : M World unit :=
  try_all
    (run_cmd (IpsetCreate ddos_blocklist);;
     ensure_rule INPUT RuleBlock;;
     ensure_rule FORWARD RuleBlock;;
     run_cmd (IpsetCreate ddos_ratelimit);;
     cfg ← get_enforcement_config;
     pps ← lift (cfg_get cfg "ratelimit_hashlimit_pps");
     _ensure_hashlimit_rule pps)
    (mret tt).

(** ** Block, rate-limit, release *)

Definition ratelimit_ip (ip : string) (duration : json) (victim_ip : option string)
    (src_rate : option num) (classification : string) (entropy : option num) : M World unit :=
  now ← time_time;
  rb ← gets (λ w, recently_blocked (w_state w));
  if debounced rb ip now then mret tt
  else
    victim ← resolve_victim_ip victim_ip;
    try_finally
      (try_all
         (whitelist ← load_json_file WHITELIST_PATH (JArr []);
          listed ← lift (json_contains ip whitelist);
          if (listed : bool) then mret tt
          else
            r ← run_cmd (IpsetAdd ddos_ratelimit ip duration);
            if (r.1 =? 0)%Z then
              cfg ← get_enforcement_config;
              _ ← lift (cfg_get cfg "ratelimit_hashlimit_pps");
              log_incident now ip classification victim src_rate entropy;;
              record_ddos_source ip classification victim src_rate now
            else mret tt)
         (mret tt))
      (mark_acted ip now).

Definition block_ip (ip : string) (duration : json) (victim_ip : option string)
    (src_rate : option num) (entropy : option num) : M World unit :=
  now ← time_time;
  rb ← gets (λ w, recently_blocked (w_state w));
  if debounced rb ip now then mret tt
  else
    victim ← resolve_victim_ip victim_ip;
    try_finally
      (try_all
         (whitelist ← load_json_file WHITELIST_PATH (JArr []);
          listed ← lift (json_contains ip whitelist);
          if (listed : bool) then mret tt
          else
            shared_ips ← load_json_file SHARED_IPS_PATH (JArr []);
            shared ← lift (json_contains ip shared_ips);
            if (shared : bool) then
              ratelimit_ip ip duration (Some victim) src_rate CLASS_RATELIMITED entropy
            else
              r ← run_cmd (IpsetAdd ddos_blocklist ip duration);
              if (r.1 =? 0)%Z then
                log_incident now ip CLASS_BLOCKED victim src_rate entropy;;
                record_ddos_source ip CLASS_BLOCKED victim src_rate now
              else mret tt)
         (mret tt))
      (mark_acted ip now).

Definition unblock_ip (ip : string) (victim_ip : option string) : M World bool :=
  victim ← resolve_victim_ip victim_ip;
  try_all
    (res1 ← run_cmd (IpsetDel ddos_blocklist ip);
     res2 ← run_cmd (IpsetDel ddos_ratelimit ip);
     if ((res1.1 =? 0) || (res2.1 =? 0))%Z then
       now ← time_time;
       log_incident now ip CLASS_RELEASED victim None None;;
       mret true
     else mret false)
    (mret false).

(** ** Reading the kernel sets *)

(** One member line of [ipset list]; an unparsable timeout raises. *)
Definition member_of_line (line : string) : res (list (string * Z)) :=
  match str_words (str_strip line) with
  | [] => Ok []
  | ip :: kw :: secs :: _ =>
      if bool_decide (kw = "timeout"%string) then n ← int_of_string secs; mret [(ip, n)]
      else Ok [(ip, 3600%Z)]
  | ip :: _ => Ok [(ip, 3600%Z)]
  end.

Fixpoint members_after (lines : list string) : option (list string) :=
  match lines with
  | [] => None
  | l :: ls => if str_prefix "Members:" l then Some ls else members_after ls
  end.

Fixpoint collect_members (lines : list string) : res (list (string * Z)) :=
  match lines with
  | [] => Ok []
  | l :: ls => m ← member_of_line l; rest ← collect_members ls; mret (m ++ rest)
  end.

Definition parse_members (out : string) : res (list (string * Z)) :=
  match members_after (str_split newline out) with
  | None => Ok []
  | Some ls => collect_members ls
  end.

Definition _get_ipset_members (s : ipset_name) : M World (list (string * Z)) :=
  try_all
    (r ← run_cmd (IpsetList s);
     if negb (r.1 =? 0)%Z then mret []
     else lift (parse_members r.2))
    (mret []).

Definition get_blocked_ips : M World (list (string * Z)) := _get_ipset_members ddos_blocklist.
Definition get_ratelimited_ips : M World (list (string * Z)) := _get_ipset_members ddos_ratelimit.
End enforcement.
