(* ===== verification/EnforcementFacts.v ===== *)
(** * Properties of enforcement.py

    Preservation rules for block and rate-limit, the protection of whitelisted
    and shared addresses, the debounce, the list of named attackers, and the
    iptables rules under the documented behaviour of the iptables command. *)

From stdpp Require Import pretty.
From S2P Require Import Prelude PyNum PyStr Json World Storage Config Db Enforcement.

(** ** Preservation *)

(** Insensitive to the two fields an enforcement action writes. *)
Class StEnforce (I : World → Prop) : Prop := {
  st_recently ip t w : I w → I (mark_acted ip t w);
  st_sources ip c v r t w :
    I w → I (upd_state (upd_ddos_sources (record_ddos_source_pure ip c v r t)) w) }.

#[global] Instance st_state_enforce I `{!StState I} : StEnforce I.
Proof. split; intros; by apply st_state. Qed.

(** Down to the guarded body of block_ip and ratelimit_ip. *)
Ltac enter_action :=
  apply pres_bind; [by auto with pres|intro];
  apply pres_bind; [by auto with pres|intro];
  apply pres_if; [by auto with pres|];
  apply pres_bind; [by apply pres_gets|intro];
  apply pres_try_finally; [apply pres_try_all; [|by auto with pres]|by intros; apply st_recently].

Section enforce_pres.
Context {E : Env} (I : World → Prop) `{!StEnv I, !StLogs I, !StEnforce I}.

Lemma pres_get_enforcement_config : pres I get_enforcement_config.
Proof using StEnv0. unfold get_enforcement_config. pres_auto. Qed.

Lemma pres_record_ddos_source ip c v r t : pres I (record_ddos_source ip c v r t).
Proof. apply pres_modify. intros. by apply st_sources. Qed.

(** A file every world of the invariant has on disk. *)
Lemma pres_load_known {A} p dflt j (k : json → M World A) :
  (∀ w, I w → w_json w !! p = Some (JText (JGood j))) →
  pres I (k j) → pres I (load_json_file p dflt ≫= k).
Proof.
  intros Hf Hk w Hw. unfold mbind, M_bind.
  rewrite (load_json_file_good p dflt j) by auto. by apply Hk.
Qed.

Lemma pres_ratelimit_ip ip dur v r c e :
  (∀ o w, I w → I (emit (EvCmd (IpsetAdd ddos_ratelimit ip dur) o) w)) →
  pres I (ratelimit_ip ip dur v r c e).
Proof.
  intros Hcmd. unfold ratelimit_ip.
  assert (StCmd (λ x, x = IpsetAdd ddos_ratelimit ip dur) I) by (intros ? ? ? ->; auto).
  pres_auto; eauto using pres_get_enforcement_config, pres_record_ddos_source, pres_log_incident.
  - by eapply pres_run_cmd.
  - by apply st_recently.
Qed.

Lemma pres_block_ip ip dur v r e :
  (∀ s o w, I w → I (emit (EvCmd (IpsetAdd s ip dur) o) w)) →
  pres I (block_ip ip dur v r e).
Proof.
  intros Hcmd. unfold block_ip.
  assert (StCmd (λ x, ∃ s, x = IpsetAdd s ip dur) I) by (intros ? ? ? [? ->]; auto).
  pres_auto; eauto using pres_record_ddos_source, pres_log_incident, pres_ratelimit_ip.
  - apply (pres_run_cmd I (λ x, ∃ s, x = IpsetAdd s ip dur)); eauto.
  - by apply st_recently.
Qed.

Section whitelisted.
Context (wl : json) (ip : string).
Hypothesis Hwl : ∀ w, I w → w_json w !! WHITELIST_PATH = Some (JText (JGood wl)).
Hypothesis Hin : json_contains ip wl = Ok true.

Lemma pres_ratelimit_ip_whitelisted dur v r c e : pres I (ratelimit_ip ip dur v r c e).
Proof using Type*.
  unfold ratelimit_ip. enter_action.
  apply (pres_load_known _ _ wl); [done|]. rewrite Hin. apply pres_lift_ok. pres_auto.
Qed.

Lemma pres_block_ip_whitelisted dur v r e : pres I (block_ip ip dur v r e).
Proof using Type*.
  unfold block_ip. enter_action.
  apply (pres_load_known _ _ wl); [done|]. rewrite Hin. apply pres_lift_ok. pres_auto.
Qed.
End whitelisted.

(** A shared address is throttled, never dropped outright. *)
Lemma pres_block_ip_shared sh ip dur v r e :
  (∀ w, I w → w_json w !! SHARED_IPS_PATH = Some (JText (JGood sh))) →
  json_contains ip sh = Ok true →
  (∀ o w, I w → I (emit (EvCmd (IpsetAdd ddos_ratelimit ip dur) o) w)) →
  pres I (block_ip ip dur v r e).
Proof.
  intros Hsh Hin Hcmd. unfold block_ip. enter_action.
  apply pres_bind; [by auto with pres|intro].
  apply pres_bind; [by auto with pres|intro].
  apply pres_if; [by auto with pres|].
  apply (pres_load_known _ _ sh); [done|]. rewrite Hin.
  apply pres_lift_ok. by apply pres_ratelimit_ip.
Qed.
End enforce_pres.

(** ** Protected addresses *)

Definition whitelisted (fs : gmap path jfile) (ip : string) : Prop :=
  ∃ wl, fs !! WHITELIST_PATH = Some (JText (JGood wl)) ∧ json_contains ip wl = Ok true.

Definition shared_egress (fs : gmap path jfile) (ip : string) : Prop :=
  ∃ sh, fs !! SHARED_IPS_PATH = Some (JText (JGood sh)) ∧ json_contains ip sh = Ok true.

(** The event does not add [ip] to the set [s]. *)
Definition not_added (s : ipset_name) (ip : string) (ev : event) : Prop :=
  ∀ t r, ev ≠ EvCmd (IpsetAdd s ip t) r.

(** What may go out without touching a protected address: anything for a
    whitelisted one but additions to a set; anything for a shared one but an
    addition to ddos_blocklist. *)
Definition respects (fs : gmap path jfile) (ev : event) : Prop :=
  (∀ ip s, whitelisted fs ip → not_added s ip ev) ∧
  (∀ ip, shared_egress fs ip → not_added ddos_blocklist ip ev).

Section protected.
Context {E : Env} (fs : gmap path jfile) (t0 : list event).
Let I := trace_inv fs t0 (respects fs).

Lemma respects_alert s m c : respects fs (EvAlert s m c).
Proof. split; intros ? **; done. Qed.

#[global] Instance respects_st_alert : StAlert (trace_inv fs t0 (respects fs)).
Proof.
  split; [|by intros ? []]. intros. apply trace_inv_emit; [apply respects_alert|done].
Qed.

Lemma on_disk p j w : fs !! p = Some (JText (JGood j)) → I w → w_json w !! p = Some (JText (JGood j)).
Proof. intros Hp [Hsub _]. by eapply lookup_weaken. Qed.

Lemma respects_ratelimit ip dur o :
  ¬ whitelisted fs ip → respects fs (EvCmd (IpsetAdd ddos_ratelimit ip dur) o).
Proof. intros Hw. by split; intros; intros ? ? ?; simplify_eq. Qed.

Lemma respects_block ip dur o :
  ¬ whitelisted fs ip → ¬ shared_egress fs ip → respects fs (EvCmd (IpsetAdd ddos_blocklist ip dur) o).
Proof. intros Hw Hs. by split; intros; intros ? ? ?; simplify_eq. Qed.

Lemma whitelisted_dec ip : whitelisted fs ip ∨ ¬ whitelisted fs ip.
Proof.
  unfold whitelisted. destruct (fs !! WHITELIST_PATH) as [[[j|]| |]|]; try (right; naive_solver).
  destruct (decide (json_contains ip j = Ok true)); [left; eauto|right; naive_solver].
Qed.

Lemma shared_dec ip : shared_egress fs ip ∨ ¬ shared_egress fs ip.
Proof.
  unfold shared_egress. destruct (fs !! SHARED_IPS_PATH) as [[[j|]| |]|]; try (right; naive_solver).
  destruct (decide (json_contains ip j = Ok true)); [left; eauto|right; naive_solver].
Qed.

Lemma respects_ratelimit_ip ip dur v r c e : pres I (ratelimit_ip ip dur v r c e).
Proof.
  destruct (whitelisted_dec ip) as [(wl & Hf & Hin)|Hw].
  - eapply pres_ratelimit_ip_whitelisted; [apply _..| |exact Hin]. intros w. by apply on_disk.
  - apply pres_ratelimit_ip; [apply _..|]. intros. apply trace_inv_emit; [|done].
    by apply respects_ratelimit.
Qed.

Lemma respects_block_ip ip dur v r e : pres I (block_ip ip dur v r e).
Proof.
  destruct (whitelisted_dec ip) as [(wl & Hf & Hin)|Hw].
  { eapply pres_block_ip_whitelisted; [apply _..| |exact Hin]. intros w. by apply on_disk. }
  destruct (shared_dec ip) as [(sh & Hf & Hin)|Hs].
  - eapply pres_block_ip_shared; [apply _..| |exact Hin|].
    + intros w. by apply on_disk.
    + intros. apply trace_inv_emit; [|done]. by apply respects_ratelimit.
  - apply pres_block_ip; [apply _..|]. intros [] o w Hw'; (apply trace_inv_emit; [|done]);
      [by apply respects_block|by apply respects_ratelimit].
Qed.
End protected.

(** ** Debounce *)

Section debounce.
Context {E : Env}.

(** Whatever happens inside, an action that was not debounced leaves its
    start time on the address. *)
Lemma block_ip_marks ip dur v r e w :
  debounced (recently_blocked (w_state w)) ip (clk (w_ticks w)) = false →
  recently_blocked (w_state (block_ip ip dur v r e w).2) !! ip = Some (clk (w_ticks w)).
Proof.
  intros Hd. unfold block_ip, mbind, M_bind, time_time, gets. simpl.
  replace (w_state (tick w)) with (w_state w) by by destruct w.
  rewrite Hd. unfold resolve_victim_ip, gets. simpl. unfold try_finally.
  destruct (try_all _ _ _) as [o w']; simpl. destruct w' as [? [] ? ? ? ? ? ? ? ? ? ? ? ?]; simpl.
  by rewrite lookup_insert_eq.
Qed.

Lemma block_ip_debounced ip dur v r e w :
  debounced (recently_blocked (w_state w)) ip (clk (w_ticks w)) = true →
  block_ip ip dur v r e w = (Ok tt, tick w).
Proof.
  intros Hd. unfold block_ip, mbind, M_bind, time_time, gets. simpl.
  replace (w_state (tick w)) with (w_state w) by by destruct w. by rewrite Hd.
Qed.

(** A block starting less than ten seconds after another one for the same
    address does nothing but read the clock, whatever the first one did. *)
Theorem block_ip_debounce ip dur v r e dur' v' r' e' w :
  let w1 := (block_ip ip dur v r e w).2 in
  debounced (recently_blocked (w_state w)) ip (clk (w_ticks w)) = false →
  nlt (nsub (clk (w_ticks w1)) (clk (w_ticks w))) (flt 10 1) = true →
  block_ip ip dur' v' r' e' w1 = (Ok tt, tick w1).
Proof.
  intros w1 Hd Hlt. apply block_ip_debounced. unfold debounced, w1.
  by rewrite block_ip_marks.
Qed.
End debounce.

(** ** The list of named attackers *)

Definition sources_ok (d : list (string * DdosSource)) : Prop :=
  NoDup d.*1 ∧ (length d ≤ DDOS_SOURCES_MAX)%nat ∧
  Forall (λ kv, ds_ip kv.2 = kv.1 ∧ ds_action kv.2 = CLASS_BLOCKED) d.

Lemma dict_update_fresh {V} (l d : list (string * V)) :
  NoDup (d ++ l).*1 → dict_update d l = d ++ l.
Proof.
  unfold dict_update. revert d. induction l as [|[k v] l IH]; intros d Hnd; simpl.
  { by rewrite app_nil_r. }
  assert (Hsplit : d ++ (k, v) :: l = (d ++ [(k, v)]) ++ l) by by rewrite <-app_assoc.
  rewrite Hsplit in Hnd |- *. rewrite dict_set_app_new; [by apply IH|].
  rewrite fmap_app, fmap_app, NoDup_app, NoDup_app in Hnd. simpl in Hnd. set_solver.
Qed.

Lemma prune_perm d :
  NoDup d.*1 → (DDOS_SOURCES_MAX < length d)%nat →
  _prune_ddos_sources d = take PRUNE_KEEP (py_sort newer d).
Proof.
  intros Hnd Hlen. unfold _prune_ddos_sources.
  destruct (Nat.leb_spec (length d) DDOS_SOURCES_MAX); [lia|].
  apply (dict_update_fresh _ []). simpl. rewrite fmap_take.
  eapply sublist_NoDup; [|apply sublist_take].
  by rewrite (fmap_Permutation fst _ _ (py_sort_perm newer d)).
Qed.

Lemma record_source_ok ip c v r t d :
  sources_ok d → sources_ok (record_ddos_source_pure ip c v r t d).
Proof.
  intros (Hnd & Hlen & Hall). unfold record_ddos_source_pure, DDOS_CLASSIFICATIONS.
  case_bool_decide as Hc; simpl.
  2: { unfold dict_pop. split_and!.
       - eapply sublist_NoDup; [exact Hnd|]. apply fmap_sublist, sublist_filter.
       - pose proof (length_filter (λ kv : string * DdosSource, kv.1 ≠ ip) d). lia.
       - rewrite Forall_forall in Hall |- *. intros x Hx%list_elem_of_filter. naive_solver. }
  apply list_elem_of_singleton in Hc as ->.
  set (rec := mkDdosSource ip v r t CLASS_BLOCKED).
  assert (Hnd' : NoDup (dict_set ip rec d).*1) by by apply dict_set_NoDup.
  assert (Hall' : Forall (λ kv, ds_ip kv.2 = kv.1 ∧ ds_action kv.2 = CLASS_BLOCKED) (dict_set ip rec d)).
  { clear -Hall. induction d as [|[k' v'] d IH]; simpl; [by repeat constructor|].
    apply Forall_cons in Hall as [? ?]. case_decide; subst; constructor; auto. }
  destruct (decide (DDOS_SOURCES_MAX < length (dict_set ip rec d))%nat) as [Hbig|Hsmall].
  - rewrite prune_perm by done. split_and!.
    + rewrite fmap_take. eapply sublist_NoDup; [|apply sublist_take].
      by rewrite (fmap_Permutation fst _ _ (py_sort_perm newer _)).
    + rewrite length_take. unfold PRUNE_KEEP, DDOS_SOURCES_MAX. lia.
    + apply Forall_take. by rewrite (py_sort_perm newer).
  - unfold _prune_ddos_sources. destruct (Nat.leb_spec (length (dict_set ip rec d)) DDOS_SOURCES_MAX); [|lia].
    done.
Qed.

Lemma StronglySorted_app_rel {A} (R : A → A → Prop) l1 l2 x y :
  StronglySorted R (l1 ++ l2) → x ∈ l1 → y ∈ l2 → R x y.
Proof.
  induction l1 as [|z l1 IH]; simpl; intros Hs Hx Hy; [set_solver|].
  apply StronglySorted_inv in Hs as [Hs Hz]. apply elem_of_cons in Hx as [->|Hx]; [|auto].
  eapply Forall_forall in Hz; [done|]. set_solver.
Qed.

(** Past the cap, exactly PRUNE_KEEP entries stay, and none of the dropped
    ones is newer than one that stays. *)
Theorem prune_keeps_newest d :
  NoDup d.*1 → Forall (λ kv, is_nan (ds_timestamp kv.2) = false) d →
  (DDOS_SOURCES_MAX < length d)%nat →
  length (_prune_ddos_sources d) = PRUNE_KEEP ∧
  (∀ kv, kv ∈ _prune_ddos_sources d → kv ∈ d) ∧
  (∀ kept dropped, kept ∈ _prune_ddos_sources d → dropped ∈ d →
     dropped ∉ _prune_ddos_sources d →
     nlt (ds_timestamp kept.2) (ds_timestamp dropped.2) = false).
Proof.
  intros Hnd Hnan Hlen. rewrite prune_perm by done.
  assert (Hs : StronglySorted (py_le newer) (py_sort newer d)).
  { apply (py_sort_sorted newer (λ kv, is_nan (ds_timestamp kv.2) = false)); [| |done].
    - intros x y _ _. unfold newer. apply nlt_asym.
    - intros x y z Hx Hy Hz. unfold py_le, newer.
      rewrite !nlt_nge, !negb_false_iff by done. intros Hxy Hyz. by eapply nle_trans. }
  split_and!.
  - rewrite length_take, py_sort_length. unfold PRUNE_KEEP, DDOS_SOURCES_MAX in *. lia.
  - intros kv Hkv. rewrite <-(py_sort_perm newer d). apply elem_of_take in Hkv as (i & Hi & _).
    by eapply list_elem_of_lookup_2.
  - intros kept dropped Hk Hd Hnk.
    apply (StronglySorted_app_rel (py_le newer) (take PRUNE_KEEP (py_sort newer d))
             (drop PRUNE_KEEP (py_sort newer d))); [by rewrite take_drop|done|].
    rewrite <-(py_sort_perm newer d), <-(take_drop PRUNE_KEEP (py_sort newer d)) in Hd.
    apply elem_of_app in Hd. naive_solver.
Qed.

(** *** Restoring the list after a restart *)

Definition first_action (ip : string) (rows : list LogRow) : option LogRow :=
  head (filter (λ r, lg_src_ip r = ip) rows).

(** What one log row says about its address. *)
Definition verdict_of (r : LogRow) : option DdosSource :=
  if bool_decide (lg_classification r ∈ DDOS_CLASSIFICATIONS)
  then Some (mkDdosSource (lg_src_ip r) (lg_dst_ip r) (lg_rate r) (lg_timestamp r)
                          (lg_classification r))
  else None.

Lemma record_source_get ip c v r t d j :
  (S (length d) ≤ DDOS_SOURCES_MAX)%nat →
  dict_get j (record_ddos_source_pure ip c v r t d) =
  if decide (ip = j) then
    (if bool_decide (c ∈ DDOS_CLASSIFICATIONS) then Some (mkDdosSource ip v r t c) else None)
  else dict_get j d.
Proof.
  intros Hlen. unfold record_ddos_source_pure, _prune_ddos_sources.
  case_bool_decide; simpl.
  - pose proof (dict_set_length ip (mkDdosSource ip v r t c) d).
    destruct (Nat.leb_spec (length (dict_set ip (mkDdosSource ip v r t c) d)) DDOS_SOURCES_MAX); [|lia].
    case_decide; subst; [by rewrite dict_get_set_eq|by rewrite dict_get_set_ne].
  - case_decide; subst; [by rewrite dict_get_pop_eq|by rewrite dict_get_pop_ne].
Qed.

Lemma record_source_length ip c v r t d :
  (S (length d) ≤ DDOS_SOURCES_MAX)%nat →
  (length (record_ddos_source_pure ip c v r t d) ≤ S (length d))%nat.
Proof.
  intros Hlen. unfold record_ddos_source_pure, _prune_ddos_sources.
  case_bool_decide; simpl.
  - pose proof (dict_set_length ip (mkDdosSource ip v r t c) d).
    destruct (Nat.leb_spec (length (dict_set ip (mkDdosSource ip v r t c) d)) DDOS_SOURCES_MAX); lia.
  - unfold dict_pop. pose proof (length_filter (λ kv : string * DdosSource, kv.1 ≠ ip) d). lia.
Qed.

(** The addresses of the rows that are still to be met. *)
Definition sources_of (rows : list LogRow) : gset string := list_to_set (lg_src_ip <$> rows).

Lemma restore_sources_get rows seen d ip :
  (size (sources_of rows ∖ seen) + length d ≤ DDOS_SOURCES_MAX)%nat →
  dict_get ip (restore_sources rows seen d) =
  if decide (ip ∈ seen) then dict_get ip d
  else match first_action ip rows with
       | Some r => verdict_of r
       | None => dict_get ip d
       end.
Proof.
  revert seen d. induction rows as [|r rows IH]; intros seen d Hlen; simpl.
  { by case_decide. }
  change (sources_of (r :: rows)) with ({[lg_src_ip r]} ∪ sources_of rows) in Hlen.
  unfold first_action. rewrite filter_cons.
  case_bool_decide as Hseen.
  - rewrite IH.
    2: { assert (Hd : ({[lg_src_ip r]} ∪ sources_of rows) ∖ seen = sources_of rows ∖ seen) by set_solver.
         by rewrite Hd in Hlen. }
    destruct (decide (ip ∈ seen)) as [|Hns]; [done|].
    rewrite decide_False; [done|]. congruence.
  - assert (Hd : ({[lg_src_ip r]} ∪ sources_of rows) ∖ seen = {[lg_src_ip r]} ∪ sources_of rows ∖ ({[lg_src_ip r]} ∪ seen)).
    { apply set_eq. intros x. destruct (decide (x = lg_src_ip r)); set_solver. }
    rewrite Hd, size_union, size_singleton in Hlen by set_solver.
    rewrite IH.
    2: { pose proof (record_source_length (lg_src_ip r) (lg_classification r) (lg_dst_ip r)
                       (lg_rate r) (lg_timestamp r) d). lia. }
    rewrite record_source_get by lia.
    destruct (decide (lg_src_ip r = ip)) as [<-|Hne].
    + rewrite decide_True by set_solver. rewrite decide_False by done. done.
    + destruct (decide (ip ∈ seen)).
      * rewrite decide_True by set_solver. done.
      * rewrite decide_False by set_solver. done.
Qed.

(** The restored list says, for every address, what its newest enforcement
    action said: an attacker if it was blocked, nothing if it was only
    rate-limited or never acted on. *)
Theorem restore_newest_wins rows ip :
  (size (sources_of rows) ≤ DDOS_SOURCES_MAX)%nat →
  dict_get ip (restore_sources rows ∅ []) = first_action ip rows ≫= verdict_of.
Proof.
  intros Hlen. rewrite restore_sources_get by (rewrite difference_empty_L; simpl; lia).
  rewrite decide_False by set_solver. by destruct (first_action ip rows).
Qed.

(** ** The iptables rules *)

#[global] Instance chain_eq_dec : EqDecision chain.
Proof. solve_decision. Defined.
#[global] Instance rule_eq_dec : EqDecision rule.
Proof. solve_decision. Defined.

(** How often a rule is in a chain after the commands of a trace, [r0] being
    the count before it: an insertion that succeeded adds one, a deletion that
    succeeded removes one. *)
Definition rule_step (c : chain) (r : rule) (n : nat) (ev : event) : nat :=
  match ev with
  | EvCmd (IptInsert c' r') (PDone 0%Z _) => if decide ((c', r') = (c, r)) then S n else n
  | EvCmd (IptDelete c' r') (PDone 0%Z _) => if decide ((c', r') = (c, r)) then pred n else n
  | _ => n
  end.

Definition rule_count (r0 : chain → rule → nat) (tr : list event) (c : chain) (r : rule) : nat :=
  foldl (rule_step c r) (r0 c r) tr.

(** The documented behaviour of the iptables command: -C succeeds exactly when
    the rule is there, -I succeeds, -D succeeds exactly when there is a rule to
    delete. *)
Class Netfilter {E : Env} (r0 : chain → rule → nat) : Prop := {
  nf_check n tr c r :
    ∃ rc out, sub n tr (IptCheck c r) = PDone rc out ∧ (rc = 0%Z ↔ 0 < rule_count r0 tr c r);
  nf_insert n tr c r : ∃ out, sub n tr (IptInsert c r) = PDone 0%Z out;
  nf_delete n tr c r :
    ∃ rc out, sub n tr (IptDelete c r) = PDone rc out ∧ (rc = 0%Z ↔ 0 < rule_count r0 tr c r) }.

Lemma rule_count_snoc r0 tr ev c r :
  rule_count r0 (tr ++ [ev]) c r = rule_step c r (rule_count r0 tr c r) ev.
Proof. unfold rule_count. by rewrite foldl_app. Qed.

Section netfilter.
Context {E : Env} (r0 : chain → rule → nat) `{!Netfilter r0}.

Definition kernel (w : World) : chain → rule → nat := rule_count r0 (w_trace w).

Lemma kernel_emit ev w c r : kernel (emit ev w) c r = rule_step c r (kernel w c r) ev.
Proof. unfold kernel. by rewrite emit_trace, rule_count_snoc. Qed.

Lemma kernel_tick w : kernel (tick w) = kernel w.
Proof. by destruct w. Qed.

Lemma tick_ticks_trace w : w_trace (tick w) = w_trace w.
Proof. by destruct w. Qed.

(** Raise a count to one, or remove one, at a single rule. *)
Definition ensured (c : chain) (r : rule) (k : chain → rule → nat) : chain → rule → nat :=
  λ c' r', if decide ((c, r) = (c', r')) then Nat.max 1 (k c' r') else k c' r'.
Definition removed (c : chain) (r : rule) (k : chain → rule → nat) : chain → rule → nat :=
  λ c' r', if decide ((c, r) = (c', r')) then pred (k c' r') else k c' r'.

Lemma ensure_rule_spec c r w :
  (ensure_rule c r w).1 = Ok tt ∧
  ∀ c' r', kernel (ensure_rule c r w).2 c' r' = ensured c r (kernel w) c' r'.
Proof.
  unfold ensure_rule, mbind, M_bind, run_cmd.
  destruct (nf_check (w_ticks w) (w_trace w) c r) as (rc & out & -> & Hrc). simpl.
  destruct (Z.eqb_spec rc 0) as [->|Hne]; simpl.
  - split; [done|]. intros c' r'. rewrite kernel_emit, kernel_tick. simpl.
    unfold ensured. case_decide as Heq; [|done]. simplify_eq.
    assert (0 < kernel w c' r') by by apply Hrc. lia.
  - destruct (nf_insert (w_ticks (emit (EvCmd (IptCheck c r) (PDone rc out)) (tick w)))
                (w_trace (emit (EvCmd (IptCheck c r) (PDone rc out)) (tick w))) c r) as [out' ->].
    simpl. split; [done|]. intros c' r'. rewrite !kernel_emit, !kernel_tick, !kernel_emit, kernel_tick.
    simpl. unfold ensured. case_decide as Heq; [|done]. simplify_eq.
    assert (¬ 0 < kernel w c' r') by (intros H; by apply Hne, Hrc). lia.
Qed.

Lemma delete_rule_spec c r w :
  let m := (run_cmd (IptDelete c r);; mret tt : M World unit) w in
  m.1 = Ok tt ∧ ∀ c' r', kernel m.2 c' r' = removed c r (kernel w) c' r'.
Proof.
  cbv zeta. unfold mbind, M_bind, run_cmd.
  destruct (nf_delete (w_ticks w) (w_trace w) c r) as (rc & out & -> & Hrc). simpl.
  split; [done|]. intros c' r'. rewrite kernel_emit, kernel_tick. simpl. unfold removed.
  destruct (decide (rc = 0%Z)) as [->|Hne]; [done|].
  transitivity (kernel w c' r'); [by destruct rc|]. case_decide as Heq; [|done]. simplify_eq.
  assert (¬ 0 < kernel w c' r') by (intros H; by apply Hne, Hrc). lia.
Qed.

(** Two statements in a row that each act on one chain. *)
Lemma both_chains (body : chain → M World unit) (f : chain → (chain → rule → nat) → chain → rule → nat) :
  (∀ c w, (body c w).1 = Ok tt ∧ ∀ c' r', kernel (body c w).2 c' r' = f c (kernel w) c' r') →
  (∀ c k k', (∀ c' r', k c' r' = k' c' r') → ∀ c' r', f c k c' r' = f c k' c' r') →
  ∀ w, (for_each [INPUT; FORWARD] body w).1 = Ok tt ∧
       ∀ c' r', kernel (for_each [INPUT; FORWARD] body w).2 c' r' =
                f FORWARD (f INPUT (kernel w)) c' r'.
Proof.
  intros Hb Hext w. simpl. unfold mbind, M_bind.
  destruct (Hb INPUT w) as [H1 K1]. destruct (body INPUT w) as [o1 w1]. simpl in *. subst.
  destruct (Hb FORWARD w1) as [H2 K2]. destruct (body FORWARD w1) as [o2 w2]. simpl in *. subst.
  split; [done|]. intros c' r'. rewrite K2. by apply Hext.
Qed.

Lemma ensured_ext c r k k' :
  (∀ c' r', k c' r' = k' c' r') → ∀ c' r', ensured c r k c' r' = ensured c r k' c' r'.
Proof. intros H c' r'. unfold ensured. by rewrite H. Qed.
Lemma removed_ext c r k k' :
  (∀ c' r', k c' r' = k' c' r') → ∀ c' r', removed c r k c' r' = removed c r k' c' r'.
Proof. intros H c' r'. unfold removed. by rewrite H. Qed.

Lemma ensure_hashlimit_count pps w c r :
  (_ensure_hashlimit_rule pps w).1 = Ok tt ∧
  kernel (_ensure_hashlimit_rule pps w).2 c r =
  if decide (r = RuleHashlimit pps) then Nat.max 1 (kernel w c r) else kernel w c r.
Proof.
  destruct (both_chains (λ c, ensure_rule c (RuleHashlimit pps)) (λ c, ensured c (RuleHashlimit pps))
              (λ c w, ensure_rule_spec c _ w) (λ c k k', ensured_ext c _ k k') w) as [Hok K].
  split; [done|]. unfold _ensure_hashlimit_rule. rewrite K. unfold ensured.
  destruct c; repeat case_decide; simplify_eq; done.
Qed.

(** Changing the cap replaces the rule in both chains: the old cap loses one
    copy, the new cap is present, every other rule is untouched. *)
Theorem update_hashlimit_replaces old_pps new_pps w c r :
  json_py_eq old_pps new_pps = false →
  (update_ratelimit_hashlimit old_pps new_pps w).1 = Ok tt ∧
  kernel (update_ratelimit_hashlimit old_pps new_pps w).2 c r =
    (if decide (r = RuleHashlimit new_pps) then
       Nat.max 1 (if decide (r = RuleHashlimit old_pps) then pred (kernel w c r) else kernel w c r)
     else if decide (r = RuleHashlimit old_pps) then pred (kernel w c r)
     else kernel w c r).
Proof.
  intros Hne. unfold update_ratelimit_hashlimit. rewrite Hne.
  destruct (both_chains (λ c, run_cmd (IptDelete c (RuleHashlimit old_pps));; mret tt)
              (λ c, removed c (RuleHashlimit old_pps))
              (λ c w, delete_rule_spec c _ w) (λ c k k', removed_ext c _ k k') w) as [Hok K].
  unfold mbind at 1 3, M_bind at 1 3.
  destruct (for_each [INPUT; FORWARD] _ w) as [o w1]. simpl in Hok, K. subst o.
  destruct (ensure_hashlimit_count new_pps w1 c r) as [Hok2 K2].
  split; [done|]. rewrite K2, K. unfold removed.
  destruct c; repeat case_decide; simplify_eq; done.
Qed.
End netfilter.

Lemma pres_setup_ipset {E : Env} I `{!StEnv I, !StCmd (λ _, True) I} : pres I setup_ipset.
Proof.
  unfold setup_ipset, _ensure_hashlimit_rule, ensure_rule. pres_auto;
    first [by apply pres_get_enforcement_config|by apply (pres_run_cmd I (λ _, True))].
Qed.

(** ** Concrete cases *)

Lemma block_ip_debounce_witness :
  let w1 := (@block_ip still_env "203.0.113.9" (JNum (NInt 3600)) (Some "10.0.0.5"%string) None None
               empty_world).2 in
  @block_ip still_env "203.0.113.9" (JNum (NInt 60)) None None None w1 = (Ok tt, tick w1).
Proof. apply (@block_ip_debounce still_env); reflexivity. Defined.

Definition many_sources : list (string * DdosSource) :=
  (λ n, (pretty n, mkDdosSource (pretty n) "10.0.0.5" None (NInt (Z.of_nat n)) CLASS_BLOCKED))
    <$> seq 0 (S DDOS_SOURCES_MAX).

Lemma prune_keeps_newest_witness :
  length (_prune_ddos_sources many_sources) = PRUNE_KEEP ∧
  (∀ kv, kv ∈ _prune_ddos_sources many_sources → kv ∈ many_sources) ∧
  (∀ kept dropped, kept ∈ _prune_ddos_sources many_sources → dropped ∈ many_sources →
     dropped ∉ _prune_ddos_sources many_sources →
     nlt (ds_timestamp kept.2) (ds_timestamp dropped.2) = false).
Proof.
  apply prune_keeps_newest; unfold many_sources.
  - rewrite <-list_fmap_compose. apply (NoDup_fmap_2 pretty), NoDup_seq.
  - apply Forall_fmap, Forall_true. done.
  - rewrite length_fmap, length_seq. lia.
Defined.

Lemma restore_newest_wins_witness :
  let rows := [mkLog 2 (NInt 20) "203.0.113.9" "10.0.0.5" "tcp" None None CLASS_BLOCKED;
               mkLog 1 (NInt 10) "203.0.113.9" "10.0.0.5" "tcp" None None CLASS_RATELIMITED]%string in
  dict_get "203.0.113.9"%string (restore_sources rows ∅ []) =
  first_action "203.0.113.9" rows ≫= verdict_of.
Proof. cbv zeta. apply restore_newest_wins. apply Nat.leb_le. vm_compute. reflexivity. Defined.

(** A kernel whose answers are computed from the commands so far. *)
Definition netfilter_env (r0 : chain → rule → nat) : Env :=
  mkEnv (λ n, NInt (Z.of_nat n))
    (λ _ tr c, match c with
               | IptCheck ch r | IptDelete ch r =>
                   PDone (if (0 <? rule_count r0 tr ch r)%nat then 0 else 1)%Z EmptyString
               | _ => PDone 0 EmptyString
               end) (λ _, true) (λ _, 0%nat) default_settings.

Lemma netfilter_env_ok r0 : @Netfilter (netfilter_env r0) r0.
Proof.
  split; intros; simpl; [|by eexists|]; eexists _, _; (split; [done|]);
    destruct (Nat.ltb_spec 0 (rule_count r0 tr c r)); split; intros; try done; lia.
Qed.

Lemma update_hashlimit_replaces_witness :
  let r0 := λ c r, if decide (r = RuleHashlimit (JNum (NInt 50))) then 1 else 0 in
  let w' := (@update_ratelimit_hashlimit (netfilter_env r0) (JNum (NInt 50)) (JNum (NInt 80)) empty_world).2 in
  kernel r0 w' INPUT (RuleHashlimit (JNum (NInt 80))) = 1.
Proof.
  intros r0 w'.
  destruct (@update_hashlimit_replaces (netfilter_env r0) r0 (netfilter_env_ok r0) (JNum (NInt 50))
              (JNum (NInt 80)) empty_world INPUT (RuleHashlimit (JNum (NInt 80))) eq_refl) as [_ H].
  exact H.
Defined.
