(* ===== verification/Playbooks.v ===== *)
(** * playbooks.py: operator-defined playbooks

    Definitions are JSON documents; the engine starts runs when a trigger
    fires and advances every running run once per window. *)

From S2P Require Import Prelude PyNum PyStr Json World Storage Config Alerts Db Enforcement.
From stdpp Require Import pretty.

Definition TRIGGER_TYPES : list string := ["tier_reached"; "persistence"; "scale"].
Definition STAGE_TYPES : list string := ["escalate"; "notify"; "report"].
Definition TRIGGER_MODES : list string := ["any"; "all"].
Definition NOTIFY_CHANNELS : list string := ["all"; "discord"; "email"; "telegram"; "webhook"].

(** [j in s] for a set of strings: a list or dict is unhashable. *)
Definition in_set (j : json) (s : list string) : res bool :=
  match j with
  | JStr t => Ok (bool_decide (t ∈ s))
  | JArr _ | JObj _ => Exn TypeError
  | _ => Ok false
  end.

Definition get_or_null (k : string) (l : list (string * json)) : json :=
  default JNull (dict_get k l).

Fixpoint validate_triggers (ts : list json) : res unit :=
  match ts with
  | [] => Ok tt
  | JObj l :: ts' =>
      ok ← in_set (get_or_null "type" l) TRIGGER_TYPES;
      if (ok : bool) then validate_triggers ts' else Exn DefinitionError
  | _ :: _ => Exn DefinitionError
  end.

(** [isinstance(delay, (int, float)) and not isinstance(delay, bool) and delay >= 0],
    written as the code does, so a NaN passes. *)
Definition delay_ok (delay : json) : bool :=
  match delay with JNum n => negb (nlt n (NInt 0)) | _ => false end.

Fixpoint validate_stages (ss : list json) : res unit :=
  match ss with
  | [] => Ok tt
  | JObj l :: ss' =>
      ok ← in_set (get_or_null "type" l) STAGE_TYPES;
      if negb ok then Exn DefinitionError
      else if negb (delay_ok (default (JNum (NInt 0)) (dict_get "delay_seconds" l)))
      then Exn DefinitionError
      else
        match get_or_null "type" l, dict_get "channel" l with
        | JStr "notify", Some c =>
            known ← in_set c NOTIFY_CHANNELS;
            if (known : bool) then validate_stages ss' else Exn DefinitionError
        | _, _ => validate_stages ss'
        end
  | _ :: _ => Exn DefinitionError
  end.

Definition validate_definition (definition : json) : res json :=
  match definition with
  | JObj l =>
      match dict_get "triggers" l, dict_get "stages" l with
      | Some (JArr ((_ :: _) as triggers)), Some (JArr ((_ :: _) as stages)) =>
          known ← in_set (default (JStr "any") (dict_get "trigger_mode" l)) TRIGGER_MODES;
          if negb known then Exn DefinitionError
          else
            _ ← validate_triggers triggers;
            _ ← validate_stages stages;
            Ok definition
      | _, _ => Exn DefinitionError
      end
  | _ => Exn DefinitionError
  end.

(** [value >= trigger.get(field, 1)] *)
Definition threshold_met (value : Z) (l : list (string * json)) (field : string) : res bool :=
  n ← as_num (default (JNum (NInt 1)) (dict_get field l));
  mret (nge (NInt value) n).

Definition _trigger_fires (trigger : json) (tier consecutive hosts : Z) : res bool :=
  match trigger with
  | JObj l =>
      match get_or_null "type" l with
      | JStr "tier_reached" => threshold_met tier l "min_tier"
      | JStr "persistence" => threshold_met consecutive l "consecutive_windows"
      | JStr "scale" => threshold_met hosts l "min_hosts_simultaneously"
      | _ => Ok false
      end
  | _ => Exn AttributeError
  end.

Fixpoint fires_all (ts : list json) (tier consecutive hosts : Z) : res (list bool) :=
  match ts with
  | [] => Ok []
  | t :: ts' =>
      b ← _trigger_fires t tier consecutive hosts;
      bs ← fires_all ts' tier consecutive hosts;
      mret (b :: bs)
  end.

(** [definition["triggers"]] and [definition["stages"]] of a document. *)
Definition doc_list (k : string) (definition : json) : res (list json) :=
  match definition with
  | JObj l => match dict_get k l with Some j => json_iter j | None => Exn KeyError end
  | _ => Exn TypeError
  end.

Definition evaluate_triggers (definition : json) (tier consecutive hosts : Z) : res bool :=
  ts ← doc_list "triggers" definition;
  results ← fires_all ts tier consecutive hosts;
  mode ← py_get_default definition "trigger_mode" (JStr "any");
  mret (if json_is_str "all" mode then forallb id results else existsb id results).

(** [validate_definition(json.loads(text))] under
    [except (DefinitionError, json.JSONDecodeError)]. *)
Definition stored_definition (t : jtext) : res (option json) :=
  match (j ← json_loads t; validate_definition j) with
  | Ok d => Ok (Some d)
  | Exn DefinitionError | Exn JSONDecodeError => Ok None
  | Exn e => Exn e
  end.

Definition trigger_reason (tier consecutive hosts : Z) : string :=
  "tier=" ^^ pretty tier ^^ " consecutive=" ^^ pretty consecutive ^^
  " hosts_under_attack=" ^^ pretty hosts.

(** Is the source of a run one that can be acted on? *)
Definition attributable (source : option string) : option string :=
  match source with
  | Some s => if bool_decide (s = EmptyString) || is_sentinel s then None else Some s
  | None => None
  end.

(** [stages[i]], negative indices counting from the end. *)
Definition py_index {A} (l : list A) (i : Z) : option A :=
  if (i <? 0)%Z then if (i + Z.of_nat (length l) <? 0)%Z then None
                     else l !! Z.to_nat (i + Z.of_nat (length l))
  else l !! Z.to_nat i.

Definition stage_get (stage : json) (k : string) (d : json) : res json :=
  py_get_default stage k d.

Section playbooks.
Context {E : Env}.

(** ** Starting runs *)

Definition start_if_due (victim_ip : string) (tier consecutive hosts : Z)
    (target_source : option string) (now : num) (row : Z * jtext) : M World unit :=
  active ← get_active_playbook_run row.1 victim_ip;
  match active with
  | Some _ => mret tt
  | None =>
      def ← lift (stored_definition row.2);
      match def with
      | None => mret tt
      | Some definition =>
          fires ← lift (evaluate_triggers definition tier consecutive hosts);
          if (fires : bool) then
            start_playbook_run row.1 victim_ip target_source
              (trigger_reason tier consecutive hosts) now;; mret tt
          else mret tt
      end
  end.

Definition check_and_start_runs (victim_ip : string) (tier consecutive hosts : Z)
    (target_source : option string) (now : num) : M World unit :=
  rows ← get_enabled_playbooks_for_host victim_ip;
  for_each rows (start_if_due victim_ip tier consecutive hosts target_source now).

(** ** Stages *)

Definition _execute_escalate (stage : json) (target_host : string)
    (target_source : option string) : M World stage_detail :=
  match attributable target_source with
  | None => mret DSkipped
  | Some source =>
      tier ← lift (stage_get stage "target_tier" (JNum (NInt 1)));
      cfg ← get_enforcement_config;
      t ← lift (as_num tier);
      if nle t (NInt 2) then
        dur ← lift (cfg_get cfg "block_duration_seconds");
        block_ip source dur (Some target_host) None None;;
        mret (DBlocked source tier)
      else
        dur ← lift (cfg_get cfg "ratelimit_duration_seconds");
        ratelimit_ip source dur (Some target_host) None CLASS_RATELIMITED None;;
        mret (DRateLimited source tier)
  end.

Definition _execute_notify (stage : json) (target_host : string)
    (target_source : option string) : M World stage_detail :=
  channel ← lift (stage_get stage "channel" (JStr "all"));
  let subject := "FLOD System: playbook escalation for " ^^ target_host in
  let message := "Playbook stage fired against " ^^ target_host ^^
    match target_source with
    | Some s => if bool_decide (s = EmptyString) then "" else ", source " ^^ s
    | None => ""
    end ^^ "." in
  dispatch_alert subject message (match channel with JStr c => c | _ => "all" end);;
  mret (DNotified channel).

(** What building the report does to the process: two kernel listings and
    database reads, any of which can fail; the rendering itself is opaque. *)
Definition render_report : M World unit :=
  execute;; get_blocked_ips;; get_ratelimited_ips;; execute;;
  ok ← io; if negb ok then raise ModelError else mret tt.

Definition _execute_report (target_host : string) : M World stage_detail :=
  rendered ← try_all (render_report;; mret true) (mret false);
  if negb rendered then mret DReportFailed
  else
    made ← io;
    if negb made then raise OSError
    else
      now ← time_time;
      secs ← lift (py_int now);
      written ← io;
      if negb written then raise OSError else mret (DReport target_host secs).

Definition execute_stage (stage : json) (target_host : string)
    (target_source : option string) : M World stage_detail :=
  stage_type ← lift (o ← py_get stage "type";
                     match o with Some t => Ok t | None => Exn KeyError end);
  match stage_type with
  | JStr "escalate" => _execute_escalate stage target_host target_source
  | JStr "notify" => _execute_notify stage target_host target_source
  | JStr "report" => _execute_report target_host
  | t => mret (DUnknown t)
  end.

(** ** Advancing runs *)

(** The stage a run is at and the index that follows it. *)
Definition run_due_stage (run : PlaybookRun) (stage : json) (count : nat) (now : num)
    : M World unit :=
  detail ← execute_stage stage (rn_target_host run) (rn_target_source run);
  ty ← lift (py_get_default stage "type" JNull);
  record_playbook_event (rn_id run) (rn_stage_index run) ty (rn_target_source run) detail now;;
  let next_index := (rn_stage_index run + 1)%Z in
  advance_playbook_run (rn_id run)
    (if (next_index <? Z.of_nat count)%Z then Some next_index else None) now.

Definition advance_one (now : num) (run : PlaybookRun) : M World unit :=
  text ← get_playbook_definition (rn_playbook_id run);
  match text with
  | None => mret tt
  | Some t =>
      def ← lift (stored_definition t);
      match def with
      | None => mret tt
      | Some definition =>
          stages ← lift (doc_list "stages" definition);
          if (Z.of_nat (length stages) <=? rn_stage_index run)%Z then
            advance_playbook_run (rn_id run) None now
          else
            stage ← lift (match py_index stages (rn_stage_index run) with
                          | Some s => Ok s | None => Exn IndexError end);
            delay ← lift (stage_get stage "delay_seconds" (JNum (NInt 0)));
            d ← lift (as_num delay);
            if nlt (nsub now (rn_updated_at run)) d then mret tt
            else run_due_stage run stage (length stages) now
      end
  end.

Definition advance_runs (now : num) : M World unit :=
  runs ← get_running_playbook_runs;
  for_each runs (advance_one now).
End playbooks.
