(* ===== verification/PlaybooksFacts.v ===== *)
(** * Properties of playbooks.py

    What validation accepts, that a trigger never starts a second run for the
    same playbook and host, that a pass moves every run by at most one stage,
    and what a stored definition with a mistyped threshold does to the
    engine. *)

From S2P Require Import Prelude PyNum PyStr Json World Storage Config Alerts Db Enforcement.
From S2P Require Import EnforcementFacts Playbooks.

(** ** Validation *)

Definition wf_trigger (t : json) : Prop :=
  ∃ l ty, t = JObj l ∧ dict_get "type" l = Some (JStr ty) ∧ ty ∈ TRIGGER_TYPES.

Definition wf_stage (s : json) : Prop :=
  ∃ l ty, s = JObj l ∧ dict_get "type" l = Some (JStr ty) ∧ ty ∈ STAGE_TYPES ∧
    (∀ d, dict_get "delay_seconds" l = Some d → ∃ n, d = JNum n ∧ nlt n (NInt 0) = false) ∧
    (ty = "notify"%string → ∀ c, dict_get "channel" l = Some c →
       ∃ s, c = JStr s ∧ s ∈ NOTIFY_CHANNELS).

Definition wf_definition (d : json) : Prop :=
  ∃ l ts ss, d = JObj l ∧
    dict_get "triggers" l = Some (JArr ts) ∧ ts ≠ [] ∧ Forall wf_trigger ts ∧
    dict_get "stages" l = Some (JArr ss) ∧ ss ≠ [] ∧ Forall wf_stage ss ∧
    (∀ m, dict_get "trigger_mode" l = Some m → ∃ s, m = JStr s ∧ s ∈ TRIGGER_MODES).

Lemma in_set_true j s : in_set j s = Ok true ↔ ∃ t, j = JStr t ∧ t ∈ s.
Proof.
  destruct j; simpl; try (split; [done|naive_solver]).
  split; [intros [= H%bool_decide_eq_true]; eauto|].
  intros (t & [= ->] & Ht). by rewrite bool_decide_eq_true_2.
Qed.

Lemma get_or_null_str k l t : get_or_null k l = JStr t ↔ dict_get k l = Some (JStr t).
Proof. unfold get_or_null. destruct (dict_get k l); naive_solver. Qed.

(** The tests of the validators, as equivalences. *)
Lemma guard_true {A} (r : res bool) (k : res A) a e :
  (ok ← r; if (ok : bool) then k else Exn e) = Ok a ↔ r = Ok true ∧ k = Ok a.
Proof. destruct r as [[]|]; simpl; naive_solver. Qed.

Lemma validate_triggers_iff ts : validate_triggers ts = Ok tt ↔ Forall wf_trigger ts.
Proof.
  induction ts as [|t ts IH]; [done|]. rewrite Forall_cons, <-IH. destruct t as [| | | | |l];
    try (simpl; split; [done|intros [(? & ? & ? & _) _]; done]).
  cbn [validate_triggers]. rewrite guard_true, in_set_true. unfold wf_trigger.
  setoid_rewrite get_or_null_str. naive_solver.
Qed.

Lemma delay_ok_iff l :
  delay_ok (default (JNum (NInt 0)) (dict_get "delay_seconds" l)) = true ↔
  (∀ d, dict_get "delay_seconds" l = Some d → ∃ n, d = JNum n ∧ nlt n (NInt 0) = false).
Proof.
  destruct (dict_get "delay_seconds" l) as [d|]; simpl; [|naive_solver].
  destruct d; simpl; try (split; [done|naive_solver]).
  rewrite negb_true_iff. naive_solver.
Qed.

Lemma validate_stages_cons l ss :
  validate_stages (JObj l :: ss) = Ok tt ↔ wf_stage (JObj l) ∧ validate_stages ss = Ok tt.
Proof.
  cbn [validate_stages]. unfold wf_stage.
  destruct (in_set (get_or_null "type" l) STAGE_TYPES) as [[]|e] eqn:Hty; cbn;
    [|split; [done|]; intros [(l' & ty & [= <-] & Hl & Hin & _) _]..];
    [|apply get_or_null_str in Hl; rewrite Hl in Hty; simpl in Hty;
      rewrite bool_decide_eq_true_2 in Hty; done..].
  apply in_set_true in Hty as (ty & Hl & Hin). rewrite Hl. apply get_or_null_str in Hl.
  pose proof (delay_ok_iff l) as Hdelay.
  destruct (delay_ok _); cbn.
  2: { split; [done|]. intros [(l' & ty' & [= <-] & ? & ? & Hd & _) _]. by apply Hdelay in Hd. }
  destruct (decide (ty = "notify"%string)) as [->|Hne].
  - destruct (dict_get "channel" l) as [c|] eqn:Hc.
    + rewrite guard_true, in_set_true. split.
      * intros [(t & -> & Ht) Hss]. split; [|done]. exists l, "notify"%string.
        split_and!; try done; [by apply Hdelay|]. intros _ c' Hc'.
        rewrite Hc in Hc'. simplify_eq. eauto.
      * intros [(l' & ty' & [= <-] & Hl' & _ & _ & Hch) Hss]. split; [|done].
        assert (ty' = "notify"%string) as -> by congruence. by apply Hch.
    + split.
      * intros Hss. split; [|done]. exists l, "notify"%string.
        split_and!; try done; [by apply Hdelay|congruence].
      * by intros [_ ?].
  - assert (Hskip : match JStr ty, dict_get "channel" l with
                    | JStr "notify", Some c =>
                        known ← in_set c NOTIFY_CHANNELS;
                        if (known : bool) then validate_stages ss else Exn DefinitionError
                    | _, _ => validate_stages ss
                    end = validate_stages ss).
    { by repeat (case_match; try done). }
    cbn [get_or_null] in Hskip |- *. rewrite Hskip. split; [|by intros [_ ?]]. intros Hss. split; [|done]. exists l, ty.
    split_and!; try done; by apply Hdelay.
Qed.

Lemma validate_stages_iff ss : validate_stages ss = Ok tt ↔ Forall wf_stage ss.
Proof.
  induction ss as [|s ss IH]; [done|]. rewrite Forall_cons, <-IH. destruct s as [| | | | |l];
    [try (simpl; split; [done|intros [(? & ? & ? & _) _]; done])..|].
  apply validate_stages_cons.
Qed.

Lemma validate_wf d d' : validate_definition d = Ok d' → d' = d ∧ wf_definition d.
Proof.
  destruct d as [| | | | |l]; try done. unfold wf_definition. cbn [validate_definition].
  destruct (dict_get "triggers" l) as [[| | | |[|t ts]|]|] eqn:Ht; try done.
  destruct (dict_get "stages" l) as [[| | | |[|s ss]|]|] eqn:Hs; try done.
  destruct (in_set _ TRIGGER_MODES) as [[]|] eqn:Hm; try done. cbn [mbind res_bind negb].
  destruct (validate_triggers (t :: ts)) as [[]|] eqn:Htv; try done. cbn [mbind res_bind].
  destruct (validate_stages (s :: ss)) as [[]|] eqn:Hsv; try done. cbn [mbind res_bind].
  intros [= <-]. split; [done|]. exists l, (t :: ts), (s :: ss).
  apply validate_triggers_iff in Htv. apply validate_stages_iff in Hsv.
  apply in_set_true in Hm as (m & Hm & Hin). split_and!; try done.
  intros m' Hm'. rewrite Hm' in Hm. simpl in Hm. eauto.
Qed.

Lemma wf_validates d : wf_definition d → validate_definition d = Ok d.
Proof.
  intros (l & ts & ss & -> & Ht & Htn & Htf & Hs & Hsn & Hsf & Hm). cbn [validate_definition].
  rewrite Ht, Hs. destruct ts as [|t ts]; [done|]. destruct ss as [|s ss]; [done|].
  assert (in_set (default (JStr "any") (dict_get "trigger_mode" l)) TRIGGER_MODES = Ok true) as ->.
  { apply in_set_true. destruct (dict_get "trigger_mode" l) as [m|]; simpl; [by apply Hm|].
    exists "any"%string. split; [done|]. set_solver. }
  cbn [mbind res_bind negb].
  apply validate_triggers_iff in Htf as ->. apply validate_stages_iff in Hsf as ->. done.
Qed.

(** C25: Validation accepts exactly the closed vocabulary of triggers, stages,
    modes, delays and channels, and returns the document unchanged. *)
Theorem validate_definition_iff d d' :
  validate_definition d = Ok d' ↔ d' = d ∧ wf_definition d.
Proof. split; [apply validate_wf|]. intros [-> H]. by apply wf_validates. Qed.

(** ** Preservation through the engine *)

Section engine_pres.
Context {E : Env} (I : World → Prop) `{!StEnv I, !StAlert I, !StEvents I}.
Hypothesis Hblock : ∀ ip dur v r e, pres I (block_ip ip dur v r e).
Hypothesis Hlimit : ∀ ip dur v r c e, pres I (ratelimit_ip ip dur v r c e).
Hypothesis Hlist : ∀ s, pres I (run_cmd (IpsetList s)).
Hypothesis Hadvance : ∀ i n t, pres I (advance_playbook_run i n t).

Lemma pres_get_members s : pres I (_get_ipset_members s).
Proof using StEnv0 Hlist. unfold _get_ipset_members. pres_auto. Qed.

Lemma pres_execute_stage stage host src : pres I (execute_stage stage host src).
Proof using StEnv0 StAlert0 Hblock Hlimit Hlist.
  unfold execute_stage, _execute_escalate, _execute_notify, _execute_report, render_report,
    get_blocked_ips, get_ratelimited_ips, get_enforcement_config.
  apply pres_bind; [apply pres_lift|]. intros t.
  repeat case_match; try apply pres_ret; pres_auto; eauto using pres_get_members.
Qed.

Lemma pres_advance_one now run : pres I (advance_one now run).
Proof using Type*.
  unfold advance_one, run_due_stage, get_playbook_definition. pres_auto;
    eauto using pres_execute_stage, pres_record_playbook_event.
Qed.

Lemma pres_advance_runs now : pres I (advance_runs now).
Proof using Type*.
  unfold advance_runs, get_running_playbook_runs. pres_auto. by apply pres_advance_one.
Qed.
End engine_pres.

Lemma pres_check_and_start {E : Env} I `{!StEnv I} v t c h s now :
  (∀ row, pres I (start_if_due v t c h s now row)) →
  pres I (check_and_start_runs v t c h s now).
Proof. intros Hs. unfold check_and_start_runs, get_enabled_playbooks_for_host. pres_auto. Qed.

Lemma pres_start_if_due_db {E : Env} I `{!StEnv I, !StDb I} v t c h s now row :
  pres I (start_if_due v t c h s now row).
Proof.
  unfold start_if_due, get_active_playbook_run, start_playbook_run. pres_auto.
  apply pres_write_tx; [done|]. intros w Hw. by apply st_db.
Qed.

Lemma pres_advance_playbook_run_db {E : Env} I `{!StEnv I, !StDb I} i n t :
  pres I (advance_playbook_run i n t).
Proof. apply pres_write_tx; [done|]. intros w Hw. by apply st_db. Qed.

(** The engine, like the tiers, never touches a protected address. *)
Section engine_respects.
Context {E : Env} (fs : gmap path jfile) (t0 : list event).

Lemma respects_list s o : respects fs (EvCmd (IpsetList s) o).
Proof. by split; intros; intros ? ? ?. Qed.

Lemma respects_advance_runs now : pres (trace_inv fs t0 (respects fs)) (advance_runs now).
Proof.
  apply pres_advance_runs; try apply _.
  - intros. apply respects_block_ip.
  - intros. apply respects_ratelimit_ip.
  - intros s. eapply pres_run_cmd; [apply _..|]. intros r. apply respects_list.
  - intros. by apply pres_advance_playbook_run_db; apply _.
Qed.

Lemma respects_check_and_start v t c h s now :
  pres (trace_inv fs t0 (respects fs)) (check_and_start_runs v t c h s now).
Proof. apply pres_check_and_start; [apply _|]. intros. apply pres_start_if_due_db; apply _. Qed.
End engine_respects.

(** ** At most one running run per playbook and host *)

Definition one_run (d : Database) : Prop :=
  ∀ pid host, (length (active_runs d pid host) ≤ 1)%nat.

#[global] Instance one_run_logs : StLogs (db_inv one_run).
Proof. by intros u [? ? ? ? ? []]. Qed.
#[global] Instance one_run_metrics : StMetricsTbl (db_inv one_run).
Proof. by intros u [? ? ? ? ? []]. Qed.
#[global] Instance one_run_events : StEvents (db_inv one_run).
Proof. by intros u [? ? ? ? ? []]. Qed.

Lemma filter_map_length {A} (f : A → bool) (g : A → A) l :
  (∀ x, f (g x) = true → f x = true) →
  (length (List.filter f (g <$> l)) ≤ length (List.filter f l))%nat.
Proof.
  intros Hfg. induction l as [|x l IH]; [done|]. rewrite fmap_cons. cbn [List.filter].
  destruct (f (g x)) eqn:Hg; [rewrite (Hfg x Hg); cbn [length]; lia|].
  destruct (f x); cbn [length]; lia.
Qed.

Lemma advance_run_active i next now pid host r :
  is_active_run pid host (advance_run i next now r) = true → is_active_run pid host r = true.
Proof.
  destruct r as [ri p h s st status re sa ua]. unfold advance_run, is_active_run.
  destruct (ri =? i)%Z; [|done]. destruct next; simpl; [done|].
  rewrite !andb_true_iff, !bool_decide_eq_true. by intros [_ ?].
Qed.

Lemma one_run_advance i next now d :
  one_run d → one_run (upd_runs (tb_map (advance_run i next now)) d).
Proof.
  intros H pid host. etransitivity; [|apply (H pid host)].
  destruct d. apply filter_map_length, advance_run_active.
Qed.

Lemma one_run_insert pid host src reason now d :
  one_run d → active_runs d pid host = [] →
  one_run (upd_runs (tb_insert (λ i, mkRun i pid host src 0 Running reason now now)) d).
Proof.
  intros H Hnone pid' host'. destruct d. unfold active_runs in *. simpl in *.
  rewrite List.filter_app, length_app. cbn [List.filter].
  destruct (is_active_run pid' host' _) eqn:Hm; cbn [length].
  - unfold is_active_run in Hm. simpl in Hm.
    rewrite !andb_true_iff, bool_decide_eq_true, Z.eqb_eq in Hm. destruct Hm as [[<- <-] _].
    rewrite Hnone. simpl. lia.
  - specialize (H pid' host'). unfold active_runs in H. simpl in *. lia.
Qed.

Lemma one_run_start {E : Env} v t c h s now row : pres (db_inv one_run) (start_if_due v t c h s now row).
Proof.
  intros w Hw. unfold start_if_due, get_active_playbook_run, mbind at 1, M_bind at 1.
  destruct (read_tx_cases (λ d, head (active_runs d row.1 v)) w) as [->| ->];
    [|by apply (st_ticks (I:=db_inv one_run))].
  destruct (head (active_runs (w_db w) row.1 v)) eqn:Hhead; [by apply (st_ticks (I:=db_inv one_run))|].
  assert (Hnone : active_runs (w_db w) row.1 v = []).
  { destruct (active_runs (w_db w) row.1 v); done. }
  assert (HJ : db_inv one_run (tick w) ∧ w_db (tick w) = w_db w) by by destruct w.
  revert HJ. generalize (tick w). clear Hw. intros w1 [Hw1 Hdb1].
  unfold lift, mbind, M_bind.
  destruct (stored_definition row.2) as [[def|]|]; try done.
  destruct (evaluate_triggers def t c h) as [[]|]; try done.
  assert (Hs : ∀ reason, db_inv one_run (start_playbook_run row.1 v s reason now w1).2).
  { intros reason. apply (write_tx_from (db_inv one_run)); [done|]. intros w2 Hw2 Hdb2.
    destruct w2. simpl in *. subst. apply one_run_insert; [done|]. by rewrite Hdb1. }
  specialize (Hs (trigger_reason t c h)). by destruct (start_playbook_run _ _ _ _ _ w1) as [[]].
Qed.

Lemma one_run_enforce {E : Env} ip dur v r e : pres (db_inv one_run) (block_ip ip dur v r e).
Proof. apply pres_block_ip; [apply _..|]. by intros ? ? []. Qed.
Lemma one_run_limit {E : Env} ip dur v r c e : pres (db_inv one_run) (ratelimit_ip ip dur v r c e).
Proof. apply pres_ratelimit_ip; [apply _..|]. by intros ? []. Qed.

Lemma one_run_advance_runs {E : Env} now : pres (db_inv one_run) (advance_runs now).
Proof.
  apply pres_advance_runs; try apply _; eauto using one_run_enforce, one_run_limit.
  - intros s. eapply (pres_run_cmd _ (λ _, True)); [apply _..|done].
  - intros i n t. apply pres_write_tx; [apply _|]. intros [] Hw. by apply one_run_advance.
Qed.

(** A trigger that keeps firing never starts a second run while one is still
    running: the engine's two passes keep at most one running run per
    playbook and host, through failures included. *)
Theorem engine_one_running_run {E : Env} v t c h s now w :
  one_run (w_db w) →
  one_run (w_db (check_and_start_runs v t c h s now w).2) ∧
  one_run (w_db (advance_runs now w).2).
Proof.
  intros Hw. split.
  - apply (pres_check_and_start (db_inv one_run)); [intros; apply one_run_start|done].
  - by apply one_run_advance_runs.
Qed.

(** ** One stage per pass *)

(** One step of a run: to the next stage, or completed. *)
Definition run_step (now : num) (r r' : PlaybookRun) : Prop :=
  rn_status r = Running ∧
  (r' = advance_run (rn_id r) (Some (rn_stage_index r + 1)%Z) now r ∨
   r' = advance_run (rn_id r) None now r).

(** An invariant of the table of runs alone. *)
Definition runs_inv (P : list PlaybookRun → Prop) : World → Prop :=
  db_inv (λ d, P (tb_rows (db_runs d))).

#[global] Instance runs_inv_env P : StEnv (runs_inv P).
Proof. apply db_inv_env. Qed.
#[global] Instance runs_inv_alert P : StAlert (runs_inv P).
Proof. apply db_inv_alert. Qed.
#[global] Instance runs_inv_cmd Q P : StCmd Q (runs_inv P).
Proof. apply db_inv_cmd. Qed.
#[global] Instance runs_inv_state P : StState (runs_inv P).
Proof. apply db_inv_state. Qed.
#[global] Instance runs_inv_logs P : StLogs (runs_inv P).
Proof. by intros u [? ? ? ? ? []]. Qed.
#[global] Instance runs_inv_events P : StEvents (runs_inv P).
Proof. by intros u [? ? ? ? ? []]. Qed.

(** The rows now, against the rows before: those already visited may have
    made one step, the others are as they were. *)
Definition stepped (now : num) (rows0 done rows : list PlaybookRun) : Prop :=
  Forall2 (λ r r', r' = r ∨ (rn_id r ∈ rn_id <$> done ∧ run_step now r r')) rows0 rows.

Lemma stepped_weaken now rows0 done x rows :
  stepped now rows0 done rows → stepped now rows0 (done ++ [x]) rows.
Proof.
  intros H. eapply Forall2_impl; [done|]. simpl. intros r r' [->|[? ?]]; [by left|right].
  rewrite fmap_app. set_solver.
Qed.

Lemma Forall2_impl_in {A B} (P Q : A → B → Prop) l k :
  Forall2 P l k → (∀ x y, x ∈ l → P x y → Q x y) → Forall2 Q l k.
Proof.
  induction 1 as [|x y l k Hxy _ IH]; intros HQ; constructor; [apply HQ; [left|done]|].
  apply IH. intros. apply HQ; [by right|done].
Qed.

Lemma advance_run_id i next now r : rn_id (advance_run i next now r) = rn_id r.
Proof. destruct r. simpl. by repeat case_match. Qed.

Lemma advance_run_other i next now r : rn_id r ≠ i → advance_run i next now r = r.
Proof. destruct r. simpl. intros. case_match; [|done]. by apply Z.eqb_eq in H0. Qed.

Lemma NoDup_ListFilter_fmap {A B} (f : A → B) (p : A → bool) l :
  NoDup (f <$> l) → NoDup (f <$> List.filter p l).
Proof.
  induction l as [|x l IH]; [done|]. intros [Hx Hl]%NoDup_cons.
  cbn [List.filter]. destruct (p x); [|auto]. rewrite fmap_cons. apply NoDup_cons. split; [|by apply IH].
  intros (y & Hxy & Hy)%list_elem_of_fmap. apply Hx, list_elem_of_fmap. exists y. split; [done|].
  by apply list_elem_of_In in Hy; apply list_elem_of_In; apply filter_In in Hy as [? ?].
Qed.

Lemma stepped_advance now rows0 done x next rows :
  NoDup (rn_id <$> rows0) → x ∈ rows0 → rn_id x ∉ rn_id <$> done → rn_status x = Running →
  next = None ∨ next = Some (rn_stage_index x + 1)%Z →
  stepped now rows0 done rows →
  stepped now rows0 (done ++ [x]) (advance_run (rn_id x) next now <$> rows).
Proof.
  intros Hnd Hx Hdone Hrun Hnext H. unfold stepped. apply Forall2_fmap_r.
  assert (Huniq : ∀ r, r ∈ rows0 → rn_id r = rn_id x → r = x).
  { intros r Hr Heq. apply list_elem_of_lookup in Hr as [i Hi], Hx as [j Hj].
    assert (i = j) as ->; [|congruence].
    apply (NoDup_lookup (rn_id <$> rows0) i j (rn_id x)); [done|..];
      rewrite list_lookup_fmap; [by rewrite Hi, <-Heq|by rewrite Hj]. }
  eapply Forall2_impl_in; [exact H|]. simpl. intros r r' Hr Hrr.
  destruct (decide (rn_id r = rn_id x)) as [Heq|Hne].
  - right. assert (r = x) as -> by auto. rewrite fmap_app. split; [set_solver|].
    destruct Hrr as [->|[? _]]; [|done]. split; [done|]. destruct Hnext as [-> | ->]; auto.
  - assert (Hid : rn_id r' = rn_id r).
    { destruct Hrr as [->|[_ [_ [-> | ->]]]]; [done|apply advance_run_id..]. }
    rewrite advance_run_other by congruence.
    destruct Hrr as [->|[? ?]]; [by left|right]. rewrite fmap_app. set_solver.
Qed.

Section one_step.
Context {E : Env} (now : num) (rows0 : list PlaybookRun) (Huniq : NoDup (rn_id <$> rows0)).

(** A visited run is advanced once at the very end of its visit; everything
    before that leaves the table of runs alone. *)
Lemma visit_one done x :
  x ∈ rows0 → rn_id x ∉ rn_id <$> done → rn_status x = Running →
  goes (runs_inv (stepped now rows0 done)) (runs_inv (stepped now rows0 (done ++ [x])))
       (advance_one now x).
Proof using Huniq.
  intros Hx Hdone Hrun.
  set (J := runs_inv (stepped now rows0 done)). set (J' := runs_inv (stepped now rows0 (done ++ [x]))).
  assert (Hw : ∀ w, J w → J' w) by (intros w; apply stepped_weaken).
  assert (Hlast : ∀ next, next = None ∨ next = Some (rn_stage_index x + 1)%Z →
            goes J J' (advance_playbook_run (rn_id x) next now)).
  { intros next Hn w HJ. unfold advance_playbook_run.
    eapply (write_tx_to J J'); [done..|]. intros w1 Hi _.
    subst J J'. unfold runs_inv, db_inv in *. destruct w1 as [? ? ? ? ? []]. simpl in *.
    by apply stepped_advance. }
  unfold advance_one, get_playbook_definition.
  apply goes_bind; [done|apply pres_read_tx; apply _|]. intros [t|]; [|by apply goes_pres, pres_ret].
  apply goes_bind; [done|apply pres_lift|]. intros [def|]; [|by apply goes_pres, pres_ret].
  apply goes_bind; [done|apply pres_lift|]. intros stages.
  case_match; [apply Hlast; by left|].
  do 3 (apply goes_bind; [done|apply pres_lift|]; intros ?).
  case_match; [by apply goes_pres, pres_ret|]. unfold run_due_stage.
  apply goes_bind; [done| |].
  { apply pres_execute_stage; try apply _; intros; subst J.
    - apply pres_block_ip; [apply _..|]. by intros ? ? [].
    - apply pres_ratelimit_ip; [apply _..|]. by intros ? [].
    - eapply (pres_run_cmd _ (λ _, True)); [apply _..|done]. }
  intros detail. apply goes_bind; [done|apply pres_lift|]. intros ty.
  apply goes_bind; [done|apply pres_record_playbook_event; apply _|]. intros _.
  apply Hlast. case_match; auto.
Qed.

Lemma visit_all runs w :
  runs = List.filter (λ r, bool_decide (rn_status r = Running)) rows0 →
  tb_rows (db_runs (w_db w)) = rows0 →
  ∃ done, stepped now rows0 done (tb_rows (db_runs (w_db (for_each runs (advance_one now) w).2))).
Proof using Huniq.
  intros Hruns Hw.
  destruct (for_each_prefix (λ done, runs_inv (stepped now rows0 done)) runs (advance_one now) w)
    as (done & _ & H); [| |by exists done].
  - unfold runs_inv, db_inv. rewrite Hw. apply Forall2_same_length_lookup_2; [done|].
    intros i r r' ? ?. left. congruence.
  - intros done x rest Hl.
    assert (Hnd : NoDup (rn_id <$> runs)).
    { subst runs. apply NoDup_ListFilter_fmap, Huniq. }
    assert (Hx : x ∈ runs) by (rewrite Hl; set_solver).
    subst runs. apply list_elem_of_In, filter_In in Hx as [Hx Hr].
    apply visit_one; [by apply list_elem_of_In| |by apply bool_decide_eq_true in Hr].
    rewrite Hl, fmap_app, fmap_cons in Hnd. apply NoDup_app in Hnd as (_ & Hdis & _).
    intros Hin. apply (Hdis _ Hin). left.
Qed.
End one_step.

(** One pass of the engine moves every run by at most one stage, whatever its
    stages do and wherever they fail. *)
Theorem advance_runs_one_step {E : Env} now w :
  NoDup (rn_id <$> tb_rows (db_runs (w_db w))) →
  Forall2 (λ r r', r' = r ∨ run_step now r r')
          (tb_rows (db_runs (w_db w))) (tb_rows (db_runs (w_db (advance_runs now w).2))).
Proof.
  intros Hnd. unfold advance_runs, get_running_playbook_runs, mbind, M_bind.
  destruct (read_tx_cases (λ d, List.filter (λ r, bool_decide (rn_status r = Running))
                                  (tb_rows (db_runs d))) w) as [->| ->].
  - destruct (visit_all now _ Hnd _ (tick w) eq_refl) as [done H]; [by destruct w|].
    eapply Forall2_impl; [exact H|]. simpl. naive_solver.
  - destruct w. simpl. apply Forall2_same_length_lookup_2; [done|]. intros i r r' ? ?. left. congruence.
Qed.

(** ** When triggers fire *)

(** The measurement a trigger looks at and the key of its threshold. *)
Definition trigger_input (ty : string) (tier consecutive hosts : Z) : Z * string :=
  if bool_decide (ty = "tier_reached"%string) then (tier, "min_tier"%string)
  else if bool_decide (ty = "persistence"%string) then (consecutive, "consecutive_windows"%string)
  else (hosts, "min_hosts_simultaneously"%string).

(** A trigger whose threshold, if given, is a number. *)
Definition typed_trigger (t : json) : Prop :=
  ∀ l f, t = JObj l → f ∈ ["min_tier"; "consecutive_windows"; "min_hosts_simultaneously"]%string →
         ∀ j, dict_get f l = Some j → ∃ n, as_num j = Ok n.

(** What a trigger is meant to mean. *)
Definition trigger_spec (tier consecutive hosts : Z) (t : json) : Prop :=
  ∃ l ty n, t = JObj l ∧ dict_get "type" l = Some (JStr ty) ∧
    let '(v, f) := trigger_input ty tier consecutive hosts in
    as_num (default (JNum (NInt 1)) (dict_get f l)) = Ok n ∧ nge (NInt v) n = true.

Lemma threshold_met_typed v l f :
  (∀ j, dict_get f l = Some j → ∃ n, as_num j = Ok n) →
  ∃ n, as_num (default (JNum (NInt 1)) (dict_get f l)) = Ok n ∧
       threshold_met v l f = Ok (nge (NInt v) n).
Proof.
  intros H. unfold threshold_met. destruct (dict_get f l) as [j|]; simpl; [|eauto].
  destruct (H j eq_refl) as [n Hn]. exists n. by rewrite Hn.
Qed.

Lemma trigger_fires_typed t tier c h :
  wf_trigger t → typed_trigger t →
  ∃ b, _trigger_fires t tier c h = Ok b ∧ (b = true ↔ trigger_spec tier c h t).
Proof.
  intros (l & ty & -> & Hty & Hin) Htyped. unfold trigger_spec.
  assert (Hf : _trigger_fires (JObj l) tier c h =
    threshold_met (trigger_input ty tier c h).1 l (trigger_input ty tier c h).2).
  { unfold _trigger_fires. apply get_or_null_str in Hty as ->.
    repeat (apply elem_of_cons in Hin as [->|Hin]; [done|]). by apply elem_of_nil in Hin. }
  rewrite Hf. destruct (threshold_met_typed (trigger_input ty tier c h).1 l
    (trigger_input ty tier c h).2) as (n & Hn & ->).
  { intros j. apply (Htyped l); [done|]. unfold trigger_input. repeat case_bool_decide; set_solver. }
  eexists. split; [done|]. split.
  - intros Hb. exists l, ty, n. split_and!; [done..|]. by destruct (trigger_input ty tier c h).
  - intros (l' & ty' & n' & [= <-] & Hty' & Hs). assert (ty' = ty) as -> by congruence.
    destruct (trigger_input ty tier c h). simpl in *. destruct Hs as [Hs ?]. congruence.
Qed.

Lemma fires_all_typed ts tier c h :
  Forall wf_trigger ts → Forall typed_trigger ts →
  ∃ bs, fires_all ts tier c h = Ok bs ∧
        Forall2 (λ t b, b = true ↔ trigger_spec tier c h t) ts bs.
Proof.
  induction ts as [|t ts IH]; intros Hw Ht; [by exists []|].
  apply Forall_cons in Hw as [Hw1 Hw], Ht as [Ht1 Ht].
  destruct (trigger_fires_typed t tier c h Hw1 Ht1) as (b & Hb & Hspec), (IH Hw Ht) as (bs & Hbs & HF).
  exists (b :: bs). cbn [fires_all]. rewrite Hb. cbn. rewrite Hbs. by split; [|constructor].
Qed.

(** An accepted definition whose thresholds are numbers is decided, never
    raises, and fires as its mode says: on all of its triggers or on any. *)
Theorem evaluate_triggers_spec l ts ss tier c h :
  validate_definition (JObj l) = Ok (JObj l) →
  dict_get "triggers" l = Some (JArr ts) → dict_get "stages" l = Some (JArr ss) →
  Forall typed_trigger ts →
  ∃ b, evaluate_triggers (JObj l) tier c h = Ok b ∧
       (b = true ↔ if bool_decide (dict_get "trigger_mode" l = Some (JStr "all"))
                   then Forall (trigger_spec tier c h) ts
                   else Exists (trigger_spec tier c h) ts).
Proof.
  intros [_ (l' & ts' & ss' & [= <-] & Ht' & _ & Hwf & _ & _ & _ & Hmode)]%validate_wf
    Hts _ Htyped.
  assert (ts' = ts) as -> by congruence.
  destruct (fires_all_typed ts tier c h Hwf Htyped) as (bs & Hbs & HF).
  unfold evaluate_triggers, doc_list. rewrite Hts. cbn [json_iter mbind res_bind]. rewrite Hbs.
  eexists. split; [done|].
  assert (Hm : json_is_str "all" (default (JStr "any") (dict_get "trigger_mode" l)) =
               bool_decide (dict_get "trigger_mode" l = Some (JStr "all"))).
  { destruct (dict_get "trigger_mode" l) as [m|] eqn:Hg; [|done].
    destruct (Hmode m eq_refl) as (s & -> & _). simpl. apply bool_decide_ext. naive_solver. }
  rewrite Hm. case_bool_decide; clear -HF.
  - induction HF as [|t b ts bs Hb HF IH]; simpl; [by rewrite Forall_nil|].
    rewrite andb_true_iff, Forall_cons, IH, <-Hb. by destruct b.
  - induction HF as [|t b ts bs Hb HF IH]; simpl; [by rewrite Exists_nil|].
    rewrite orb_true_iff, Exists_cons, IH, <-Hb. by destruct b.
Qed.

(** ** A mistyped threshold *)

(** A definition that an operator can store: its threshold is a string. *)
Definition quoted_threshold (n : string) : json :=
  JObj [("triggers", JArr [JObj [("type", JStr "tier_reached"); ("min_tier", JStr n)]]);
        ("stages", JArr [JObj [("type", JStr "notify")]])]%string.

(** It passes validation, and from then on, whenever it is the first playbook
    in scope with no run of its own, the scan raises [TypeError] before any
    playbook behind it is looked at, and starts nothing. *)
Theorem quoted_threshold_stops_engine {E : Env} n p ps v t c h s now w :
  (∀ i, io_ok i = true) →
  List.filter (scope_matches v) (tb_rows (db_playbooks (w_db w))) = p :: ps →
  pb_definition p = JGood (quoted_threshold n) →
  active_runs (w_db w) (pb_id p) v = [] →
  validate_definition (quoted_threshold n) = Ok (quoted_threshold n) ∧
  (check_and_start_runs v t c h s now w).1 = Exn TypeError ∧
  w_db (check_and_start_runs v t c h s now w).2 = w_db w.
Proof.
  intros Hio Hp Hdef Hnone. split; [done|].
  unfold check_and_start_runs, get_enabled_playbooks_for_host, read_tx, execute, io, gets,
    mbind, M_bind. simpl. rewrite !Hio. simpl.
  assert (Hdb : w_db (tick w) = w_db w) by by destruct w. rewrite Hdb, Hp. simpl.
  unfold start_if_due, get_active_playbook_run, read_tx, execute, io, gets, mbind, M_bind. simpl.
  rewrite !Hio. simpl.
  assert (Hdb2 : w_db (tick (tick w)) = w_db w) by by destruct w. rewrite Hdb2, Hnone, Hdef. simpl.
  done.
Qed.

(** ** Concrete cases *)

Definition quoted_playbook : Playbook :=
  mkPlaybook 1 "first response" "all" None true (JGood (quoted_threshold "3")) (NInt 0) (NInt 0).
Definition playbook_world : World :=
  upd_db (upd_playbooks (λ _, mkTable [quoted_playbook] 1)) empty_world.

Lemma quoted_threshold_stops_engine_witness :
  validate_definition (quoted_threshold "3") = Ok (quoted_threshold "3") ∧
  (@check_and_start_runs calm_env "10.0.0.5" 3 5 1 None (NInt 100) playbook_world).1 = Exn TypeError ∧
  w_db (@check_and_start_runs calm_env "10.0.0.5" 3 5 1 None (NInt 100) playbook_world).2 =
  w_db playbook_world.
Proof.
  apply (@quoted_threshold_stops_engine calm_env "3" quoted_playbook []); reflexivity.
Defined.

Lemma engine_one_running_run_witness :
  one_run (w_db (@check_and_start_runs calm_env "10.0.0.5" 3 5 1 None (NInt 100) playbook_world).2) ∧
  one_run (w_db (@advance_runs calm_env (NInt 100) playbook_world).2).
Proof. apply (@engine_one_running_run calm_env). intros pid host. simpl. lia. Defined.

Definition notify_run : PlaybookRun :=
  mkRun 1 1 "10.0.0.5" None 0 Running "tier" (NInt 0) (NInt 0).

Lemma advance_runs_one_step_witness :
  let w := upd_db (upd_runs (λ _, mkTable [notify_run] 1)) playbook_world in
  Forall2 (λ r r', r' = r ∨ run_step (NInt 100) r r')
          (tb_rows (db_runs (w_db w))) (tb_rows (db_runs (w_db (@advance_runs calm_env (NInt 100) w).2))).
Proof. cbv zeta. apply (@advance_runs_one_step calm_env). apply NoDup_singleton. Defined.

Lemma evaluate_triggers_spec_witness :
  let ts := [JObj [("type", JStr "tier_reached"); ("min_tier", JNum (NInt 2))]]%string in
  let l := [("triggers", JArr ts); ("stages", JArr [JObj [("type", JStr "notify")]])]%string in
  ∃ b, evaluate_triggers (JObj l) 3 0 0 = Ok b ∧
       (b = true ↔ if bool_decide (dict_get "trigger_mode"%string l = Some (JStr "all"))
                   then Forall (trigger_spec 3 0 0) ts else Exists (trigger_spec 3 0 0) ts).
Proof.
  intros ts l. eapply (evaluate_triggers_spec l ts); [reflexivity..|]. apply Forall_singleton.
  intros l' f [= <-] Hf j Hj. repeat (apply elem_of_cons in Hf as [->|Hf]; [try by simpl in Hj; simplify_eq; eexists|]).
  by apply elem_of_nil in Hf.
Defined.
