(* ===== verification/Latency.v ===== *)
(** * latency.py: per-window latency figures

    [LatencyStats] keeps a bounded sample list and an exact count per kind;
    [summary] is what [summary_line] computes for its text, and resets both. *)

From S2P Require Import Prelude PyNum World.
From Stdlib Require Import SpecFloat.

#[local] Open Scope Z_scope.

Definition MAX_SAMPLES_PER_KIND : Z := 10000.

Definition upd_kind {A} (k : lat_kind) (v : A) (f : lat_kind → A) : lat_kind → A :=
  λ k', if decide (k' = k) then v else f k'.

Definition record (kind : lat_kind) (milliseconds : num) (s : LatencyStats) : LatencyStats :=
  let samples := la_samples s kind in
  mkLatency
    (if Z.of_nat (length samples) <? MAX_SAMPLES_PER_KIND
     then upd_kind kind (samples ++ [milliseconds]) (la_samples s) else la_samples s)
    (upd_kind kind (la_counts s kind + 1) (la_counts s)).

Definition has_samples (s : LatencyStats) : bool :=
  existsb (λ k, negb (la_counts s k =? 0)) KINDS.

(** [math.ceil(x)] *)
Definition py_ceil (n : num) : res Z :=
  match n with
  | NInt z => Ok z
  | NFlt (S754_finite s m e) =>
      let v := cond_Zopp s (Zpos m) in
      Ok (if 0 <=? e then v * 2 ^ e else - ((- v) / 2 ^ (- e)))
  | _ => py_int n
  end.

(** [max(0, math.ceil(0.95 * n) - 1)] *)
Definition p95_rank (n : Z) : res Z :=
  c ← py_ceil (nmul (flt 95 100) (NInt n)); mret (Z.max 0 (c - 1)).

(** The figures of one kind: none, or count, mean, 95th percentile, maximum. *)
Inductive kind_summary := KNone | KSome (n : Z) (mean p95 max : num).

Section summary.
(** [sum(values) / len(values)], whose rounding depends on the interpreter. *)
Context (mean : list num → num).

Definition summarize_kind (samples : list num) (count : Z) : res kind_summary :=
  let values := py_sort nlt samples in
  match values with
  | [] => Ok KNone
  | v :: _ =>
      rank ← p95_rank (Z.of_nat (length values));
      match values !! Z.to_nat rank with
      | Some p => Ok (KSome count (mean values) p (List.last values v))
      | None => Exn IndexError
      end
  end.

Fixpoint summarize_kinds (ks : list lat_kind) (s : LatencyStats) : res (list kind_summary) :=
  match ks with
  | [] => Ok []
  | k :: ks' =>
      x ← summarize_kind (la_samples s k) (la_counts s k);
      xs ← summarize_kinds ks' s;
      mret (x :: xs)
  end.

(** [summary_line]: the figures of every kind, and the stats start afresh. *)
Definition summary_line (s : LatencyStats) : res (list kind_summary * LatencyStats) :=
  xs ← summarize_kinds KINDS s; mret (xs, empty_latency).
End summary.

(** ** Memory stays bounded, counts stay exact *)

Definition latency_ok (s : LatencyStats) : Prop :=
  ∀ k, Z.of_nat (length (la_samples s k)) = Z.min (la_counts s k) MAX_SAMPLES_PER_KIND ∧
       0 <= la_counts s k.

Lemma latency_ok_empty : latency_ok empty_latency.
Proof. by intros k. Qed.

Lemma latency_ok_record k ms s : latency_ok s → latency_ok (record k ms s).
Proof.
  intros H k'. specialize (H k'). unfold record, upd_kind. simpl.
  destruct (decide (k' = k)) as [->|]; destruct (_ <? _) eqn:Hl; simpl;
    rewrite ?decide_True, ?decide_False, ?length_app by done; simpl;
    rewrite ?Nat2Z.inj_add; apply Z.ltb_lt in Hl || apply Z.ltb_ge in Hl; lia.
Qed.

(** ** The 95th percentile *)

(** The float 0.95 is a little below 19/20, so the product rounds to at most
    the exact value when that is an integer and [ceil] is the exact one;
    checked for every sample count there can be. *)
Definition float_95 : spec_float := Eval vm_compute in float_of_frac 95 100.

Definition rank_exact (n : Z) : bool :=
  match py_ceil (NFlt (SFmul prec64 emax64 float_95 (float_of_Z n))) with
  | Ok c => c =? (95 * n + 99) / 100
  | Exn _ => false
  end.

Fixpoint ranks_exact (k : nat) (n : Z) : bool :=
  match k with O => true | S k' => rank_exact n && ranks_exact k' (n + 1) end.

Lemma ranks_exact_elem k n m :
  ranks_exact k n = true → n <= m < n + Z.of_nat k → rank_exact m = true.
Proof.
  revert n. induction k as [|k IH]; intros n; [lia|]. cbn [ranks_exact].
  rewrite andb_true_iff. intros [Hn Hk] Hm. destruct (decide (m = n)) as [->|]; [done|].
  apply (IH (n + 1)); [done|lia].
Qed.

Lemma all_ranks_exact : ranks_exact (Z.to_nat 10000) 1 = true.
Proof. vm_compute. reflexivity. Qed.

Lemma p95_rank_value n : 1 <= n <= MAX_SAMPLES_PER_KIND → p95_rank n = Ok ((95 * n + 99) / 100 - 1).
Proof.
  unfold MAX_SAMPLES_PER_KIND. intros Hn.
  assert (H : rank_exact n = true).
  { apply (ranks_exact_elem _ _ _ all_ranks_exact). rewrite Z2Nat.id by lia. lia. }
  unfold rank_exact in H. unfold p95_rank.
  change (nmul (flt 95 100) (NInt n)) with (NFlt (SFmul prec64 emax64 float_95 (float_of_Z n))).
  destruct (py_ceil _) as [c|]; [|done]. apply Z.eqb_eq in H as ->. cbn. f_equal.
  enough (1 <= (95 * n + 99) / 100) by lia. apply Z.div_le_lower_bound; lia.
Qed.

Lemma p95_rank_bounds n :
  1 <= n → let r := (95 * n + 99) / 100 - 1 in
  0 <= r < n ∧ 95 * n <= 100 * (r + 1) ∧ 100 * r < 95 * n.
Proof.
  intros Hn r. pose proof (Z.div_mod (95 * n + 99) 100 ltac:(lia)).
  pose proof (Z.mod_pos_bound (95 * n + 99) 100 ltac:(lia)). subst r. lia.
Qed.

Definition not_nan (n : num) : Prop := is_nan n = false.

Lemma nle_trans' x y z : not_nan x → not_nan y → not_nan z →
  py_le nlt x y → py_le nlt y z → py_le nlt x z.
Proof.
  unfold not_nan, py_le. intros Hx Hy Hz. rewrite !nlt_nge by done.
  rewrite !negb_false_iff. intros. by eapply nle_trans.
Qed.

(** Elements before and after a position of a sorted list. *)
Lemma sorted_split (l : list num) i p :
  StronglySorted (py_le nlt) l → l !! i = Some p →
  Forall (λ x, nlt p x = false) (take (S i) l) ∧ Forall (λ x, nlt x p = false) (drop i l).
Proof.
  revert l. induction i as [|i IH]; intros [|x l] Hs Hi; try done;
    apply StronglySorted_inv in Hs as [Hs Hx].
  - injection Hi as ->. cbn [take drop]. split; repeat constructor; try apply nlt_irrefl.
    eapply Forall_impl; [exact Hx|]. by intros y.
  - destruct (IH l Hs Hi) as [H1 H2]. split; [|exact H2]. constructor; [|exact H1].
    eapply Forall_forall in Hx; [exact Hx|]. by eapply list_elem_of_lookup_2.
Qed.

Definition count (P : num → bool) (l : list num) : Z := Z.of_nat (length (List.filter P l)).

Lemma count_perm P l l' : l ≡ₚ l' → count P l = count P l'.
Proof.
  intros H. unfold count. f_equal. induction H as [|x l l' _ IH|x y l|]; simpl; repeat case_match;
    simpl; congruence.
Qed.

Lemma count_app P l l' : count P (l ++ l') = count P l + count P l'.
Proof. unfold count. rewrite List.filter_app, length_app. lia. Qed.

Lemma count_all P l : Forall (λ x, P x = true) l → count P l = Z.of_nat (length l).
Proof.
  unfold count. induction 1 as [|x l Hx _ IH]; [done|]. cbn [List.filter]. rewrite Hx. cbn [length]. lia.
Qed.

Lemma count_none P l : Forall (λ x, P x = false) l → count P l = 0.
Proof. unfold count. induction 1 as [|x l Hx _ IH]; [done|]. cbn [List.filter]. by rewrite Hx. Qed.

Lemma count_nonneg P l : 0 <= count P l.
Proof. unfold count. lia. Qed.

Lemma count_le_length P l : count P l <= Z.of_nat (length l).
Proof. unfold count. pose proof (filter_length_le P l). lia. Qed.

(** Counts around position [i] of a sorted list. *)
Lemma sorted_counts (l : list num) i p :
  StronglySorted (py_le nlt) l → l !! i = Some p →
  Z.of_nat (S i) <= count (λ x, negb (nlt p x)) l ∧ count (λ x, nlt x p) l <= Z.of_nat i.
Proof.
  intros Hs Hi. destruct (sorted_split l i p Hs Hi) as [H1 H2].
  pose proof (lookup_lt_Some _ _ _ Hi). split.
  - rewrite <-(take_drop (S i) l) at 1. rewrite count_app, count_all.
    + rewrite length_take. pose proof (count_nonneg (λ x, negb (nlt p x)) (drop (S i) l)). lia.
    + eapply Forall_impl; [exact H1|]. simpl. by intros x ->.
  - rewrite <-(take_drop i l) at 1. rewrite count_app, (count_none _ (drop i l)) by done.
    pose proof (count_le_length (λ x, nlt x p) (take i l)) as Hc. rewrite length_take in Hc. lia.
Qed.

Lemma lookup_last {A} (x d : A) l : (x :: l) !! length l = Some (List.last (x :: l) d).
Proof. revert x. induction l as [|y l IH]; intros x; [done|]. exact (IH y). Qed.

(** For a non-empty sample list within its cap, free of NaN, the summary is
    produced, its p95 is a recorded sample at or below which at least 95% of
    the samples lie while fewer than 95% lie strictly below, and no sample
    exceeds its maximum. *)
Theorem summary_p95 mean samples cnt :
  samples ≠ [] → Z.of_nat (length samples) <= MAX_SAMPLES_PER_KIND → Forall not_nan samples →
  ∃ m p mx, summarize_kind mean samples cnt = Ok (KSome cnt m p mx) ∧ p ∈ samples ∧
    95 * Z.of_nat (length samples) <= 100 * count (λ x, negb (nlt p x)) samples ∧
    100 * count (λ x, nlt x p) samples < 95 * Z.of_nat (length samples) ∧
    mx ∈ samples ∧ Forall (λ x, nlt mx x = false) samples.
Proof.
  intros Hne Hlen Hnan. unfold summarize_kind.
  pose proof (py_sort_perm nlt samples) as Hperm.
  assert (Hs : StronglySorted (py_le nlt) (py_sort nlt samples)).
  { apply (py_sort_sorted nlt not_nan); [intros; by apply nlt_asym|exact nle_trans'|done]. }
  revert Hperm Hs. generalize (py_sort nlt samples) as values. intros values Hperm Hs.
  assert (Hl : length values = length samples) by by apply Permutation_length.
  destruct values as [|v values'] eqn:Hv; [destruct samples; done|]. rewrite <-Hv in *. rewrite Hl.
  assert (Hpos : 1 <= Z.of_nat (length samples)) by (destruct samples; simpl in *; [done|lia]).
  rewrite p95_rank_value by lia.
  pose proof (p95_rank_bounds _ Hpos) as (Hr & Hr1 & Hr2). cbv zeta in *.
  revert Hr Hr1 Hr2. generalize ((95 * Z.of_nat (length samples) + 99) / 100 - 1) as r. intros r Hr Hr1 Hr2.
  cbn [mbind res_bind].
  destruct (lookup_lt_is_Some_2 values (Z.to_nat r) ltac:(lia)) as [p Hp]. rewrite Hp.
  set (mx := List.last values v).
  assert (Hmx : values !! (length values - 1)%nat = Some mx).
  { subst mx. rewrite Hv. cbn [length]. replace (S (length values') - 1)%nat with (length values') by lia.
    apply lookup_last. }
  exists (mean values), p, mx. split; [done|].
  destruct (sorted_counts _ _ _ Hs Hp) as [Hc1 Hc2].
  destruct (sorted_split _ _ _ Hs Hmx) as [Hm _]. rewrite <-!(count_perm _ _ _ Hperm).
  split_and!; [rewrite <-Hperm; by eapply list_elem_of_lookup_2|lia|lia|
    rewrite <-Hperm; by eapply list_elem_of_lookup_2|].
  rewrite <-Hperm. rewrite take_ge in Hm; [done|lia].
Qed.

Lemma summary_p95_witness :
  let samples := [NInt 3; NInt 1; NInt 2] in
  ∃ m p mx, summarize_kind (λ _, NInt 2) samples 3 = Ok (KSome 3 m p mx) ∧ p ∈ samples ∧
    95 * Z.of_nat (length samples) <= 100 * count (λ x, negb (nlt p x)) samples ∧
    100 * count (λ x, nlt x p) samples < 95 * Z.of_nat (length samples) ∧
    mx ∈ samples ∧ Forall (λ x, nlt mx x = false) samples.
Proof. cbv zeta. apply summary_p95; [done|by vm_compute|repeat constructor]. Defined.
