(* ===== verification/Wire.v ===== *)
(** * The Stage 1 socket: framing, struct layout, addresses

    What [run_ipc_receiver] does with the byte stream of one connection:
    [recv] into frames of [PAYLOAD_SIZE] bytes, [struct.unpack] of the layout
    ["<23d16s16s"], and [decode_ip] on the two addresses. Bytes are integers
    in [0, 256). *)

From S2P Require Import Prelude PyNum PyStr.
From stdpp Require Import pretty.
From Stdlib Require Import SpecFloat.

#[local] Open Scope Z_scope.

Definition byte_ok (b : Z) : Prop := 0 <= b < 256.

(** ** Little-endian words *)

Fixpoint le_combine (bs : list Z) : Z :=
  match bs with [] => 0 | b :: bs' => b + 256 * le_combine bs' end.

Fixpoint le_split (n : nat) (z : Z) : list Z :=
  match n with O => [] | S n' => z mod 256 :: le_split n' (z / 256) end.

(** ** binary64, by its bits *)

Definition f64_of_bits (z : Z) : spec_float :=
  let s := Z.testbit z 63 in
  let e := (z / 2 ^ 52) mod 2 ^ 11 in
  let m := z mod 2 ^ 52 in
  if e =? 2047 then if m =? 0 then S754_infinity s else S754_nan
  else if e =? 0 then
    match m with Zpos p => S754_finite s p (-1074) | _ => S754_zero s end
  else match m + 2 ^ 52 with Zpos p => S754_finite s p (e - 1075) | _ => S754_nan end.

Definition sign_bit (s : bool) : Z := if s then 2 ^ 63 else 0.

(** [struct.pack("<d", x)], the writer's side of the layout. *)
Definition bits_of_f64 (f : spec_float) : Z :=
  match f with
  | S754_zero s => sign_bit s
  | S754_infinity s => sign_bit s + 2047 * 2 ^ 52
  | S754_nan => 2047 * 2 ^ 52 + 2 ^ 51
  | S754_finite s m e =>
      if Zpos m <? 2 ^ 52 then sign_bit s + Zpos m
      else sign_bit s + (e + 1075) * 2 ^ 52 + (Zpos m - 2 ^ 52)
  end.

(** ** struct.unpack("<23d16s16s", data) *)

Definition NUM_DOUBLES : nat := 23.
Definition PAYLOAD_SIZE : nat := 216.

Fixpoint unpack_doubles (n : nat) (data : list Z) : list num :=
  match n with
  | O => []
  | S n' => NFlt (f64_of_bits (le_combine (take 8 data))) :: unpack_doubles n' (drop 8 data)
  end.

Record Unpacked := mkUnpacked {
  up_doubles : list num; up_dominant : list Z; up_victim : list Z }.

Definition struct_unpack (data : list Z) : res Unpacked :=
  if (length data =? PAYLOAD_SIZE)%nat then
    Ok (mkUnpacked (unpack_doubles NUM_DOUBLES data)
                   (take 16 (drop 184 data)) (drop 200 data))
  else Exn ValueError.

Definition struct_pack (fs : list spec_float) (dominant victim : list Z) : list Z :=
  flat_map (λ f, le_split 8 (bits_of_f64 f)) fs ++ dominant ++ victim.

(** ** recv and the framing loop *)

(** The unread bytes of a connection and how many [recv] calls were made. *)
Record Conn := mkConn { cn_bytes : list Z; cn_reads : nat }.

Section framing.
(** How many bytes the i-th [recv] finds in the socket buffer. *)
Context (burst : nat → nat).

(** [conn.recv(n)]: between one and [n] bytes, or none at end of stream. *)
Definition recv (n : nat) (c : Conn) : list Z * Conn :=
  let k := Nat.min n (Nat.max 1 (burst (cn_reads c))) in
  (take k (cn_bytes c), mkConn (drop k (cn_bytes c)) (S (cn_reads c))).

(** The inner [while len(data) < PAYLOAD_SIZE]. *)
Fixpoint fill (fuel : nat) (data : list Z) (c : Conn) : list Z * Conn :=
  match fuel with
  | O => (data, c)
  | S fuel' =>
      if (length data <? PAYLOAD_SIZE)%nat then
        let '(chunk, c') := recv (PAYLOAD_SIZE - length data) c in
        match chunk with
        | [] => (data, c')
        | _ => fill fuel' (data ++ chunk) c'
        end
      else (data, c)
  end.

(** One turn of the connection loop: the next frame, or [None] to leave it.
    The inner loop runs at most [PAYLOAD_SIZE] times, each adding a byte. *)
Definition read_frame (c : Conn) : option (list Z) * Conn :=
  let '(data, c1) := recv PAYLOAD_SIZE c in
  match data with
  | [] => (None, c1)
  | _ =>
      let '(data', c2) :=
        if (length data <? PAYLOAD_SIZE)%nat then fill PAYLOAD_SIZE data c1 else (data, c1) in
      if (length data' <? PAYLOAD_SIZE)%nat then (None, c2) else (Some data', c2)
  end.

(** The connection loop, with the handler of one frame. *)
Fixpoint serve {W} (fuel : nat) (handle : list Z → M W unit) (c : Conn) : M W unit :=
  match fuel with
  | O => mret tt
  | S fuel' =>
      match read_frame c with
      | (None, _) => mret tt
      | (Some data, c') => handle data;; serve fuel' handle c'
      end
  end.
End framing.

(** The frames of a stream: every full block of [PAYLOAD_SIZE] bytes. *)
Fixpoint frames_of (fuel : nat) (bytes : list Z) : list (list Z) :=
  match fuel with
  | O => []
  | S fuel' =>
      if (length bytes <? PAYLOAD_SIZE)%nat then []
      else take PAYLOAD_SIZE bytes :: frames_of fuel' (drop PAYLOAD_SIZE bytes)
  end.

(** ** decode_ip *)

Definition hex_digit (z : Z) : ascii :=
  if z <? 10 then ascii_of_N (Z.to_N (48 + z)) else ascii_of_N (Z.to_N (87 + z)).

(** ['%x' % h] for a 16-bit [h]. *)
Definition hextet (h : Z) : string :=
  let d3 := h / 4096 in let d2 := h / 256 mod 16 in
  let d1 := h / 16 mod 16 in let d0 := h mod 16 in
  let tail0 := String (hex_digit d0) EmptyString in
  let tail1 := String (hex_digit d1) tail0 in
  let tail2 := String (hex_digit d2) tail1 in
  if negb (d3 =? 0) then String (hex_digit d3) tail2
  else if negb (d2 =? 0) then tail2
  else if negb (d1 =? 0) then tail1 else tail0.

Fixpoint hextets (bs : list Z) : list Z :=
  match bs with
  | hi :: lo :: bs' => 256 * hi + lo :: hextets bs'
  | _ => []
  end.

(** The longest run of zero hextets, the first of the longest: the loop of
    [IPv6Address._compress_hextets] over (index, current start and length,
    best start and length). *)
Fixpoint zero_run (i : nat) (cur : option nat) (len : nat) (best : nat) (blen : nat)
    (hs : list Z) : nat * nat :=
  match hs with
  | [] => (best, blen)
  | h :: hs' =>
      if h =? 0 then
        let st := default i cur in
        if (blen <? S len)%nat then zero_run (S i) (Some st) (S len) st (S len) hs'
        else zero_run (S i) (Some st) (S len) best blen hs'
      else zero_run (S i) None 0 best blen hs'
  end.

Definition compress_hextets (hs : list Z) : list string :=
  let '(st, len) := zero_run 0 None 0 0 0 hs in
  let texts := hextet <$> hs in
  if (1 <? len)%nat then
    let en := (st + len)%nat in
    (if (st =? 0)%nat then [EmptyString] else []) ++ take st texts ++ [EmptyString] ++
    drop en texts ++ (if (en =? length hs)%nat then [EmptyString] else [])
  else texts.

Definition ipv6_str (bs : list Z) : string := String.concat ":" (compress_hextets (hextets bs)).

Definition ipv4_str (bs : list Z) : string :=
  String.concat "." ((λ b, pretty (Z.to_N b)) <$> bs).

(** [IPv6Address.ipv4_mapped]: ::ffff:a.b.c.d. *)
Definition ipv4_mapped (bs : list Z) : option (list Z) :=
  if bool_decide (take 12 bs = [0;0;0;0;0;0;0;0;0;0;255;255]) then Some (drop 12 bs) else None.

Definition decode_ip (bs : list Z) : string :=
  if (length bs =? 16)%nat then
    match ipv4_mapped bs with
    | Some v4 => ipv4_str v4
    | None => ipv6_str bs
    end
  else "Unknown".

Example decode_v4 : decode_ip [0;0;0;0;0;0;0;0;0;0;255;255;192;168;1;10] = "192.168.1.10"%string.
Proof. reflexivity. Qed.
Example decode_v6 : decode_ip [32;1;13;184;0;0;0;0;0;0;0;0;0;0;0;1] = "2001:db8::1"%string.
Proof. reflexivity. Qed.
Example decode_none : decode_ip (replicate 16 0) = "::"%string.
Proof. reflexivity. Qed.
Example decode_one_zero : decode_ip [0;1;0;0;0;1;0;2;0;3;0;4;0;5;0;0] = "1:0:1:2:3:4:5:0"%string.
Proof. reflexivity. Qed.
Example decode_tail : decode_ip [254;128;0;1;0;1;0;2;0;3;0;4;0;0;0;0] = "fe80:1:1:2:3:4::"%string.
Proof. reflexivity. Qed.
