(* ===== verification/IpText.v ===== *)
(** * Addresses as text

    [decode_ip] is injective: two different addresses never share a spelling,
    so an ipset entry, an incident row or a debounce key stands for one
    source. The sentinels are therefore the text of exactly two addresses. *)

From S2P Require Import Prelude PyNum PyStr Wire.
From stdpp Require Import pretty.

#[local] Open Scope Z_scope.

(** ** Joining and splitting *)

Definition no_char (c : ascii) (s : string) : Prop := c ∉ list_ascii_of_string s.

Lemma split_on_part c cur l rest :
  c ∉ l → split_on c cur (l ++ c :: rest) = string_of_list_ascii (rev cur ++ l) :: split_on c [] rest.
Proof.
  revert cur. induction l as [|x l IH]; intros cur Hl; simpl.
  - by rewrite bool_decide_eq_true_2, app_nil_r by done.
  - apply not_elem_of_cons in Hl as [Hx Hl]. rewrite bool_decide_eq_false_2 by congruence.
    rewrite IH by done. simpl. by rewrite <-app_assoc.
Qed.

Lemma split_on_last c cur l : c ∉ l → split_on c cur l = [string_of_list_ascii (rev cur ++ l)].
Proof.
  revert cur. induction l as [|x l IH]; intros cur Hl; simpl; [by rewrite app_nil_r|].
  apply not_elem_of_cons in Hl as [Hx Hl]. rewrite bool_decide_eq_false_2 by congruence.
  rewrite IH by done. simpl. by rewrite <-app_assoc.
Qed.

(** [sep.join(parts).split(sep) == parts] *)
Lemma split_join c parts :
  parts ≠ [] → Forall (no_char c) parts →
  str_split c (String.concat (String c EmptyString) parts) = parts.
Proof.
  unfold str_split. intros Hne HF. induction HF as [|p ps Hp HF IH]; [done|].
  destruct ps as [|q ps].
  - simpl. rewrite split_on_last by done. simpl. by rewrite string_of_list_ascii_of_string.
  - change (String.concat (String c "") (p :: q :: ps))
      with (p ^^ String c (String.concat (String c "") (q :: ps))).
    rewrite list_ascii_app. cbn [list_ascii_of_string]. rewrite split_on_part by done.
    rewrite IH by done. simpl. by rewrite string_of_list_ascii_of_string.
Qed.

Lemma concat_no_char c sep parts :
  no_char c sep → Forall (no_char c) parts → no_char c (String.concat sep parts).
Proof.
  unfold no_char. intros Hs HF. induction HF as [|p ps Hp HF IH]; [apply not_elem_of_nil|].
  destruct ps as [|q ps]; [done|].
  change (String.concat sep (p :: q :: ps)) with (p ^^ sep ^^ String.concat sep (q :: ps)).
  rewrite !list_ascii_app, !elem_of_app. tauto.
Qed.

(** ** Octets and hextets *)

Definition octet (b : Z) : string := pretty (Z.to_N b).

(** Left inverses of the spellings. *)
Definition octet_val (s : string) : Z := match int_of_string s with Ok z => z | Exn _ => -1 end.

Definition octet_fine (b : Z) : bool :=
  bool_decide (octet_val (octet b) = b) && forallb (λ c, negb (Ascii.eqb c ".")) (list_ascii_of_string (octet b)).

Lemma octets_fine : forallb octet_fine (seqZ 0 256) = true.
Proof. vm_compute. reflexivity. Qed.

Lemma forallb_no_char c s :
  forallb (λ x, negb (Ascii.eqb x c)) (list_ascii_of_string s) = true → no_char c s.
Proof.
  intros H Hin%list_elem_of_In. rewrite forallb_forall in H. specialize (H c Hin).
  by rewrite Ascii.eqb_refl in H.
Qed.

Lemma octet_spec b : byte_ok b → octet_val (octet b) = b ∧ no_char "." (octet b).
Proof.
  intros Hb. pose proof octets_fine as H. rewrite forallb_forall in H.
  specialize (H b). rewrite <-list_elem_of_In, elem_of_seqZ in H. unfold byte_ok in Hb.
  specialize (H ltac:(lia)). apply andb_true_iff in H as [H1 H2].
  split; [by apply bool_decide_eq_true in H1|by apply forallb_no_char].
Qed.

Lemma ipv4_split l : l ≠ [] → Forall byte_ok l → str_split "." (ipv4_str l) = octet <$> l.
Proof.
  intros Hne Hl. apply (split_join "." (octet <$> l)); [by destruct l|].
  apply Forall_fmap. eapply Forall_impl; [exact Hl|]. intros b Hb. by apply octet_spec.
Qed.

Lemma octets_inv l : Forall byte_ok l → octet_val <$> (octet <$> l) = l.
Proof.
  induction 1 as [|b l Hb _ IH]; [done|]. rewrite !fmap_cons, IH. f_equal. by apply octet_spec.
Qed.

(** A hexadecimal digit and its value. *)
Definition hex_val (c : ascii) : Z :=
  let n := Z.of_N (N_of_ascii c) in if n <? 58 then n - 48 else n - 87.

Fixpoint hextet_val_from (acc : Z) (s : string) : Z :=
  match s with EmptyString => acc | String c s' => hextet_val_from (16 * acc + hex_val c) s' end.
Definition hextet_val (s : string) : Z := hextet_val_from 0 s.

Lemma hex_digit_spec d :
  0 <= d < 16 → hex_val (hex_digit d) = d ∧ hex_digit d ≠ ":"%char ∧ hex_digit d ≠ "."%char.
Proof.
  intros Hd. assert (H : d = 0 ∨ d = 1 ∨ d = 2 ∨ d = 3 ∨ d = 4 ∨ d = 5 ∨ d = 6 ∨ d = 7 ∨
    d = 8 ∨ d = 9 ∨ d = 10 ∨ d = 11 ∨ d = 12 ∨ d = 13 ∨ d = 14 ∨ d = 15) by lia.
  by repeat destruct H as [->|H]; subst.
Qed.

Definition word_ok (h : Z) : Prop := 0 <= h < 65536.

(** A hextet is spelled by one to four hexadecimal digits with its value. *)
Lemma hextet_digits h :
  word_ok h → ∃ ds, hextet h = string_of_list_ascii (hex_digit <$> ds) ∧ Forall (λ d, 0 <= d < 16) ds ∧
    (0 < length ds ≤ 4)%nat ∧ foldl (λ a d, 16 * a + d) 0 ds = h.
Proof.
  unfold word_ok. intros Hh.
  pose proof (Z.div_mod h 16 ltac:(lia)) as E0. pose proof (Z.mod_pos_bound h 16 ltac:(lia)).
  pose proof (Z.div_mod (h / 16) 16 ltac:(lia)) as E1.
  pose proof (Z.mod_pos_bound (h / 16) 16 ltac:(lia)).
  rewrite Z.div_div in E1 by lia.
  pose proof (Z.div_mod (h / 256) 16 ltac:(lia)) as E2.
  pose proof (Z.mod_pos_bound (h / 256) 16 ltac:(lia)).
  rewrite Z.div_div in E2 by lia. change (16 * 16) with 256 in *. change (256 * 16) with 4096 in *.
  assert (0 <= h / 4096 < 16) by (split; [apply Z.div_pos; lia|apply Z.div_lt_upper_bound; lia]).
  unfold hextet.
  set (d3 := h / 4096) in *. set (d2 := h / 256 mod 16) in *. set (d1 := h / 16 mod 16) in *.
  set (d0 := h mod 16) in *. clearbody d3 d2 d1 d0.
  destruct (Z.eqb_spec d3 0) as [Z3|]; cbn [negb]; [|exists [d3; d2; d1; d0]].
  1: destruct (Z.eqb_spec d2 0) as [Z2|]; cbn [negb]; [|exists [d2; d1; d0]].
  1: destruct (Z.eqb_spec d1 0) as [Z1|]; cbn [negb]; [exists [d0]|exists [d1; d0]].
  all: (split; [done|]); (split; [repeat (constructor; [lia|]); constructor|]); split; simpl; lia.
Qed.

Lemma hextet_val_digits acc ds :
  Forall (λ d, 0 <= d < 16) ds →
  hextet_val_from acc (string_of_list_ascii (hex_digit <$> ds)) = foldl (λ a d, 16 * a + d) acc ds.
Proof.
  intros H. revert acc. induction H as [|d ds Hd _ IH]; intros acc; [done|]. cbn.
  destruct (hex_digit_spec d Hd) as [-> _]. apply IH.
Qed.

Lemma hextet_spec h :
  word_ok h → hextet_val (hextet h) = h ∧ no_char ":" (hextet h) ∧ no_char "." (hextet h) ∧
              hextet h ≠ EmptyString.
Proof.
  intros (ds & -> & HF & Hlen & Hv)%hextet_digits. split; [rewrite <-Hv; by apply hextet_val_digits|].
  unfold no_char. rewrite list_ascii_of_string_of_list_ascii. split_and!; [| |by destruct ds; [simpl in *; lia|]].
  all: intros (d & Hd & Hin)%list_elem_of_fmap; eapply Forall_forall in HF; [|exact Hin];
    destruct (hex_digit_spec d HF) as (_ & ? & ?); congruence.
Qed.

(** ** Compression *)

Lemma hextets_ok bs : Forall byte_ok bs → Forall word_ok (hextets bs).
Proof.
  unfold byte_ok, word_ok. revert bs. fix IH 1. intros [|hi [|lo bs]] H; simpl; try constructor.
  - apply Forall_cons in H as [? H]. apply Forall_cons in H as [? _]. lia.
  - apply IH. apply Forall_cons in H as [_ H]. by apply Forall_cons in H as [_ H].
Qed.

Lemma hextets_inj x y :
  length x = length y → Nat.Even (length x) → Forall byte_ok x → Forall byte_ok y →
  hextets x = hextets y → x = y.
Proof.
  unfold byte_ok. revert x y. fix IH 1. intros [|a [|b x]] [|c [|d y]] Hl He Hx Hy H; try done.
  - destruct He as [k Hk]. simpl in Hk. lia.
  - simpl in H. injection H as Hh Ht.
    repeat match goal with H : Forall _ (_ :: _) |- _ => apply Forall_cons in H as [? H] end.
    f_equal; [lia|]. f_equal; [lia|]. apply IH; try done; [simpl in Hl; lia|].
    destruct He as [k Hk]. exists (k - 1)%nat. simpl in Hk. lia.
Qed.

(** What the scan for the longest run finds is a run of zeros. *)
Lemma zero_run_spec hs all i cur len best blen st n :
  all = take i all ++ hs → length (take i all) = i →
  (∀ j, (best ≤ j < best + blen)%nat → all !! j = Some 0) → (best + blen ≤ i)%nat →
  (∀ s, cur = Some s → (s + len = i)%nat ∧ ∀ j, (s ≤ j < s + len)%nat → all !! j = Some 0) →
  (cur = None → len = 0%nat) →
  zero_run i cur len best blen hs = (st, n) →
  (∀ j, (st ≤ j < st + n)%nat → all !! j = Some 0) ∧ (st + n ≤ length all)%nat.
Proof.
  revert i cur len best blen. induction hs as [|h hs IH]; intros i cur len best blen Hall Hlen Hbest Hbi Hcur Hnone.
  { simpl. intros [= <- <-]. split; [done|]. rewrite Hall, app_nil_r. lia. }
  assert (Hi : all !! i = Some h).
  { rewrite Hall, lookup_app_r by lia. by rewrite Hlen, Nat.sub_diag. }
  assert (Hall' : all = take (S i) all ++ hs).
  { rewrite (take_S_r _ _ _ Hi), <-app_assoc. done. }
  assert (Hlen' : length (take (S i) all) = S i).
  { apply lookup_lt_Some in Hi. rewrite length_take. lia. }
  cbn [zero_run]. destruct (h =? 0) eqn:Hh.
  - apply Z.eqb_eq in Hh as ->. set (s := default i cur).
    assert (Hs : (s + S len = S i)%nat ∧ ∀ j, (s ≤ j < s + S len)%nat → all !! j = Some 0).
    { subst s. destruct cur as [s|]; simpl.
      - destruct (Hcur s eq_refl) as [He Hz]. split; [lia|]. intros j Hj.
        destruct (decide (j = i)) as [->|]; [done|]. apply Hz. lia.
      - rewrite (Hnone eq_refl). split; [lia|]. intros j Hj. assert (j = i) as -> by lia. done. }
    destruct Hs as [Hs1 Hs2].
    destruct (blen <? S len)%nat; apply IH; try done; try lia; by intros ? [= <-].
  - apply IH; try done. lia.
Qed.

(** The spelled parts, expanded back: the empty ones stand for the zeros that
    are missing to make [n]. *)
Fixpoint take_texts (ps : list string) : list string :=
  match ps with
  | [] => []
  | p :: ps' => if bool_decide (p = EmptyString) then [] else p :: take_texts ps'
  end.
Fixpoint drop_texts (ps : list string) : list string :=
  match ps with
  | [] => []
  | p :: ps' => if bool_decide (p = EmptyString) then p :: ps' else drop_texts ps'
  end.
Definition nonempty (s : string) : bool := negb (bool_decide (s = EmptyString)).
Definition texts (ps : list string) : list string := List.filter nonempty ps.
Definition expand (n : nat) (ps : list string) : list string :=
  take_texts ps ++ replicate (n - length (texts ps)) "0"%string ++ texts (drop_texts ps).

Lemma take_texts_app a b : Forall (λ s, s ≠ EmptyString) a → take_texts (a ++ b) = a ++ take_texts b.
Proof.
  induction 1 as [|x a Hx _ IH]; [done|]. simpl. rewrite bool_decide_eq_false_2 by done. by rewrite IH.
Qed.
Lemma drop_texts_app a b : Forall (λ s, s ≠ EmptyString) a → drop_texts (a ++ b) = drop_texts b.
Proof.
  induction 1 as [|x a Hx _ IH]; [done|]. simpl. by rewrite bool_decide_eq_false_2.
Qed.
Lemma texts_app a b : texts (a ++ b) = texts a ++ texts b.
Proof. apply List.filter_app. Qed.
Lemma texts_id a : Forall (λ s, s ≠ EmptyString) a → texts a = a.
Proof.
  unfold texts, nonempty. induction 1 as [|x a Hx _ IH]; [done|]. cbn [List.filter].
  by rewrite bool_decide_eq_false_2, IH.
Qed.

Lemma expand_run n (a z b tail : list string) (head : list string) :
  Forall (λ s, s ≠ EmptyString) a → Forall (λ s, s ≠ EmptyString) b →
  n = (length a + length z + length b)%nat → Forall (λ s, s = "0"%string) z →
  (head = [] ∨ (head = [EmptyString] ∧ a = [])) → texts tail = [] →
  expand n (head ++ a ++ [EmptyString] ++ b ++ tail) = a ++ z ++ b.
Proof.
  intros Ha Hb Hn Hz Hhead Htail.
  assert (Ht : texts (head ++ a ++ [EmptyString] ++ b ++ tail) = a ++ b).
  { rewrite !texts_app, Htail, (texts_id a), (texts_id b), app_nil_r by done.
    by destruct Hhead as [->|[-> ->]]. }
  assert (Hzr : replicate (length z) "0"%string = z).
  { apply replicate_as_elem_of. split; [done|]. intros x Hx.
    by eapply Forall_forall in Hz. }
  unfold expand. rewrite Ht, length_app.
  replace (n - (length a + length b))%nat with (length z) by lia. rewrite Hzr.
  destruct Hhead as [->|[-> ->]].
  - rewrite !app_nil_l. rewrite take_texts_app, drop_texts_app by done. simpl.
    rewrite app_nil_r. change (EmptyString :: b ++ tail) with ([EmptyString] ++ b ++ tail).
    rewrite !texts_app, Htail, (texts_id b), app_nil_r by done. done.
  - simpl. f_equal. change (EmptyString :: EmptyString :: b ++ tail)
      with ([EmptyString] ++ [EmptyString] ++ b ++ tail).
    rewrite !texts_app, Htail, (texts_id b), app_nil_r by done. done.
Qed.

Lemma hextet_texts hs :
  Forall word_ok hs → Forall (λ s, s ≠ EmptyString ∧ no_char ":" s ∧ no_char "." s) (hextet <$> hs).
Proof.
  intros H. apply Forall_fmap. eapply Forall_impl; [exact H|]. intros h Hh. simpl.
  by destruct (hextet_spec h Hh) as (_ & ? & ? & ?).
Qed.

Lemma Forall_texts hs : Forall word_ok hs → Forall (λ s, s ≠ EmptyString) (hextet <$> hs).
Proof. intros H. eapply Forall_impl; [by apply hextet_texts|]. by intros s [? _]. Qed.

(** Expanding the compressed spelling gives every hextet back. *)
Lemma expand_compress hs :
  Forall word_ok hs → expand (length hs) (compress_hextets hs) = hextet <$> hs.
Proof.
  intros Hok. pose proof (Forall_texts hs Hok) as Hne. unfold compress_hextets.
  destruct (zero_run 0 None 0 0 0 hs) as [st len] eqn:Hrun.
  apply (zero_run_spec hs hs) in Hrun as [Hz Hle]; [|done|done|intros; lia|lia|done|done].
  destruct (1 <? len)%nat.
  2: { unfold expand. rewrite (texts_id (hextet <$> hs)) by done. rewrite length_fmap, Nat.sub_diag.
       rewrite <-(app_nil_r (hextet <$> hs)) at 1 2. rewrite take_texts_app, drop_texts_app by done.
       simpl. by rewrite !app_nil_r. }
  set (ts := hextet <$> hs) in *.
  assert (Hsplit : ts = take st ts ++ take len (drop st ts) ++ drop (st + len) ts).
  { rewrite <-drop_drop, take_drop. by rewrite take_drop. }
  assert (Hlts : length ts = length hs) by by apply length_fmap.
  rewrite Hsplit at 3. apply expand_run.
  - by apply Forall_take.
  - by apply Forall_drop.
  - rewrite !length_take, !length_drop. lia.
  - apply Forall_lookup. intros i x Hi. apply lookup_take_Some in Hi as [Hi Hlt].
    rewrite lookup_drop in Hi. subst ts. rewrite list_lookup_fmap, Hz in Hi by lia.
    simpl in Hi. by injection Hi as <-.
  - destruct (st =? 0)%nat eqn:Hst; [right|by left]. apply Nat.eqb_eq in Hst as ->. by rewrite take_0.
  - by destruct (st + len =? length hs)%nat.
Qed.

Lemma compress_parts hs :
  Forall word_ok hs → hs ≠ [] →
  Forall (λ s, no_char ":" s ∧ no_char "." s) (compress_hextets hs) ∧ compress_hextets hs ≠ [].
Proof.
  intros Hok Hne. unfold compress_hextets. destruct (zero_run _ _ _ _ _ _) as [st len].
  assert (HF : Forall (λ s, no_char ":" s ∧ no_char "." s) (hextet <$> hs)).
  { eapply Forall_impl; [by apply hextet_texts|]. by intros s [_ ?]. }
  assert (Hemp : no_char ":" "" ∧ no_char "." "") by (split; apply not_elem_of_nil).
  destruct (1 <? len)%nat; [|split; [done|by destruct hs]]. split.
  - assert (Hopt : ∀ b : bool, Forall (λ s, no_char ":" s ∧ no_char "." s) (if b then [EmptyString] else [])).
    { intros []; [by apply Forall_singleton|by apply Forall_nil]. }
    repeat apply Forall_app_2; auto using Forall_take, Forall_drop.
  - by destruct (st =? 0)%nat, (take st (hextet <$> hs)).
Qed.

Lemma hextets_inv hs : Forall word_ok hs → hextet_val <$> (hextet <$> hs) = hs.
Proof.
  induction 1 as [|h l Hh _ IH]; [done|]. rewrite !fmap_cons, IH. f_equal. by apply hextet_spec.
Qed.

(** The hextets, read back from the text. *)
Lemma ipv6_text bs :
  Forall byte_ok bs → hextets bs ≠ [] →
  hextet_val <$> expand (length (hextets bs)) (str_split ":" (ipv6_str bs)) = hextets bs ∧
  no_char "." (ipv6_str bs).
Proof.
  intros Hb Hne. pose proof (hextets_ok bs Hb) as Hok.
  destruct (compress_parts _ Hok Hne) as [HF Hnil]. split.
  - unfold ipv6_str. rewrite split_join; [|done|eapply Forall_impl; [exact HF|]; by intros s [? _]].
    rewrite expand_compress by done. by apply hextets_inv.
  - apply concat_no_char; [by apply not_elem_of_cons; split; [|apply not_elem_of_nil]|].
    eapply Forall_impl; [exact HF|]. by intros s [_ ?].
Qed.

(** ** Addresses *)

Definition addr_ok (bs : list Z) : Prop := length bs = 16%nat ∧ Forall byte_ok bs.

Lemma hextets_length bs : addr_ok bs → length (hextets bs) = 8%nat.
Proof. intros [Hl _]. by do 16 (destruct bs as [|? bs]; [discriminate Hl|]); destruct bs. Qed.

Lemma mapped_some bs v4 :
  addr_ok bs → ipv4_mapped bs = Some v4 →
  bs = [0;0;0;0;0;0;0;0;0;0;255;255] ++ v4 ∧ length v4 = 4%nat ∧ Forall byte_ok v4.
Proof.
  intros [Hl Hb]. unfold ipv4_mapped. case_bool_decide as Hm; [|done]. intros [= <-].
  rewrite length_drop, Hl. split_and!; [|done|by apply Forall_drop]. rewrite <-Hm. by rewrite take_drop.
Qed.

Lemma v4_v6_differ v4 bs :
  length v4 = 4%nat → Forall byte_ok v4 → addr_ok bs → ipv4_str v4 ≠ ipv6_str bs.
Proof.
  intros Hl H4 Hbs Heq. pose proof (hextets_length bs Hbs) as Hh.
  destruct (ipv6_text bs) as [_ Hdot]; [by destruct Hbs|by destruct (hextets bs)|].
  apply (f_equal (str_split ".")) in Heq. rewrite ipv4_split in Heq; [|by destruct v4|done].
  unfold str_split in Heq. rewrite split_on_last in Heq by done.
  apply (f_equal length) in Heq. rewrite length_fmap, Hl in Heq. done.
Qed.

Lemma decode_inj x y : addr_ok x → addr_ok y → decode_ip x = decode_ip y → x = y.
Proof.
  intros Hx Hy. unfold decode_ip. destruct (Hx) as [Hlx Hbx], (Hy) as [Hly Hby].
  rewrite Hlx, Hly. cbn [Nat.eqb].
  destruct (ipv4_mapped x) as [vx|] eqn:Mx, (ipv4_mapped y) as [vy|] eqn:My.
  - apply mapped_some in Mx as (-> & Hvx & Hfx), My as (-> & Hvy & Hfy); [|done..].
    intros H. apply (f_equal (str_split ".")) in H.
    rewrite !ipv4_split in H by (done || by destruct vx, vy).
    f_equal. rewrite <-(octets_inv vx), <-(octets_inv vy), H by done. done.
  - apply mapped_some in Mx as (_ & Hvx & Hfx); [|done]. intros H. by apply v4_v6_differ in H.
  - apply mapped_some in My as (_ & Hvy & Hfy); [|done]. intros H. symmetry in H. by apply v4_v6_differ in H.
  - intros H. pose proof (hextets_length x Hx) as Lx. pose proof (hextets_length y Hy) as Ly.
    destruct (ipv6_text x) as [Ix _]; [done|by destruct (hextets x)|].
    destruct (ipv6_text y) as [Iy _]; [done|by destruct (hextets y)|].
    apply hextets_inj; [congruence|exists 8%nat; lia|done..|].
    rewrite <-Ix, <-Iy, H, Lx, Ly. done.
Qed.

(** Two different addresses are never the same text. *)
Theorem decode_ip_injective x y : addr_ok x → addr_ok y → decode_ip x = decode_ip y → x = y.
Proof. apply decode_inj. Qed.

Definition v6_unspecified : list Z := replicate 16 0.
Definition v4_unspecified : list Z := [0;0;0;0;0;0;0;0;0;0;255;255;0;0;0;0].

(** A window's dominant sender is treated as unattributable exactly when the
    address is :: or ::ffff:0.0.0.0; no real source is lost to a sentinel. *)
Theorem sentinel_iff_unspecified x :
  addr_ok x → is_sentinel (decode_ip x) = true ↔ x = v6_unspecified ∨ x = v4_unspecified.
Proof.
  intros Hx. unfold is_sentinel. rewrite bool_decide_eq_true. split.
  2: { intros [-> | ->]; [right; right; left|right; left]. }
  assert (H6 : addr_ok v6_unspecified).
  { split; [done|]. apply Forall_replicate. unfold byte_ok. lia. }
  assert (H4 : addr_ok v4_unspecified).
  { split; [done|]. repeat constructor; unfold byte_ok; lia. }
  intros H. repeat (apply elem_of_cons in H as [H|H]); [exfalso| | |by apply elem_of_nil in H].
  - unfold decode_ip in H. destruct Hx as [Hl Hb]. rewrite Hl in H. cbn [Nat.eqb] in H.
    destruct (ipv4_mapped x) as [v|] eqn:Mx.
    + apply mapped_some in Mx as (_ & Hv & Hf); [|done]. apply (f_equal (str_split ".")) in H.
      rewrite ipv4_split in H by (done || by destruct v). by apply (f_equal length) in H; rewrite length_fmap, Hv in H.
    + pose proof (hextets_length x (conj Hl Hb)) as Lx.
      destruct (ipv6_text x) as [Ix _]; [done|by destruct (hextets x)|].
      rewrite H, Lx in Ix. assert (Hok := hextets_ok x Hb). rewrite <-Ix in Hok. unfold word_ok in Hok.
      apply Forall_inv in Hok as [Hbad _]. vm_compute in Hbad. by apply Hbad.
  - right. by apply decode_inj.
  - left. by apply decode_inj.
Qed.

Lemma unspecified_ok : addr_ok v4_unspecified.
Proof. split; [done|]. repeat constructor; unfold byte_ok; lia. Qed.

Lemma decode_ip_injective_witness : decode_ip v4_unspecified = decode_ip v4_unspecified ∧
  v4_unspecified = v4_unspecified.
Proof.
  split; [reflexivity|]. apply decode_ip_injective; [apply unspecified_ok..|reflexivity].
Defined.

Lemma sentinel_iff_unspecified_witness :
  is_sentinel (decode_ip v4_unspecified) = true ↔
  v4_unspecified = v6_unspecified ∨ v4_unspecified = v4_unspecified.
Proof. apply sentinel_iff_unspecified, unspecified_ok. Defined.
