(* ===== verification/IpAddr.v ===== *)
(** * The ipaddress module, as models.py and playbooks_api.py use it

    [ip_address] and [ip_network] on strings: the dotted quad, the colon
    notation with one "::", an embedded dotted quad, a scope id after "%", and
    for networks a prefix length or, for IPv4, a netmask or hostmask. An
    address is kept by its octets or hextets. *)

From stdpp Require Import pretty.
From S2P Require Import Prelude PyNum PyStr Wire IpText.

#[local] Open Scope Z_scope.

Inductive addr :=
  | V4 (octets : list Z)
  | V6 (words : list Z) (scope : option string).

Definition is_digit (c : ascii) : bool :=
  match digit_of c with Some _ => true | None => false end.

(** [s.isascii() and s.isdigit()] *)
Definition all_digits (s : string) : bool :=
  negb (bool_decide (s = EmptyString)) && forallb is_digit (list_ascii_of_string s).

Definition parse_octet (s : string) : option Z :=
  if negb (all_digits s) then None
  else if (3 <? String.length s)%nat then None
  else if negb (bool_decide (s = "0"%string)) && str_prefix "0" s then None
  else match int_of_string s with
       | Ok z => if 255 <? z then None else Some z
       | Exn _ => None
       end.

Definition ipv4_of_string (s : string) : option (list Z) :=
  let octets := str_split "." s in
  if negb (length octets =? 4)%nat then None else mapM parse_octet octets.

Definition hex_value (c : ascii) : option Z :=
  let n := Z.of_N (N_of_ascii c) in
  if (48 <=? n) && (n <=? 57) then Some (n - 48)
  else if (97 <=? n) && (n <=? 102) then Some (n - 87)
  else if (65 <=? n) && (n <=? 70) then Some (n - 55)
  else None.

Fixpoint hex_fold (acc : Z) (l : list ascii) : option Z :=
  match l with
  | [] => Some acc
  | c :: l' => d ← hex_value c; hex_fold (16 * acc + d) l'
  end.

Definition parse_hextet (s : string) : option Z :=
  if bool_decide (s = EmptyString) then None
  else if (4 <? String.length s)%nat then None
  else hex_fold 0 (list_ascii_of_string s).

(** [s.partition(c)]: the text before the first [c] and, if there is one, the
    text after it. *)
Fixpoint partition_on (c : ascii) (s : string) : string * option string :=
  match s with
  | EmptyString => (EmptyString, None)
  | String x s' =>
      if bool_decide (x = c) then (EmptyString, Some s')
      else let '(a, b) := partition_on c s' in (String x a, b)
  end.

(** The interior positions that are empty. *)
Fixpoint skips (i : nat) (parts : list string) : list nat :=
  match parts with
  | [] => []
  | p :: ps => (if bool_decide (p = EmptyString) then [i] else []) ++ skips (S i) ps
  end.

(** The two hextets of a dotted quad at the end. *)
Definition quad_words (o : list Z) : option (list Z) :=
  match o with [a; b; c; d] => Some [256 * a + b; 256 * c + d] | _ => None end.

(** A last part with a dot is a dotted quad and counts as two parts. *)
Definition unquad (parts : list string) : option (list string) :=
  match last parts with
  | Some p =>
      if str_contains "." p then
        o ← ipv4_of_string p; ws ← quad_words o; Some (removelast parts ++ (hextet <$> ws))
      else Some parts
  | None => None
  end.

Definition ipv6_of_parts (raw : list string) : option (list Z) :=
  if (length raw <? 3)%nat then None
  else
    parts ← unquad raw;
    let n := length parts in
    if (9 <? n)%nat then None
    else
      match skips 1 (removelast (tail parts)) with
      | [] =>
          if negb (n =? 8)%nat then None else mapM parse_hextet parts
      | [k] =>
          let first_empty := bool_decide (head parts = Some EmptyString) in
          let last_empty := bool_decide (last parts = Some EmptyString) in
          let hi := if first_empty then (k - 1)%nat else k in
          let lo := (if last_empty then n - k - 2 else n - k - 1)%nat in
          if first_empty && negb (hi =? 0)%nat then None
          else if last_empty && negb (lo =? 0)%nat then None
          else if (8 <=? hi + lo)%nat then None
          else
            his ← mapM parse_hextet (take hi parts);
            los ← mapM parse_hextet (drop (n - lo) parts);
            Some (his ++ replicate (8 - (hi + lo)) 0 ++ los)
      | _ => None
      end.

Definition ipv6_of_string (s : string) : option (list Z) := ipv6_of_parts (str_split ":" s).

(** [IPv6Address(s)]: a scope id is any non-empty text without a "%". *)
Definition ipv6_address (s : string) : option (list Z * option string) :=
  let '(a, scope) := partition_on "%" s in
  match scope with
  | None => w ← ipv6_of_string a; Some (w, None)
  | Some sc =>
      if bool_decide (sc = EmptyString) || str_contains "%" sc then None
      else w ← ipv6_of_string a; Some (w, Some sc)
  end.

Definition ip_address (s : string) : res addr :=
  if str_contains "/" s then Exn ValueError
  else match ipv4_of_string s with
       | Some o => Ok (V4 o)
       | None => match ipv6_address s with
                 | Some (w, sc) => Ok (V6 w sc)
                 | None => Exn ValueError
                 end
       end.

(** ** Networks *)

Definition prefix_ok (mask : string) (max : Z) : bool :=
  all_digits mask && match int_of_string mask with Ok z => z <=? max | Exn _ => false end.

Definition quad_value (o : list Z) : Z := foldl (λ acc b, 256 * acc + b) 0 o.

(** Ones followed by zeros. *)
Definition is_netmask (z : Z) : bool :=
  existsb (λ k, z =? 2 ^ 32 - 2 ^ k) (seqZ 0 33).

Definition ipv4_mask_ok (mask : string) : bool :=
  prefix_ok mask 32 ||
  match ipv4_of_string mask with
  | Some o => is_netmask (quad_value o) || is_netmask (Z.lxor (quad_value o) (2 ^ 32 - 1))
  | None => false
  end.

(** [ip_network(s, strict=False)] returns. *)
Definition ip_network_ok (s : string) : bool :=
  match str_split "/" s with
  | [a] => match ipv4_of_string a, ipv6_address a with None, None => false | _, _ => true end
  | [a; m] =>
      (match ipv4_of_string a with Some _ => ipv4_mask_ok m | None => false end) ||
      (match ipv6_address a with Some _ => prefix_ok m 128 | None => false end)
  | _ => false
  end.

Example parse_v4 : ip_address "192.168.1.10" = Ok (V4 [192; 168; 1; 10]).
Proof. reflexivity. Qed.
Example parse_leading_zero : ip_address "192.168.01.10" = Exn ValueError.
Proof. reflexivity. Qed.
Example parse_v6 : ip_address "2001:DB8::1" = Ok (V6 [8193; 3512; 0; 0; 0; 0; 0; 1] None).
Proof. reflexivity. Qed.
Example parse_any : ip_address "::" = Ok (V6 [0; 0; 0; 0; 0; 0; 0; 0] None).
Proof. reflexivity. Qed.
Example parse_tail : ip_address "fe80:1::" = Ok (V6 [65152; 1; 0; 0; 0; 0; 0; 0] None).
Proof. reflexivity. Qed.
Example parse_mapped : ip_address "::ffff:1.2.3.4" = Ok (V6 [0; 0; 0; 0; 0; 65535; 258; 772] None).
Proof. reflexivity. Qed.
Example parse_triple : ip_address ":::" = Exn ValueError.
Proof. reflexivity. Qed.
Example parse_twice : ip_address "1::2::3" = Exn ValueError.
Proof. reflexivity. Qed.
Example parse_cidr : ip_address "10.0.0.0/8" = Exn ValueError.
Proof. reflexivity. Qed.
Example net_v4 : ip_network_ok "10.1.2.3/8" = true.
Proof. reflexivity. Qed.
Example net_mask : ip_network_ok "10.0.0.0/255.0.0.0" && ip_network_ok "10.0.0.0/0.0.0.255" = true.
Proof. reflexivity. Qed.
Example net_bad : ip_network_ok "10.0.0.0/33" || ip_network_ok "10.0.0.0/8/8" || ip_network_ok "10.0.0.0/" = false.
Proof. reflexivity. Qed.
Example net_v6 : ip_network_ok "2001:db8::/32" = true.
Proof. reflexivity. Qed.

(** ** What decode_ip prints, ip_address accepts *)

Lemma contains_char c s : str_contains (String c EmptyString) s = false ↔ no_char c s.
Proof.
  unfold no_char. induction s as [|x s IH]; simpl; [split; [intros _; apply not_elem_of_nil|done]|].
  rewrite orb_false_iff, IH, not_elem_of_cons, andb_true_r, bool_decide_eq_false. done.
Qed.

Lemma partition_none c s : no_char c s → partition_on c s = (s, None).
Proof.
  unfold no_char. induction s as [|x s IH]; simpl; [done|]. rewrite not_elem_of_cons. intros [Hx Hs].
  rewrite bool_decide_eq_false_2 by congruence. by rewrite IH.
Qed.

Lemma mapM_fmap_Some {A B} (f : A → option B) (g : B → A) (P : B → Prop) l :
  (∀ b, P b → f (g b) = Some b) → Forall P l → mapM f (g <$> l) = Some l.
Proof. intros Hf. induction 1 as [|b l Hb _ IH]; [done|]. cbn. by rewrite Hf, IH. Qed.

Definition octet_parses (b : Z) : bool :=
  bool_decide (parse_octet (octet b) = Some b) &&
  forallb (λ c, negb (Ascii.eqb c "/")) (list_ascii_of_string (octet b)).

Lemma octets_parse : forallb octet_parses (seqZ 0 256) = true.
Proof. vm_compute. reflexivity. Qed.

Lemma parse_octet_octet b : byte_ok b → parse_octet (octet b) = Some b ∧ no_char "/" (octet b).
Proof.
  intros Hb. pose proof octets_parse as H. rewrite forallb_forall in H.
  specialize (H b). rewrite <-list_elem_of_In, elem_of_seqZ in H. unfold byte_ok in Hb.
  specialize (H ltac:(lia)). apply andb_true_iff in H as [H1 H2].
  split; [by apply bool_decide_eq_true in H1|by apply forallb_no_char].
Qed.

Lemma ipv4_parses v4 :
  length v4 = 4%nat → Forall byte_ok v4 → ip_address (ipv4_str v4) = Ok (V4 v4).
Proof.
  intros Hl Hb. unfold ip_address.
  assert (str_contains "/" (ipv4_str v4) = false) as ->.
  { apply contains_char, concat_no_char.
    - apply not_elem_of_cons. split; [done|apply not_elem_of_nil].
    - apply Forall_fmap. eapply Forall_impl; [exact Hb|]. intros b ?. by apply (parse_octet_octet b). }
  unfold ipv4_of_string. rewrite ipv4_split by (done || by destruct v4).
  rewrite length_fmap, Hl. cbn [Nat.eqb negb].
  rewrite (mapM_fmap_Some _ _ byte_ok); [done| |done]. intros b ?. by apply parse_octet_octet.
Qed.

Lemma hex_value_digit d : 0 <= d < 16 → hex_value (hex_digit d) = Some d.
Proof.
  intros Hd. assert (H : d = 0 ∨ d = 1 ∨ d = 2 ∨ d = 3 ∨ d = 4 ∨ d = 5 ∨ d = 6 ∨ d = 7 ∨
    d = 8 ∨ d = 9 ∨ d = 10 ∨ d = 11 ∨ d = 12 ∨ d = 13 ∨ d = 14 ∨ d = 15) by lia.
  by repeat destruct H as [->|H]; subst.
Qed.

Lemma hex_fold_digits acc ds :
  Forall (λ d, 0 <= d < 16) ds → hex_fold acc (hex_digit <$> ds) = Some (foldl (λ a d, 16 * a + d) acc ds).
Proof.
  intros H. revert acc. induction H as [|d ds Hd _ IH]; intros acc; [done|]. cbn.
  rewrite (hex_value_digit d Hd). apply IH.
Qed.

Lemma parse_hextet_hextet h : word_ok h → parse_hextet (hextet h) = Some h.
Proof.
  intros (ds & -> & HF & Hlen & Hv)%hextet_digits. unfold parse_hextet.
  rewrite bool_decide_eq_false_2 by (destruct ds; simpl in *; [lia|done]).
  assert (Hl : ∀ l, String.length (string_of_list_ascii l) = length l).
  { induction l as [|c l IH]; simpl; [done|]. by rewrite IH. }
  rewrite Hl, length_fmap. assert ((4 <? length ds)%nat = false) as -> by (apply Nat.ltb_ge; lia).
  rewrite list_ascii_of_string_of_list_ascii, hex_fold_digits by done. by rewrite Hv.
Qed.

Lemma hextet_no_char c h : word_ok h → hex_value c = None → no_char c (hextet h).
Proof.
  intros (ds & -> & HF & _)%hextet_digits Hc. unfold no_char. rewrite list_ascii_of_string_of_list_ascii.
  intros (d & -> & Hin)%list_elem_of_fmap. eapply Forall_forall in HF; [|exact Hin].
  by rewrite hex_value_digit in Hc.
Qed.

(** A part that spells a hextet. *)
Definition spells (t : string) (h : Z) : Prop :=
  bool_decide (t = EmptyString) = false ∧ bool_decide (Some t = Some EmptyString) = false ∧
  str_contains "." t = false ∧ parse_hextet t = Some h.

Lemma hextet_spells h : word_ok h → spells (hextet h) h.
Proof.
  intros Hh. destruct (hextet_spec h Hh) as (_ & _ & Hdot & Hne).
  split_and!; [by apply bool_decide_eq_false|apply bool_decide_eq_false; congruence|
    by apply contains_char|by apply parse_hextet_hextet].
Qed.

(** The hextet at a position of the run is zero. *)
Ltac zero_at Hz i :=
  try (let H := fresh in pose proof (Hz i ltac:(lia)) as H; simpl in H; injection H as ->).
(** Run the parser on parts whose spelling is known. *)
Ltac parse_known :=
  repeat first [progress cbn | match goal with H : ?x = _ |- context [?x] => rewrite H end].

Lemma compress_parses hs :
  length hs = 8%nat → Forall word_ok hs → ipv6_of_parts (compress_hextets hs) = Some hs.
Proof.
  intros Hl Hok. unfold compress_hextets.
  destruct (zero_run 0 None 0 0 0 hs) as [st len] eqn:Hrun.
  apply (zero_run_spec hs hs) in Hrun as [Hz Hle]; [|done|done|intros; lia|lia|done|done].
  do 8 (destruct hs as [|? hs]; [discriminate Hl|]). destruct hs; [|discriminate Hl]. clear Hl.
  repeat (apply Forall_cons in Hok as [?%hextet_spells Hok]). clear Hok. rewrite !fmap_cons, fmap_nil.
  repeat match goal with H : spells (hextet ?z) _ |- _ =>
    revert H; generalize (hextet z); intros ? (? & ? & ? & ?) end.
  assert (bool_decide (EmptyString = EmptyString) = true) by by apply bool_decide_eq_true.
  assert (bool_decide (Some EmptyString = Some EmptyString) = true) by by apply bool_decide_eq_true.
  simpl in Hle. destruct (1 <? len)%nat eqn:Hlen; [apply Nat.ltb_lt in Hlen|].
  - destruct st as [|[|[|[|[|[|[|st]]]]]]]; try lia;
      (destruct len as [|[|[|[|[|[|[|[|[|len]]]]]]]]]; try lia).
    all: zero_at Hz 0%nat; zero_at Hz 1%nat; zero_at Hz 2%nat; zero_at Hz 3%nat; zero_at Hz 4%nat; zero_at Hz 5%nat;
      zero_at Hz 6%nat; zero_at Hz 7%nat; clear Hz; unfold ipv6_of_parts, unquad; parse_known; done.
  - clear Hz. unfold ipv6_of_parts, unquad. parse_known. done.
Qed.

Lemma ipv6_parses bs : addr_ok bs → ip_address (ipv6_str bs) = Ok (V6 (hextets bs) None).
Proof.
  intros Hbs. pose proof (hextets_length bs Hbs) as Hlen. destruct Hbs as [Hl Hb].
  pose proof (hextets_ok bs Hb) as Hok. assert (Hne : hextets bs ≠ []) by (intros E; by rewrite E in Hlen).
  destruct (compress_parts _ Hok Hne) as [HF Hnil]. destruct (ipv6_text bs Hb Hne) as [_ Hdot].
  assert (Hno : ∀ c, c ≠ ":"%char → hex_value c = None → no_char c (ipv6_str bs)).
  { intros c Hc Hv. apply concat_no_char; [by apply not_elem_of_cons; split; [|apply not_elem_of_nil]|].
    assert (Hts : Forall (no_char c) (hextet <$> hextets bs)).
    { apply Forall_fmap. eapply Forall_impl; [exact Hok|]. intros h Hh. by apply hextet_no_char. }
    assert (Hopt : ∀ b : bool, Forall (no_char c) (if b then [EmptyString] else [])).
    { intros []; repeat constructor. apply not_elem_of_nil. }
    unfold compress_hextets. destruct (zero_run _ _ _ _ _ _) as [st len]. destruct (1 <? len)%nat; [|done].
    repeat apply Forall_app_2; auto using Forall_take, Forall_drop. apply (Hopt true). }
  unfold ip_address. assert (str_contains "/" (ipv6_str bs) = false) as -> by by apply contains_char, Hno.
  unfold ipv4_of_string, str_split at 1 2. rewrite split_on_last by done. cbn [length Nat.eqb negb].
  unfold ipv6_address. rewrite partition_none by by apply Hno. unfold ipv6_of_string, ipv6_str.
  rewrite split_join; [|done|eapply Forall_impl; [exact HF|]; by intros s [? _]].
  by rewrite compress_parses.
Qed.


