(* ===== verification/Models.v ===== *)
(** * models.py: what a request body must satisfy before a handler runs

    A validator that raises makes FastAPI answer 422. Strings are the bytes of
    their ASCII text, so a length is a number of characters. *)

From S2P Require Import Prelude PyNum PyStr Json IpText IpAddr.

Definition _validate_host_ip (ip : string) : res string :=
  _ ← ip_address ip; mret ip.

Definition _validate_host_ip_or_400 (ip : string) : res string :=
  match _validate_host_ip ip with
  | Exn ValueError => Exn (HTTPException 400)
  | r => r
  end.

(** A field validator's ValueError becomes a 422. *)
Definition field {A} (r : res A) : res A :=
  match r with Exn ValueError => Exn (HTTPException 422) | _ => r end.

Record IpPayload := mkIpPayload { ip_ip : string; ip_victim_ip : option string }.
Definition ip_payload (ip : string) (victim_ip : option string) : res IpPayload :=
  i ← field (_validate_host_ip ip);
  v ← match victim_ip with
      | Some s => if bool_decide (s = EmptyString) then Ok victim_ip
                  else s' ← field (_validate_host_ip s); mret (Some s')
      | None => Ok None
      end;
  mret (mkIpPayload i v).

Record VictimPayload := mkVictimPayload { vp_ip : string; vp_description : string }.
Definition victim_payload (ip description : string) : res VictimPayload :=
  i ← field (_validate_host_ip ip);
  d ← field (if (200 <? String.length description)%nat then Exn ValueError else Ok description);
  mret (mkVictimPayload i d).

(** The fields of [EnforcementConfigPayload], [None] where the client sent
    none, in the order [payload.dict()] lists them. *)
Record EnforcementConfigPayload := mkEnforcementPayload {
  ep_dominant_ip_ratio_block_threshold : option num;
  ep_dominant_ip_ratio_extreme_threshold : option num;
  ep_block_rate_floor_pps : option num;
  ep_ratelimit_rate_floor_pps : option num;
  ep_block_sigma_multiplier : option num;
  ep_block_hysteresis_windows : option num;
  ep_block_duration_seconds : option num;
  ep_ratelimit_duration_seconds : option num;
  ep_ratelimit_hashlimit_pps : option num }.

Definition enforcement_payload_dict (p : EnforcementConfigPayload) : list (string * option num) :=
  [ ("dominant_ip_ratio_block_threshold", ep_dominant_ip_ratio_block_threshold p);
    ("dominant_ip_ratio_extreme_threshold", ep_dominant_ip_ratio_extreme_threshold p);
    ("block_rate_floor_pps", ep_block_rate_floor_pps p);
    ("ratelimit_rate_floor_pps", ep_ratelimit_rate_floor_pps p);
    ("block_sigma_multiplier", ep_block_sigma_multiplier p);
    ("block_hysteresis_windows", ep_block_hysteresis_windows p);
    ("block_duration_seconds", ep_block_duration_seconds p);
    ("ratelimit_duration_seconds", ep_ratelimit_duration_seconds p);
    ("ratelimit_hashlimit_pps", ep_ratelimit_hashlimit_pps p) ]%string.

Definition _check_username (v : string) : res string :=
  let n := String.length v in
  if negb ((1 <=? n) && (n <=? 64))%nat then Exn ValueError else Ok v.

Definition _check_password_strength (v : string) : res string :=
  if (String.length v <? 8)%nat then Exn ValueError else Ok v.

Definition delete_user_payload (username : string) : res string := field (_check_username username).

(** [CreateUserPayload] and [SetPasswordPayload] check the same two fields. *)
Definition user_payload (username password : string) : res (string * string) :=
  u ← field (_check_username username); p ← field (_check_password_strength password); mret (u, p).

Definition _PLAYBOOK_SCOPE_TYPES : list string := ["host"; "subnet"; "all"].

Record PlaybookPayload := mkPlaybookPayload {
  pp_name : string; pp_scope_type : string; pp_scope_value : option string;
  pp_enabled : bool; pp_definition : list (string * json) }.

Definition playbook_payload (name scope_type : string) (scope_value : option string) (enabled : bool)
    (definition : json) : res PlaybookPayload :=
  n ← field (let l := String.length name in
             if negb ((1 <=? l) && (l <=? 200))%nat then Exn ValueError else Ok name);
  t ← field (if bool_decide (scope_type ∈ _PLAYBOOK_SCOPE_TYPES) then Ok scope_type else Exn ValueError);
  v ← field (match scope_value with
             | Some s => if (64 <? String.length s)%nat then Exn ValueError else Ok scope_value
             | None => Ok None
             end);
  match definition with
  | JObj l => Ok (mkPlaybookPayload n t v enabled l)
  | _ => Exn (HTTPException 422)
  end.

(** ** Properties *)

(** An accepted host address is one address, never a CIDR range that ipset
    would expand to every host in it. *)
Lemma host_ip_no_slash ip r : _validate_host_ip ip = Ok r → r = ip ∧ no_char "/" ip.
Proof.
  unfold _validate_host_ip, ip_address. destruct (str_contains "/" ip) eqn:H; [done|].
  apply contains_char in H. cbn. repeat case_match; intros [= <-]; done.
Qed.

(** A zone index is taken as it is: any text without a percent sign and a slash,
    markup included, passes as part of an address. *)
Theorem scope_id_unchecked zone :
  zone ≠ EmptyString → no_char "%" zone → no_char "/" zone →
  _validate_host_ip ("fe80::1%" ^^ zone) = Ok ("fe80::1%" ^^ zone).
Proof.
  intros Hne Hp Hs. unfold _validate_host_ip, ip_address.
  assert (str_contains "/" ("fe80::1%" ^^ zone) = false) as ->.
  { apply contains_char. unfold no_char. rewrite list_ascii_app, elem_of_app.
    intros [H|H]; [|by apply Hs]. revert H. change (no_char "/" "fe80::1%"). by apply contains_char. }
  assert (Hnone : ipv4_of_string ("fe80::1%" ^^ zone) = None).
  { unfold ipv4_of_string. destruct (str_split _ _) as [|o os] eqn:Ho; [done|].
    destruct (negb _); [done|].
    assert (Hfirst : ∃ t, o = "fe80::1%" ^^ t).
    { revert Ho. unfold str_split. rewrite list_ascii_app. cbn [list_ascii_of_string].
      generalize (list_ascii_of_string zone). intros l Hl. cbn in Hl.
      assert (Hgen : ∀ l cur o os, split_on "." cur l = o :: os → ∃ t, o = string_of_list_ascii (rev cur ++ t)).
      { clear. induction l as [|x l IH]; intros cur o os; simpl.
        - intros [= <- _]. exists []. by rewrite app_nil_r.
        - case_bool_decide; [intros [= <- _]; exists []; by rewrite app_nil_r|].
          intros (t & ->)%IH. exists (x :: t). simpl. by rewrite <-app_assoc. }
      apply Hgen in Hl as [t ->]. by exists (string_of_list_ascii t). }
    destruct Hfirst as [t ->]. done. }
  assert (Hpart : partition_on "%" ("fe80::1%" ^^ zone) = ("fe80::1"%string, Some zone)) by done.
  rewrite Hnone. unfold ipv6_address. rewrite Hpart, bool_decide_eq_false_2 by done.
  apply contains_char in Hp. rewrite Hp. done.
Qed.

Lemma scope_id_unchecked_witness :
  _validate_host_ip "fe80::1%<img src=x onerror=alert(1)>" = Ok "fe80::1%<img src=x onerror=alert(1)>"%string.
Proof.
  apply (scope_id_unchecked "<img src=x onerror=alert(1)>");
    [discriminate|apply contains_char; reflexivity..].
Defined.
