(* ===== verification/Startup.v ===== *)
(** * Start-up: setup_admin.py, the server decision of stage2.py, the version
    of config.py and the ipset capacity check of enforcement.py

    bcrypt and [secrets] are parameters. [init_db] is one step here; what it
    does to the file is [Schema.apply]. *)

From S2P Require Import Prelude PyNum PyStat PyStr Json World Enforcement Models.

(** ** setup_admin.py *)

Inductive entered : Type := Line (s : string) | Interrupt.

Record Setup := mkSetup { su_users : list User; su_inputs : list entered; su_ticks : nat }.

Section setup.
Context (db_ok : nat → bool) (choice : nat → nat) (hashpw : string → res string).

Definition alphabet : string := "abcdefghijklmnopqrstuvwxyzABCDEFGHIJKLMNOPQRSTUVWXYZ0123456789".

(** [choice(n)] is the index the n-th [secrets.choice] picks. *)
Definition generate_random_password (len : nat) : string :=
  string_of_list_ascii ((λ n, default "a"%char (list_ascii_of_string alphabet !! (choice n mod 62))) <$> seq 0 len).

Definition db_step {A} (a : A) (f : list User → list User) : M Setup A := λ s,
  let s' := mkSetup (if db_ok (su_ticks s) then f (su_users s) else su_users s) (su_inputs s) (S (su_ticks s)) in
  if db_ok (su_ticks s) then (Ok a, s') else (Exn SqliteError, s').

(** [input(...).strip()]; an interrupt ends in [sys.exit(1)]. *)
Definition input : M Setup string := λ s,
  match su_inputs s with
  | [] => (Exn EOFError, s)
  | Line l :: rest => (Ok (str_strip l), mkSetup (su_users s) rest (su_ticks s))
  | Interrupt :: rest => (Exn (SystemExit 1), mkSetup (su_users s) rest (su_ticks s))
  end.

(** The loop that asks until the password is strong enough or left empty. *)
Fixpoint ask_password (password : string) (inputs : list entered) : res (string * bool) * list entered :=
  match password with
  | EmptyString => (Ok (generate_random_password 16, true), inputs)
  | _ =>
      match _check_password_strength password with
      | Ok p => (Ok (p, false), inputs)
      | Exn _ =>
          match inputs with
          | [] => (Exn EOFError, [])
          | Line l :: rest => ask_password (str_strip l) rest
          | Interrupt :: rest => (Exn (SystemExit 1), rest)
          end
      end
  end.
Definition asked (password : string) : M Setup (string * bool) := λ s,
  let '(r, rest) := ask_password password (su_inputs s) in (r, mkSetup (su_users s) rest (su_ticks s)).
Definition choose_password : M Setup (string * bool) := password ← input; asked password.

(** [INSERT OR REPLACE]: the row of the same user name goes. *)
Definition insert_or_replace (u : User) (users : list User) : list User :=
  List.filter (λ v, negb (bool_decide (us_username v = us_username u))) users ++ [u].

(** [SELECT COUNT]: an error is printed and taken for no accounts. *)
Definition has_accounts : M Setup bool :=
  try_all (λ s, (if db_ok (su_ticks s) then Ok (bool_decide (su_users s ≠ [])) else Exn SqliteError,
                 mkSetup (su_users s) (su_inputs s) (S (su_ticks s))))
          (mret false).

Definition setup_main : M Setup unit :=
  db_step tt (λ u, u);;
  existing ← has_accounts;
  if (existing : bool) then mret tt
  else
    name ← input;
    let username := match name with EmptyString => "admin"%string | n => n end in
    p ← choose_password;
    h ← lift (hashpw p.1);
    db_step tt (insert_or_replace (mkUser username h "")).

Lemma generated_length len : String.length (generate_random_password len) = len.
Proof.
  unfold generate_random_password. assert (Hl : ∀ l, String.length (string_of_list_ascii l) = length l).
  { induction l as [|c l IH]; simpl; congruence. }
  by rewrite Hl, length_fmap, length_seq.
Qed.

Lemma ask_password_strong p inputs r rest :
  ask_password p inputs = (Ok r, rest) → 8 ≤ String.length r.1.
Proof.
  revert p. induction inputs as [|[l|] inputs IH]; intros [|c p]; cbn [ask_password];
    try (intros [= <- <-]; cbn [fst]; rewrite generated_length; lia);
    unfold _check_password_strength; destruct (Nat.ltb_spec (String.length (String c p)) 8); try done;
    try (by intros [= <- <-]). intros H'. by apply (IH (str_strip l)).
Qed.

(** Setting up a file without accounts either fails and leaves it without, or
    leaves exactly one account: with the name entered, or admin for an empty
    one, and the hash of a password of at least eight characters, entered or
    generated, however often a weak one was tried. *)
Theorem setup_account s :
  su_users s = [] →
  match setup_main s with
  | (Ok _, s') => ∃ name p h, su_users s' = [mkUser name h ""] ∧ name ≠ EmptyString ∧
                              8 ≤ String.length p ∧ hashpw p = Ok h
  | (Exn _, s') => su_users s' = []
  end.
Proof.
  intros Hs. unfold setup_main, db_step, has_accounts, try_all, try_except, choose_password, asked, input, lift, mbind, M_bind.
  destruct s as [users inputs n]. simpl in Hs. subst users. simpl.
  destruct (db_ok n) eqn:Hdb; simpl; [|done].
  destruct (db_ok (S n)); simpl.
  all: destruct inputs as [|[l|] inputs]; simpl; try done.
  all: destruct inputs as [|[l2|] inputs]; simpl; try done.
  all: destruct (ask_password (str_strip l2) inputs) as [[p|e] rest] eqn:Hp; simpl; [|done].
  all: destruct (hashpw p.1) as [h|e] eqn:Hh; simpl; [|done].
  all: destruct (db_ok (S (S n))); simpl; [|done].
  all: eexists _, p.1, h; split; [done|]; split; [by destruct (str_strip l)|]; split; [|done].
  all: by apply ask_password_strong in Hp.
Qed.

(** With an account in the file nothing is asked and nothing changes, provided
    the accounts can be counted. *)
Theorem setup_keeps_accounts s :
  su_users s ≠ [] → db_ok (S (su_ticks s)) = true →
  su_users (setup_main s).2 = su_users s ∧ su_inputs (setup_main s).2 = su_inputs s.
Proof.
  intros Hs Hok. unfold setup_main, db_step, has_accounts, try_all, try_except, mbind, M_bind.
  destruct s as [users inputs n]. simpl in *. destruct (db_ok n); simpl; [|done].
  rewrite Hok. simpl. by rewrite bool_decide_eq_true_2.
Qed.
End setup.

(** ** The server of stage2.py *)

Inductive Serving : Type := Https (certfile keyfile : string) | PlainHttp.

(** [FLOD_ALLOW_INSECURE_HTTP] in lower case. *)
Definition insecure_allowed (value : string) : bool :=
  bool_decide (string_of_list_ascii (lower <$> list_ascii_of_string value) ∈ ["1"; "true"; "yes"]%string).

Definition tls_enabled (cert_exists key_exists : bool) : bool := cert_exists && key_exists.

Definition start_api_server (cert_exists key_exists : bool) (cert key insecure : string) : res Serving :=
  if tls_enabled cert_exists key_exists then Ok (Https cert key)
  else if insecure_allowed insecure then Ok PlainHttp
  else Exn (SystemExit 1).

(** ** The version of config.py *)

(** [open] with [O_NOFOLLOW], then [json.load(f)["version"]]; a candidate that
    fails in any way is passed over. *)
Definition version_in (files : gmap string jfile) (path : string) : option json :=
  match files !! path with
  | Some (JText (JGood (JObj d))) => dict_get "version" d
  | _ => None
  end.

Definition version_candidates (override : option string) (script_dir : string) : list string :=
  (match override with Some (String _ _ as o) => [o] | _ => [] end) ++
  [script_dir ^^ "/version.json"; script_dir ^^ "/../version.json"].

Definition _load_version (files : gmap string jfile) (override : option string) (script_dir : string) : json :=
  default (JStr "Unknown") (head (omap (version_in files) (version_candidates override script_dir))).

(** ** The capacity check of enforcement.py *)

(** What the check logs. *)
Inductive Capacity : Type :=
  | CapacityAlert (entries maxelem : Z) (usage : num)
  | CapacityStatus (entries maxelem : Z) (usage : num)
  | QueryFailed
  | CheckError
  | NoLine.

(** [parts[parts.index("maxelem") + 1]] as an integer, if there is one. *)
Fixpoint maxelem_in (parts : list string) (old : Z) : Z :=
  match parts with
  | [] => old
  | p :: rest =>
      if bool_decide (p = "maxelem"%string) then
        match rest with
        | v :: _ => match int_of_string v with Ok z => z | Exn _ => old end
        | [] => old
        end
      else maxelem_in rest old
  end.

Definition capacity_line (acc : Z * Z) (line : string) : Z * Z :=
  let '(maxelem, entries) := acc in
  if str_contains "maxelem" line then (maxelem_in (str_words line) maxelem, entries)
  else if str_prefix "Number of entries:" line then
    match int_of_string (str_strip (default EmptyString (last (str_split ":" line)))) with
    | Ok n => (maxelem, n)
    | Exn _ => acc
    end
  else acc.

Definition capacity_of (stdout : string) : Capacity :=
  let '(maxelem, entries) := foldl capacity_line (65536, 0)%Z (splitlines stdout) in
  if (0 <? maxelem)%Z then
    match ndiv (NInt entries) (NInt maxelem) with
    | Ok usage => if nlt (flt 8 10) usage then CapacityAlert entries maxelem usage
                  else CapacityStatus entries maxelem usage
    | Exn _ => CheckError
    end
  else NoLine.

Section capacity.
Context {E : Env}.

Definition check_ipset_capacity : M World Capacity :=
  try_all
    (r ← run_cmd (IpsetList ddos_blocklist);
     mret (if (r.1 =? 0)%Z then capacity_of r.2 else QueryFailed))
    (mret CheckError).

(** Reading the set changes no firewall state and never raises, so the monitor
    thread does not end. *)
Lemma capacity_check_returns w : ∃ c w', check_ipset_capacity w = (Ok c, w').
Proof.
  unfold check_ipset_capacity, try_all, try_except, run_cmd, mbind, M_bind.
  destruct (sub _ _ _); simpl; by eexists _, _.
Qed.
End capacity.

Definition listing (n : string) : string :=
  ("Name: ddos_blocklist" ^^ String newline ("Header: family inet hashsize 4096 maxelem 1000 timeout 3600" ^^
   String newline ("Number of entries: " ^^ n)))%string.

Example capacity_at_80 : ∃ u, capacity_of (listing "800") = CapacityStatus 800 1000 u.
Proof. eexists. vm_compute. reflexivity. Qed.
Example capacity_above_80 : ∃ u, capacity_of (listing "801") = CapacityAlert 801 1000 u.
Proof. eexists. vm_compute. reflexivity. Qed.

(** When the count fails the script goes on as if there were no account, and an
    account of the name entered gets a new password. *)
Lemma uncounted_account_replaced :
  let s := mkSetup [mkUser "admin" "old" ""] [Line ""; Line "correct horse"] 0 in
  su_users (setup_main (λ n, negb (n =? 1)) (λ n, n) (λ p, Ok p) s).2 = [mkUser "admin" "correct horse" ""].
Proof. reflexivity. Qed.

Lemma setup_account_witness :
  let s := mkSetup [] [Line " op "; Line "short"; Line ""] 0 in
  match setup_main (λ _, true) (λ n, n) (λ p, Ok p) s with
  | (Ok _, s') => ∃ name p h, su_users s' = [mkUser name h ""] ∧ name ≠ EmptyString ∧
                              8 ≤ String.length p ∧ Ok p = Ok h
  | (Exn _, s') => su_users s' = []
  end.
Proof. intros s. apply (setup_account (λ _, true) (λ n, n) (λ p, Ok p) s). reflexivity. Defined.

Lemma setup_keeps_accounts_witness :
  let s := mkSetup [mkUser "admin" "old" ""] [Line ""] 0 in
  su_users (setup_main (λ _, true) (λ n, n) (λ p, Ok p) s).2 = su_users s ∧
  su_inputs (setup_main (λ _, true) (λ n, n) (λ p, Ok p) s).2 = su_inputs s.
Proof. intros s. apply (setup_keeps_accounts (λ _, true) (λ n, n) (λ p, Ok p) s); [discriminate|reflexivity]. Defined.
