(* ===== verification/StageMain.v ===== *)
(** * stage2.py: [main]

    The start of the process as one sequence over the database file
    ([Schema.Conn]), its mode and that of its write-ahead log, the world of
    the threads, and the threads and the server started. Any call may fail.
    The mode SQLite gives its side files is a parameter. *)

From S2P Require Import Prelude PyNum Json World Db Storage Enforcement EnforcementFacts Schema Startup.

Inductive Thread := IpcReceiver | IpsetMonitor | AlertWorker.

Record Boot := mkBoot {
  bo_world : World; bo_conn : Conn; bo_mode : option Z; bo_sidecar : option Z; bo_no_admin : bool;
  bo_threads : list Thread; bo_server : option Serving }.

Definition on_world {A} (m : M World A) : M Boot A := λ b,
  let '(r, w) := m (bo_world b) in
  (r, mkBoot w (bo_conn b) (bo_mode b) (bo_sidecar b) (bo_no_admin b) (bo_threads b) (bo_server b)).
Definition on_conn {A} (m : M Conn A) : M Boot A := λ b,
  let '(r, c) := m (bo_conn b) in
  (r, mkBoot (bo_world b) c (bo_mode b) (bo_sidecar b) (bo_no_admin b) (bo_threads b) (bo_server b)).
Definition set_mode (m : option Z) (b : Boot) : Boot :=
  mkBoot (bo_world b) (bo_conn b) m (bo_sidecar b) (bo_no_admin b) (bo_threads b) (bo_server b).
Definition set_sidecar (m : option Z) (b : Boot) : Boot :=
  mkBoot (bo_world b) (bo_conn b) (bo_mode b) m (bo_no_admin b) (bo_threads b) (bo_server b).
Definition set_no_admin (x : bool) (b : Boot) : Boot :=
  mkBoot (bo_world b) (bo_conn b) (bo_mode b) (bo_sidecar b) x (bo_threads b) (bo_server b).
Definition add_thread (t : Thread) (b : Boot) : Boot :=
  mkBoot (bo_world b) (bo_conn b) (bo_mode b) (bo_sidecar b) (bo_no_admin b) (bo_threads b ++ [t]) (bo_server b).
Definition set_server (s : Serving) (b : Boot) : Boot :=
  mkBoot (bo_world b) (bo_conn b) (bo_mode b) (bo_sidecar b) (bo_no_admin b) (bo_threads b) (Some s).

Definition OWNER_ONLY : Z := 384.    (* 0o600 *)

Section main.
Context {E : Env} (sql_ok : nat → bool) (new_mode : Z) (sidecar_mode : Z → Z).
Context (cert_exists key_exists : bool) (cert key insecure : string).

Definition os_call (e : exn) : M Boot unit := ok ← on_world io; if (ok : bool) then mret tt else raise e.
Definition makedirs : M Boot unit := os_call OSError.

(** Opening creates a missing file, with the mode the umask leaves. *)
Definition connect : M Boot unit :=
  os_call SqliteError;; modify (λ b, set_mode (Some (default new_mode (bo_mode b))) b).
Definition chmod (mode : Z) : M Boot unit := os_call OSError;; modify (set_mode (Some mode)).

(** A statement that leaves the tables alone. *)
Definition pragma : M Boot unit := on_conn (ddl sql_ok Some).
Definition journal_mode_wal : M Boot unit :=
  pragma;;
  modify (λ b, set_sidecar (Some (default (sidecar_mode (default new_mode (bo_mode b))) (bo_sidecar b))) b).

Definition count_users : M Boot unit :=
  pragma;;
  modify (λ b, set_no_admin (bool_decide (db_users (w_db (bo_world b)) = [])) b).

(** The connections the modules open later see the records of the same file. *)
Definition see_file : M Boot unit := λ b,
  on_world (modify (upd_db (upd_logs (λ t, World.mkTable (rows_of "logs" (on_disk (bo_conn b))) (tb_seq t))))) b.

Definition prepare_database : M Boot unit :=
  makedirs;;
  connect;;
  chmod OWNER_ONLY;;
  journal_mode_wal;;
  on_conn (apply sql_ok);;
  count_users;;
  on_conn (commit sql_ok);;
  see_file.

Definition start (t : Thread) : M Boot unit := modify (add_thread t).

Definition serve_api : M Boot unit :=
  s ← lift (start_api_server cert_exists key_exists cert key insecure); modify (set_server s).

Definition load_records : M Boot unit :=
  on_world (load_json_file WHITELIST_PATH (JArr []));;
  on_world (load_json_file VICTIMS_PATH (JArr []));;
  on_world load_ddos_sources.

Definition start_threads : M Boot unit := start IpcReceiver;; start IpsetMonitor;; start AlertWorker.

Definition main : M Boot unit := prepare_database;; load_records;; start_threads;; serve_api.
End main.

(** ** Rules *)

(** From [P] the call returns in [Q] or raises in [R]. *)
Definition stage {A} (P : Boot → Prop) (m : M Boot A) (Q R : Boot → Prop) : Prop :=
  ∀ b, P b → match m b with (Ok _, b') => Q b' | (Exn _, b') => R b' end.

Lemma stage_bind {A B} P Q S R (m : M Boot A) (k : A → M Boot B) :
  stage P m Q R → (∀ a, stage Q (k a) S R) → stage P (m ≫= k) S R.
Proof.
  intros Hm Hk b Hb. specialize (Hm b Hb). unfold mbind, M_bind. destruct (m b) as [[a|e] b']; [by apply Hk|done].
Qed.

Lemma stage_modify P Q R f : (∀ b, P b → Q (f b)) → stage P (modify f) Q R.
Proof. intros H b Hb. by apply H. Qed.

Lemma stage_weaken {A} P Q R R' (m : M Boot A) : (∀ b, R b → R' b) → stage P m Q R → stage P m Q R'.
Proof. intros H Hm b Hb. specialize (Hm b Hb). destruct (m b) as [[a|e] b']; auto. Qed.

(** What a call on the world or on the connection leaves alone. *)
Definition files_and_threads (b : Boot) : option Z * option Z * list Thread * option Serving :=
  (bo_mode b, bo_sidecar b, bo_threads b, bo_server b).

Section frames.
Context (P : Boot → Prop) (HP : ∀ b b', files_and_threads b = files_and_threads b' → P b → P b').

Lemma stage_on_world {A} (m : M World A) : stage P (on_world m) P P.
Proof using HP. intros b Hb. unfold on_world. destruct (m (bo_world b)) as [[a|e] w]; by eapply HP; [|exact Hb]. Qed.

Lemma stage_on_conn {A} (m : M Conn A) : stage P (on_conn m) P P.
Proof using HP. intros b Hb. unfold on_conn. destruct (m (bo_conn b)) as [[a|e] c]; by eapply HP; [|exact Hb]. Qed.

Lemma stage_os_call {E : Env} e : stage P (os_call e) P P.
Proof using HP. eapply stage_bind; [apply stage_on_world|]. by intros [] b Hb. Qed.
End frames.

(** ** A start in order *)

(** Nothing runs and nothing listens. *)
Definition quiet (b : Boot) : Prop := bo_threads b = [] ∧ bo_server b = None.
Definition untouched (b : Boot) : Prop := quiet b ∧ bo_sidecar b = None.
Definition closed_mode (b : Boot) : Prop := bo_mode b = Some OWNER_ONLY.
(** The write-ahead log is absent or as closed as the database. *)
Definition private (b : Boot) : Prop := ∀ m, bo_sidecar b = Some m → m = OWNER_ONLY ∧ closed_mode b.
Definition halted (b : Boot) : Prop := quiet b ∧ private b.

Section order.
Context {E : Env} (sql_ok : nat → bool) (new_mode : Z) (sidecar_mode : Z → Z).
Context (cert_exists key_exists : bool) (cert key insecure : string).
(** SQLite gives a side file the mode the database has. *)
Hypothesis same_mode : ∀ m, sidecar_mode m = m.

Lemma untouched_halted b : untouched b → halted b.
Proof. intros [Hq Hs]. split; [done|]. intros m. by rewrite Hs. Qed.

Definition ready (b : Boot) : Prop := quiet b ∧ closed_mode b ∧ bo_sidecar b = Some OWNER_ONLY.

Lemma ready_halted b : ready b → halted b.
Proof. intros (Hq & Hm & Hs). split; [done|]. intros m. rewrite Hs. by intros [= <-]. Qed.

Lemma frame_untouched b b' : files_and_threads b = files_and_threads b' → untouched b → untouched b'.
Proof. unfold files_and_threads, untouched, quiet. intros [= _ -> -> ->]. done. Qed.
Lemma frame_chmod b b' :
  files_and_threads b = files_and_threads b' → untouched b ∧ closed_mode b → untouched b' ∧ closed_mode b'.
Proof. unfold files_and_threads, untouched, quiet, closed_mode. intros [= -> -> -> ->]. done. Qed.
Lemma frame_ready b b' : files_and_threads b = files_and_threads b' → ready b → ready b'.
Proof. unfold files_and_threads, ready, quiet, closed_mode. intros [= -> -> -> ->]. done. Qed.

Lemma database_prepared :
  stage untouched (prepare_database sql_ok new_mode sidecar_mode) ready halted.
Proof using same_mode.
  unfold prepare_database, makedirs, connect, chmod, journal_mode_wal, count_users, pragma.
  assert (Hu := stage_os_call untouched frame_untouched). assert (Hr := frame_ready).
  eapply stage_bind; [eapply stage_weaken; [apply untouched_halted|apply Hu]|intros _].
  eapply stage_bind; [|intros _].
  { eapply stage_bind; [eapply stage_weaken; [apply untouched_halted|apply Hu]|intros _]. by apply (stage_modify untouched untouched). }
  eapply stage_bind; [|intros _].
  { eapply stage_bind; [eapply stage_weaken; [apply untouched_halted|apply Hu]|intros _].
    apply (stage_modify untouched (λ b, untouched b ∧ closed_mode b)). intros b Hb. by split. }
  eapply stage_bind; [|intros _].
  { eapply stage_bind; [|intros _].
    - eapply stage_weaken; [|apply (stage_on_conn _ frame_chmod)]. intros b [? _]. by apply untouched_halted.
    - apply (stage_modify _ ready). intros b [[Hq Hs] Hm]. split; [exact Hq|]. split; [exact Hm|].
      unfold set_sidecar. cbn [bo_sidecar]. by rewrite Hs, Hm, same_mode. }
  eapply stage_bind; [eapply stage_weaken; [apply ready_halted|apply (stage_on_conn _ Hr)]|intros _].
  eapply stage_bind; [|intros _].
  { eapply stage_bind; [eapply stage_weaken; [apply ready_halted|apply (stage_on_conn _ Hr)]|intros _]. by apply (stage_modify ready ready). }
  eapply stage_bind; [eapply stage_weaken; [apply ready_halted|apply (stage_on_conn _ Hr)]|intros _].
  eapply stage_weaken; [apply ready_halted|]. intros b Hb. unfold see_file.
  generalize (modify (upd_db (upd_logs (λ t, World.mkTable (rows_of "logs" (on_disk (bo_conn b))) (tb_seq t))))).
  intros m. exact (stage_on_world _ Hr m b Hb).
Qed.

Definition ALL_THREADS : list Thread := [IpcReceiver; IpsetMonitor; AlertWorker].

Lemma records_loaded : stage ready load_records ready halted.
Proof.
  assert (Hr := frame_ready).
  do 2 (eapply stage_bind; [eapply stage_weaken; [apply ready_halted|apply (stage_on_world _ Hr)]|intros _]).
  eapply stage_weaken; [apply ready_halted|apply (stage_on_world _ Hr)].
Qed.

End order.

(** ** A start that finds its records *)

Section restart.
Context {E : Env} (new_mode : Z) (sidecar_mode : Z → Z) (cert_exists key_exists : bool) (cert key insecure : string).
Hypothesis healthy : ∀ n, io_ok n = true.

Definition same_records (w w' : World) : Prop :=
  w_db w' = w_db w ∧ w_state w' = w_state w ∧ w_tmp w' = w_tmp w.

Lemma load_json_file_runs p dflt w :
  p ∉ w_tmp w → runs (load_json_file p dflt) w (λ _ w', same_records w w').
Proof using healthy.
  intros Hp. unfold load_json_file. apply runs_bind, runs_gets.
  destruct (w_json w !! p) as [[[]| |]|]; try (by apply runs_ret).
  apply runs_bind. eapply runs_impl; [by apply _atomic_write_runs|].
  intros [] w' [n ->]. apply runs_ret. by destruct w.
Qed.

Lemma runs_on_world {A} (m : M World A) b (P : A → World → Prop) :
  runs m (bo_world b) P →
  runs (on_world m) b (λ a b', P a (bo_world b') ∧ bo_conn b' = bo_conn b ∧ files_and_threads b' = files_and_threads b).
Proof. intros (a & w & Hm & HP). exists a. unfold on_world. rewrite Hm. eexists. split; [done|]. by split_and!. Qed.

Lemma load_ddos_sources_runs w :
  runs load_ddos_sources w (λ _ w',
    w_db w' = w_db w ∧
    ddos_sources (w_state w') = restore_sources (enforcement_rows (w_db w)) ∅ (ddos_sources (w_state w))).
Proof using healthy.
  unfold load_ddos_sources, try_all, try_except, read_tx, execute, io, runs, mbind, M_bind. cbn. rewrite healthy. cbn.
  eexists _, _. split; [done|]. destruct w as [? s]; by destruct s.
Qed.

(** The database as the modules see it, with the records of a file. *)
Definition with_logs (rows : list LogRow) (d : Database) : Database :=
  upd_logs (λ t, World.mkTable rows (tb_seq t)) d.

(** What a restart is about: the records of the process and of the file. *)
Definition view (b : Boot) : SharedState * gset path * Database * Conn :=
  (w_state (bo_world b), w_tmp (bo_world b), w_db (bo_world b), bo_conn b).

Lemma runs_os_call e b : runs (os_call e) b (λ _ b', view b' = view b).
Proof using healthy.
  unfold os_call. apply runs_bind. eapply runs_impl; [apply (runs_on_world io b (λ a w', a = true ∧ w' = tick (bo_world b)))|].
  { eexists _, _. split; [reflexivity|]. by rewrite healthy. }
  intros a b' ((-> & Hw) & Hc & _). apply runs_ret. unfold view. rewrite Hw, Hc. by destruct (bo_world b).
Qed.

Lemma runs_on_conn {A} (m : M Conn A) b a c v :
  m v.2 = (Ok a, c) → view b = v → runs (on_conn m) b (λ a' b', a' = a ∧ view b' = (v.1, c)).
Proof.
  intros Hm <-. unfold view in Hm. cbn in Hm. exists a. unfold on_conn. rewrite Hm. eexists. by split.
Qed.

(** One call after another, with what each leaves in view. *)
Lemma view_bind {A B} (m : M Boot A) (k : A → M Boot B) b v (P : B → Boot → Prop) :
  runs m b (λ _ b', view b' = v) → (∀ a b', view b' = v → runs (k a) b' P) → runs (m ≫= k) b P.
Proof. intros Hm Hk. apply runs_bind. eapply runs_impl; [exact Hm|]. intros a b' Hv. by apply Hk. Qed.

Lemma database_seen ok b s t d c0 c :
  view b = (s, t, d, c0) → apply ok (next c0) = (Ok tt, c) →
  ok (cn_tick c0) = true → (∀ n, cn_tick c ≤ n → ok n = true) →
  runs (prepare_database ok new_mode sidecar_mode) b
    (λ _ b', ∃ c', view b' = (s, t, with_logs (rows_of "logs" (cn_store c)) d, c')).
Proof using healthy.
  intros Hv Hc H0 Hok. unfold prepare_database, makedirs, connect, chmod, journal_mode_wal, count_users, pragma.
  assert (Hos : ∀ e b v, view b = v → runs (os_call e) b (λ _ b', view b' = v)) by (intros e b0 v <-; apply runs_os_call).
  assert (Hset : ∀ f b v, (∀ b, view (f b) = view b) → view b = v → runs (modify f) b (λ _ b', view b' = v))
    by (intros f b0 v Hf <-; apply runs_modify, Hf).
  assert (Hddl : ∀ b v, view b = v → ok (cn_tick v.2) = true → runs (on_conn (ddl ok Some)) b (λ _ b', view b' = (v.1, next v.2))).
  { intros b0 v Hv0 Ho. eapply runs_impl; [apply (runs_on_conn _ _ tt (next v.2) v); [|done]|by intros ? ? []].
    unfold ddl. rewrite Ho. by destruct v as [? []]. }
  eapply view_bind; [by apply Hos|intros _ b1 H1]. clear b Hv.
  eapply view_bind; [eapply view_bind; [by apply Hos|intros _ b2 H2; by apply Hset]|intros _ b2 H2].
  eapply view_bind; [eapply view_bind; [by apply Hos|intros _ b3 H3; by apply Hset]|intros _ b3 H3].
  eapply view_bind; [eapply view_bind; [apply Hddl; [done|done]|intros _ b4 H4; by apply Hset]|intros _ b4 H4].
  cbn [fst snd] in H4.
  eapply view_bind; [eapply runs_impl; [exact (runs_on_conn (apply ok) b4 tt c (s, t, d, next c0) Hc H4)|by intros ? ? []]|intros _ b5 H5].
  cbn [fst snd] in H5.
  eapply view_bind; [eapply view_bind; [apply Hddl; [done|by apply Hok]|intros _ b6 H6; by apply Hset]|intros _ b6 H6].
  cbn [fst snd] in H6.
  eapply view_bind; [eapply runs_impl; [apply (runs_on_conn (commit ok) b6 tt (mkConn (cn_store c) None (S (S (cn_tick c)))) (s, t, d, next c)); [|exact H6]|by intros ? ? []]|intros _ b7 H7].
  { cbn [snd]. unfold commit. by rewrite Hok by (cbn; lia). }
  cbn [fst snd] in H7. unfold see_file. exists tt. unfold on_world, modify. cbn. eexists. split; [done|].
  unfold view in *. cbn. injection H7 as Hst Htm Hdb Hcn. eexists. rewrite Hcn. unfold on_disk. cbn. destruct (bo_world b7). cbn in *. subst. by unfold with_logs.
Qed.

Lemma records_seen b v :
  view b = v → WHITELIST_PATH ∉ w_tmp (bo_world b) → VICTIMS_PATH ∉ w_tmp (bo_world b) →
  runs load_records b (λ _ b',
    w_db (bo_world b') = w_db (bo_world b) ∧
    ddos_sources (w_state (bo_world b')) =
      restore_sources (enforcement_rows (w_db (bo_world b))) ∅ (ddos_sources (w_state (bo_world b)))).
Proof using healthy.
  intros _ Hw Hv. unfold load_records.
  apply runs_bind. eapply runs_impl; [apply runs_on_world, load_json_file_runs, Hw|].
  intros _ b1 ((Hd1 & Hs1 & Ht1) & _).
  apply runs_bind. eapply runs_impl; [apply runs_on_world, load_json_file_runs; by rewrite Ht1|].
  intros _ b2 ((Hd2 & Hs2 & Ht2) & _).
  eapply runs_impl; [apply runs_on_world, load_ddos_sources_runs|].
  intros _ b3 ((Hd3 & Hs3) & _). by rewrite Hs3, Hd3, Hd2, Hs2, Hd1, Hs1.
Qed.

Definition serves_with (srv : Serving) : Prop := start_api_server cert_exists key_exists cert key insecure = Ok srv.

Lemma restarted ok b c srv :
  let d := with_logs (rows_of "logs" (cn_store c)) (w_db (bo_world b)) in
  apply ok (next (bo_conn b)) = (Ok tt, c) → ok (cn_tick (bo_conn b)) = true → (∀ n, cn_tick c ≤ n → ok n = true) →
  WHITELIST_PATH ∉ w_tmp (bo_world b) → VICTIMS_PATH ∉ w_tmp (bo_world b) → serves_with srv →
  runs (main ok new_mode sidecar_mode cert_exists key_exists cert key insecure) b (λ _ b',
    bo_server b' = Some srv ∧ w_db (bo_world b') = d ∧
    ddos_sources (w_state (bo_world b')) = restore_sources (enforcement_rows d) ∅ (ddos_sources (w_state (bo_world b)))).
Proof using healthy.
  intros d Hc H0 Hok Hw Hv Hsrv. unfold main. apply runs_bind.
  eapply runs_impl; [exact (database_seen ok b _ _ _ _ c eq_refl Hc H0 Hok)|].
  intros _ b1 [c' [= Hs1 Ht1 Hd1 _]]. apply runs_bind.
  eapply runs_impl; [apply (records_seen b1 (view b1)); [done|by rewrite Ht1|by rewrite Ht1]|].
  intros _ b2 [Hd2 Hs2]. unfold start_threads, serve_api, start. rewrite Hsrv.
  repeat (apply runs_bind, runs_modify). cbn [lift]. apply runs_bind. eapply runs_lift; [done|]. apply runs_modify.
  unfold set_server, add_thread. cbn. by rewrite Hs2, Hd2, Hd1, Hs1.
Qed.

End restart.

(** ** The first start of this release *)

Section upgrade.
Context {E : Env} (healthy : ∀ n, io_ok n = true) (new_mode : Z) (sidecar_mode : Z → Z) (b : Boot) (rows : list LogRow).
Hypothesis old : bo_conn b = opened (old_release rows).
Hypothesis fresh : (WHITELIST_PATH ∉ w_tmp (bo_world b)) ∧ (VICTIMS_PATH ∉ w_tmp (bo_world b)).
Hypothesis named : ddos_sources (w_state (bo_world b)) = [].

(** When the copy of the migration fails, the start goes on as if nothing had
    happened, and names no attacker, whatever the file recorded. *)
Theorem stranded_start_names_nobody :
  runs (main (λ n, negb (n =? 13)) new_mode sidecar_mode true true "cert.pem" "key.pem" "") b (λ _ b',
    bo_server b' = Some (Https "cert.pem" "key.pem") ∧ tb_rows (db_logs (w_db (bo_world b'))) = [] ∧
    ddos_sources (w_state (bo_world b')) = []).
Proof using All.
  destruct (apply (λ n, negb (n =? 13)) (next (opened (old_release rows)))) as [r c] eqn:Hc.
  assert (H : r = Ok tt ∧ rows_of "logs" (cn_store c) = [] ∧ 13 < cn_tick c).
  { vm_compute in Hc. injection Hc as <- <-. split; [done|]. split; [done|]. apply Nat.ltb_lt. by vm_compute. }
  destruct H as (-> & Hr & Ht). destruct fresh as [Hw Hv]. rewrite <-old in Hc.
  eapply runs_impl; [apply (restarted new_mode sidecar_mode true true "cert.pem" "key.pem" "" healthy _ b c (Https "cert.pem" "key.pem") Hc);
                     [by rewrite old| |done|done|reflexivity]|].
  { intros n Hn. destruct (Nat.eqb_spec n 13); [lia|done]. }
  intros _ b' (Hs & Hd & Hn). rewrite Hn, Hd, Hr, named. split; [done|].
  destruct (w_db (bo_world b)) as [? l ? ? ? ? ?]. split; [done|reflexivity].
Qed.
End upgrade.

(** ** Concrete starts *)

Definition cold (s : Store) : Boot := mkBoot empty_world (opened s) None None false [] None.

Definition attack_log : list LogRow :=
  [mkLog 1 (NInt 10) "203.0.113.9" "10.0.0.5" "tcp" None None CLASS_RATELIMITED;
   mkLog 2 (NInt 20) "203.0.113.9" "10.0.0.5" "tcp" None None CLASS_BLOCKED;
   mkLog 3 (NInt 30) "203.0.113.9" "10.0.0.5" "tcp" None None "Normal"]%string.



(** The address is named again after the upgrade. *)
Example attacker_named_again :
  verdict_of <$> first_action "203.0.113.9" (enforcement_rows (with_logs attack_log empty_db)) =
  Some (Some (mkDdosSource "203.0.113.9" "10.0.0.5" None (NInt 20) CLASS_BLOCKED)).
Proof. vm_compute. reflexivity. Qed.

Lemma stranded_start_names_nobody_witness :
  runs (main (E := calm_env) (λ n, negb (n =? 13)) 420 (λ m, m) true true "cert.pem" "key.pem" "")
    (cold (old_release attack_log)) (λ _ b',
    bo_server b' = Some (Https "cert.pem" "key.pem") ∧ tb_rows (db_logs (w_db (bo_world b'))) = [] ∧
    ddos_sources (w_state (bo_world b')) = []).
Proof.
  exact (stranded_start_names_nobody (E := calm_env) (λ _, eq_refl) 420 (λ m, m) (cold (old_release attack_log))
    attack_log eq_refl (conj (not_elem_of_empty _) (not_elem_of_empty _)) eq_refl).
Defined.
