(* ===== verification/PlaybooksApi.v ===== *)
(** * playbooks_api.py: the playbook editing and history routes

    Both editing surfaces go through the same validation, so the tables only
    ever hold definitions and scopes that passed it. [safe_load] is PyYAML's,
    a parameter whose [ValueError] stands for a [YAMLError]; the report
    directory is given by its entries. *)

From S2P Require Import Prelude PyNum PyStr Json World Db Playbooks PlaybooksFacts.
From S2P Require Import IpText IpAddr Models.

Definition _validate_scope (scope_type : string) (scope_value : option string) : res (option string) :=
  let checked (ok : string → bool) :=
    match scope_value with
    | Some v => if bool_decide (v = EmptyString) then Exn (HTTPException 400)
                else if ok v then Ok (Some v) else Exn (HTTPException 400)
    | None => Exn (HTTPException 400)
    end in
  if bool_decide (scope_type = "host"%string) then
    checked (λ v, match ip_address v with Ok _ => true | Exn _ => false end)
  else if bool_decide (scope_type = "subnet"%string) then checked ip_network_ok
  else Ok None.

Definition _validate_definition_or_400 (definition : json) : res json :=
  match validate_definition definition with
  | Exn DefinitionError => Exn (HTTPException 400)
  | r => r
  end.

(** The row with its definition parsed; unpacking a missing row raises. *)
Definition _row_to_dict (row : option Playbook) : res (Playbook * json) :=
  match row with
  | None => Exn TypeError
  | Some p => j ← json_loads (pb_definition p); mret (p, j)
  end.

Fixpoint rows_to_dicts (rows : list Playbook) : res (list (Playbook * json)) :=
  match rows with
  | [] => Ok []
  | p :: ps => x ← _row_to_dict (Some p); xs ← rows_to_dicts ps; mret (x :: xs)
  end.

(** One entry of the report directory, as [lstat] and [stat] see it. *)
Record DirEntry := mkDirEntry {
  de_name : string; de_link : bool; de_file : bool; de_size : Z; de_mtime : num }.

Definition list_reports (directory : option (list DirEntry)) : list DirEntry :=
  match directory with
  | None => []
  | Some es =>
      py_sort (λ a b, nlt (de_mtime b) (de_mtime a))
        (List.filter (λ e, str_suffix ".pdf" (de_name e) && negb (de_link e) && de_file e) es)
  end.

(** A name without a separator, other than "." and "..", names an entry of
    the directory itself, and what is not a link resolves to itself. *)
Definition download_report (directory : list DirEntry) (filename : string) : res DirEntry :=
  if str_contains "/" filename || str_contains "\" filename ||
     bool_decide (filename ∈ ["."; ".."]%string) then Exn (HTTPException 400)
  else
    match head (List.filter (λ e, bool_decide (de_name e = filename)) directory) with
    | None => Exn (HTTPException 404)
    | Some e => if de_link e || negb (de_file e) then Exn (HTTPException 404) else Ok e
    end.

Definition parse_yaml_definition (safe_load : json → res json) (payload : list (string * json)) : res json :=
  match safe_load (default (JStr EmptyString) (dict_get "yaml" payload)) with
  | Ok (JObj l) => Ok (JObj l)
  | Ok _ | Exn ValueError => Exn (HTTPException 400)
  | Exn e => Exn e
  end.

(** The verdict of [validate_definition_only]. *)
Definition validate_definition_only (payload : json) : res (option json) :=
  match validate_definition payload with
  | Ok d => Ok (Some d)
  | Exn DefinitionError => Ok None
  | Exn e => Exn e
  end.

Section routes.
Context {E : Env}.

Definition list_playbooks : M World (list (Playbook * json)) :=
  rows ← get_all_playbooks; lift (rows_to_dicts rows).

Definition post_playbook (payload : PlaybookPayload) : M World (Playbook * json) :=
  scope_value ← lift (_validate_scope (pp_scope_type payload) (pp_scope_value payload));
  definition ← lift (_validate_definition_or_400 (JObj (pp_definition payload)));
  now ← time_time;
  playbook_id ← create_playbook (pp_name payload) (pp_scope_type payload) scope_value
                  (pp_enabled payload) (JGood definition) now;
  match playbook_id with
  | None => raise (HTTPException 500)
  | Some i => row ← get_playbook i; lift (_row_to_dict row)
  end.

(** A missing playbook answers 404. *)
Definition require_playbook (playbook_id : Z) : M World unit :=
  row ← get_playbook playbook_id;
  match row with None => raise (HTTPException 404) | Some _ => mret tt end.

Definition get_playbook_route (playbook_id : Z) : M World (Playbook * json) :=
  row ← get_playbook playbook_id;
  match row with None => raise (HTTPException 404) | Some _ => lift (_row_to_dict row) end.

Definition put_playbook (playbook_id : Z) (payload : PlaybookPayload) : M World (Playbook * json) :=
  require_playbook playbook_id;;
  scope_value ← lift (_validate_scope (pp_scope_type payload) (pp_scope_value payload));
  definition ← lift (_validate_definition_or_400 (JObj (pp_definition payload)));
  now ← time_time;
  ok ← update_playbook playbook_id (pp_name payload) (pp_scope_type payload) scope_value
         (pp_enabled payload) (JGood definition) now;
  if negb ok then raise (HTTPException 500)
  else row ← get_playbook playbook_id; lift (_row_to_dict row).

Definition toggle_playbook (playbook_id : Z) (payload : list (string * json)) : M World (Playbook * json) :=
  match dict_get "enabled" payload with
  | Some (JBool enabled) =>
      require_playbook playbook_id;;
      now ← time_time;
      ok ← set_playbook_enabled playbook_id enabled now;
      if negb ok then raise (HTTPException 500)
      else row ← get_playbook playbook_id; lift (_row_to_dict row)
  | _ => raise (HTTPException 400)
  end.

Definition delete_playbook_route (playbook_id : Z) : M World Z :=
  require_playbook playbook_id;;
  ok ← delete_playbook playbook_id;
  if negb ok then raise (HTTPException 500) else mret playbook_id.

Definition list_runs (limit : Z) : M World (list (PlaybookRun * string)) :=
  get_recent_playbook_runs (Z.to_nat (Z.max 1 (Z.min limit 200))).

Definition list_run_events (run_id : Z) : M World (list PlaybookEvent) := get_playbook_events run_id.
End routes.

(** ** What the tables hold *)

Definition scope_ok (p : Playbook) : Prop :=
  (pb_scope_type p = "host"%string → ∃ v a, pb_scope_value p = Some v ∧ ip_address v = Ok a) ∧
  (pb_scope_type p = "subnet"%string → ∃ v, pb_scope_value p = Some v ∧ ip_network_ok v = true).

Definition playbook_ok (p : Playbook) : Prop :=
  scope_ok p ∧ ∃ j, pb_definition p = JGood j ∧ wf_definition j.

Definition playbooks_ok (d : Database) : Prop := Forall playbook_ok (tb_rows (db_playbooks d)).

Lemma validate_scope_ok t v v' name enabled def now created i :
  _validate_scope t v = Ok v' → scope_ok (mkPlaybook i name t v' enabled def now created).
Proof.
  unfold _validate_scope, scope_ok. cbn [pb_scope_type pb_scope_value].
  case_bool_decide as Hh; [|case_bool_decide as Hs; [|done]].
  - destruct v as [s|]; [|done]. case_bool_decide; [done|]. destruct (ip_address s) as [a|] eqn:Ha; [|done].
    intros [= <-]. split; [by exists s, a|congruence].
  - destruct v as [s|]; [|done]. case_bool_decide; [done|]. destruct (ip_network_ok s) eqn:Ha; [|done].
    intros [= <-]. split; [congruence|by exists s].
Qed.

Lemma definition_or_400_ok j j' : _validate_definition_or_400 j = Ok j' → j' = j ∧ wf_definition j.
Proof.
  unfold _validate_definition_or_400. destruct (validate_definition j) as [d|e] eqn:Hv.
  - intros [= ->]. by apply validate_wf in Hv.
  - by destruct e.
Qed.

Section routes_pres.
Context {E : Env}.
Let I := db_inv playbooks_ok.

Lemma playbooks_write {A} (f : Database → Database * A) dflt :
  (∀ d, playbooks_ok d → playbooks_ok (f d).1) → pres I (write_tx f dflt).
Proof. intros Hf. apply pres_write_tx; [apply _|]. intros [] Hw. by apply Hf. Qed.

Lemma playbooks_get i : pres I (get_playbook i).
Proof. apply pres_read_tx; apply _. Qed.

Lemma playbooks_require i : pres I (require_playbook i).
Proof. apply pres_bind; [apply playbooks_get|]. intros []; pres_auto. Qed.

Lemma edit_ok pid f d :
  (∀ p, playbook_ok p → playbook_ok (f p)) → playbooks_ok d → playbooks_ok (edit_playbook pid f d).
Proof.
  intros Hf. unfold playbooks_ok, edit_playbook. destruct d. simpl. intros H.
  apply Forall_fmap. eapply Forall_impl; [exact H|]. intros p Hp. simpl. destruct (_ =? _)%Z; auto.
Qed.

Lemma delete_ok pid d : playbooks_ok d → playbooks_ok (delete_rows pid d).
Proof.
  unfold playbooks_ok, delete_rows. rewrite !Forall_forall. intros H p. cbv zeta.
  intros Hp. apply H. revert Hp. destruct (bool_decide _); destruct d; simpl; by intros [? _]%elem_of_List_filter.
Qed.
End routes_pres.

(** C26: Whatever the dashboard submits and whatever fails, every stored playbook
    has a definition from the closed vocabulary and, for a host or subnet
    scope, a value that is one. *)
Theorem stored_playbooks_valid {E : Env} payload body pid w :
  playbooks_ok (w_db w) →
  playbooks_ok (w_db (post_playbook payload w).2) ∧
  playbooks_ok (w_db (put_playbook pid payload w).2) ∧
  playbooks_ok (w_db (toggle_playbook pid body w).2) ∧
  playbooks_ok (w_db (delete_playbook_route pid w).2).
Proof.
  assert (Hlift : ∀ {A} (k : option string → json → M World A),
    (∀ v j, _validate_scope (pp_scope_type payload) (pp_scope_value payload) = Ok v → wf_definition j →
       pres (db_inv playbooks_ok) (k v j)) →
    pres (db_inv playbooks_ok)
      (v ← lift (_validate_scope (pp_scope_type payload) (pp_scope_value payload));
       j ← lift (_validate_definition_or_400 (JObj (pp_definition payload))); k v j)).
  { intros A k Hk w1 Hw1. unfold mbind, M_bind, lift.
    destruct (_validate_scope _ _) as [v|] eqn:Hv; [|done].
    destruct (_validate_definition_or_400 _) as [j|] eqn:Hj; [|done].
    apply definition_or_400_ok in Hj as [-> Hj]. by apply Hk. }
  enough (H : pres (db_inv playbooks_ok) (post_playbook payload) ∧ pres (db_inv playbooks_ok) (put_playbook pid payload) ∧
              pres (db_inv playbooks_ok) (toggle_playbook pid body) ∧
              pres (db_inv playbooks_ok) (delete_playbook_route pid)).
  { destruct H as (H1 & H2 & H3 & H4). intros Hw. split_and!; [by apply H1|by apply H2|by apply H3|by apply H4]. }
  split_and!.
  - apply Hlift. intros v j Hv Hj. apply pres_bind; [apply pres_time_time; apply _|intros now].
    apply pres_bind; [|intros [i|]; [apply pres_bind; [apply playbooks_get|pres_auto]|apply pres_raise]].
    apply playbooks_write. intros [] Hd. apply Forall_app_2; [done|]. apply Forall_singleton.
    split; [by eapply validate_scope_ok|by eexists].
  - apply pres_bind; [apply playbooks_require|intros _]. apply Hlift. intros v j Hv Hj.
    apply pres_bind; [apply pres_time_time; apply _|intros now].
    apply pres_bind; [|intros []; [apply pres_bind; [apply playbooks_get|pres_auto]|apply pres_raise]].
    apply playbooks_write. intros d Hd. apply edit_ok; [|done]. intros p Hp.
    split; [by eapply validate_scope_ok|by eexists].
  - unfold toggle_playbook. destruct (dict_get "enabled" body) as [[|b| | | |]|]; try apply pres_raise.
    apply pres_bind; [apply playbooks_require|intros _].
    apply pres_bind; [apply pres_time_time; apply _|intros now].
    apply pres_bind; [|intros []; [apply pres_bind; [apply playbooks_get|pres_auto]|apply pres_raise]].
    apply playbooks_write. intros d Hd. apply edit_ok; [|done]. by intros p [Hs Hp].
  - apply pres_bind; [apply playbooks_require|intros _]. apply pres_bind; [|intros []; pres_auto].
    apply playbooks_write. intros d. apply delete_ok.
Qed.

(** ** What a successful call returns *)

Lemma write_tx_ok {E : Env} {A} (f : Database → Database * A) dflt w :
  (∀ n, io_ok n = true) →
  runs (write_tx f dflt) w (λ a w', a = (f (w_db w)).2 ∧ w_db w' = (f (w_db w)).1).
Proof.
  intros Hio. unfold runs, write_tx, try_all, try_except, _open, _close, execute, io, gets, modify, mbind, M_bind.
  destruct w. simpl. destruct (bool_decide _); simpl; repeat (rewrite Hio; simpl); by eexists _, _.
Qed.

(** A submitted playbook is stored once, under a fresh id, and the route returns
    what was submitted, its definition unchanged. *)
Theorem post_playbook_returns {E : Env} payload v w :
  (∀ n, io_ok n = true) →
  Forall (λ p, (pb_id p <= tb_seq (db_playbooks (w_db w)))%Z) (tb_rows (db_playbooks (w_db w))) →
  _validate_scope (pp_scope_type payload) (pp_scope_value payload) = Ok v →
  wf_definition (JObj (pp_definition payload)) →
  runs (post_playbook payload) w (λ r w',
    r.2 = JObj (pp_definition payload) ∧
    tb_rows (db_playbooks (w_db w')) = tb_rows (db_playbooks (w_db w)) ++ [r.1] ∧
    (pb_name r.1, pb_scope_type r.1, pb_scope_value r.1, pb_enabled r.1) =
    (pp_name payload, pp_scope_type payload, v, pp_enabled payload) ∧
    Forall (λ p, pb_id p ≠ pb_id r.1) (tb_rows (db_playbooks (w_db w)))).
Proof.
  intros Hio Hids Hv Hwf. unfold post_playbook. apply runs_bind, (runs_lift _ _ _ _ Hv).
  assert (Hd : _validate_definition_or_400 (JObj (pp_definition payload)) = Ok (JObj (pp_definition payload))).
  { unfold _validate_definition_or_400. by rewrite wf_validates. }
  apply runs_bind, (runs_lift _ _ _ _ Hd), runs_bind. eexists _, _. split; [done|]. apply runs_bind.
  eapply runs_impl; [by apply write_tx_ok|]. intros o w' [-> Hw'].
  set (t := db_playbooks (w_db w)) in *.
  assert (Ht : db_playbooks (w_db (tick w)) = t) by by destruct w.
  cbn [snd]. rewrite Ht. apply runs_bind, read_tx_runs; [done|]. rewrite Hw'. cbn [fst].
  set (p := mkPlaybook (tb_seq t + 1) (pp_name payload) (pp_scope_type payload) v (pp_enabled payload)
              (JGood (JObj (pp_definition payload))) (clk (w_ticks w)) (clk (w_ticks w))).
  assert (Hrows : tb_rows (db_playbooks (upd_playbooks (tb_insert (λ i, mkPlaybook i (pp_name payload)
      (pp_scope_type payload) v (pp_enabled payload) (JGood (JObj (pp_definition payload))) (clk (w_ticks w))
      (clk (w_ticks w)))) (w_db (tick w)))) = tb_rows t ++ [p]).
  { unfold p. rewrite <-Ht. by destruct (w_db (tick w)). }
  rewrite Hrows, List.filter_app.
  assert (Hnone : List.filter (λ q, (pb_id q =? tb_seq t + 1)%Z) (tb_rows t) = []).
  { clear -Hids. induction Hids as [|q l Hq _ IH]; [done|]. cbn [List.filter].
    destruct (Z.eqb_spec (pb_id q) (tb_seq t + 1)); [lia|done]. }
  rewrite Hnone. cbn [List.filter app p pb_id]. rewrite Z.eqb_refl.
  apply (runs_lift _ (p, JObj (pp_definition payload))); [done|].
  split_and!; [done| |done|].
  - assert (Hdb : w_db (tick w') = w_db w') by by destruct w'. by rewrite Hdb, Hw'.
  - eapply Forall_impl; [exact Hids|]. intros q Hq. cbn [fst p pb_id]. simpl in Hq. lia.
Qed.

(** Only a regular file of the report directory itself is ever served, by the
    name it has there. *)
Theorem download_report_confined directory filename e :
  download_report directory filename = Ok e →
  e ∈ directory ∧ de_name e = filename ∧ de_link e = false ∧ de_file e = true ∧
  no_char "/" filename ∧ filename ∉ ["."; ".."]%string.
Proof.
  unfold download_report. destruct (str_contains "/" filename) eqn:Hs; [done|]. cbn [orb].
  destruct (str_contains "\" filename); [done|]. cbn [orb]. case_bool_decide as Hdot; [done|].
  destruct (head _) as [e'|] eqn:Hh; [|done]. destruct (de_link e') eqn:Hl; [done|].
  destruct (de_file e') eqn:Hf; [|done]. intros [= <-].
  assert (Hin : e' ∈ List.filter (λ e, bool_decide (de_name e = filename)) directory).
  { destruct (List.filter _ _); [done|]. injection Hh as ->. left. }
  apply elem_of_List_filter in Hin as [Hin Hn%bool_decide_eq_true].
  split_and!; try done. by apply contains_char.
Qed.

(** ** Concrete cases *)

Definition sample_definition : list (string * json) :=
  [("triggers", JArr [JObj [("type", JStr "tier_reached"); ("min_tier", JNum (NInt 2))]]);
   ("stages", JArr [JObj [("type", JStr "notify")]])]%string.
Definition sample_payload : PlaybookPayload :=
  mkPlaybookPayload "first response" "host" (Some "10.0.0.5"%string) true sample_definition.

Lemma stored_playbooks_valid_witness :
  playbooks_ok (w_db (@post_playbook calm_env sample_payload empty_world).2) ∧
  playbooks_ok (w_db (@put_playbook calm_env 1 sample_payload empty_world).2) ∧
  playbooks_ok (w_db (@toggle_playbook calm_env 1 [("enabled", JBool false)]%string empty_world).2) ∧
  playbooks_ok (w_db (@delete_playbook_route calm_env 1 empty_world).2).
Proof. apply (@stored_playbooks_valid calm_env). apply Forall_nil_2. Defined.

Lemma post_playbook_returns_witness :
  runs (@post_playbook calm_env sample_payload) empty_world (λ r w',
    r.2 = JObj sample_definition ∧
    tb_rows (db_playbooks (w_db w')) = [] ++ [r.1] ∧
    (pb_name r.1, pb_scope_type r.1, pb_scope_value r.1, pb_enabled r.1) =
    ("first response", "host", Some "10.0.0.5", true)%string ∧
    Forall (λ p, pb_id p ≠ pb_id r.1) []).
Proof.
  apply (@post_playbook_returns calm_env sample_payload (Some "10.0.0.5"%string) empty_world);
    [done|apply Forall_nil_2|reflexivity|].
  by apply (validate_wf (JObj sample_definition) (JObj sample_definition)).
Defined.

Lemma download_report_confined_witness :
  let e := mkDirEntry "r.pdf" false true 10 (NInt 5) in
  e ∈ [e] ∧ de_name e = "r.pdf"%string ∧ de_link e = false ∧ de_file e = true ∧
  no_char "/" "r.pdf" ∧ "r.pdf"%string ∉ ["."; ".."]%string.
Proof. intros e. apply download_report_confined. reflexivity. Defined.
