(* ===== verification/Api.v ===== *)
(** * api.py: the dashboard's routes

    Lists kept in JSON files, manual firewall actions, the enforcement
    settings, and the read-only views. The network interfaces (read in
    [Environment]) and the Stage 1 unit file are arguments. *)

From S2P Require Import Prelude PyNum PyStr Json World Storage Config Db Enforcement.
From S2P Require Import IpText IpAddr Models.

(** ** Operations on a loaded JSON value *)

(** [j.append(v)] *)
Definition json_append (j v : json) : res json :=
  match j with JArr l => Ok (JArr (l ++ [v])) | _ => Exn AttributeError end.

(** [l.remove(s)]: the first element equal to [s]. *)
Fixpoint remove_first (s : string) (l : list json) : list json :=
  match l with
  | [] => []
  | x :: l' => if json_is_str s x then l' else x :: remove_first s l'
  end.
Definition json_remove (j : json) (s : string) : res json :=
  match j with JArr l => Ok (JArr (remove_first s l)) | _ => Exn AttributeError end.

(** [v[k]] with a string key. *)
Definition json_item (v : json) (k : string) : res json :=
  match v with
  | JObj l => match dict_get k l with Some j => Ok j | None => Exn KeyError end
  | _ => Exn TypeError
  end.

(** ** Bounds on the enforcement settings *)

Definition bounds : list (string * (num * option num)) :=
  [ ("dominant_ip_ratio_block_threshold", (flt 0 1, Some (flt 1 1)));
    ("dominant_ip_ratio_extreme_threshold", (flt 0 1, Some (flt 1 1)));
    ("block_rate_floor_pps", (flt 0 1, None));
    ("ratelimit_rate_floor_pps", (flt 0 1, None));
    ("block_sigma_multiplier", (flt 0 1, None));
    ("block_hysteresis_windows", (NInt 0, None));
    ("block_duration_seconds", (NInt 1, None));
    ("ratelimit_duration_seconds", (NInt 1, None));
    ("ratelimit_hashlimit_pps", (NInt 1, None)) ]%string.

Definition out_of_bounds (key : string) (value : num) : bool :=
  match dict_get key bounds with
  | None => false
  | Some (lo, hi) => nlt value lo || match hi with Some h => nlt h value | None => false end
  end.

(** [{k: v for k, v in payload.dict().items() if v is not None}] *)
Definition updates_of (p : EnforcementConfigPayload) : list (string * num) :=
  omap (λ kv, v ← kv.2; Some (kv.1, v)) (enforcement_payload_dict p).

(** ** Log pages *)

Definition clamp_limit (limit : Z) : Z := Z.max 1 (Z.min limit 1000).
Definition clamp_offset (offset : Z) : Z := Z.max 0 offset.

Definition ENFORCEMENT_CLASSES : list string := ["Blocked"; "Rate Limited"; "DDoS"].

(** The WHERE clause of [get_logs]. *)
Definition log_filter (classification : string) (r : LogRow) : bool :=
  if bool_decide (classification = "ALL"%string) then true
  else if bool_decide (classification = "DDoS"%string) then
    bool_decide (lg_classification r ∈ ENFORCEMENT_CLASSES)
  else bool_decide (lg_classification r = classification).

(** [... ORDER BY id DESC] *)
Definition logs_desc (p : LogRow → bool) (d : Database) : list LogRow :=
  py_sort (λ a b, (lg_id b <? lg_id a)%Z) (List.filter p (tb_rows (db_logs d))).

Record LogPage := mkLogPage { lp_logs : list LogRow; lp_total : nat; lp_limit : Z; lp_offset : Z }.

(** ** The state view *)

Record StateView := mkStateView {
  sv_metrics : Metrics; sv_active_flows : json; sv_whitelisted : json; sv_shared : json;
  sv_blocked : list (string * Z); sv_ratelimited : list (string * Z);
  sv_ddos_sources : list DdosSource; sv_victims : json; sv_interfaces : list json;
  sv_sniffers : option string * option string; sv_latest_logs : list LogRow;
  sv_by_target : list (string * Metrics) }.

(** The metrics shown for a target no window has been seen for. *)
Definition idle_metrics (target : string) : Metrics :=
  mkMetrics f0 f0 f0 f0 f0 f0 f1 f0 f0 (flt 2 1) 0%Z "Normal" (Some target) None None
            f1 f0 f0 f0 f0 f0 (Some f0) (Some f0) (Some f0).

(** The sort key [(record["rate"] or 0.0, record["timestamp"])], compared as
    Python compares tuples. *)
Definition source_rate (s : DdosSource) : num :=
  match ds_rate s with Some r => if neq r (NInt 0) then flt 0 1 else r | None => flt 0 1 end.
Definition louder (a b : DdosSource) : bool :=
  if neq (source_rate a) (source_rate b) then nlt (ds_timestamp b) (ds_timestamp a)
  else nlt (source_rate b) (source_rate a).

Definition shown_sources (blocked : list string) (d : list (string * DdosSource)) : list DdosSource :=
  py_sort louder (List.filter (λ kv, bool_decide (kv.1 ∈ blocked)) d).*2.

Section api.
Context {E : Env}.

(** ** Whitelist and shared egress points *)

Definition add_listed (p : path) (ip : string) : M World unit :=
  listed ← load_json_file p (JArr []);
  present ← lift (json_contains ip listed);
  if (present : bool) then mret tt
  else
    listed' ← lift (json_append listed (JStr ip));
    save_json_file p listed'.

Definition delete_listed (p : path) (ip : string) : M World unit :=
  ip ← lift (_validate_host_ip_or_400 ip);
  listed ← load_json_file p (JArr []);
  present ← lift (json_contains ip listed);
  if (present : bool) then
    listed' ← lift (json_remove listed ip);
    save_json_file p listed'
  else mret tt.

Definition add_whitelist (payload : IpPayload) : M World unit := add_listed WHITELIST_PATH (ip_ip payload).
Definition delete_whitelist (ip : string) : M World unit := delete_listed WHITELIST_PATH ip.
Definition add_shared_ip (payload : IpPayload) : M World unit := add_listed SHARED_IPS_PATH (ip_ip payload).
Definition delete_shared_ip (ip : string) : M World unit := delete_listed SHARED_IPS_PATH ip.

(** ** Victims *)

Fixpoint ip_taken (ip : string) (victims : list json) : res bool :=
  match victims with
  | [] => Ok false
  | v :: vs => j ← json_item v "ip"; if json_is_str ip j then Ok true else ip_taken ip vs
  end.

Definition add_victim (payload : VictimPayload) : M World unit :=
  victims ← load_json_file VICTIMS_PATH (JArr []);
  vs ← lift (json_iter victims);
  taken ← lift (ip_taken (vp_ip payload) vs);
  if (taken : bool) then raise (HTTPException 400)
  else
    victims' ← lift (json_append victims (JObj [("ip", JStr (vp_ip payload));
                  ("description", JStr (vp_description payload)); ("active", JBool true)]%string));
    save_json_file VICTIMS_PATH victims'.

Fixpoint without_ip (ip : string) (victims : list json) : res (list json) :=
  match victims with
  | [] => Ok []
  | v :: vs =>
      j ← json_item v "ip"; rest ← without_ip ip vs;
      Ok (if json_is_str ip j then rest else v :: rest)
  end.

Definition delete_victim (ip : string) : M World unit :=
  ip ← lift (_validate_host_ip_or_400 ip);
  victims ← load_json_file VICTIMS_PATH (JArr []);
  vs ← lift (json_iter victims);
  kept ← lift (without_ip ip vs);
  save_json_file VICTIMS_PATH (JArr kept).

(** [v["active"] = not v["active"]], in place. *)
Definition toggle_active (v : json) : res json :=
  match v with
  | JObj l =>
      match dict_get "active" l with
      | Some a => Ok (JObj (dict_set "active" (JBool (negb (json_truthy a))) l))
      | None => Exn KeyError
      end
  | _ => Exn TypeError
  end.

Fixpoint toggle_ip (ip : string) (victims : list json) : res (list json) :=
  match victims with
  | [] => Ok []
  | v :: vs =>
      j ← json_item v "ip";
      v' ← if json_is_str ip j then toggle_active v else Ok v;
      rest ← toggle_ip ip vs;
      Ok (v' :: rest)
  end.

(** The loop assigns into the list's own dicts; a value that is not a list has
    no element with an "ip" item, so only an empty one reaches the save. *)
Definition toggle_victim (ip : string) : M World unit :=
  ip ← lift (_validate_host_ip_or_400 ip);
  victims ← load_json_file VICTIMS_PATH (JArr []);
  vs ← lift (json_iter victims);
  toggled ← lift (toggle_ip ip vs);
  save_json_file VICTIMS_PATH (match victims with JArr _ => JArr toggled | _ => victims end).

(** ** Firewall *)

Definition manual_block (payload : IpPayload) : M World unit :=
  block_ip (ip_ip payload) (JNum (NInt 600)) (ip_victim_ip payload) None None.

Definition manual_unblock (payload : IpPayload) : M World unit :=
  ok ← unblock_ip (ip_ip payload) (ip_victim_ip payload);
  if (ok : bool) then mret tt else raise (HTTPException 500).

(** ** Enforcement settings *)

(** Everything after [current = config.get_enforcement_config()]. *)
Definition apply_settings (payload : EnforcementConfigPayload) (current : cfgdict) : M World cfgdict :=
  let updates := updates_of payload in
  if existsb (λ kv, out_of_bounds kv.1 kv.2) updates then raise (HTTPException 422)
  else
    let new_config := dict_update current ((λ kv, (kv.1, JNum kv.2)) <$> updates) in
    save_json_file ENFORCEMENT_CONFIG_PATH (JObj new_config);;
    (match dict_get "ratelimit_hashlimit_pps" updates with
     | None => mret tt
     | Some pps =>
         old ← lift (cfg_get current "ratelimit_hashlimit_pps");
         if json_py_eq (JNum pps) old then mret tt
         else try_all (update_ratelimit_hashlimit old (JNum pps)) (raise (HTTPException 500))
     end);;
    mret new_config.

Definition update_enforcement_config (payload : EnforcementConfigPayload) : M World cfgdict :=
  current ← get_enforcement_config; apply_settings payload current.

(** ** Logs, history, state *)

Definition get_logs (classification : string) (limit offset : Z) : M World LogPage :=
  let limit := clamp_limit limit in
  let offset := clamp_offset offset in
  try_all
    (total ← read_tx (λ d, length (List.filter (log_filter classification) (tb_rows (db_logs d))));
     rows ← read_tx (λ d, take (Z.to_nat limit) (drop (Z.to_nat offset)
                            (logs_desc (log_filter classification) d)));
     mret (mkLogPage rows total limit offset))
    (raise (HTTPException 500)).

Definition get_history (target : option string) : M World (list MetricRow) :=
  let wanted r := match target with
                  | Some t => if bool_decide (t = EmptyString) then true
                              else bool_decide (mr_victim_ip r = t)
                  | None => true
                  end in
  try_all
    (rows ← read_tx (λ d, take 30 (py_sort (λ a b, (mr_id b <? mr_id a)%Z)
                                     (List.filter wanted (tb_rows (db_metrics d)))));
     mret (rev rows))
    (raise (HTTPException 500)).

(** The page the root redirects to, and the settings as they are in force. *)
Definition read_root : string := "/static/index.html".
Definition get_enforcement_config_api : M World cfgdict := get_enforcement_config.

Definition read_flows (files : gmap path jfile) : json :=
  match (t ← open_read files FLOWS_PATH; j ← json_loads t; py_get_default j "active_ips" (JArr [])) with
  | Ok j => j
  | Exn _ => JArr []
  end.

Definition get_state (target : option string) (interfaces : list json)
    (unit_file : option (list string)) : M World StateView :=
  flows ← gets (λ w, read_flows (w_json w));
  whitelist ← load_json_file WHITELIST_PATH (JArr []);
  shared ← load_json_file SHARED_IPS_PATH (JArr []);
  victims ← load_json_file VICTIMS_PATH (JArr []);
  blocked ← get_blocked_ips;
  limited ← get_ratelimited_ips;
  st ← gets w_state;
  latest ← try_all
    (read_tx (λ d, take 5 (logs_desc (λ r, bool_decide (lg_classification r ∈ ENFORCEMENT_CLASSES)) d)))
    (mret []);
  let metrics := match target with
                 | Some t => if bool_decide (t = EmptyString) then last_metrics st
                             else default (idle_metrics t) (dict_get t (last_metrics_by_target st))
                 | None => last_metrics st
                 end in
  mret (mkStateView metrics flows whitelist shared blocked limited
          (shown_sources blocked.*1 (ddos_sources st)) victims interfaces
          (get_sniffer_interfaces unit_file) latest
          (last_metrics_by_target st)).
End api.
