(* ===== verification/Csv.v ===== *)
(** * The csv module, excel dialect

    [csv.writer] with minimal quoting and ["\r\n"] line ends, and [csv.reader]
    as its state machine, on files opened with newline="". What the writer
    writes the reader reads back. *)

From S2P Require Import Prelude PyNum PyStr.

(** ** csv.writer, excel dialect *)

Definition dquote : ascii := ascii_of_nat 34.
Definition crlf : string := String (ascii_of_nat 13) (String (ascii_of_nat 10) EmptyString).

Definition needs_quote (s : string) : bool :=
  existsb (λ c, bool_decide (c ∈ [","%char; dquote; ascii_of_nat 13; ascii_of_nat 10]))
          (list_ascii_of_string s).

Fixpoint double_quotes (s : string) : string :=
  match s with
  | EmptyString => EmptyString
  | String c s' =>
      if bool_decide (c = dquote) then String dquote (String dquote (double_quotes s'))
      else String c (double_quotes s')
  end.

Definition csv_field (s : string) : string :=
  if needs_quote s then String dquote (double_quotes s ^^ String dquote EmptyString) else s.

(** A row of one empty field is written quoted. *)
Definition csv_row (row : list string) : string :=
  match row with
  | [EmptyString] => String dquote (String dquote crlf)
  | _ => String.concat "," (csv_field <$> row) ^^ crlf
  end.

Definition csv_rows (rows : list (list string)) : string :=
  foldr (λ r s, csv_row r ^^ s) EmptyString rows.

(** ** csv.reader *)

Definition cr : ascii := ascii_of_nat 13.
Definition lf : ascii := ascii_of_nat 10.

Inductive cstate := StartRecord | StartField | InField | InQuoted | QuoteInQuoted | EatCrnl.
#[global] Instance cstate_eq_dec : EqDecision cstate.
Proof. solve_decision. Defined.

(** The reader between two characters: state, current field and current record,
    both reversed. *)
Record creader := mkReader { cr_state : cstate; cr_field : list ascii; cr_row : list string }.

Definition field_of (f : list ascii) : string := string_of_list_ascii (rev f).
Definition record_of (r : creader) : list string := rev (field_of (cr_field r) :: cr_row r).

(** One character; a completed record is returned. *)
Definition csv_step (r : creader) (c : ascii) : creader * option (list string) :=
  let add st := (mkReader st (c :: cr_field r) (cr_row r), None) in
  let next_field := (mkReader StartField [] (field_of (cr_field r) :: cr_row r), None) in
  let eol := (mkReader (if bool_decide (c = cr) then EatCrnl else StartRecord) [] [], Some (record_of r)) in
  let is_eol := bool_decide (c = cr) || bool_decide (c = lf) in
  match cr_state r with
  | InQuoted =>
      if bool_decide (c = dquote) then (mkReader QuoteInQuoted (cr_field r) (cr_row r), None)
      else add InQuoted
  | QuoteInQuoted =>
      if bool_decide (c = dquote) then add InQuoted
      else if bool_decide (c = ","%char) then next_field
      else if is_eol then eol
      else add InField
  | InField =>
      if is_eol then eol
      else if bool_decide (c = ","%char) then next_field
      else add InField
  | StartField | StartRecord | EatCrnl =>
      let at_start := match cr_state r with StartField => false | _ => true end in
      if bool_decide (cr_state r = EatCrnl) && bool_decide (c = lf)
      then (mkReader StartRecord [] [], None)
      else if is_eol then
        if at_start then (mkReader (if bool_decide (c = cr) then EatCrnl else StartRecord) [] [], Some [])
        else eol
      else if bool_decide (c = dquote) then (mkReader InQuoted [] (cr_row r), None)
      else if bool_decide (c = ","%char) then next_field
      else add InField
  end.

Fixpoint csv_read (r : creader) (l : list ascii) : list (list string) :=
  match l with
  | [] =>
      match cr_state r with
      | StartRecord | EatCrnl => []
      | _ => [record_of r]
      end
  | c :: l' =>
      let '(r', o) := csv_step r c in
      match o with Some row => row :: csv_read r' l' | None => csv_read r' l' end
  end.

(** [list(csv.reader(f))] *)
Definition csv_reader (text : string) : list (list string) :=
  csv_read (mkReader StartRecord [] []) (list_ascii_of_string text).

(** ** Strings *)

(** A row of [csv.DictReader]: a short row has [None] in its last columns. *)
Definition drow : Type := list (string * option string).

Definition dict_row (header row : list string) : drow :=
  dict_update [] (imap (λ i name, (name, row !! i)) header).

(** [csv.DictReader]: the first record names the columns, empty ones are skipped. *)
Definition dict_reader (text : string) : option (list string) * list drow :=
  match csv_reader text with
  | [] => (None, [])
  | header :: rows => (Some header, dict_row header <$> List.filter (λ r, negb (bool_decide (r = []))) rows)
  end.

Lemma csv_rows_app a b : csv_rows (a ++ b) = csv_rows a ^^ csv_rows b.
Proof.
  induction a as [|r a IH]; [done|]. cbn [csv_rows foldr app].
  fold (csv_rows (a ++ b)) (csv_rows a). by rewrite IH, str_app_assoc.
Qed.


(** ** Round trip *)

Definition special (c : ascii) : bool :=
  bool_decide (c ∈ [","%char; dquote; ascii_of_nat 13; ascii_of_nat 10]).

Definition plain (c : ascii) : Prop := c ≠ ","%char ∧ c ≠ dquote ∧ c ≠ cr ∧ c ≠ lf.

Lemma not_special c : special c = false → plain c.
Proof.
  unfold special, plain, cr, lf. intros H%bool_decide_eq_false. rewrite !not_elem_of_cons in H. tauto.
Qed.

Lemma needs_quote_false s : needs_quote s = false → Forall plain (list_ascii_of_string s).
Proof.
  unfold needs_quote. intros H. apply Forall_forall. intros c Hc. apply not_special.
  destruct (special c) eqn:Hs; [|done]. exfalso.
  assert (existsb special (list_ascii_of_string s) = true) as Hex.
  { apply existsb_exists. exists c. split; [by apply list_elem_of_In|done]. }
  unfold special in Hex. congruence.
Qed.

Lemma step_plain r c :
  plain c → cr_state r = InField → csv_step r c = (mkReader InField (c :: cr_field r) (cr_row r), None).
Proof.
  intros (H1 & H2 & H3 & H4) Hst. unfold csv_step. rewrite Hst.
  by rewrite !bool_decide_eq_false_2 by done.
Qed.

Lemma read_plain l f row rest :
  Forall plain l →
  csv_read (mkReader InField f row) (l ++ rest) = csv_read (mkReader InField (rev l ++ f) row) rest.
Proof.
  intros Hl. revert f. induction Hl as [|c l Hc _ IH]; intros f; [done|].
  cbn [app csv_read]. rewrite (step_plain (mkReader InField f row) c Hc eq_refl). cbn [cr_field cr_row].
  rewrite IH. simpl. by rewrite <-app_assoc.
Qed.

Lemma list_ascii_double s :
  list_ascii_of_string (double_quotes s) =
  flat_map (λ c, if bool_decide (c = dquote) then [dquote; dquote] else [c]) (list_ascii_of_string s).
Proof. induction s as [|c s IH]; simpl; [done|]. case_bool_decide; simpl; by rewrite IH. Qed.

Lemma read_quoted l f row rest :
  csv_read (mkReader InQuoted f row)
    (flat_map (λ c, if bool_decide (c = dquote) then [dquote; dquote] else [c]) l ++ dquote :: rest) =
  csv_read (mkReader QuoteInQuoted (rev l ++ f) row) rest.
Proof.
  revert f. induction l as [|c l IH]; intros f; [done|]. cbn [flat_map].
  destruct (decide (c = dquote)) as [->|Hc].
  - rewrite bool_decide_eq_true_2 by done. cbn [app csv_read].
    assert (H1 : csv_step (mkReader InQuoted f row) dquote = (mkReader QuoteInQuoted f row, None)) by done.
    assert (H2 : csv_step (mkReader QuoteInQuoted f row) dquote = (mkReader InQuoted (dquote :: f) row, None)) by done.
    rewrite H1, H2, IH. simpl. by rewrite <-app_assoc.
  - rewrite (bool_decide_eq_false_2 _ Hc). cbn [app csv_read]. unfold csv_step at 1. cbn [cr_state].
    rewrite (bool_decide_eq_false_2 _ Hc). cbn [cr_field cr_row]. rewrite IH. simpl. by rewrite <-app_assoc.
Qed.

(** A field is read up to its separator. *)
Definition at_field (st : cstate) : Prop := st = StartField ∨ st = StartRecord.

(** The state after a field text, before its separator. *)
Lemma read_field s st row rest :
  at_field st →
  ∃ st', csv_read (mkReader st [] row) (list_ascii_of_string (csv_field s) ++ rest) =
         csv_read (mkReader st' (rev (list_ascii_of_string s)) row) rest ∧
         (st' = InField ∨ st' = QuoteInQuoted ∨ (s = EmptyString ∧ st' = st)).
Proof.
  intros Hst. unfold csv_field. destruct (needs_quote s) eqn:Hq.
  - exists QuoteInQuoted. split; [|by right; left]. cbn [list_ascii_of_string app csv_read].
    assert (Hstep : csv_step (mkReader st [] row) dquote = (mkReader InQuoted [] row, None))
      by by destruct Hst as [-> | ->].
    rewrite Hstep, list_ascii_app, list_ascii_double. cbn [list_ascii_of_string].
    rewrite <-app_assoc. cbn [app]. by rewrite read_quoted, app_nil_r.
  - apply needs_quote_false in Hq. destruct s as [|c s]; [by exists st; split; [|right; right]|].
    cbn [list_ascii_of_string] in *. apply Forall_cons in Hq as [Hc Hq].
    exists InField. split; [|by left]. cbn [app csv_read].
    assert (Hstep : csv_step (mkReader st [] row) c = (mkReader InField [c] row, None)).
    { destruct Hc as (H1 & H2 & H3 & H4).
      destruct Hst as [-> | ->]; unfold csv_step; cbn [cr_state cr_field cr_row];
        rewrite ?(bool_decide_eq_false_2 (_ = EatCrnl)) by done; cbn [andb];
        by rewrite !bool_decide_eq_false_2 by done. }
    rewrite Hstep, read_plain by done. done.
Qed.

Lemma field_of_rev s : field_of (rev (list_ascii_of_string s)) = s.
Proof. unfold field_of. by rewrite rev_involutive, string_of_list_ascii_of_string. Qed.

Lemma read_field_comma s st row rest :
  at_field st →
  csv_read (mkReader st [] row) (list_ascii_of_string (csv_field s) ++ ","%char :: rest) =
  csv_read (mkReader StartField [] (s :: row)) rest.
Proof.
  intros Hst. destruct (read_field s st row (","%char :: rest) Hst) as (st' & -> & Hst').
  cbn [csv_read].
  assert (Hstep : csv_step (mkReader st' (rev (list_ascii_of_string s)) row) ","%char =
                  (mkReader StartField [] (s :: row), None)).
  { rewrite <-(field_of_rev s) at 2.
    destruct Hst' as [-> |[-> |[-> ->]]]; [done..|]. by destruct Hst as [-> | ->]. }
  by rewrite Hstep.
Qed.

Lemma read_field_eol s st row rest :
  at_field st → (st = StartRecord → needs_quote s = true ∨ s ≠ EmptyString) →
  csv_read (mkReader st [] row) (list_ascii_of_string (csv_field s) ++ cr :: lf :: rest) =
  rev (s :: row) :: csv_read (mkReader StartRecord [] []) rest.
Proof.
  intros Hst Hne. destruct (read_field s st row (cr :: lf :: rest) Hst) as (st' & -> & Hst').
  cbn [csv_read].
  assert (Hstep : csv_step (mkReader st' (rev (list_ascii_of_string s)) row) cr =
                  (mkReader EatCrnl [] [], Some (rev (s :: row)))).
  { rewrite <-(field_of_rev s) at 2.
    destruct Hst' as [-> |[-> |[-> ->]]]; [done..|]. destruct Hst as [-> | ->]; [done|].
    destruct (Hne eq_refl) as [?|?]; done. }
  by rewrite Hstep.
Qed.

Lemma read_fields fs st row rest :
  fs ≠ [] → at_field st → (st = StartRecord → fs ≠ [EmptyString]) →
  csv_read (mkReader st [] row)
    (list_ascii_of_string (String.concat "," (csv_field <$> fs) ^^ crlf) ++ rest) =
  (rev row ++ fs) :: csv_read (mkReader StartRecord [] []) rest.
Proof.
  revert st row. induction fs as [|f fs IH]; intros st row Hne Hst Hone; [done|].
  rewrite list_ascii_app. change (list_ascii_of_string crlf) with [cr; lf].
  destruct fs as [|g fs].
  - cbn [fmap list_fmap String.concat]. rewrite <-app_assoc. cbn [app].
    rewrite read_field_eol; [by rewrite app_nil_r || done|done|].
    intros ->. right. intros ->. by apply Hone.
  - change (String.concat "," (csv_field <$> f :: g :: fs))
      with (csv_field f ^^ String ","%char (String.concat "," (csv_field <$> g :: fs))).
    rewrite list_ascii_app. cbn [list_ascii_of_string]. rewrite <-!app_assoc. cbn [app].
    rewrite read_field_comma by done.
    change (cr :: lf :: rest) with (list_ascii_of_string crlf ++ rest).
    rewrite app_assoc, <-list_ascii_app, IH; [|done|by left|done].
    simpl. by rewrite <-app_assoc.
Qed.

Lemma read_rows rows :
  Forall (λ r, r ≠ []) rows → csv_reader (csv_rows rows) = rows.
Proof.
  unfold csv_reader. induction 1 as [|r rows Hr _ IH]; [done|].
  change (csv_rows (r :: rows)) with (csv_row r ^^ csv_rows rows). rewrite list_ascii_app.
  destruct (decide (r = [EmptyString])) as [->|Hone].
  - cbn [csv_row]. cbn [list_ascii_of_string app]. cbn [csv_read csv_step]. simpl. by rewrite <-IH at 2.
  - assert (Hrow : csv_row r = String.concat "," (csv_field <$> r) ^^ crlf).
    { by destruct r as [|[|] [|]]. }
    rewrite Hrow, read_fields; [|done|by right|done]. simpl. by rewrite IH.
Qed.
