(* ===== verification/Capture.v ===== *)
(** * ipc_receiver.py: the capture files and the flow snapshot

    Windows kept for later labeling go to CSV files that auto_label.py also
    rewrites; the receiver never waits for the file lock, it queues. *)

From S2P Require Import Prelude PyNum PyStr Json World Csv.

(** ** Headers and rows *)

Definition BASE_COLUMNS : list string :=
  ["entropy"; "ewma_rate"; "mean_h"; "mean_r"; "sigma_h"; "sigma_r"; "proto_ratio";
   "dominant_ip_ratio"; "source_port_entropy"; "ttl_variance"; "fingerprint_diversity";
   "timestamp"; "label"].
Definition ANOMALOUS_CSV_HEADER : list string :=
  BASE_COLUMNS ++ ["victim_ip"; "if_score"; "rf_verdict"].
Definition PRETRAINING_CSV_HEADER : list string := BASE_COLUMNS.
Definition DDOS_CAPTURE_CSV_HEADER : list string := BASE_COLUMNS.

(** The keyword arguments of the row writers. *)
Record Features := mkFeatures {
  ft_entropy : num; ft_ewma_rate : num; ft_mean_h : num; ft_mean_r : num;
  ft_sigma_h : num; ft_sigma_r : num; ft_proto_ratio : num; ft_dominant_ip_ratio : num;
  ft_source_port_entropy : num; ft_ttl_variance : num; ft_fingerprint_diversity : num;
  ft_timestamp : num }.

Definition _base_feature_row (f : Features) : list string :=
  [fmt_fixed (ft_entropy f) 6; fmt_fixed (ft_ewma_rate f) 6; fmt_fixed (ft_mean_h f) 6;
   fmt_fixed (ft_mean_r f) 6; fmt_fixed (ft_sigma_h f) 6; fmt_fixed (ft_sigma_r f) 6;
   fmt_fixed (ft_proto_ratio f) 6; fmt_fixed (ft_dominant_ip_ratio f) 6;
   fmt_fixed (ft_source_port_entropy f) 6; fmt_fixed (ft_ttl_variance f) 6;
   fmt_fixed (ft_fingerprint_diversity f) 6; fmt_fixed (ft_timestamp f) 3; ""]%string.

(** The values of ZERO_TRAFFIC_FIELDS. *)
Definition ZERO_TRAFFIC_FIELDS (f : Features) : list num :=
  [ft_entropy f; ft_proto_ratio f; ft_dominant_ip_ratio f; ft_source_port_entropy f;
   ft_ttl_variance f; ft_fingerprint_diversity f].

Definition set_pending (p : path) (rows : list (list string)) (c : Capture) : Capture :=
  mkCapture (<[p := rows]> (cp_pending c)) (cp_lock_warned c) (cp_cap_warned c).
Definition lock_warn (f : gset path → gset path) (c : Capture) : Capture :=
  mkCapture (cp_pending c) (f (cp_lock_warned c)) (cp_cap_warned c).
Definition cap_warn (p : path) (c : Capture) : Capture :=
  mkCapture (cp_pending c) (cp_lock_warned c) ({[p]} ∪ cp_cap_warned c).

Section capture.
Context {E : Env}.

(** Write [text] at the end of a CSV file, creating it. [false] on OSError,
    with whatever had been flushed. *)
Definition append_text (p : path) (text : string) : M World bool :=
  opened ← io;
  if negb opened then mret false
  else
    old ← gets (λ w, default EmptyString (w_csv w !! p));
    ok ← io;
    k ← gets (λ w, partial_write (w_ticks w));
    modify (λ w, set_csv (<[p := old ^^ (if (ok : bool) then text else str_take k text)]> (w_csv w)) w);;
    mret ok.

(** The part of [_append_csv_row] that runs under the lock. *)
Definition flush_pending (p : path) (header : list string) : M World unit :=
  file ← gets (λ w, w_csv w !! p);
  rows ← gets (λ w, default [] (cp_pending (w_capture w) !! p));
  if match file with
     | Some t => (PRETRAINING_MAX_BYTES settings <=? Z.of_nat (String.length t))%Z
     | None => false
     end
  then modify (upd_capture (λ c, set_pending p [] (cap_warn p c)))
  else
    let write_header := match file with Some _ => EmptyString | None => csv_row header end in
    ok ← append_text p (write_header ^^ csv_rows rows);
    when ok (modify (upd_capture (set_pending p []))).

(** [pending.append(row)] and the overflow: the oldest rows go. *)
Definition enqueue (p : path) (row : list string) : M World unit :=
  modify (upd_capture (λ c,
    let pending := default [] (cp_pending c !! p) ++ [row] in
    set_pending p (drop (length pending - CAPTURE_PENDING_MAX_ROWS settings) pending) c)).

Definition _append_csv_row (p : path) (header row : list string) : M World unit :=
  enqueue p row;;
  opened ← io;
  if negb opened then raise OSError
  else
    locked ← io;
    if negb locked then modify (upd_capture (lock_warn (λ s, {[p]} ∪ s)))
    else
      modify (upd_capture (lock_warn (λ s, s ∖ {[p]})));;
      flush_pending p header.

Definition _write_anomalous_row (victim_ip : string) (if_score : num) (rf_verdict : string)
    (f : Features) : M World unit :=
  if forallb (λ x, neq x (flt 0 1)) (ZERO_TRAFFIC_FIELDS f) then mret tt
  else _append_csv_row ANOMALOUS_CSV_PATH ANOMALOUS_CSV_HEADER
         (_base_feature_row f ++ [victim_ip; fmt_signed if_score 4; rf_verdict]).

Definition _write_pretraining_row (f : Features) : M World unit :=
  _append_csv_row PRETRAINING_CSV_PATH PRETRAINING_CSV_HEADER (_base_feature_row f).

Definition _write_ddos_capture_row (f : Features) : M World unit :=
  _append_csv_row DDOS_CAPTURE_CSV_PATH DDOS_CAPTURE_CSV_HEADER (_base_feature_row f).

(** ** The flow snapshot of Stage 1 *)

(** One flow of the snapshot added to the rates so far. *)
Definition add_flow (victim_ip : string) (rates : list (string * num)) (flow : json)
    : res (list (string * num)) :=
  f_ip ← py_get flow "ip";
  dst ← py_get flow "dst";
  if negb (json_is_str victim_ip (default JNull dst)) then Ok rates
  else
    match f_ip with
    | Some (JStr s) =>
        if bool_decide (s = EmptyString) || is_sentinel s then Ok rates
        else
          r ← py_get_default flow "rate" (JNum (flt 0 1));
          n ← as_num r;
          Ok (dict_set s (nadd (default (flt 0 1) (dict_get s rates)) n) rates)
    | Some j => if json_truthy j then Exn TypeError else Ok rates
    | None => Ok rates
    end.

Fixpoint add_flows (victim_ip : string) (rates : list (string * num)) (flows : list json)
    : res (list (string * num)) :=
  match flows with
  | [] => Ok rates
  | f :: fs => rates' ← add_flow victim_ip rates f; add_flows victim_ip rates' fs
  end.

(** The rates of a snapshot read at [now]. *)
Definition snapshot_rates (victim_ip : string) (now : num) (flow_data : json)
    : res (list (string * num)) :=
  ts ← py_get_default flow_data "timestamp" JNull;
  match py_float ts with
  | Exn TypeError | Exn ValueError => Ok []
  | Exn e => Exn e
  | Ok t =>
      if nlt (FLOWS_MAX_AGE_SECS settings) (nsub now t) then Ok []
      else
        ips ← py_get_default flow_data "active_ips" (JArr []);
        flows ← json_iter ips;
        add_flows victim_ip [] flows
  end.

Definition _load_victim_flow_rates (victim_ip : string) : M World (list (string * num)) :=
  files ← gets w_json;
  match files !! FLOWS_PATH with
  | None => mret []
  | Some _ =>
      match (t ← open_read files FLOWS_PATH; json_loads t) with
      | Exn _ => mret []
      | Ok flow_data =>
          now ← time_time;
          lift (snapshot_rates victim_ip now flow_data)
      end
  end.
End capture.

(** ** The queue *)

Definition pending_of (p : path) (w : World) : list (list string) :=
  default [] (cp_pending (w_capture w) !! p).

(** What the capture file will hold once everything waiting is written. *)
Definition capture_view (p : path) (header : list string) (w : World) : string :=
  default (csv_row header) (w_csv w !! p) ^^ csv_rows (pending_of p w).

Section queue.
Context {E : Env} (p : path) (header : list string).

(** The three outcomes of an append: the lock file cannot be opened, the
    lock is taken, or the queue is flushed. *)
Lemma append_cases row w :
  let w1 := tick (enqueue p row w).2 in
  _append_csv_row p header row w = (Exn OSError, w1) ∨
  (∃ s, _append_csv_row p header row w = (Ok tt, upd_capture (lock_warn s) (tick w1))) ∨
  (∃ s, _append_csv_row p header row w = flush_pending p header (upd_capture (lock_warn s) (tick w1))).
Proof.
  unfold _append_csv_row. set (w0 := (enqueue p row w).2).
  assert (He : enqueue p row w = (Ok tt, w0)) by done.
  unfold mbind, M_bind, io. rewrite !He. clearbody w0. clear He. simpl.
  destruct (io_ok (w_ticks w0)); simpl; [|by left].
  destruct (io_ok (w_ticks (tick w0))); simpl; [|right; left; by exists (λ s, {[p]} ∪ s)].
  right; right. by exists (λ s, s ∖ {[p]}).
Qed.

Lemma pending_warn s w : pending_of p (upd_capture (lock_warn s) w) = pending_of p w.
Proof. by destruct w. Qed.
Lemma pending_tick w : pending_of p (tick w) = pending_of p w.
Proof. by destruct w. Qed.
Lemma csv_warn s w : w_csv (upd_capture s w) = w_csv w.
Proof. by destruct w. Qed.
Lemma csv_tick w : w_csv (tick w) = w_csv w.
Proof. by destruct w. Qed.

Lemma pending_enqueue row w :
  pending_of p (enqueue p row w).2 =
  drop (length (pending_of p w ++ [row]) - CAPTURE_PENDING_MAX_ROWS settings) (pending_of p w ++ [row]).
Proof. destruct w. unfold pending_of, enqueue, modify. simpl. by rewrite lookup_insert_eq. Qed.

Lemma csv_enqueue row w : w_csv (enqueue p row w).2 = w_csv w.
Proof. by destruct w. Qed.

(** Flushing empties the queue or leaves it as it was. *)
Lemma flush_shrinks w :
  pending_of p (flush_pending p header w).2 = [] ∨
  pending_of p (flush_pending p header w).2 = pending_of p w.
Proof.
  unfold flush_pending, gets, mbind, M_bind. simpl.
  destruct (match w_csv w !! p with Some _ => _ | None => _ end) eqn:Hcap; simpl.
  { left. destruct w. unfold pending_of. simpl. by rewrite lookup_insert_eq. }
  unfold append_text, io, gets, modify, mbind, M_bind. simpl.
  destruct (io_ok (w_ticks w)); simpl; [|right; by destruct w].
  destruct (io_ok (w_ticks (tick w))); simpl; [left|right; by destruct w].
  destruct w. unfold pending_of. simpl. by rewrite lookup_insert_eq.
Qed.

(** With room in the file and a disk that does not fail, a flush moves the
    whole queue to the file and changes nothing of what the file will hold. *)
Lemma flush_view w :
  (∀ t, w_csv w !! p = Some t → (Z.of_nat (String.length t) < PRETRAINING_MAX_BYTES settings)%Z) →
  (∀ n, io_ok n = true) →
  capture_view p header (flush_pending p header w).2 = capture_view p header w ∧
  pending_of p (flush_pending p header w).2 = [].
Proof.
  intros Hroom Hio. unfold flush_pending, append_text, io, gets, modify, mbind, M_bind. simpl.
  assert (Hcap : match w_csv w !! p with
                 | Some t => (PRETRAINING_MAX_BYTES settings <=? Z.of_nat (String.length t))%Z
                 | None => false end = false).
  { destruct (w_csv w !! p) as [t|] eqn:Hp; [|done]. apply Z.leb_gt. by apply Hroom. }
  rewrite Hcap. simpl. rewrite !Hio. simpl.
  destruct w as [? ? ? ? csv ? ? ? ? cap ? ? ? ?]. unfold capture_view, pending_of. simpl in *.
  rewrite !Hio. simpl. rewrite !lookup_insert_eq. simpl. split; [|done]. rewrite str_app_nil.
  destruct (csv !! p); simpl; done.
Qed.

Lemma flush_ok w : (flush_pending p header w).1 = Ok tt.
Proof.
  unfold flush_pending, append_text, gets, io, modify, mbind, M_bind. simpl.
  destruct (match w_csv w !! p with Some _ => _ | None => _ end); simpl; [done|].
  destruct (io_ok (w_ticks w)); simpl; [|done]. by destruct (io_ok (w_ticks (tick w))).
Qed.

Lemma flush_file w :
  (∀ n, io_ok n = true) →
  (∀ t, w_csv w !! p = Some t → (Z.of_nat (String.length t) < PRETRAINING_MAX_BYTES settings)%Z) →
  is_Some (w_csv (flush_pending p header w).2 !! p).
Proof.
  intros Hio Hroom. unfold flush_pending, append_text, io, gets, modify, mbind, M_bind. simpl.
  destruct (w_csv w !! p) as [t|] eqn:Hp; simpl;
    [assert ((PRETRAINING_MAX_BYTES settings <=? Z.of_nat (String.length t))%Z = false) as ->
       by (apply Z.leb_gt; auto); simpl|]; rewrite !Hio; simpl; rewrite !Hio; simpl;
    destruct w; simpl in *; rewrite lookup_insert_eq; eauto.
Qed.
End queue.

(** The queue of rows waiting for a capture file's lock never exceeds its
    bound, whatever the lock and the disk do. *)
Theorem pending_bounded {E : Env} p q header row w :
  let bound := CAPTURE_PENDING_MAX_ROWS settings in
  (length (pending_of q w) ≤ bound)%nat →
  (length (pending_of q (_append_csv_row p header row w).2) ≤ bound)%nat.
Proof.
  intros bound Hq. destruct (decide (p = q)) as [->|Hne].
  - assert (H1 : (length (pending_of q (tick (enqueue q row w).2)) ≤ bound)%nat).
    { rewrite pending_tick, pending_enqueue, length_drop. subst bound. lia. }
    destruct (append_cases q header row w) as [->|[[s ->]|[s ->]]]; cbn [snd];
      rewrite ?pending_warn, ?pending_tick in *; try done.
    destruct (flush_shrinks q header (upd_capture (lock_warn s) (tick (tick (enqueue q row w).2)))) as [->| ->];
      [simpl; lia|]. by rewrite pending_warn, !pending_tick in *.
  - assert (Hpres : pres (λ w', pending_of q w' = pending_of q w) (_append_csv_row p header row)).
    { unfold _append_csv_row, enqueue, flush_pending, append_text. pres_auto; intros w' <-;
        try (apply pres_modify; intros ? ?); destruct w'; unfold pending_of; simpl;
        rewrite ?lookup_insert_ne by done; done. }
    by rewrite (Hpres w eq_refl).
Qed.

(** Nothing captured is lost, duplicated or reordered: while the queue has
    room, the file is under its cap and the disk does not fail, what the file
    will hold grows by exactly the new row, and once the lock is free again
    the row and every row that waited before it are in the file, under one
    header. The lock itself may be held at any moment. *)
Theorem append_conserves {E : Env} p header row w :
  (length (pending_of p w) < CAPTURE_PENDING_MAX_ROWS settings)%nat →
  (∀ t, w_csv w !! p = Some t → (Z.of_nat (String.length t) < PRETRAINING_MAX_BYTES settings)%Z) →
  (∀ n, n ≠ S (w_ticks w) → io_ok n = true) →
  let w' := (_append_csv_row p header row w).2 in
  (_append_csv_row p header row w).1 = Ok tt ∧
  capture_view p header w' = capture_view p header w ^^ csv_row row ∧
  (io_ok (S (w_ticks w)) = true → w_csv w' !! p = Some (capture_view p header w')).
Proof.
  intros Hroom Hcap Hio w'.
  assert (Hq : pending_of p (enqueue p row w).2 = pending_of p w ++ [row]).
  { rewrite pending_enqueue, length_app. simpl.
    replace (length (pending_of p w) + 1 - CAPTURE_PENDING_MAX_ROWS settings)%nat with 0%nat by lia. done. }
  assert (Hv : ∀ u, u = upd_capture (lock_warn (λ s, {[p]} ∪ s)) (tick (tick (enqueue p row w).2)) ∨
                    u = upd_capture (lock_warn (λ s, s ∖ {[p]})) (tick (tick (enqueue p row w).2)) →
               capture_view p header u = capture_view p header w ^^ csv_row row).
  { intros u Hu. assert (Hu' : pending_of p u = pending_of p w ++ [row] ∧ w_csv u = w_csv w).
    { destruct Hu as [-> | ->]; rewrite pending_warn, !pending_tick, csv_warn, !csv_tick, csv_enqueue; done. }
    destruct Hu' as [H1 H2]. unfold capture_view. rewrite H1, H2, csv_rows_app, str_app_assoc.
    simpl. by rewrite str_app_nil. }
  subst w'. unfold _append_csv_row, mbind, M_bind, io.
  pose (w0 := (enqueue p row w).2). assert (He : enqueue p row w = (Ok tt, w0)) by done. rewrite !He.
  assert (Ht : w_ticks w0 = w_ticks w) by by destruct w.
  assert (Ht1 : w_ticks (tick w0) = S (w_ticks w)) by by destruct w.
  cbn [fst snd]. rewrite Ht, (Hio (w_ticks w)) by lia. cbn [negb]. rewrite Ht1.
  destruct (io_ok (S (w_ticks w))) eqn:Hlock; cbn [negb].
  - unfold modify. set (u := upd_capture (lock_warn (λ s, s ∖ {[p]})) (tick (tick w0))).
    assert (Hio' : ∀ n, io_ok n = true).
    { intros n. destruct (decide (n = S (w_ticks w))) as [->|]; [done|by apply Hio]. }
    destruct (flush_view p header u) as [Hview Hnil]; [|done|].
    { subst u. rewrite csv_warn, !csv_tick, (csv_enqueue p row w : w_csv w0 = _). exact Hcap. }
    split; [by apply flush_ok|]. split; [rewrite Hview; apply Hv; by right|]. intros _.
    unfold capture_view. rewrite Hnil. simpl. rewrite str_app_nil.
    destruct (flush_file p header u) as [t Ht']; [done| |by rewrite Ht'].
    subst u. rewrite csv_warn, !csv_tick, (csv_enqueue p row w : w_csv w0 = _). exact Hcap.
  - split; [done|]. split; [apply Hv; by left|done].
Qed.

(** ** Per-source rates *)

(** A flow as Stage 1 writes it: source, destination, packet rate. *)
Definition flow_is (j : json) (f : string * string * num) : Prop :=
  ∃ l, j = JObj l ∧ dict_get "ip" l = Some (JStr f.1.1) ∧ dict_get "dst" l = Some (JStr f.1.2) ∧
       dict_get "rate" l = Some (JNum f.2).

(** The rates of the flows of source [s] towards [victim]. *)
Definition source_rates (victim s : string) (fl : list (string * string * num)) : list num :=
  (List.filter (λ f, bool_decide (f.1.1 = s) && bool_decide (f.1.2 = victim)) fl).*2.

Definition is_source (s : string) : bool := negb (bool_decide (s = EmptyString) || is_sentinel s).

Lemma add_flow_spec v rates j f :
  flow_is j f →
  add_flow v rates j = Ok (if bool_decide (f.1.2 = v) && is_source f.1.1
                           then dict_set f.1.1 (nadd (default (flt 0 1) (dict_get f.1.1 rates)) f.2) rates
                           else rates).
Proof.
  intros (l & -> & Hip & Hdst & Hrate). unfold add_flow, py_get_default, py_get, is_source.
  cbn [mbind res_bind mret res_ret]. rewrite Hip, Hdst, Hrate. simpl.
  rewrite (bool_decide_ext (v = f.1.2) (f.1.2 = v)) by done.
  destruct (bool_decide (f.1.2 = v)); simpl; [|done].
  by destruct (bool_decide (f.1.1 = EmptyString) || is_sentinel f.1.1).
Qed.

(** Continue a running sum with the rates still to come. *)
Definition more (o : option num) (rs : list num) : option num :=
  match o, rs with None, [] => None | _, _ => Some (foldl nadd (default (flt 0 1) o) rs) end.

Lemma add_flows_spec v js fl rates :
  Forall2 flow_is js fl → NoDup rates.*1 →
  ∃ rates', add_flows v rates js = Ok rates' ∧ NoDup rates'.*1 ∧
    (∀ s, is_source s = true → dict_get s rates' = more (dict_get s rates) (source_rates v s fl)) ∧
    (∀ s, is_source s = false → dict_get s rates' = dict_get s rates).
Proof.
  intros HF. revert rates. induction HF as [|j f js fl Hj HF IH]; intros rates Hnd.
  { exists rates. split_and!; try done. intros s _. by destruct (dict_get s rates). }
  cbn [add_flows]. rewrite (add_flow_spec v rates j f Hj). cbn [mbind res_bind].
  destruct (bool_decide (f.1.2 = v)) eqn:Hv; cbn [andb]; [destruct (is_source f.1.1) eqn:Hsrc|].
  - destruct (IH (dict_set f.1.1 (nadd (default (flt 0 1) (dict_get f.1.1 rates)) f.2) rates))
      as (r' & -> & Hnd' & H1 & H2); [by apply dict_set_NoDup|].
    exists r'. split_and!; try done.
    + intros s Hs. rewrite H1 by done. unfold source_rates. cbn [List.filter].
      destruct (decide (f.1.1 = s)) as [->|Hne].
      * rewrite dict_get_set_eq, bool_decide_eq_true_2, Hv by done. cbn [andb].
        rewrite fmap_cons. unfold more. by destruct (dict_get s rates).
      * rewrite dict_get_set_ne, bool_decide_eq_false_2 by done. done.
    + intros s Hs. rewrite H2 by done. apply dict_get_set_ne. congruence.
  - destruct (IH rates Hnd) as (r' & -> & Hnd' & H1 & H2). exists r'. split_and!; try done.
    intros s Hs. rewrite H1 by done. unfold source_rates. cbn [List.filter].
    rewrite (bool_decide_eq_false_2 (f.1.1 = s)) by congruence. done.
  - destruct (IH rates Hnd) as (r' & -> & Hnd' & H1 & H2). exists r'. split_and!; try done.
    intros s Hs. rewrite H1 by done. unfold source_rates. cbn [List.filter].
    by rewrite Hv, andb_false_r.
Qed.

(** The snapshot carries a timestamp that reads as a number and is no older
    than the operator's limit. *)
Definition snapshot_fresh {E : Env} (now : num) (data : json) : Prop :=
  ∃ ts t, py_get data "timestamp" = Ok (Some ts) ∧ py_float ts = Ok t ∧
          nlt (FLOWS_MAX_AGE_SECS settings) (nsub now t) = false.

(** C29: From a fresh snapshot every real source is charged the sum of all its
    flows towards the victim, on however many ports, in file order; flows to
    other hosts and unattributable ones are charged to nobody. From a stale
    or undated snapshot nothing is read at all. *)
Theorem flow_rates_aggregate {E : Env} victim now data js fl :
  py_get data "active_ips" = Ok (Some (JArr js)) → Forall2 flow_is js fl →
  ∃ rates, snapshot_rates victim now data = Ok rates ∧
    (¬ snapshot_fresh now data → rates = []) ∧
    (snapshot_fresh now data → ∀ s, dict_get s rates =
       match source_rates victim s fl with
       | [] => None
       | rs => if is_source s then Some (foldl nadd (flt 0 1) rs) else None
       end).
Proof.
  destruct data as [| | | | |l]; try done. cbn [py_get]. intros [= Hips] HF.
  unfold snapshot_rates, snapshot_fresh, py_get_default. cbn [py_get mbind res_bind mret res_ret].
  destruct (dict_get "timestamp" l) as [ts|] eqn:Hts; cbn [default from_option id].
  2: { exists []. split; [done|]. split; [done|]. by intros (? & ? & [=] & _). }
  destruct (py_float ts) as [t|e] eqn:Ht.
  2: { assert (e = TypeError ∨ e = ValueError) as Hor
         by (unfold py_float in Ht; repeat case_match; simplify_eq; auto).
       exists []. split; [by destruct Hor as [-> | ->]|]. split; [done|].
       intros (? & ? & [= <-] & ? & _). congruence. }
  destruct (nlt _ _) eqn:Hage.
  { exists []. split; [done|]. split; [done|]. intros (? & ? & [= <-] & Ht' & ?). congruence. }
  rewrite Hips. cbn [default from_option id json_iter mbind res_bind].
  destruct (add_flows_spec victim js fl [] HF) as (rates & -> & _ & H1 & H2); [apply NoDup_nil_2|].
  exists rates. split; [done|]. split; [intros Hn; destruct Hn; by eauto|]. intros _ s.
  destruct (is_source s) eqn:Hs; [rewrite H1 by done|rewrite H2 by done]; unfold more; cbn [dict_get];
    by destruct (source_rates victim s fl).
Qed.

Lemma pending_bounded_witness :
  (length (pending_of PRETRAINING_CSV_PATH (@_append_csv_row calm_env PRETRAINING_CSV_PATH
     PRETRAINING_CSV_HEADER ["1"]%string empty_world).2) ≤ CAPTURE_PENDING_MAX_ROWS default_settings)%nat.
Proof. apply (@pending_bounded calm_env). apply Nat.le_0_l. Defined.

Lemma append_conserves_witness :
  let w' := (@_append_csv_row calm_env PRETRAINING_CSV_PATH PRETRAINING_CSV_HEADER ["1"]%string empty_world).2 in
  (@_append_csv_row calm_env PRETRAINING_CSV_PATH PRETRAINING_CSV_HEADER ["1"]%string empty_world).1 = Ok tt ∧
  capture_view PRETRAINING_CSV_PATH PRETRAINING_CSV_HEADER w' =
    capture_view PRETRAINING_CSV_PATH PRETRAINING_CSV_HEADER empty_world ^^ csv_row ["1"]%string ∧
  (true = true → w_csv w' !! PRETRAINING_CSV_PATH =
     Some (capture_view PRETRAINING_CSV_PATH PRETRAINING_CSV_HEADER w')).
Proof. apply (@append_conserves calm_env); [apply Nat.lt_0_succ|done|done]. Defined.

Lemma flow_rates_aggregate_witness :
  let js := [JObj [("ip", JStr "203.0.113.9"); ("dst", JStr "10.0.0.5"); ("rate", JNum (NInt 40))];
             JObj [("ip", JStr "203.0.113.9"); ("dst", JStr "10.0.0.5"); ("rate", JNum (NInt 60))]]%string in
  let fl := [("203.0.113.9", "10.0.0.5", NInt 40); ("203.0.113.9", "10.0.0.5", NInt 60)]%string in
  let data := JObj [("timestamp", JNum (NInt 100)); ("active_ips", JArr js)]%string in
  ∃ rates, @snapshot_rates calm_env "10.0.0.5" (NInt 105) data = Ok rates ∧
    (¬ @snapshot_fresh calm_env (NInt 105) data → rates = []) ∧
    (@snapshot_fresh calm_env (NInt 105) data → ∀ s, dict_get s rates =
       match source_rates "10.0.0.5" s fl with
       | [] => None
       | rs => if is_source s then Some (foldl nadd (flt 0 1) rs) else None
       end).
Proof.
  intros js fl data. apply (@flow_rates_aggregate calm_env _ _ _ js); [reflexivity|].
  repeat constructor; eexists; (split; [reflexivity|done]).
Defined.
