(* ===== verification/CaptureFacts.v ===== *)
(** The capture writer against its specification: a log with a bounded queue
    in front of it. The detailed writer of [Capture] (lock file, size cap,
    header on the first write, queue of waiting rows) implements it. *)

From S2P Require Import Prelude PyStr PyNum World Config Csv Capture.

(** ** The specification *)

(** The rows in the file and the rows that wait for its lock. *)
Record alog := mkAlog {
  al_durable : option (list (list string));
  al_waiting : list (list string);
}.

#[global] Instance alog_eq_dec : EqDecision alog.
Proof. solve_decision. Defined.

Section spec.
Context {E : Env} (header : list string).

(** The text of the file that holds these rows, under one header. *)
Definition log_text (rows : list (list string)) : string := csv_row header ^^ csv_rows rows.

Definition log_full (a : alog) : bool :=
  match al_durable a with
  | Some rows => (PRETRAINING_MAX_BYTES settings <=? Z.of_nat (String.length (log_text rows)))%Z
  | None => false
  end.

(** The newest [n] elements of a list. *)
Definition newest {A} (n : nat) (l : list A) : list A := drop (length l - n) l.

(** An append puts the row at the end of the bounded queue; when the lock is
    free, everything that waits becomes durable at once, unless the file is at
    its cap, in which case it is discarded. *)
Definition log_append (free : bool) (row : list string) (a : alog) : alog :=
  let waiting := newest (CAPTURE_PENDING_MAX_ROWS settings) (al_waiting a ++ [row]) in
  if negb free then mkAlog (al_durable a) waiting
  else if log_full a then mkAlog (al_durable a) []
  else mkAlog (Some (default [] (al_durable a) ++ waiting)) [].

(** A sequence of appends, each with the state the lock was found in. *)
Definition log_run (steps : list (bool * list string)) (a : alog) : alog :=
  foldl (λ a s, log_append s.1 s.2 a) a steps.

(** While the file is under its cap and the queue has room, a run loses
    nothing: the durable and the waiting rows are those of before and the new
    ones, in order. *)
Definition log_rows (a : alog) : list (list string) := default [] (al_durable a) ++ al_waiting a.

Lemma log_append_rows free row a :
  log_full a = false → length (al_waiting a) < CAPTURE_PENDING_MAX_ROWS settings →
  log_rows (log_append free row a) = log_rows a ++ [row].
Proof.
  intros Hfull Hroom. unfold log_append, log_rows, newest. rewrite Hfull, length_app. simpl.
  replace (length (al_waiting a) + 1 - CAPTURE_PENDING_MAX_ROWS settings) with 0 by lia.
  destruct free; simpl; rewrite drop_0, ?app_nil_r, ?app_assoc; done.
Qed.

(** ** The implementation *)

Context (p : path).

(** The lock file can be opened and the lock is free. *)
Definition lock_free (w : World) : bool := io_ok (w_ticks w) && io_ok (S (w_ticks w)).

(** The calls of the receiver, one per captured window; an exception of one is
    caught by the accept loop. *)
Fixpoint append_all (rows : list (list string)) (w : World) : World :=
  match rows with
  | [] => w
  | row :: rows => append_all rows (_append_csv_row p header row w).2
  end.

Fixpoint lock_outcomes (rows : list (list string)) (w : World) : list bool :=
  match rows with
  | [] => []
  | row :: rows => lock_free w :: lock_outcomes rows (_append_csv_row p header row w).2
  end.

(** No write of the run fails while the lock is held: the file opens and takes
    all of the text. *)
Fixpoint writes_ok (rows : list (list string)) (w : World) : Prop :=
  match rows with
  | [] => True
  | row :: rows =>
      (lock_free w = true → io_ok (2 + w_ticks w) = true ∧ io_ok (3 + w_ticks w) = true) ∧
      writes_ok rows (_append_csv_row p header row w).2
  end.

(** The world holds this log. *)
Definition holds_log (a : alog) (w : World) : Prop :=
  w_csv w !! p = log_text <$> al_durable a ∧ pending_of p w = al_waiting a.

Lemma lock_free_cases w :
  lock_free w = true ∧ io_ok (w_ticks w) = true ∧ io_ok (S (w_ticks w)) = true ∨
  lock_free w = false ∧ (io_ok (w_ticks w) = false ∨ io_ok (w_ticks w) = true ∧ io_ok (S (w_ticks w)) = false).
Proof. unfold lock_free. destruct (io_ok (w_ticks w)), (io_ok (S (w_ticks w))); auto. Qed.

(** A flush under the lock makes the queue durable, or discards it at the cap. *)
Lemma flush_refines a w :
  holds_log a w → io_ok (w_ticks w) = true → io_ok (S (w_ticks w)) = true →
  holds_log (if log_full a then mkAlog (al_durable a) []
             else mkAlog (Some (default [] (al_durable a) ++ al_waiting a)) [])
            (flush_pending p header w).2.
Proof.
  intros [Hfile Hwait] Hopen Hwrite. unfold flush_pending, append_text, io, gets, modify, mbind, M_bind.
  destruct a as [durable waiting]. unfold log_full, holds_log. simpl in *. rewrite Hfile.
  destruct (match durable with Some _ => _ | None => _ end) eqn:Hfull.
  - destruct durable as [rows|]; [|done]. simpl. rewrite Hfull. destruct w. unfold pending_of. simpl in *.
    by rewrite lookup_insert_eq.
  - assert (Hcap : match log_text <$> durable with
                   | Some t => (PRETRAINING_MAX_BYTES settings <=? Z.of_nat (String.length t))%Z
                   | None => false end = false) by by destruct durable.
    rewrite Hcap, Hopen. simpl. destruct w. unfold pending_of, log_text in *. simpl in *. rewrite Hwrite, Hfile. simpl.
    rewrite !lookup_insert_eq, Hwait. simpl. split; [|done]. f_equal.
    destruct durable; simpl; rewrite ?csv_rows_app, ?str_app_assoc; done.
Qed.

(** One call implements one append of the specification. *)
Lemma append_refines a row w :
  holds_log a w →
  (lock_free w = true → io_ok (2 + w_ticks w) = true ∧ io_ok (3 + w_ticks w) = true) →
  holds_log (log_append (lock_free w) row a) (_append_csv_row p header row w).2.
Proof.
  intros [Hfile Hwait] Hok. set (w0 := (enqueue p row w).2).
  pose (waiting := newest (CAPTURE_PENDING_MAX_ROWS settings) (al_waiting a ++ [row])).
  assert (H0 : holds_log (mkAlog (al_durable a) waiting) w0).
  { split; subst w0; [by rewrite csv_enqueue|]. by rewrite pending_enqueue, Hwait. }
  assert (He : enqueue p row w = (Ok tt, w0)) by done.
  assert (Ht : w_ticks w0 = w_ticks w) by by destruct w.
  assert (Hstep : ∀ u, w_csv u = w_csv w0 → pending_of p u = pending_of p w0 →
                       holds_log (mkAlog (al_durable a) waiting) u).
  { intros u H1 H2. unfold holds_log. rewrite H1, H2. exact H0. }
  unfold _append_csv_row, mbind, M_bind, io. rewrite !He. clearbody w0. clear He. cbn [fst snd]. rewrite Ht.
  assert (Ht1 : w_ticks (tick w0) = S (w_ticks w)) by by destruct w0; simpl in *; rewrite Ht.
  unfold log_append. fold waiting.
  destruct (lock_free_cases w) as [(Hfree & Ho & Hl)|(-> & [Ho|[Ho Hl]])]; rewrite Ho; cbn [negb fst snd].
  - rewrite Hfree, Ht1, Hl. cbn [negb]. unfold modify. destruct (Hok Hfree) as [H2 H3].
    set (u := upd_capture _ _).
    assert (Hu : holds_log (mkAlog (al_durable a) waiting) u)
      by by apply Hstep; destruct w0.
    assert (Htu : w_ticks u = 2 + w_ticks w) by by (subst u; destruct w0; simpl in *; rewrite Ht).
    apply (flush_refines _ u Hu); rewrite Htu; done.
  - by apply Hstep; destruct w0.
  - rewrite Ht1, Hl. by apply Hstep; destruct w0.
Qed.
End spec.

(** C11: The writer refines the log: through any sequence of captured rows, with the
    lock free or held by the labeler at each of them, the capture file and the
    queue hold what the specification says, as long as no write fails half way.
    The header is written once, whenever the first write happens to be. *)
Theorem capture_refines_log {E : Env} p header rows a w :
  holds_log header p a w → writes_ok header p rows w →
  holds_log header p (log_run header (zip (lock_outcomes header p rows w) rows) a) (append_all header p rows w).
Proof.
  revert a w. induction rows as [|row rows IH]; intros a w Ha Hok; [exact Ha|].
  destruct Hok as [Hnow Hok]. cbn [append_all lock_outcomes zip]. unfold log_run. cbn [zip_with foldl fst snd].
  apply IH; [|exact Hok]. by apply append_refines.
Qed.

(** The labeler holds the lock during the first append and has gone at the
    second. *)
Definition busy_once : Env :=
  mkEnv (λ n, NInt (1000000 + Z.of_nat n)) (λ _ _ _, PDone 0 EmptyString) (λ n, negb (n =? 1)) (λ _, 0)
        default_settings.

Lemma capture_refines_log_witness :
  let rows := [["1"]; ["2"]; ["3"]]%string in
  let header := ["n"; "label"]%string in
  let w := empty_world in
  let log := @log_run busy_once header (zip [false; true; true] rows) (mkAlog None []) in
  log = mkAlog (Some rows) [] ∧
  holds_log header PRETRAINING_CSV_PATH log (@append_all busy_once header PRETRAINING_CSV_PATH rows w).
Proof.
  intros rows header w log. split; [reflexivity|].
  apply (@capture_refines_log busy_once PRETRAINING_CSV_PATH header rows (mkAlog None []) w).
  - split; reflexivity.
  - repeat split; intros; try reflexivity; discriminate.
Defined.
