(* ===== verification/Receiver.v ===== *)
(** * ipc_receiver.py: from one window of Stage 1 to enforcement

    [process_window] is the body of the receive loop for one frame, cut into
    the stages its comments name: unpack, classify, alert, publish metrics,
    enforce by tier, run playbooks. The two trained models are parameters:
    a missing model is [None], a prediction can raise. *)

From stdpp Require Import pretty.
From S2P Require Import Prelude PyNum PyStr Json World Storage Config Alerts Db Enforcement.
From S2P Require Import Playbooks Latency Wire Capture.

(** ** Safety overrides *)

(** [max(cfg["block_rate_floor_pps"], mean_r + cfg["block_sigma_multiplier"] * sigma_r)] *)
Definition block_boundary (cfg : cfgdict) (mean_r sigma_r : num) : res num :=
  floor ← cfg_get cfg "block_rate_floor_pps";
  k ← cfg_num cfg "block_sigma_multiplier";
  f ← as_num floor;
  mret (py_max f (nadd mean_r (nmul k sigma_r))).

Definition apply_safety_overrides (pred_class : Z) (ewma_rate mean_r sigma_r mean_h sigma_h
    dominant_rate entropy dominant_ip_ratio k_multiplier : num) (cfg : cfgdict) : res (Z * num) :=
  let rate_anomaly_boundary := nadd mean_r (nmul k_multiplier sigma_r) in
  extreme ← block_boundary cfg mean_r sigma_r;
  let entropy_anomaly_boundary := nsub mean_h (nmul k_multiplier sigma_h) in
  if (bool_decide (pred_class = 0%Z) || bool_decide (pred_class = 1%Z)) &&
     nlt rate_anomaly_boundary ewma_rate then
    if nlt extreme dominant_rate then Ok (2%Z, extreme)
    else if nlt entropy entropy_anomaly_boundary then Ok (2%Z, extreme)
    else
      t ← cfg_num cfg "dominant_ip_ratio_extreme_threshold";
      if nlt t dominant_ip_ratio then Ok (2%Z, extreme) else Ok (1%Z, extreme)
  else Ok (pred_class, extreme).

(** ** The unpacked window *)

Record Window := mkWindow {
  wd_entropy : num; wd_ewma_rate : num; wd_mean_h : num; wd_mean_r : num;
  wd_sigma_h : num; wd_sigma_r : num; wd_proto_ratio : num; wd_dominant_ip_ratio : num;
  wd_timestamp : num; wd_proto_tcp : num; wd_proto_udp : num; wd_proto_icmp : num;
  wd_proto_sctp : num; wd_proto_gre : num; wd_proto_esp : num; wd_k_multiplier : num;
  wd_cooldown_counter : num; wd_egress : num; wd_drop : num;
  wd_source_port_entropy : num; wd_ttl_variance : num; wd_fingerprint_diversity : num;
  wd_warmup : num; wd_ip_str : string; wd_victim_raw : string }.

Definition window_of (u : Unpacked) : res Window :=
  match up_doubles u with
  | [a0; a1; a2; a3; a4; a5; a6; a7; a8; a9; a10; a11; a12; a13; a14; a15; a16; a17; a18;
     a19; a20; a21; a22] =>
      Ok (mkWindow a0 a1 a2 a3 a4 a5 a6 a7 a8 a9 a10 a11 a12 a13 a14 a15 a16 a17 a18 a19 a20 a21
            a22 (decode_ip (up_dominant u)) (decode_ip (up_victim u)))
  | _ => Exn IndexError
  end.

Definition is_warmup (wd : Window) : bool := negb (neq (wd_warmup wd) (flt 0 1)).
Definition delta_rate (wd : Window) : num := nsub (wd_ewma_rate wd) (wd_mean_r wd).
Definition delta_entropy (wd : Window) : num := nsub (wd_entropy wd) (wd_mean_h wd).
Definition dominant_rate (wd : Window) : num := nmul (wd_ewma_rate wd) (wd_dominant_ip_ratio wd).
Definition dominant_ip_known (wd : Window) : bool := negb (is_sentinel (wd_ip_str wd)).

(** [mean_r + k_multiplier * sigma_r] *)
Definition dominant_rate_threshold (wd : Window) : num :=
  nadd (wd_mean_r wd) (nmul (wd_k_multiplier wd) (wd_sigma_r wd)).

(** [-1.0] means no egress sensor. *)
Definition measured (x : num) : option num := if nge x (NInt 0) then Some x else None.

Definition features_of (wd : Window) : Features :=
  mkFeatures (wd_entropy wd) (wd_ewma_rate wd) (wd_mean_h wd) (wd_mean_r wd) (wd_sigma_h wd)
    (wd_sigma_r wd) (wd_proto_ratio wd) (wd_dominant_ip_ratio wd) (wd_source_port_entropy wd)
    (wd_ttl_variance wd) (wd_fingerprint_diversity wd) (wd_timestamp wd).

(** The row handed to the models, in training order. *)
Definition features_df (wd : Window) : list num :=
  [wd_entropy wd; wd_ewma_rate wd; wd_mean_h wd; wd_mean_r wd; wd_sigma_h wd; wd_sigma_r wd;
   wd_proto_ratio wd; wd_dominant_ip_ratio wd; delta_rate wd; delta_entropy wd; dominant_rate wd;
   wd_source_port_entropy wd; wd_ttl_variance wd; wd_fingerprint_diversity wd].

Definition class_name (c : Z) : string :=
  match c with 1%Z => "Flash Crowd" | 2%Z => "DDoS" | _ => "Normal" end.

Definition metrics_of (wd : Window) (cooldown : Z) (pred_name victim : string) : Metrics :=
  mkMetrics (wd_entropy wd) (wd_ewma_rate wd) (wd_mean_h wd) (wd_mean_r wd) (wd_sigma_h wd)
    (wd_sigma_r wd) (wd_proto_ratio wd) (wd_dominant_ip_ratio wd) (wd_timestamp wd)
    (wd_k_multiplier wd) cooldown pred_name (Some victim) (measured (wd_egress wd))
    (measured (wd_drop wd)) (wd_proto_tcp wd) (wd_proto_udp wd) (wd_proto_icmp wd)
    (wd_proto_sctp wd) (wd_proto_gre wd) (wd_proto_esp wd) (Some (wd_source_port_entropy wd))
    (Some (wd_ttl_variance wd)) (Some (wd_fingerprint_diversity wd)).

(** The trained models. *)
Definition RandomForest : Type := list num → res Z.
Record IsolationForest := mkIF {
  if_predict : list num → res Z; if_decision : list num → res num }.

(** What classification hands to the rest of the window. *)
Record Verdict := mkVerdict { vd_class : Z; vd_name : string; vd_boundary : num }.

Definition ms (x : num) : num := nmul x (flt 1000 1).

Definition add_step (f : StepSecs → num → StepSecs) (d : num) : M World unit :=
  modify (upd_steps (λ s, f s d)).
Definition step_database (s : StepSecs) (d : num) : StepSecs :=
  mkSteps (nadd (ss_database s) d) (ss_flows s) (ss_enforcement s).
Definition step_flows (s : StepSecs) (d : num) : StepSecs :=
  mkSteps (ss_database s) (nadd (ss_flows s) d) (ss_enforcement s).
Definition step_enforcement (s : StepSecs) (d : num) : StepSecs :=
  mkSteps (ss_database s) (ss_flows s) (nadd (ss_enforcement s) d).

Definition lat_record (k : lat_kind) (v : num) : M World unit := modify (upd_latency (record k v)).

Section receiver.
Context {E : Env} (clf : option RandomForest) (if_clf : option IsolationForest)
        (mean : list num → num).

Definition _maybe_alert_block (ip victim_ip : string) (rate : num) (cfg : cfgdict)
    : M World unit :=
  now ← time_time;
  last ← gets (λ w, default (NInt 0) (last_block_alert (w_state w) !! ip));
  dur ← lift (cfg_num cfg "block_duration_seconds");
  if nlt (nsub now last) dur then mret tt
  else
    modify (upd_state (upd_last_block_alert (<[ip := now]>)));;
    dispatch_alert "FLOD System: IP Blocked"
      ("Blocked " ^^ ip ^^ " targeting " ^^ victim_ip ^^ " (sustained ~" ^^ fmt_fixed rate 1 ^^ " pps).")
      "all".

Definition _timed_enforcement (window_ts : num) (action : M World unit) : M World unit :=
  started ← time_time;
  action;;
  finished ← time_time;
  add_step step_enforcement (nsub finished started);;
  lat_record LEnforcement (ms (nsub finished started));;
  lat_record LWindowToRule (ms (nsub finished window_ts)).

Definition _log_latency_if_due : M World unit :=
  let interval := LATENCY_LOG_INTERVAL_SECS settings in
  if nle interval (NInt 0) then mret tt
  else
    now ← time_time;
    last ← gets w_lat_last;
    if nlt (nsub now last) interval then mret tt
    else
      modify (set_lat_last now);;
      stats ← gets w_latency;
      if has_samples stats then
        r ← lift (summary_line mean stats);
        modify (upd_latency (λ _, r.2))
      else mret tt.

Definition _should_capture_pretraining_row (warmup : bool) : bool :=
  match clf with None => negb warmup | Some _ => false end.

(** ** Classification *)

(** The RandomForest's own opinion: none during warm-up or without a model. *)
Definition rf_class (wd : Window) : res Z :=
  match clf with
  | Some predict => if is_warmup wd then Ok 0%Z else predict (features_df wd)
  | None => Ok 0%Z
  end.

(** The Isolation Forest's opinion on a window the RandomForest let through;
    an outlier is captured and renamed, nothing else. Returns the name and
    the inference time spent. *)
Definition anomaly_check (wd : Window) (pred_class : Z) (victim : string) (secs : num)
    : M World (string * num) :=
  let pred_name := class_name pred_class in
  match if_clf with
  | Some m =>
      if negb (is_warmup wd) && (bool_decide (pred_class = 0%Z) || bool_decide (pred_class = 1%Z))
      then
        started ← time_time;
        p ← lift (if_predict m (features_df wd));
        finished ← time_time;
        let secs' := nadd secs (nsub finished started) in
        if bool_decide (p = (-1)%Z) then
          score ← lift (if_decision m (features_df wd));
          _write_anomalous_row victim score pred_name (features_of wd);;
          mret ("Anomalous"%string, secs')
        else mret (pred_name, secs')
      else mret (pred_name, secs)
  | None => mret (pred_name, secs)
  end.

Definition has_model : bool :=
  match clf, if_clf with None, None => false | _, _ => true end.

Definition classify (wd : Window) (victim : string) (cfg : cfgdict) : M World Verdict :=
  started ← time_time;
  rf ← lift (rf_class wd);
  finished ← time_time;
  when (_should_capture_pretraining_row (is_warmup wd)) (_write_pretraining_row (features_of wd));;
  ov ← lift (apply_safety_overrides rf (wd_ewma_rate wd) (wd_mean_r wd) (wd_sigma_r wd)
               (wd_mean_h wd) (wd_sigma_h wd) (dominant_rate wd) (wd_entropy wd)
               (wd_dominant_ip_ratio wd) (wd_k_multiplier wd) cfg);
  named ← anomaly_check wd ov.1 victim (nadd (flt 0 1) (nsub finished started));
  when (negb (is_warmup wd) && has_model) (lat_record LInference (ms named.2));;
  when (negb (is_warmup wd) && bool_decide (ov.1 = 2%Z)) (_write_ddos_capture_row (features_of wd));;
  mret (mkVerdict ov.1 named.1 ov.2).

(** ** Alerts on transitions, published metrics, hysteresis counter *)

Definition alert_transition (wd : Window) (victim pred_name : string) : M World unit :=
  prev ← gets (λ w, last_classification_by_target (w_state w) !! victim);
  (if bool_decide (pred_name = "DDoS"%string) && negb (bool_decide (prev = Some "DDoS"%string)) then
     dispatch_alert "FLOD System: DDoS Detected"
       ("Victim " ^^ victim ^^ " classified DDoS, rate=" ^^ fmt_fixed (wd_ewma_rate wd) 1 ^^
        "pps, entropy=" ^^ fmt_fixed (wd_entropy wd) 3 ^^ ", dominant_ip_ratio=" ^^
        fmt_percent (wd_dominant_ip_ratio wd) 1 ^^ ".") "all"
   else if negb (bool_decide (pred_name = "DDoS"%string)) && bool_decide (prev = Some "DDoS"%string) then
     dispatch_alert "FLOD System: DDoS Resolved"
       ("Victim " ^^ victim ^^ " classification returned to " ^^ pred_name ^^ ", rate=" ^^
        fmt_fixed (wd_ewma_rate wd) 1 ^^ "pps, entropy=" ^^ fmt_fixed (wd_entropy wd) 3 ^^ ".") "all"
   else mret tt);;
  modify (upd_state (upd_last_class (<[victim := pred_name]>))).

Definition publish_metrics (wd : Window) (victim pred_name : string) : M World unit :=
  cooldown ← lift (py_int (wd_cooldown_counter wd));
  let m := metrics_of wd cooldown pred_name victim in
  modify (upd_state (set_metrics m));;
  modify (upd_state (upd_metrics_by_target (dict_set victim m)));;
  started ← time_time;
  log_metrics_history (wd_timestamp wd) (wd_ewma_rate wd) (wd_entropy wd) (wd_mean_h wd)
    (wd_mean_r wd) (wd_sigma_h wd) (wd_sigma_r wd) (wd_k_multiplier wd) victim;;
  finished ← time_time;
  add_step step_database (nsub finished started).

Definition count_window (pred_class : Z) (victim : string) : M World unit :=
  modify (upd_state (upd_consecutive (λ m,
    <[victim := if bool_decide (pred_class = 2%Z) then (default 0 (m !! victim) + 1)%Z else 0%Z]> m)));;
  modify (upd_state (upd_last_tier (<[victim := 0%Z]>))).

(** ** The four tiers *)

Definition reach_tier (victim : string) (t : Z) : M World unit :=
  modify (upd_state (upd_last_tier (λ m, <[victim := Z.max (default 0%Z (m !! victim)) t]> m))).

(** One block action of tiers 1 and 2. *)
Definition tier_block (wd : Window) (victim : string) (cfg : cfgdict) (tier : Z)
    (ip : string) (rate : num) : M World unit :=
  dur ← lift (cfg_get cfg "block_duration_seconds");
  _timed_enforcement (wd_timestamp wd)
    (block_ip ip dur (Some victim) (Some rate) (Some (wd_entropy wd)));;
  _maybe_alert_block ip victim rate cfg;;
  reach_tier victim tier.

(** One rate-limit action of tiers 3 and 4. *)
Definition tier_limit (wd : Window) (victim : string) (cfg : cfgdict) (ip : string) (rate : num)
    : M World unit :=
  dur ← lift (cfg_get cfg "ratelimit_duration_seconds");
  _timed_enforcement (wd_timestamp wd)
    (ratelimit_ip ip dur (Some victim) (Some rate) CLASS_RATELIMITED (Some (wd_entropy wd))).

Definition tier1 (wd : Window) (victim : string) (cfg : cfgdict) (block_ready : bool)
    : M World (gset string) :=
  if negb block_ready then mret ∅
  else
    t ← lift (cfg_num cfg "dominant_ip_ratio_block_threshold");
    if nge (wd_dominant_ip_ratio wd) t && nge (dominant_rate wd) (dominant_rate_threshold wd) then
      tier_block wd victim cfg 1 (wd_ip_str wd) (dominant_rate wd);;
      mret {[wd_ip_str wd]}
    else mret ∅.

Fixpoint tier2 (wd : Window) (victim : string) (cfg : cfgdict) (block_threshold : num)
    (rates : list (string * num)) (acted_on : gset string) : M World (gset string) :=
  match rates with
  | [] => mret acted_on
  | (f_ip, agg_rate) :: rates' =>
      if bool_decide (f_ip ∈ acted_on) then tier2 wd victim cfg block_threshold rates' acted_on
      else if nge agg_rate block_threshold then
        tier_block wd victim cfg 2 f_ip agg_rate;;
        tier2 wd victim cfg block_threshold rates' ({[f_ip]} ∪ acted_on)
      else tier2 wd victim cfg block_threshold rates' acted_on
  end.

Fixpoint tier3 (wd : Window) (victim : string) (cfg : cfgdict) (flow_threshold : num)
    (rates : list (string * num)) (acted_on : gset string) : M World (gset string) :=
  match rates with
  | [] => mret acted_on
  | (f_ip, agg_rate) :: rates' =>
      if bool_decide (f_ip ∈ acted_on) then tier3 wd victim cfg flow_threshold rates' acted_on
      else if nge agg_rate flow_threshold then
        tier_limit wd victim cfg f_ip agg_rate;;
        reach_tier victim 3;;
        tier3 wd victim cfg flow_threshold rates' ({[f_ip]} ∪ acted_on)
      else tier3 wd victim cfg flow_threshold rates' acted_on
  end.

Definition tier4 (wd : Window) (victim : string) (cfg : cfgdict) (rates : list (string * num))
    (acted_on : gset string) : M World unit :=
  if bool_decide (acted_on = ∅) && negb (bool_decide (rates = [])) then
    dispatch_alert "FLOD System: Aggregate Fallback Triggered"
      ("Victim " ^^ victim ^^ ": DDoS verdict with no individually-attributable source, rate-limited "
       ^^ pretty (Z.of_nat (length rates)) ^^ " active flows as a fallback.") "all";;
    for_each rates (λ '(f_ip, f_rate), tier_limit wd victim cfg f_ip f_rate);;
    reach_tier victim 4
  else mret tt.

(** [max(cfg["ratelimit_rate_floor_pps"], mean_r + sigma_r)] *)
Definition flow_threshold (wd : Window) (cfg : cfgdict) : res num :=
  f ← cfg_num cfg "ratelimit_rate_floor_pps";
  mret (py_max f (nadd (wd_mean_r wd) (wd_sigma_r wd))).

Definition load_rates (victim : string) : M World (list (string * num)) :=
  started ← time_time;
  rates ← _load_victim_flow_rates victim;
  finished ← time_time;
  add_step step_flows (nsub finished started);;
  mret rates.

(** Tiers 1 to 4, each seeing the sources the ones before it acted on. *)
Definition run_tiers (wd : Window) (victim : string) (cfg : cfgdict) (block_threshold ft : num)
    (block_ready : bool) (rates : list (string * num)) : M World unit :=
  a1 ← tier1 wd victim cfg block_ready;
  a2 ← (if block_ready then tier2 wd victim cfg block_threshold rates a1 else mret a1);
  a3 ← tier3 wd victim cfg ft rates a2;
  tier4 wd victim cfg rates a3.

Definition enforce_ddos (wd : Window) (victim : string) (cfg : cfgdict) (block_threshold : num)
    : M World unit :=
  if negb (dominant_ip_known wd) then mret tt
  else
    ft ← lift (flow_threshold wd cfg);
    n ← gets (λ w, default 0%Z (consecutive_ddos_windows (w_state w) !! victim));
    h ← lift (cfg_num cfg "block_hysteresis_windows");
    rates ← load_rates victim;
    run_tiers wd victim cfg block_threshold ft (nge (NInt n) h) rates.

Definition log_window (wd : Window) (victim pred_name : string) : M World unit :=
  when (dominant_ip_known wd)
    (log_incident (wd_timestamp wd) (wd_ip_str wd) pred_name victim (Some (dominant_rate wd))
       (Some (wd_entropy wd))).

Definition enforce_flash (wd : Window) (victim pred_name : string) (cfg : cfgdict) : M World unit :=
  log_window wd victim pred_name;;
  if negb (dominant_ip_known wd) then mret tt
  else
    t ← lift (cfg_num cfg "dominant_ip_ratio_block_threshold");
    if nge (wd_dominant_ip_ratio wd) t && nge (dominant_rate wd) (dominant_rate_threshold wd) then
      _ ← lift (cfg_get cfg "ratelimit_hashlimit_pps");
      dur ← lift (cfg_get cfg "ratelimit_duration_seconds");
      _timed_enforcement (wd_timestamp wd)
        (ratelimit_ip (wd_ip_str wd) dur (Some victim) (Some (dominant_rate wd))
           CLASS_RATELIMITED_FLASH (Some (wd_entropy wd)))
    else mret tt.

Definition enforce (wd : Window) (victim : string) (cfg : cfgdict) (vd : Verdict) : M World unit :=
  if bool_decide (vd_class vd = 2%Z) then enforce_ddos wd victim cfg (vd_boundary vd)
  else if bool_decide (vd_class vd = 1%Z) then enforce_flash wd victim (vd_name vd) cfg
  else if bool_decide (vd_class vd = 0%Z) then log_window wd victim (vd_name vd)
  else mret tt.

(** ** Playbooks, latency, the whole window *)

Definition hosts_under_attack (s : SharedState) : Z :=
  Z.of_nat (size (filter (λ kv, kv.2 = "DDoS"%string) (last_classification_by_target s))).

Definition run_playbooks (wd : Window) (victim : string) : M World unit :=
  try_all
    (st ← gets w_state;
     check_and_start_runs victim (default 0%Z (last_tier_reached st !! victim))
       (default 0%Z (consecutive_ddos_windows st !! victim)) (hosts_under_attack st)
       (if dominant_ip_known wd then Some (wd_ip_str wd) else None) (wd_timestamp wd);;
     advance_runs (wd_timestamp wd))
    (mret tt).

Definition handle_window (received_at : num) (wd : Window) : M World unit :=
  let handoff_ms := ms (nsub received_at (wd_timestamp wd)) in
  when (nle (flt 0 1) handoff_ms && nlt handoff_ms (flt 60000 1)) (lat_record LHandoff handoff_ms);;
  victim ← resolve_victim_ip (Some (wd_victim_raw wd));
  cfg ← get_enforcement_config;
  vd ← classify wd victim cfg;
  alert_transition wd victim (vd_name vd);;
  publish_metrics wd victim (vd_name vd);;
  count_window (vd_class vd) victim;;
  enforce wd victim cfg vd;;
  run_playbooks wd victim;;
  now ← time_time;
  lat_record LBusy (ms (nsub now received_at));;
  _log_latency_if_due.

Definition process_window (data : list Z) : M World unit :=
  received_at ← time_time;
  modify (upd_steps (λ _, mkSteps (flt 0 1) (flt 0 1) (flt 0 1)));;
  u ← lift (struct_unpack data);
  wd ← lift (window_of u);
  handle_window received_at wd.

(** ** Connections *)

(** A connection: the peer's uid if the kernel reports it, and its stream. *)
Record Incoming := mkIncoming {
  ic_uid : option Z; ic_burst : nat → nat; ic_bytes : list Z }.

Definition trusted_peer (expected_uids : list Z) (uid : option Z) : bool :=
  match uid with Some u => bool_decide (u ∈ expected_uids) | None => false end.

(** One turn of the accept loop: an exception ends the connection, not the
    loop. *)
Definition handle_connection (expected_uids : list Z) (c : Incoming) : M World unit :=
  if negb (trusted_peer expected_uids (ic_uid c)) then mret tt
  else try_all (serve (ic_burst c) (S (length (ic_bytes c))) process_window
                  (mkConn (ic_bytes c) 0)) (mret tt).

Definition run_ipc_receiver (expected_uids : list Z) (conns : list Incoming) : M World unit :=
  setup_ipset;;
  for_each conns (handle_connection expected_uids).
End receiver.
