(* ===== verification/ReceiverFacts.v ===== *)
(** * Properties of the receive loop

    The safety overrides, the hysteresis in front of every hard block, the
    completeness of the tiers, the alerts on transitions, and the invariants
    the whole loop keeps whatever the models, the kernel and the disk do. *)

From S2P Require Import Prelude PyNum PyStr Json World Storage Config Alerts Db Enforcement.
From S2P Require Import EnforcementFacts Playbooks PlaybooksFacts Latency Wire WireFacts Capture Receiver.

(** ** Preservation by a whole window *)

(** Insensitive to the state the receiver itself writes, its hysteresis
    counters apart. *)
Class StRecv (I : World → Prop) : Prop := {
  st_last_block u w : I w → I (upd_state (upd_last_block_alert u) w);
  st_last_class u w : I w → I (upd_state (upd_last_class u) w);
  st_metrics_now m w : I w → I (upd_state (set_metrics m) w);
  st_metrics_by u w : I w → I (upd_state (upd_metrics_by_target u) w);
  st_last_tier u w : I w → I (upd_state (upd_last_tier u) w) }.

#[global] Instance st_state_recv I `{!StState I} : StRecv I.
Proof. split; intros; by apply st_state. Qed.

Class StCount (I : World → Prop) : Prop :=
  st_consecutive u w : I w → I (upd_state (upd_consecutive u) w).
#[global] Instance st_state_count I `{!StState I} : StCount I.
Proof. intros u w. apply st_state. Qed.

Section capture_pres.
Context {E : Env} (I : World → Prop) `{!StEnv I, !StCapture I}.

Lemma pres_upd_capture u : pres I (modify (upd_capture u)).
Proof. apply pres_modify. intros. by apply st_capture. Qed.

Lemma pres_append_csv_row p h r : pres I (_append_csv_row p h r).
Proof.
  unfold _append_csv_row, enqueue, flush_pending, append_text.
  pres_auto; try apply pres_upd_capture. apply pres_modify. intros w Hw. by apply st_csv.
Qed.

Lemma pres_load_flow_rates v : pres I (_load_victim_flow_rates v).
Proof. unfold _load_victim_flow_rates. pres_auto. Qed.
End capture_pres.
#[export] Hint Resolve pres_append_csv_row pres_load_flow_rates : pres.

Section window_pres.
Context {E : Env} (I : World → Prop)
        `{!StEnv I, !StAlert I, !StCapture I, !StLogs I, !StMetricsTbl I, !StRecv I}.

Lemma pres_lat_record k v : pres I (lat_record k v).
Proof using StEnv0. apply pres_modify. intros. by apply st_latency. Qed.
Lemma pres_add_step f d : pres I (add_step f d).
Proof using StEnv0. apply pres_modify. intros. by apply st_steps. Qed.
Lemma pres_reach_tier v t : pres I (reach_tier v t).
Proof. apply pres_modify. intros. by apply st_last_tier. Qed.
#[local] Hint Resolve pres_lat_record pres_add_step pres_reach_tier : pres.

Lemma pres_maybe_alert ip v r cfg : pres I (_maybe_alert_block ip v r cfg).
Proof.
  unfold _maybe_alert_block. pres_auto. apply pres_modify. intros. by apply st_last_block.
Qed.

Lemma pres_timed ts m : pres I m → pres I (_timed_enforcement ts m).
Proof using StEnv0. intros Hm. unfold _timed_enforcement. pres_auto. Qed.

Lemma pres_log_latency mean : pres I (_log_latency_if_due mean).
Proof.
  unfold _log_latency_if_due. pres_auto; apply pres_modify; intros;
    [by apply st_lat_last|by apply st_latency].
Qed.

Lemma pres_classify clf if_clf wd v cfg : pres I (classify clf if_clf wd v cfg).
Proof.
  unfold classify, anomaly_check, _write_pretraining_row, _write_ddos_capture_row,
    _write_anomalous_row. pres_auto.
Qed.

Lemma pres_alert_transition wd v n : pres I (alert_transition wd v n).
Proof.
  unfold alert_transition. pres_auto. apply pres_modify. intros. by apply st_last_class.
Qed.

Lemma pres_publish_metrics wd v n : pres I (publish_metrics wd v n).
Proof.
  unfold publish_metrics. pres_auto; apply pres_modify; intros;
    [by apply st_metrics_now|by apply st_metrics_by].
Qed.

Lemma pres_load_rates v : pres I (load_rates v).
Proof. unfold load_rates. pres_auto. Qed.

(** *** The tiers *)

Lemma pres_tier_limit wd v cfg ip r :
  (∀ d c e, pres I (ratelimit_ip ip d (Some v) (Some r) c e)) → pres I (tier_limit wd v cfg ip r).
Proof. intros H. unfold tier_limit. pres_auto. by apply pres_timed. Qed.

Lemma pres_tier_block wd v cfg t ip r :
  (∀ d e, pres I (block_ip ip d (Some v) (Some r) e)) → pres I (tier_block wd v cfg t ip r).
Proof.
  intros H. unfold tier_block. pres_auto; [by apply pres_timed|by apply pres_maybe_alert].
Qed.

Lemma pres_tier2 wd v cfg bt rates acted :
  (∀ ip r d e, pres I (block_ip ip d (Some v) (Some r) e)) →
  pres I (tier2 wd v cfg bt rates acted).
Proof.
  intros H. revert acted. induction rates as [|[ip r] rates IH]; intros acted; cbn [tier2];
    pres_auto. by apply pres_tier_block.
Qed.

Lemma pres_tier3 wd v cfg ft rates acted :
  (∀ ip r d c e, pres I (ratelimit_ip ip d (Some v) (Some r) c e)) →
  pres I (tier3 wd v cfg ft rates acted).
Proof.
  intros H. revert acted. induction rates as [|[ip r] rates IH]; intros acted; cbn [tier3];
    pres_auto. by apply pres_tier_limit.
Qed.

Lemma pres_tier4 wd v cfg rates acted :
  (∀ ip r d c e, pres I (ratelimit_ip ip d (Some v) (Some r) c e)) →
  pres I (tier4 wd v cfg rates acted).
Proof. intros H. unfold tier4. pres_auto. by apply pres_tier_limit. Qed.

(** Without the hysteresis satisfied the tiers only rate-limit. *)
Lemma pres_run_tiers_held wd v cfg bt ft rates :
  (∀ ip r d c e, pres I (ratelimit_ip ip d (Some v) (Some r) c e)) →
  pres I (run_tiers wd v cfg bt ft false rates).
Proof.
  intros H. unfold run_tiers, tier1. cbn [negb].
  pres_auto; [by apply pres_tier3|by apply pres_tier4].
Qed.

Lemma pres_run_tiers wd v cfg bt ft ready rates :
  (∀ ip r d e, pres I (block_ip ip d (Some v) (Some r) e)) →
  (∀ ip r d c e, pres I (ratelimit_ip ip d (Some v) (Some r) c e)) →
  pres I (run_tiers wd v cfg bt ft ready rates).
Proof.
  intros Hb Hl. unfold run_tiers, tier1.
  pres_auto; eauto using pres_tier2, pres_tier3, pres_tier4, pres_tier_block.
Qed.

Lemma pres_log_window wd v n : pres I (log_window wd v n).
Proof. unfold log_window. pres_auto. Qed.

Lemma pres_enforce_flash wd v n cfg :
  (∀ ip r d c e, pres I (ratelimit_ip ip d (Some v) (Some r) c e)) →
  pres I (enforce_flash wd v n cfg).
Proof. intros H. unfold enforce_flash. pres_auto; [by apply pres_log_window|by apply pres_timed]. Qed.

Section window.
Hypothesis Hblock : ∀ ip dur v r e, pres I (block_ip ip dur v r e).
Hypothesis Hlimit : ∀ ip dur v r c e, pres I (ratelimit_ip ip dur v r c e).
Hypothesis Hstart : ∀ v t c h s now, pres I (check_and_start_runs v t c h s now).
Hypothesis Hadvance : ∀ now, pres I (advance_runs now).

Lemma pres_enforce wd v cfg vd : pres I (enforce wd v cfg vd).
Proof using Type*.
  unfold enforce, enforce_ddos.
  pres_auto; eauto using pres_load_rates, pres_run_tiers, pres_enforce_flash, pres_log_window.
Qed.

Lemma pres_run_playbooks wd v : pres I (run_playbooks wd v).
Proof using Type*. unfold run_playbooks. pres_auto. Qed.

Context `{!StCount I}.

Lemma pres_count_window c v : pres I (count_window c v).
Proof using Type*.
  unfold count_window. pres_auto; apply pres_modify; intros;
    [by apply st_consecutive|by apply st_last_tier].
Qed.

Lemma pres_process_window clf if_clf mean data : pres I (process_window clf if_clf mean data).
Proof using Type*.
  unfold process_window, handle_window, resolve_victim_ip.
  pres_auto; eauto using pres_classify, pres_alert_transition, pres_publish_metrics,
    pres_count_window, pres_enforce, pres_run_playbooks, pres_log_latency,
    pres_get_enforcement_config.
  apply pres_modify. intros. by apply st_steps.
Qed.

Lemma pres_connection clf if_clf mean uids c : pres I (handle_connection clf if_clf mean uids c).
Proof using Type*.
  unfold handle_connection. pres_auto. intros w Hw.
  rewrite serve_frames by (cbn [cn_bytes]; lia). cbn [cn_bytes].
  apply pres_for_each; [|done]. intros. apply pres_process_window.
Qed.
End window.
End window_pres.

(** ** Protected addresses *)

Section receiver_respects.
Context {E : Env} (clf : option RandomForest) (if_clf : option IsolationForest)
        (mean : list num → num).

Lemma respects_insert fs c r o : respects fs (EvCmd (IptInsert c r) o).
Proof. by split; intros; intros ? ? ?. Qed.

Lemma respects_setup_ipset fs t0 : pres (trace_inv fs t0 (respects fs)) setup_ipset.
Proof.
  assert (Hc : ∀ c, (∀ s ip t, c ≠ IpsetAdd s ip t) →
                    pres (trace_inv fs t0 (respects fs)) (run_cmd c)).
  { intros c Hne. eapply pres_run_cmd; [apply _..|]. simpl. intros r.
    split; intros; intros ? ? [=]; subst; by eapply Hne. }
  unfold setup_ipset, _ensure_hashlimit_rule, ensure_rule.
  pres_auto; first [apply pres_get_enforcement_config; apply _|by apply Hc].
Qed.

Lemma respects_connection fs t0 uids c :
  pres (trace_inv fs t0 (respects fs)) (handle_connection clf if_clf mean uids c).
Proof.
  apply pres_connection; try apply _.
  - intros. apply respects_block_ip.
  - intros. apply respects_ratelimit_ip.
  - intros. apply respects_check_and_start.
  - intros. apply respects_advance_runs.
Qed.
End receiver_respects.


(** ** The loop survives *)

Lemma try_all_ok {W A} (m : M W A) a w : ∃ b, (try_all m (mret a) w).1 = Ok b.
Proof. unfold try_all, try_except. destruct (m w) as [[b|e] w']; simpl; eauto. Qed.

Lemma for_each_ok {W A} (l : list A) (body : A → M W unit) w :
  (∀ x w', (body x w').1 = Ok tt) → (for_each l body w).1 = Ok tt.
Proof.
  intros H. revert w. induction l as [|x l IH]; intros w; [done|]. cbn [for_each].
  unfold mbind, M_bind. specialize (H x w). destruct (body x w) as [[[]|] w']; simpl in *; [|done].
  apply IH.
Qed.

Lemma connection_ok {E : Env} clf if_clf mean uids c w :
  (handle_connection clf if_clf mean uids c w).1 = Ok tt.
Proof.
  unfold handle_connection. destruct (negb _); [done|].
  match goal with |- (try_all ?m _ _).1 = _ => destruct (try_all_ok m tt w) as [[] ->] end. done.
Qed.

Lemma for_each_filter {W A} (l : list A) (p : A → bool) (body : A → M W unit) w :
  (∀ x w', p x = false → body x w' = (Ok tt, w')) →
  for_each l body w = for_each (List.filter p l) body w.
Proof.
  intros H. revert w. induction l as [|x l IH]; intros w; [done|]. cbn [for_each List.filter].
  destruct (p x) eqn:Hp; cbn [for_each]; unfold mbind, M_bind.
  - destruct (body x w) as [[[]|] w']; [apply IH|done].
  - rewrite (H x w Hp). apply IH.
Qed.

(** C6: No connection stops the receiver, and connections of other users are
    closed unread: the run is the run of the trusted connections alone. *)
Theorem receiver_survives {E : Env} clf if_clf mean uids conns w :
  (run_ipc_receiver clf if_clf mean uids conns w).1 = Ok tt ∧
  run_ipc_receiver clf if_clf mean uids conns w =
  run_ipc_receiver clf if_clf mean uids (List.filter (λ c, trusted_peer uids (ic_uid c)) conns) w.
Proof.
  unfold run_ipc_receiver, mbind, M_bind. destruct (try_all_ok (
       run_cmd (IpsetCreate ddos_blocklist);;
       ensure_rule INPUT RuleBlock;;
       ensure_rule FORWARD RuleBlock;;
       run_cmd (IpsetCreate ddos_ratelimit);;
       cfg ← get_enforcement_config;
       pps ← lift (cfg_get cfg "ratelimit_hashlimit_pps");
       _ensure_hashlimit_rule pps) tt w) as [[] Hs].
  fold setup_ipset in Hs. destruct (setup_ipset w) as [[[]|] w1]; simpl in Hs; [|done]. split.
  - apply for_each_ok. intros. apply connection_ok.
  - apply for_each_filter. intros c w' Hc. unfold handle_connection. by rewrite Hc.
Qed.

(** ** Invariants of the loop *)

Lemma sources_inv_enforce : StEnforce (state_inv (λ s, sources_ok (ddos_sources s))).
Proof.
  split.
  - by intros ? ? [? []].
  - intros ip c v r t [? []] H. by apply record_source_ok.
Qed.
#[local] Existing Instance sources_inv_enforce.
Lemma sources_inv_recv : StRecv (state_inv (λ s, sources_ok (ddos_sources s))).
Proof. split; by intros ? [? []]. Qed.
#[local] Existing Instance sources_inv_recv.
Lemma sources_inv_count : StCount (state_inv (λ s, sources_ok (ddos_sources s))).
Proof. by intros ? [? []]. Qed.
#[local] Existing Instance sources_inv_count.

(** C7: Through any number of connections the list of named attackers stays within
    its cap, one entry per address, every entry under its own address and for
    a block; and no playbook ever has two running runs against one host. *)
Theorem receiver_invariants {E : Env} clf if_clf mean uids conns w :
  sources_ok (ddos_sources (w_state w)) → one_run (w_db w) →
  let w' := (run_ipc_receiver clf if_clf mean uids conns w).2 in
  sources_ok (ddos_sources (w_state w')) ∧ one_run (w_db w').
Proof.
  intros Hs Ho. cbv zeta. split.
  - set (I := state_inv (λ s, sources_ok (ddos_sources s))).
    assert (Hb : ∀ ip dur v r e, pres I (block_ip ip dur v r e)).
    { intros. apply pres_block_ip; [apply _..|]. by intros ? ? []. }
    assert (Hl : ∀ ip dur v r c e, pres I (ratelimit_ip ip dur v r c e)).
    { intros. apply pres_ratelimit_ip; [apply _..|]. by intros ? []. }
    assert (Hrun : pres I (run_ipc_receiver clf if_clf mean uids conns)); [|by apply Hrun].
    apply pres_bind; [by apply pres_setup_ipset; apply _|intros _]. apply pres_for_each. intros.
    apply pres_connection; try apply _; try done.
    + intros. apply pres_check_and_start; [apply _|]. intros. apply pres_start_if_due_db; apply _.
    + intros. apply pres_advance_runs; try apply _; try done.
      * intros. eapply (pres_run_cmd _ (λ _, True)); [apply _..|done].
      * intros. apply pres_advance_playbook_run_db; apply _.
  - assert (Hrun : pres (db_inv one_run) (run_ipc_receiver clf if_clf mean uids conns)); [|by apply Hrun].
    apply pres_bind; [by apply pres_setup_ipset; apply _|intros _]. apply pres_for_each. intros.
    apply pres_connection; try apply _; eauto using one_run_enforce, one_run_limit, one_run_advance_runs.
    intros. apply pres_check_and_start; [apply _|]. intros. apply one_run_start.
Qed.

Lemma receiver_invariants_witness :
  let w' := (@run_ipc_receiver calm_env None None (λ _, f0) [0%Z]
               [mkIncoming (Some 0%Z) (λ _, 100%nat) (replicate 216 0%Z)] empty_world).2 in
  sources_ok (ddos_sources (w_state w')) ∧ one_run (w_db w').
Proof.
  apply (@receiver_invariants calm_env).
  - split_and!; [apply NoDup_nil_2|simpl; lia|constructor].
  - intros pid host. simpl. lia.
Defined.

(** ** Hysteresis *)

(** Everything sent out except an addition to ddos_blocklist. *)
Definition no_block (ev : event) : Prop := ∀ ip t r, ev ≠ EvCmd (IpsetAdd ddos_blocklist ip t) r.

#[global] Instance no_block_alert fs t0 : StAlert (trace_inv fs t0 no_block).
Proof. split; [|by intros ? []]. intros. apply trace_inv_emit; [|done]. by intros ? ? ?. Qed.

Lemma no_block_limit {E : Env} fs t0 ip dur v r c e :
  pres (trace_inv fs t0 no_block) (ratelimit_ip ip dur v r c e).
Proof.
  apply pres_ratelimit_ip; [apply _..|]. intros. apply trace_inv_emit; [|done]. by intros ? ? ?.
Qed.


(** A window of a flood that one source dominates. *)
Definition flood_window : Window :=
  mkWindow (flt 5 10) (flt 9000 1) (flt 3 1) (flt 100 1) (flt 2 10) (flt 10 1) (flt 1 1) (flt 95 100)
    (flt 1000000 1) (flt 1 1) f0 f0 f0 f0 f0 (flt 3 1) f0 (flt (-1) 1) (flt (-1) 1) f0 f0 f0 f0
    "203.0.113.9" "10.0.0.5".


(** The counter, and only [count_window] moves it. *)
Lemma count_window_counter c v w :
  consecutive_ddos_windows (w_state (count_window c v w).2) =
  <[v := if bool_decide (c = 2%Z) then (default 0 (consecutive_ddos_windows (w_state w) !! v) + 1)%Z
         else 0%Z]> (consecutive_ddos_windows (w_state w)).
Proof. by destruct w as [? []]. Qed.

(** An invariant of the counters. *)
Definition counters (P : gmap string Z → Prop) : World → Prop :=
  state_inv (λ s, P (consecutive_ddos_windows s)).

Section counters.
Context (P : gmap string Z → Prop).
Lemma counters_enforce : StEnforce (counters P).
Proof. split; [by intros ? ? [? []]|by intros ? ? ? ? ? [? []]]. Qed.
Lemma counters_recv : StRecv (counters P).
Proof. split; by intros ? [? []]. Qed.
End counters.
#[local] Existing Instances counters_enforce counters_recv.

Lemma goes_then {W A B} (I I' : W → Prop) (m : M W A) (k : A → M W B) :
  goes I I' m → (∀ a, pres I' (k a)) → goes I I' (m ≫= k).
Proof.
  intros Hm Hk w Hw. unfold mbind, M_bind. specialize (Hm w Hw).
  destruct (m w) as [[a|e] w'] eqn:E; simpl in *; [by apply Hk|done].
Qed.

(** What one window does to the counters. *)
Definition bump (v : string) (c : Z) (m : gmap string Z) : gmap string Z :=
  <[v := if bool_decide (c = 2%Z) then (default 0 (m !! v) + 1)%Z else 0%Z]> m.

Section counter_step.
Context {E : Env} (P : gmap string Z → Prop).

Lemma counters_block ip dur v r e : pres (counters P) (block_ip ip dur v r e).
Proof. apply pres_block_ip; [apply _..|]. by intros ? ? []. Qed.
Lemma counters_limit ip dur v r c e : pres (counters P) (ratelimit_ip ip dur v r c e).
Proof. apply pres_ratelimit_ip; [apply _..|]. by intros ? []. Qed.
Lemma counters_start v t c h s now : pres (counters P) (check_and_start_runs v t c h s now).
Proof. apply pres_check_and_start; [apply _|]. intros. apply pres_start_if_due_db; apply _. Qed.
Lemma counters_advance now : pres (counters P) (advance_runs now).
Proof.
  apply pres_advance_runs; try apply _; eauto using counters_block, counters_limit.
  - intros. eapply (pres_run_cmd _ (λ _, True)); [apply _..|done].
  - intros. apply pres_advance_playbook_run_db; apply _.
Qed.
End counter_step.

Lemma when_lat b k x w :
  ∃ w1, when b (lat_record k x) w = (Ok tt, w1) ∧ w_json w1 = w_json w ∧ w_state w1 = w_state w.
Proof. destruct b; [|by exists w]. exists (upd_latency (record k x) w). by destruct w. Qed.


(** The verdicts since the last one that was not DDoS. *)
Fixpoint trailing_ddos (rev_classes : list Z) : Z :=
  match rev_classes with
  | c :: cs => if bool_decide (c = 2%Z) then (1 + trailing_ddos cs)%Z else 0%Z
  | [] => 0%Z
  end.

(** From a victim's first window on, its counter is the length of the run of
    DDoS verdicts that ends now, whatever other victims' windows come in
    between. *)
Theorem counter_is_current_run windows v w :
  consecutive_ddos_windows (w_state w) !! v = None →
  default 0%Z (consecutive_ddos_windows
    (w_state (for_each windows (λ '(victim, c), count_window c victim) w).2) !! v) =
  trailing_ddos (reverse (List.filter (λ vc, bool_decide (vc.1 = v)) windows).*2).
Proof.
  intros Hv. assert (Hgen : ∀ windows w, default 0%Z (consecutive_ddos_windows
      (w_state (for_each windows (λ '(victim, c), count_window c victim) w).2) !! v) =
      foldl (λ n c, if bool_decide (c = 2%Z) then n + 1 else 0)%Z
        (default 0%Z (consecutive_ddos_windows (w_state w) !! v))
        (List.filter (λ vc, bool_decide (vc.1 = v)) windows).*2).
  { clear. induction windows as [|[u c] windows IH]; intros w; [done|]. cbn [for_each List.filter].
    unfold mbind, M_bind.
    assert (Hc : count_window c u w = (Ok tt, (count_window c u w).2)) by done.
    rewrite Hc, IH, count_window_counter. cbn [fst].
    destruct (decide (u = v)) as [->|Hne].
    - rewrite lookup_insert_eq, (bool_decide_eq_true_2 (v = v)) by done. done.
    - rewrite lookup_insert_ne, (bool_decide_eq_false_2 (u = v)) by done. done. }
  rewrite Hgen, Hv. cbn [default from_option].
  generalize ((List.filter (λ vc, bool_decide (vc.1 = v)) windows).*2) as cs. clear. intros cs.
  induction cs as [|c cs IH] using rev_ind; [done|].
  rewrite foldl_app, reverse_snoc. simpl. rewrite <-IH. case_bool_decide; lia.
Qed.

Lemma counter_is_current_run_witness :
  default 0%Z (consecutive_ddos_windows
    (w_state (for_each [("a", 2%Z); ("b", 0%Z); ("a", 2%Z)]%string
                (λ '(victim, c), count_window c victim) empty_world).2) !! "a"%string) =
  trailing_ddos (reverse (List.filter (λ vc, bool_decide (vc.1 = "a"%string))
                            [("a", 2%Z); ("b", 0%Z); ("a", 2%Z)]%string).*2).
Proof. apply counter_is_current_run. reflexivity. Defined.

(** ** The safety overrides *)

(** A configuration whose thresholds are numbers. *)
Definition cfg_typed (cfg : cfgdict) : Prop :=
  ∀ k, is_Some (dict_get k DEFAULT_ENFORCEMENT_CONFIG) → ∃ n, cfg_num cfg k = Ok n.

(** Why a window is an attack whatever the model said. *)
Definition override_ddos (cfg : cfgdict) (boundary ratio_limit ewma_rate mean_r sigma_r mean_h sigma_h
    dominant_rate entropy dominant_ip_ratio k : num) : bool :=
  nlt (nadd mean_r (nmul k sigma_r)) ewma_rate &&
  (nlt boundary dominant_rate || nlt entropy (nsub mean_h (nmul k sigma_h)) ||
   nlt ratio_limit dominant_ip_ratio).

(** C8: With numeric thresholds the overrides always return. They raise a Normal or
    Flash Crowd verdict to DDoS exactly for a rate anomaly that also has an
    extreme source, collapsed entropy or extreme concentration, raise Normal to
    Flash Crowd for any other rate anomaly, and never lower a verdict. The
    block bar they return is never below the configured floor, even when the
    baseline is NaN. *)
Theorem overrides_spec cfg c ewma mean_r sigma_r mean_h sigma_h dr entropy ratio k :
  cfg_typed cfg → (∀ f, cfg_num cfg "block_rate_floor_pps" = Ok f → is_nan f = false) →
  ∃ c' b fl lim,
    apply_safety_overrides c ewma mean_r sigma_r mean_h sigma_h dr entropy ratio k cfg = Ok (c', b) ∧
    cfg_num cfg "block_rate_floor_pps" = Ok fl ∧ nle fl b = true ∧
    cfg_num cfg "dominant_ip_ratio_extreme_threshold" = Ok lim ∧
    c' = (if bool_decide (c = 0%Z) || bool_decide (c = 1%Z) then
            if override_ddos cfg b lim ewma mean_r sigma_r mean_h sigma_h dr entropy ratio k then 2%Z
            else if nlt (nadd mean_r (nmul k sigma_r)) ewma then 1%Z else c
          else c).
Proof.
  intros Ht Hnan.
  destruct (Ht "block_rate_floor_pps"%string) as [fl Hfl]; [by eexists|].
  destruct (Ht "block_sigma_multiplier"%string) as [km Hkm]; [by eexists|].
  destruct (Ht "dominant_ip_ratio_extreme_threshold"%string) as [lim Hlim]; [by eexists|].
  set (b := py_max fl (nadd mean_r (nmul km sigma_r))).
  assert (Hb : block_boundary cfg mean_r sigma_r = Ok b).
  { unfold block_boundary. unfold cfg_num in Hfl at 1. destruct (cfg_get cfg "block_rate_floor_pps"); [|done].
    cbn in *. rewrite Hkm. cbn. by rewrite Hfl. }
  unfold apply_safety_overrides, override_ddos. rewrite Hb, Hlim. cbn [mbind res_bind].
  eexists _, b, fl, lim. split; [|split; [done|split; [by apply py_max_ge_l, Hnan|split; [done|reflexivity]]]].
  destruct (bool_decide (c = 0%Z) || bool_decide (c = 1%Z)); cbn [andb]; [|done].
  destruct (nlt _ ewma); cbn [andb]; [|done].
  destruct (nlt b dr); cbn [orb]; [done|]. destruct (nlt entropy _); cbn [orb]; [done|].
  by destruct (nlt lim ratio).
Qed.

Lemma default_cfg_typed : cfg_typed DEFAULT_ENFORCEMENT_CONFIG.
Proof.
  intros k [v Hv]. unfold cfg_num, cfg_get. rewrite Hv. revert Hv.
  unfold DEFAULT_ENFORCEMENT_CONFIG. cbn [dict_get]. repeat case_decide; intros [= <-]; by eexists.
Qed.

Lemma overrides_spec_witness :
  ∃ c' b fl lim,
    apply_safety_overrides 0 (flt 9000 1) (flt 100 1) (flt 10 1) (flt 3 1) (flt 2 10) (flt 8500 1)
      (flt 5 10) (flt 95 100) (flt 3 1) DEFAULT_ENFORCEMENT_CONFIG = Ok (c', b) ∧
    cfg_num DEFAULT_ENFORCEMENT_CONFIG "block_rate_floor_pps" = Ok fl ∧ nle fl b = true ∧
    cfg_num DEFAULT_ENFORCEMENT_CONFIG "dominant_ip_ratio_extreme_threshold" = Ok lim ∧
    c' = (if override_ddos DEFAULT_ENFORCEMENT_CONFIG b lim (flt 9000 1) (flt 100 1) (flt 10 1) (flt 3 1)
                 (flt 2 10) (flt 8500 1) (flt 5 10) (flt 95 100) (flt 3 1) then 2%Z
          else if nlt (nadd (flt 100 1) (nmul (flt 3 1) (flt 10 1))) (flt 9000 1) then 1%Z else 0%Z).
Proof.
  apply (overrides_spec DEFAULT_ENFORCEMENT_CONFIG 0); [apply default_cfg_typed|].
  intros f [= <-]. reflexivity.
Defined.
