(* ===== verification/TierFacts.v ===== *)
(** * What the tiers reach

    A DDoS window with flow data never goes unhandled: the tiers return, every
    source at or above the rate-limit bar is acted on, and when no single
    source qualifies all of them are. Acting on an address is observed in
    [recently_blocked], which every block and rate-limit call stamps, and which
    a debounced call finds stamped already. *)

From S2P Require Import Prelude PyNum PyStr Json World Storage Config Alerts Db Enforcement.
From S2P Require Import EnforcementFacts Playbooks PlaybooksFacts Latency Wire Capture Receiver ReceiverFacts.

(** The address was acted on in this window or in the last ten seconds. *)
Definition handled (ip : string) : World → Prop :=
  state_inv (λ s, is_Some (recently_blocked s !! ip)).

Lemma handled_enforce ip : StEnforce (handled ip).
Proof.
  split; [|by intros ? ? ? ? ? [? []]]. intros j t [? []] [x Hx]. unfold handled, state_inv. simpl in *.
  destruct (decide (j = ip)) as [->|Hne]; [by rewrite lookup_insert_eq|]. rewrite lookup_insert_ne by done.
  by exists x.
Qed.
#[export] Existing Instance handled_enforce.
Lemma handled_recv ip : StRecv (handled ip).
Proof. split; by intros ? [? []]. Qed.
#[export] Existing Instance handled_recv.

Section tiers.
Context {E : Env}.

Lemma handled_mark ip t w : handled ip (mark_acted ip t w).
Proof. destruct w as [? []]. unfold handled, state_inv. simpl. by rewrite lookup_insert_eq. Qed.

Lemma handled_debounced ip t w :
  debounced (recently_blocked (w_state w)) ip t = true → handled ip w.
Proof. unfold debounced, handled, state_inv. destruct (_ !! ip); [eauto|done]. Qed.

Lemma tick_state w : w_state (tick w) = w_state w.
Proof. by destruct w. Qed.

(** Both actions return and leave the address stamped. *)
Lemma block_ip_runs ip dur v r e w : runs (block_ip ip dur v r e) w (λ _, handled ip).
Proof.
  unfold block_ip. apply runs_bind. exists (clk (w_ticks w)), (tick w). split; [done|].
  apply runs_bind, runs_gets.
  destruct (debounced _ _ _) eqn:Hd; [by apply runs_ret; eapply handled_debounced|].
  apply runs_bind, runs_gets.
  match goal with |- runs (try_finally (try_all ?m ?k) ?f) ?u _ =>
    destruct (try_all_ok m tt u) as [[] Hok]; unfold runs, try_finally; destruct (try_all m k u) as [o u'] end.
  simpl in Hok. subst. eexists _, _. split; [done|]. apply handled_mark.
Qed.

Lemma ratelimit_ip_runs ip dur v r c e w : runs (ratelimit_ip ip dur v r c e) w (λ _, handled ip).
Proof.
  unfold ratelimit_ip. apply runs_bind. exists (clk (w_ticks w)), (tick w). split; [done|].
  apply runs_bind, runs_gets.
  destruct (debounced _ _ _) eqn:Hd; [by apply runs_ret; eapply handled_debounced|].
  apply runs_bind, runs_gets.
  match goal with |- runs (try_finally (try_all ?m ?k) ?f) ?u _ =>
    destruct (try_all_ok m tt u) as [[] Hok]; unfold runs, try_finally; destruct (try_all m k u) as [o u'] end.
  simpl in Hok. subst. eexists _, _. split; [done|]. apply handled_mark.
Qed.

Lemma handled_block j ip dur v r e : pres (handled j) (block_ip ip dur v r e).
Proof. apply pres_block_ip; [apply _..|]. by intros ? ? []. Qed.
Lemma handled_limit j ip dur v r c e : pres (handled j) (ratelimit_ip ip dur v r c e).
Proof. apply pres_ratelimit_ip; [apply _..|]. by intros ? []. Qed.

Lemma timed_runs ts m w (P : World → Prop) `{!StEnv P} :
  runs m (tick w) (λ _, P) → runs (_timed_enforcement ts m) w (λ _, P).
Proof.
  intros Hm. unfold _timed_enforcement. apply runs_bind. eexists _, _. split; [done|].
  apply runs_bind. eapply runs_impl; [exact Hm|]. intros [] w1 H1.
  apply runs_bind. eexists _, _. split; [done|].
  apply runs_bind, runs_modify, runs_bind, runs_modify, runs_modify.
  by apply st_latency, st_latency, st_steps, st_ticks.
Qed.

Lemma dispatch_runs s m c w (P : World → Prop) `{!StAlert P} :
  P w → runs (dispatch_alert s m c) w (λ _, P).
Proof.
  intros Hw. unfold dispatch_alert. apply runs_bind, runs_modify, runs_bind, runs_gets.
  case_match; [apply runs_modify; by apply st_alertq, st_emit_alert|].
  apply runs_ret. by apply st_emit_alert.
Qed.

Section window.
Context (wd : Window) (v : string) (cfg : cfgdict) (Hcfg : cfg_typed cfg).

Lemma cfg_num_get k n : cfg_num cfg k = Ok n → ∃ j, cfg_get cfg k = Ok j.
Proof. unfold cfg_num. destruct (cfg_get cfg k); [eauto|done]. Qed.

Lemma cfg_typed_get k : is_Some (dict_get k DEFAULT_ENFORCEMENT_CONFIG) → ∃ j, cfg_get cfg k = Ok j.
Proof using Hcfg. intros [n Hn]%Hcfg. by eapply cfg_num_get. Qed.

Lemma tier_limit_runs ip r w : runs (tier_limit wd v cfg ip r) w (λ _, handled ip).
Proof using Hcfg.
  unfold tier_limit. destruct (cfg_typed_get "ratelimit_duration_seconds") as [d Hd]; [by eexists|].
  apply runs_bind. eapply runs_lift; [exact Hd|]. apply timed_runs; [apply _|].
  apply ratelimit_ip_runs.
Qed.

Lemma tier_block_runs t ip r w :
  runs (tier_block wd v cfg t ip r) w (λ _, handled ip).
Proof using Hcfg.
  unfold tier_block. destruct (cfg_typed_get "block_duration_seconds") as [d Hd]; [by eexists|].
  destruct (Hcfg "block_duration_seconds"%string) as [n Hn]; [by eexists|].
  apply runs_bind. eapply runs_lift; [exact Hd|]. apply runs_bind.
  eapply runs_impl; [apply (timed_runs _ _ _ (handled ip)), block_ip_runs|]. intros [] w1 H1.
  apply runs_bind. unfold _maybe_alert_block.
  apply runs_bind. eexists _, _. split; [done|]. apply runs_bind, runs_gets.
  apply runs_bind. eapply runs_lift; [exact Hn|].
  assert (H2 : handled ip (tick w1)) by by apply st_ticks.
  destruct (nlt _ n).
  - apply runs_ret, runs_modify. by apply st_last_tier.
  - apply runs_bind, runs_modify. eapply runs_impl.
    + apply (dispatch_runs _ _ _ _ (handled ip)). by apply st_last_block.
    + intros [] w2 Hw2. apply runs_modify. by apply st_last_tier.
Qed.

(** Whoever was handled before stays so. *)
Lemma tier_limit_keeps j ip r : pres (handled j) (tier_limit wd v cfg ip r).
Proof. apply pres_tier_limit; [apply _..|]. intros. apply handled_limit. Qed.
Lemma tier_block_keeps j t ip r : pres (handled j) (tier_block wd v cfg t ip r).
Proof. apply pres_tier_block; [apply _..|]. intros. apply handled_block. Qed.

Definition all_handled (acted : gset string) (w : World) : Prop := ∀ ip, ip ∈ acted → handled ip w.

(** An action that handles [ip] and keeps the others. *)
Lemma act_runs (m : M World unit) ip acted w :
  runs m w (λ _, handled ip) → (∀ j, pres (handled j) m) → all_handled acted w →
  runs m w (λ _, all_handled ({[ip]} ∪ acted)).
Proof.
  intros (a & w' & Hm & Hip) Hk Hacted. exists a, w'. split; [done|].
  intros j [->%elem_of_singleton|Hj]%elem_of_union; [done|].
  specialize (Hk j w (Hacted j Hj)). by rewrite Hm in Hk.
Qed.

(** The loop of a tier: what it adds to [acted_on] is exactly the sources
    at or above the bar, and all of it is handled. *)
Definition loop_post (bar : num) (rates : list (string * num)) (acted : gset string)
    (acted' : gset string) (w' : World) : Prop :=
  all_handled acted' w' ∧
  ∀ ip, ip ∈ acted' ↔ ip ∈ acted ∨ ∃ r, (ip, r) ∈ rates ∧ nge r bar = true.

Lemma loop_post_skip bar ip r rates acted acted' w' :
  ip ∈ acted ∨ nge r bar = false →
  loop_post bar rates acted acted' w' → loop_post bar ((ip, r) :: rates) acted acted' w'.
Proof.
  intros Hskip [H1 H2]. split; [done|]. intros j. rewrite H2. split.
  - intros [?|(q & Hq & ?)]; [by left|right; exists q; split; [by right|done]].
  - intros [?|(q & Hq & Hb)]; [by left|].
    apply elem_of_cons in Hq as [[= -> ->]|Hq]; [|eauto].
    destruct Hskip; [by left|congruence].
Qed.

Lemma loop_post_act bar ip r rates acted acted' w' :
  nge r bar = true →
  loop_post bar rates ({[ip]} ∪ acted) acted' w' → loop_post bar ((ip, r) :: rates) acted acted' w'.
Proof.
  intros Hact [H1 H2]. split; [done|]. intros j. rewrite H2, elem_of_union, elem_of_singleton. split.
  - intros [[->|?]|(q & Hq & ?)]; [right; exists r; split; [left|done]|by left|].
    right. exists q. split; [by right|done].
  - intros [?|(q & Hq & Hb)]; [by left; right|].
    apply elem_of_cons in Hq as [[= -> ->]|Hq]; [by left; left|eauto].
Qed.

Lemma tier2_runs bt rates acted w :
  all_handled acted w → runs (tier2 wd v cfg bt rates acted) w (loop_post bt rates acted).
Proof using Hcfg.
  revert acted w. induction rates as [|[ip r] rates IH]; intros acted w Ha; cbn [tier2].
  { apply runs_ret. split; [done|]. intros ip. split; [by left|]. intros [?|(? & []%elem_of_nil & _)]; done. }
  case_bool_decide as Hin.
  { eapply runs_impl; [by apply IH|]. intros a' w'. apply loop_post_skip. by left. }
  destruct (nge r bt) eqn:Hb.
  - apply runs_bind. eapply runs_impl.
    + apply (act_runs _ ip acted); [apply tier_block_runs|intros; apply tier_block_keeps|done].
    + intros [] w1 H1. eapply runs_impl; [by apply IH|]. intros a' w'. by apply loop_post_act.
  - eapply runs_impl; [by apply IH|]. intros a' w'. apply loop_post_skip. by right.
Qed.

Lemma reach_tier_keeps j t : pres (handled j) (reach_tier v t).
Proof. apply pres_modify. intros w. apply st_last_tier. Qed.

Lemma tier3_runs ft rates acted w :
  all_handled acted w → runs (tier3 wd v cfg ft rates acted) w (loop_post ft rates acted).
Proof using Hcfg.
  revert acted w. induction rates as [|[ip r] rates IH]; intros acted w Ha; cbn [tier3].
  { apply runs_ret. split; [done|]. intros ip. split; [by left|]. intros [?|(? & []%elem_of_nil & _)]; done. }
  case_bool_decide as Hin.
  { eapply runs_impl; [by apply IH|]. intros a' w'. apply loop_post_skip. by left. }
  destruct (nge r ft) eqn:Hb.
  - apply runs_bind. eapply runs_impl.
    + apply (act_runs _ ip acted); [apply tier_limit_runs|intros; apply tier_limit_keeps|done].
    + intros [] w1 H1. apply runs_bind, runs_modify. eapply runs_impl; [apply IH|].
      * intros j Hj. by apply st_last_tier, H1.
      * intros a' w'. by apply loop_post_act.
  - eapply runs_impl; [by apply IH|]. intros a' w'. apply loop_post_skip. by right.
Qed.

Lemma limit_all_runs rates acted w :
  all_handled acted w →
  runs (for_each rates (λ '(ip, r), tier_limit wd v cfg ip r)) w
       (λ _, all_handled (list_to_set rates.*1 ∪ acted)).
Proof using Hcfg.
  revert acted w. induction rates as [|[ip r] rates IH]; intros acted w Ha; cbn [for_each].
  { apply runs_ret. intros j. rewrite elem_of_union. simpl. intros [?%elem_of_empty|?]; [done|auto]. }
  apply runs_bind. eapply runs_impl.
  - apply (act_runs _ ip acted); [apply tier_limit_runs|intros; apply tier_limit_keeps|done].
  - intros [] w1 H1. eapply runs_impl; [by apply IH|]. intros [] w2 H2 j Hj. apply H2. set_solver.
Qed.

Lemma tier1_runs ready w :
  runs (tier1 wd v cfg ready) w (λ acted w',
    all_handled acted w' ∧ acted ⊆ {[wd_ip_str wd]} ∧ (ready = false → acted = ∅)).
Proof using Hcfg.
  assert (Hnone : ∀ u, all_handled ∅ u ∧ (∅ : gset string) ⊆ {[wd_ip_str wd]} ∧ (ready = false → (∅ : gset string) = ∅)).
  { intros u. split_and!; [by intros ? ?%elem_of_empty|apply empty_subseteq|done]. }
  unfold tier1. destruct ready; cbn [negb]; [|by apply runs_ret].
  destruct (Hcfg "dominant_ip_ratio_block_threshold"%string) as [n Hn]; [by eexists|].
  apply runs_bind. eapply runs_lift; [exact Hn|].
  destruct (_ && _); [|by apply runs_ret].
  apply runs_bind. eapply runs_impl; [apply tier_block_runs|]. intros [] w1 H1.
  apply runs_ret. split_and!; [by intros ? ->%elem_of_singleton|done|done].
Qed.

(** Tier 2, or nothing while blocks are held back. *)
Lemma tier2_if_ready bt (ready : bool) rates acted w :
  all_handled acted w →
  runs (if ready then tier2 wd v cfg bt rates acted else mret acted) w (λ acted' w',
    all_handled acted' w' ∧ (∀ ip, ip ∈ acted' → ip ∈ acted ∨ ip ∈ rates.*1) ∧
    (ready = false → acted' = acted)).
Proof using Hcfg.
  intros Ha. destruct ready.
  - eapply runs_impl; [by apply tier2_runs|]. intros a' w' [H1 H2]. split_and!; [done| |done].
    intros ip [?|(r & Hr & _)]%H2; [by left|right]. apply list_elem_of_fmap. by exists (ip, r).
  - apply runs_ret. split_and!; [done|by left|done].
Qed.

(** Tier 4 limits everyone when nobody was acted on. *)
Lemma tier4_runs rates acted w :
  all_handled acted w →
  runs (tier4 wd v cfg rates acted) w (λ _ w',
    all_handled acted w' ∧ (acted = ∅ → ∀ ip, ip ∈ rates.*1 → handled ip w')).
Proof using Hcfg.
  intros Ha. unfold tier4. case_bool_decide as Hempty; cbn [andb]; [|by apply runs_ret].
  destruct (bool_decide (rates = [])) eqn:Hr; cbn [negb].
  { apply bool_decide_eq_true in Hr as ->. apply runs_ret. split; [done|]. intros _ ip []%elem_of_nil. }
  apply runs_bind. eapply runs_impl; [by apply (dispatch_runs _ _ _ _ (state_inv (λ _, True)))|].
  intros [] w1 _. apply runs_bind. eapply runs_impl.
  { apply (limit_all_runs rates ∅). by intros ? ?%elem_of_empty. }
  intros [] w2 H2. apply runs_modify. split.
  - subst acted. by intros ? ?%elem_of_empty.
  - intros _ ip Hip. apply st_last_tier, H2. set_solver.
Qed.

(** What the tiers have handled when they return. *)
Definition tiers_post (ft : num) (ready : bool) (rates : list (string * num)) (w' : World) : Prop :=
  (∀ ip r, (ip, r) ∈ rates → nge r ft = true → handled ip w') ∧
  (rates ≠ [] → ∃ ip, (ip = wd_ip_str wd ∨ ip ∈ rates.*1) ∧ handled ip w') ∧
  (ready = false → (∀ ip r, (ip, r) ∈ rates → nge r ft = false) →
   ∀ ip, ip ∈ rates.*1 → handled ip w').

Lemma run_tiers_runs bt ft ready rates w :
  runs (run_tiers wd v cfg bt ft ready rates) w (λ _, tiers_post ft ready rates).
Proof using Hcfg.
  unfold run_tiers. apply runs_bind. eapply runs_impl; [apply tier1_runs|].
  intros a1 w1 (Ha1 & Hs1 & Hr1). apply runs_bind.
  eapply runs_impl; [by apply tier2_if_ready|]. intros a2 w2 (Ha2 & Hs2 & Hr2).
  apply runs_bind. eapply runs_impl; [by apply tier3_runs|]. intros a3 w3 [Ha3 H3].
  eapply runs_impl; [by apply tier4_runs|]. intros [] w4 [Ha4 H4].
  assert (Hsrc : ∀ ip, ip ∈ a3 → ip = wd_ip_str wd ∨ ip ∈ rates.*1).
  { intros ip [[?%Hs1|?]%Hs2|(r & Hr & _)]%H3; [set_solver|by right|right].
    apply list_elem_of_fmap. by exists (ip, r). }
  split_and!.
  - intros ip r Hin Hge. apply Ha4, H3. right. eauto.
  - intros Hne. destruct (set_choose_or_empty a3) as [[ip Hip]|Hemp].
    + exists ip. split; [by apply Hsrc|by apply Ha4].
    + destruct rates as [|[ip r] rates]; [done|]. exists ip. split; [right; left|].
      apply H4; [by apply leibniz_equiv|left].
  - intros Hready Hlow. apply H4. apply leibniz_equiv, elem_of_equiv_empty. intros ip Hip.
    apply H3 in Hip as [Hip|(r & Hin & Hge)]; [|by rewrite (Hlow ip r Hin) in Hge].
    rewrite (Hr2 Hready), (Hr1 Hready) in Hip. by apply elem_of_empty in Hip.
Qed.
End window.

End tiers.

Definition flood_snapshot : json :=
  JObj [("timestamp", JNum (NInt 1000000));
        ("active_ips", JArr [JObj [("ip", JStr "203.0.113.9"); ("dst", JStr "10.0.0.5");
                                   ("rate", JNum (NInt 8000))]])]%string.
Definition flood_world : World := set_json {[FLOWS_PATH := JText (JGood flood_snapshot)]} empty_world.

