(* ===== verification/WindowAlerts.v ===== *)
(** * What the operator is told

    The DDoS Detected and Resolved alerts follow the verdicts edge by edge.
    Two places where the report and the action differ: an "IP Blocked" alert
    goes out for an address block_ip refused to block, and a DDoS verdict whose
    dominant sender is unknown is left without any action. *)

From S2P Require Import Prelude PyNum PyStr Json World Storage Config Alerts Db Enforcement.
From S2P Require Import EnforcementFacts Playbooks PlaybooksFacts Latency Wire Capture Receiver ReceiverFacts TierFacts.

(** ** Transitions *)

Definition DETECTED : string := "FLOD System: DDoS Detected".
Definition RESOLVED : string := "FLOD System: DDoS Resolved".

Definition subjects (evs : list event) : list string :=
  omap (λ ev, match ev with EvAlert s _ _ => Some s | EvCmd _ _ => None end) evs.

Definition is_ddos (name : string) : bool := bool_decide (name = "DDoS"%string).

(** The edges of a sequence of verdicts, [under] attack before it. *)
Fixpoint edges (under : bool) (names : list string) : list string :=
  match names with
  | [] => []
  | n :: ns =>
      (if is_ddos n && negb under then [DETECTED]
       else if negb (is_ddos n) && under then [RESOLVED] else []) ++ edges (is_ddos n) ns
  end.

(** Alerts that take turns, beginning with the one that ends the state. *)
Fixpoint take_turns (under : bool) (subs : list string) : Prop :=
  match subs with
  | [] => True
  | s :: ss => s = (if under then RESOLVED else DETECTED) ∧ take_turns (negb under) ss
  end.

Lemma edges_take_turns under names : take_turns under (edges under names).
Proof.
  revert under. induction names as [|n ns IH]; intros under; simpl; [done|].
  specialize (IH (is_ddos n)). by destruct (is_ddos n), under.
Qed.

Definition under_attack (victim : string) (w : World) : bool :=
  bool_decide (last_classification_by_target (w_state w) !! victim = Some "DDoS"%string).

Lemma dispatch_trace s m w :
  (dispatch_alert s m "all" w).1 = Ok tt ∧
  w_trace (dispatch_alert s m "all" w).2 = w_trace w ++ [EvAlert s m "all"] ∧
  w_state (dispatch_alert s m "all" w).2 = w_state w.
Proof.
  unfold dispatch_alert, modify, gets, mbind, M_bind. simpl.
  by destruct (_ <? _)%nat; destruct w; simpl.
Qed.

Lemma alert_transition_spec wd victim n w :
  let w' := (alert_transition wd victim n w).2 in
  (alert_transition wd victim n w).1 = Ok tt ∧ under_attack victim w' = is_ddos n ∧
  ∃ sent, w_trace w' = w_trace w ++ sent ∧ subjects sent = edges (under_attack victim w) [n].
Proof.
  assert (Hset : ∀ u, under_attack victim (upd_state (upd_last_class (<[victim := n]>)) u) = is_ddos n ∧
                      w_trace (upd_state (upd_last_class (<[victim := n]>)) u) = w_trace u).
  { intros [? []]. unfold under_attack, is_ddos. simpl. rewrite lookup_insert_eq. split; [|done].
    apply bool_decide_ext. split; congruence. }
  unfold alert_transition, mbind, M_bind, gets. cbv zeta. fold (is_ddos n) (under_attack victim w).
  cbn [edges]. rewrite app_nil_r.
  destruct (is_ddos n && negb (under_attack victim w)) eqn:H1.
  - match goal with |- context [dispatch_alert ?s ?m "all" w] =>
      destruct (dispatch_trace s m w) as (Hok & Htr & _); destruct (dispatch_alert s m "all" w) as [o u] end.
    simpl in Hok, Htr. subst o. unfold modify. simpl. destruct (Hset u) as [-> ->].
    split_and!; [done|done|]. eexists. by rewrite Htr.
  - destruct (negb (is_ddos n) && under_attack victim w) eqn:H2.
    + match goal with |- context [dispatch_alert ?s ?m "all" w] =>
        destruct (dispatch_trace s m w) as (Hok & Htr & _); destruct (dispatch_alert s m "all" w) as [o u] end.
      simpl in Hok, Htr. subst o. unfold modify. simpl. destruct (Hset u) as [-> ->].
      split_and!; [done|done|]. eexists. by rewrite Htr.
    + unfold modify. simpl. destruct (Hset w) as [-> ->]. split_and!; [done|done|].
      exists []. by rewrite app_nil_r.
Qed.


(** ** An alert without a block *)

Definition no_alert_yet (ip : string) : World → Prop :=
  state_inv (λ s, last_block_alert s !! ip = None).

Lemma no_alert_enforce ip : StEnforce (no_alert_yet ip).
Proof. split; [by intros ? ? [? []]|by intros ? ? ? ? ? [? []]]. Qed.
#[local] Existing Instance no_alert_enforce.

(** Tiers 1 and 2 announce "IP Blocked" for a whitelisted address although
    nothing is added to any set for it. *)
Theorem blocked_alert_for_whitelisted {E : Env} wd victim cfg tier ip rate w dur :
  cfg_num cfg "block_duration_seconds" = Ok dur →
  whitelisted (w_json w) ip → last_block_alert (w_state w) !! ip = None →
  (∀ n, nlt (nsub (clk n) (NInt 0)) dur = false) →
  ∃ sent msg, w_trace (tier_block wd victim cfg tier ip rate w).2 = w_trace w ++ sent ∧
    EvAlert "FLOD System: IP Blocked" msg "all" ∈ sent ∧
    (∀ s, Forall (not_added s ip) sent).
Proof.
  intros Hdur Hwl Hnone Hclk.
  set (I := trace_inv (w_json w) (w_trace w) (respects (w_json w))).
  assert (Hall : pres I (tier_block wd victim cfg tier ip rate)).
  { apply pres_tier_block; [apply _..|]. intros. apply respects_block_ip. }
  destruct (Hall w (trace_inv_init _ _ _ (reflexivity _))) as (_ & sent & Hsent & Hresp).
  enough (Hin : ∃ l1 msg l2, sent = l1 ++ EvAlert "FLOD System: IP Blocked" msg "all" :: l2).
  { destruct Hin as (l1 & msg & l2 & ->). exists (l1 ++ EvAlert "FLOD System: IP Blocked" msg "all" :: l2), msg.
    split_and!; [done|set_solver|]. intros s. eapply Forall_impl; [exact Hresp|].
    intros ev [H _]. by apply H. }
  assert (Hd : ∃ j, cfg_get cfg "block_duration_seconds" = Ok j).
  { unfold cfg_num in Hdur. destruct (cfg_get cfg "block_duration_seconds"); [eauto|done]. }
  destruct Hd as [j Hj].
  set (act := block_ip ip j (Some victim) (Some rate) (Some (wd_entropy wd))).
  assert (Hpre : runs (_timed_enforcement (wd_timestamp wd) act) w (λ _ w1, I w1 ∧ no_alert_yet ip w1)).
  { assert (Hr : runs (_timed_enforcement (wd_timestamp wd) act) w (λ _, handled ip)).
    { apply (timed_runs _ _ _ (handled ip)), block_ip_runs. }
    apply (runs_pres I) in Hr; [|by apply pres_timed; [apply _..|apply respects_block_ip]|by apply trace_inv_init].
    apply (runs_pres (no_alert_yet ip)) in Hr; [| |done].
    - eapply runs_impl; [exact Hr|]. by intros [] w1 [[_ ?] ?].
    - apply pres_timed; [apply _..|]. apply pres_block_ip; [apply _..|]. by intros ? ? []. }
  destruct Hpre as ([] & w1 & Ht & (_ & l1 & Hl1 & _) & Hna).
  revert Hsent. unfold tier_block, mbind, M_bind, lift. rewrite Hj. fold act. rewrite Ht.
  unfold _maybe_alert_block, mbind, M_bind, time_time, gets, lift. rewrite Hdur.
  assert (Hs1 : w_state (tick w1) = w_state w1) by by destruct w1.
  rewrite Hs1, (Hna : _ = None). cbn [default from_option]. rewrite Hclk. unfold modify.
  match goal with |- context [dispatch_alert ?s ?m "all" ?u] =>
    destruct (dispatch_trace s m u) as (Hok & Htr & _); destruct (dispatch_alert s m "all" u) as [o w2];
    intros Hsent; exists l1, m, [] end.
  simpl in Hok, Htr. subst o. unfold reach_tier, modify in Hsent. simpl in Hsent.
  apply (app_inv_head (w_trace w)). rewrite <-Hsent.
  transitivity (w_trace w2); [by destruct w2|]. rewrite Htr.
  replace (w_trace (upd_state _ (tick w1))) with (w_trace w1) by by destruct w1.
  by rewrite Hl1, app_assoc.
Qed.

(** ** A DDoS verdict with nobody to attribute it to *)

(** When the dominant sender is a sentinel a DDoS verdict takes no action at
    all, neither the per-source tiers nor the aggregate fallback, whatever the
    flow snapshot holds. *)
Theorem unattributed_ddos_ignored {E : Env} wd victim cfg vd w :
  vd_class vd = 2%Z → is_sentinel (wd_ip_str wd) = true → enforce wd victim cfg vd w = (Ok tt, w).
Proof.
  intros Hc Hs. unfold enforce, enforce_ddos, dominant_ip_known. rewrite Hc, Hs. done.
Qed.

Definition whitelist_world : World :=
  set_json {[WHITELIST_PATH := JText (JGood (JArr [JStr "203.0.113.9"]))]} empty_world.

Lemma blocked_alert_for_whitelisted_witness :
  ∃ sent msg, w_trace (@tier_block still_env flood_window "10.0.0.5" DEFAULT_ENFORCEMENT_CONFIG 1
                         "203.0.113.9" (flt 8500 1) whitelist_world).2 = w_trace whitelist_world ++ sent ∧
    EvAlert "FLOD System: IP Blocked" msg "all" ∈ sent ∧
    (∀ s, Forall (not_added s "203.0.113.9") sent).
Proof.
  eapply (@blocked_alert_for_whitelisted still_env); [reflexivity|by eexists|reflexivity|reflexivity].
Defined.

Lemma unattributed_ddos_ignored_witness :
  @enforce calm_env (mkWindow f0 f0 f0 f0 f0 f0 f0 f0 f0 f0 f0 f0 f0 f0 f0 f0 f0 f0 f0 f0 f0 f0 f0 "::" "::")
    "10.0.0.5" DEFAULT_ENFORCEMENT_CONFIG (mkVerdict 2 "DDoS" f0) flood_world = (Ok tt, flood_world).
Proof. apply (@unattributed_ddos_ignored calm_env); reflexivity. Defined.
