(* ===== verification/PlaybookRuns.v ===== *)
(** * The playbook engine over time

    What a pass of [advance_runs] does to the table of runs when the disk and
    the database work, as a function of one row; that every run then completes;
    and the definition that keeps all runs behind it from ever moving. *)

From S2P Require Import Prelude PyNum PyStr Json World Storage Config Alerts Db Enforcement.
From S2P Require Import EnforcementFacts Playbooks PlaybooksFacts Receiver ReceiverFacts TierFacts.

(** ** One pass, row by row *)

(** The definition the engine works with: [None] when the playbook is gone or
    its definition is not valid. *)
Definition definition_of (pbs : list Playbook) (playbook_id : Z) : option json :=
  match head (List.filter (λ p, pb_id p =? playbook_id)%Z pbs) with
  | Some p => match stored_definition (pb_definition p) with Ok o => o | Exn _ => None end
  | None => None
  end.
Definition stages_of (d : json) : list json := match doc_list "stages" d with Ok ss => ss | Exn _ => [] end.
Definition delay_of (stage : json) : num :=
  match (j ← stage_get stage "delay_seconds" (JNum (NInt 0)); as_num j) with Ok n => n | Exn _ => NInt 0 end.

(** Where a pass at [now] takes a run: [None] leaves it, [Some None] completes it. *)
Definition next_stage (pbs : list Playbook) (now : num) (r : PlaybookRun) : option (option Z) :=
  d ← definition_of pbs (rn_playbook_id r);
  match stages_of d !! Z.to_nat (rn_stage_index r) with
  | None => Some None
  | Some s =>
      if nlt (nsub now (rn_updated_at r)) (delay_of s) then None
      else Some (if (rn_stage_index r + 1 <? Z.of_nat (length (stages_of d)))%Z then Some (rn_stage_index r + 1)%Z else None)
  end.
Definition moved (pbs : list Playbook) (now : num) (x r : PlaybookRun) : PlaybookRun :=
  match next_stage pbs now x with Some n => advance_run (rn_id x) n now r | None => r end.
Definition pass_run (pbs : list Playbook) (now : num) (r : PlaybookRun) : PlaybookRun :=
  if bool_decide (rn_status r = Running) then moved pbs now r r else r.

(** ** What the engine needs *)

(** An escalate stage whose tier, if given, is a number. *)
Definition typed_stage (s : json) : Prop :=
  ∀ l, s = JObj l → dict_get "type" l = Some (JStr "escalate") →
       ∃ n, as_num (default (JNum (NInt 1)) (dict_get "target_tier" l)) = Ok n.
Definition runnable (d : json) : Prop := wf_definition d ∧ Forall typed_stage (stages_of d).

(** Each running run is at a stage of its playbook, which is gone, invalid or runnable. *)
Definition run_ready (pbs : list Playbook) (r : PlaybookRun) : Prop :=
  rn_status r = Running → (0 ≤ rn_stage_index r)%Z ∧
  ∀ p, head (List.filter (λ p, pb_id p =? rn_playbook_id r)%Z pbs) = Some p →
       ∃ o, stored_definition (pb_definition p) = Ok o ∧ ∀ d, o = Some d → runnable d.

Section engine.
Context {E : Env} (cfg : list (string * json)) (pbs : list Playbook).

Definition at_rows (rows : list PlaybookRun) (w : World) : Prop :=
  w_json w !! ENFORCEMENT_CONFIG_PATH = Some (JText (JGood (JObj cfg))) ∧
  tb_rows (db_playbooks (w_db w)) = pbs ∧ tb_rows (db_runs (w_db w)) = rows.

#[global] Instance at_rows_env rows : StEnv (at_rows rows).
Proof.
  split; try (by intros ? []).
  intros p j [] Hp (Hc & H). split; [|done]. simpl in *. rewrite lookup_insert_ne; [done|]. intros ->. congruence.
Qed.
#[global] Instance at_rows_alert rows : StAlert (at_rows rows).
Proof. split; [by intros ? ? ? []|by intros ? []]. Qed.
#[global] Instance at_rows_cmd P rows : StCmd P (at_rows rows).
Proof. by intros ? ? []. Qed.
#[global] Instance at_rows_state rows : StState (at_rows rows).
Proof. by intros ? []. Qed.
#[global] Instance at_rows_logs rows : StLogs (at_rows rows).
Proof. by intros u [? ? ? ? ? []]. Qed.
#[global] Instance at_rows_events rows : StEvents (at_rows rows).
Proof. by intros u [? ? ? ? ? []]. Qed.

Hypothesis (disk_works : ∀ n, io_ok n = true) (clock_ticks : ∀ n, ∃ z, py_int (clk n) = Ok z).

(** ** A stage returns *)

Lemma config_runs rows w :
  at_rows rows w → get_enforcement_config w = (Ok (dict_update DEFAULT_ENFORCEMENT_CONFIG cfg), w).
Proof using.
  intros (Hc & _). unfold get_enforcement_config, mbind, M_bind. by rewrite (load_json_file_good _ _ (JObj cfg) w Hc).
Qed.

Lemma config_key k : is_Some (dict_get k DEFAULT_ENFORCEMENT_CONFIG) →
  ∃ j, cfg_get (dict_update DEFAULT_ENFORCEMENT_CONFIG cfg) k = Ok j.
Proof.
  intros [j Hj]%(dict_get_update _ cfg). unfold cfg_get. rewrite Hj. by exists j.
Qed.

Lemma escalate_runs l host src rows w :
  typed_stage (JObj l) → dict_get "type" l = Some (JStr "escalate") → at_rows rows w →
  runs (_execute_escalate (JObj l) host src) w (λ _ _, True).
Proof.
  intros Hs Hl Hw. unfold _execute_escalate. destruct (attributable src) as [s|]; [|by apply runs_ret].
  destruct (Hs l eq_refl Hl) as [n Hn].
  apply runs_bind. eapply runs_lift; [reflexivity|]. apply runs_bind. eexists _, _. split; [by eapply config_runs|].
  apply runs_bind. eapply runs_lift; [exact Hn|]. destruct (nle n (NInt 2)).
  - destruct (config_key "block_duration_seconds") as [j Hj]; [by eexists|].
    apply runs_bind. eapply runs_lift; [exact Hj|]. apply runs_bind.
    eapply runs_impl; [apply block_ip_runs|]. intros [] w' _. by apply runs_ret.
  - destruct (config_key "ratelimit_duration_seconds") as [j Hj]; [by eexists|].
    apply runs_bind. eapply runs_lift; [exact Hj|]. apply runs_bind.
    eapply runs_impl; [apply ratelimit_ip_runs|]. intros [] w' _. by apply runs_ret.
Qed.

Lemma io_runs (w : World) (P : bool → World → Prop) : P true (tick w) → runs io w P.
Proof using disk_works. intros H. exists true, (tick w). unfold io. by rewrite disk_works. Qed.

Lemma report_runs host w : runs (_execute_report host) w (λ _ _, True).
Proof using disk_works clock_ticks.
  unfold _execute_report. apply runs_bind.
  destruct (try_all_ok (render_report;; mret true) false w) as [b Hb].
  destruct (try_all _ _ w) as [o w1] eqn:Ht. simpl in Hb. subst o. exists b, w1. split; [exact Ht|].
  destruct b; cbn [negb]; [|by apply runs_ret].
  apply runs_bind, io_runs. cbn [negb]. apply runs_bind. eexists _, _. split; [done|].
  destruct (clock_ticks (w_ticks (tick w1))) as [z Hz]. apply runs_bind. eapply runs_lift; [exact Hz|].
  apply runs_bind, io_runs. by apply runs_ret.
Qed.

Lemma stage_runs s host src rows w :
  wf_stage s → typed_stage s → at_rows rows w → runs (execute_stage s host src) w (λ _, at_rows rows).
Proof using disk_works clock_ticks.
  intros (l & ty & -> & Hl & Hty & _) Hs Hw. eapply runs_impl; [apply (runs_pres (at_rows rows)); [|exact Hw|]|by intros a w' [_ H]].
  { apply pres_execute_stage; [apply _|apply _|..]; intros.
    - apply pres_block_ip; [apply _..|]. intros ? ? ?. by apply (at_rows_cmd (λ _, True)).
    - apply pres_ratelimit_ip; [apply _..|]. intros ? ?. by apply (at_rows_cmd (λ _, True)).
    - eapply (pres_run_cmd _ (λ _, True)); [apply _|done]. }
  unfold execute_stage. apply runs_bind. eapply runs_lift; [cbn; by rewrite Hl|]. cbv beta iota.
  unfold STAGE_TYPES in Hty. repeat (apply elem_of_cons in Hty as [->|Hty]); [| | |by apply elem_of_nil in Hty]; cbn [String.eqb].
  - by eapply escalate_runs.
  - unfold _execute_notify. apply runs_bind. eapply runs_lift; [reflexivity|].
    apply runs_bind. eapply runs_impl; [by apply (dispatch_runs _ _ _ _ (at_rows rows))|]. intros [] w' _. by apply runs_ret.
  - apply report_runs.
Qed.

(** ** A pass *)

Lemma execute_runs w : runs execute w (λ _ w', w' = tick w).
Proof using disk_works. unfold execute. by apply runs_bind, io_runs, runs_ret. Qed.

(** A write commits, on the tables it found. *)
Lemma write_tx_runs I `{!StEnv I} {A} (f : Database → Database * A) dflt w :
  I w → runs (write_tx f dflt) w (λ _ w', ∃ w1, I w1 ∧ w' = upd_db (λ d, (f d).1) w1).
Proof using disk_works.
  intros Hw. assert (H : runs (_open;; execute;; d ← gets w_db; modify (upd_db (λ _, (f d).1));; mret (f d).2) w
                          (λ _ w', ∃ w1, I w1 ∧ w' = upd_db (λ d, (f d).1) w1)).
  { apply runs_bind. apply (runs_impl _ _ (λ _, I)).
    - eapply runs_impl; [apply (runs_pres I _ _ (λ _ _, True)); [by apply pres_open|exact Hw|]|by intros ? ? [_ ?]].
      unfold _open. apply runs_bind, runs_gets. case_bool_decide; [by apply runs_ret|].
      apply runs_bind, runs_modify, runs_bind, io_runs, runs_modify. done.
    - intros [] w1 H1. apply runs_bind. eapply runs_impl; [apply execute_runs|]. intros [] w2 ->.
      apply runs_bind, runs_gets, runs_bind, runs_modify, runs_ret. exists (tick w1). split; [by apply st_ticks|].
      apply (upd_db_here (λ d, (f d).1)). }
  destruct H as (a & w' & Hm & HP). exists a, w'. split; [|done]. unfold write_tx, try_all, try_except. by rewrite Hm.
Qed.

Lemma advance_runs_row i next now rows w :
  at_rows rows w → runs (advance_playbook_run i next now) w (λ _, at_rows (advance_run i next now <$> rows)).
Proof using disk_works.
  intros Hw. eapply runs_impl; [by apply (write_tx_runs (at_rows rows))|]. intros _ w' (w1 & (Hc & Hp & Hr) & ->).
  destruct w1 as [? ? ? ? ? []]. simpl in *. subst. done.
Qed.

Lemma doc_list_stages d : wf_definition d → doc_list "stages" d = Ok (stages_of d) ∧ Forall wf_stage (stages_of d).
Proof.
  intros (l & ts & ss & -> & _ & _ & _ & Hs & _ & Hss & _). unfold stages_of, doc_list. rewrite Hs. done.
Qed.

Lemma wf_delay s : wf_stage s → ∃ j, stage_get s "delay_seconds" (JNum (NInt 0)) = Ok j ∧ as_num j = Ok (delay_of s).
Proof.
  intros (l & ty & -> & _ & _ & Hd & _). unfold delay_of, stage_get, py_get_default, py_get. cbn [mbind res_bind].
  destruct (dict_get "delay_seconds" l) as [d|]; simpl; [|by eexists].
  destruct (Hd d eq_refl) as (n & -> & _). by eexists.
Qed.

Lemma py_index_nonneg {A} (l : list A) i : (0 ≤ i)%Z → py_index l i = l !! Z.to_nat i.
Proof. intros H. unfold py_index. by rewrite (proj2 (Z.ltb_ge _ _) H). Qed.

Lemma advance_one_runs now x rows w :
  rn_status x = Running → run_ready pbs x → at_rows rows w →
  runs (advance_one now x) w (λ _, at_rows (moved pbs now x <$> rows)).
Proof using disk_works clock_ticks.
  intros Hx Hready Hw. destruct (Hready Hx) as [Hi Hdef]. unfold moved, next_stage, definition_of.
  unfold advance_one, get_playbook_definition. apply runs_bind, read_tx_runs; [done|].
  assert (Hw' : at_rows rows (tick w)) by by apply st_ticks.
  destruct Hw as (_ & Hp & _). rewrite Hp. destruct (head _) as [p|] eqn:Hh; simpl; [|apply runs_ret; by rewrite list_fmap_id].
  destruct (Hdef p eq_refl) as (o & Ho & Hrun). rewrite Ho. apply runs_bind. eapply runs_lift; [done|].
  destruct o as [d|]; simpl; [|apply runs_ret; by rewrite list_fmap_id].
  destruct (Hrun d eq_refl) as [Hwf Hty]. destruct (doc_list_stages d Hwf) as [Hs Hss].
  apply runs_bind. eapply runs_lift; [exact Hs|].
  destruct (stages_of d !! Z.to_nat (rn_stage_index x)) as [s|] eqn:Hlook.
  - pose proof (lookup_lt_Some _ _ _ Hlook). rewrite (proj2 (Z.leb_gt _ _)) by lia.
    apply runs_bind. eapply runs_lift; [by rewrite py_index_nonneg, Hlook|].
    assert (Hws : wf_stage s) by by eapply (Forall_lookup_1 wf_stage).
    destruct (wf_delay s Hws) as (j & Hj & Hn). apply runs_bind. eapply runs_lift; [exact Hj|].
    apply runs_bind. eapply runs_lift; [exact Hn|]. destruct (nlt _ _); [apply runs_ret; by rewrite list_fmap_id|].
    unfold run_due_stage. apply runs_bind. eapply runs_impl; [apply (stage_runs s _ _ rows); [done|by eapply (Forall_lookup_1 typed_stage)|done]|].
    intros detail w1 Hw1. apply runs_bind. destruct Hws as (l & ty & -> & Hl & _). eapply runs_lift; [by cbn|].
    apply runs_bind. eapply runs_impl; [by apply (write_tx_runs (at_rows rows))|]. intros _ w' (w2 & Hw2 & ->).
    apply (advance_runs_row _ _ _ rows). by apply (st_events (I:=at_rows rows)).
  - apply lookup_ge_None in Hlook. rewrite (proj2 (Z.leb_le _ _)) by lia. by apply advance_runs_row.
Qed.

Lemma moved_id now x r : rn_id (moved pbs now x r) = rn_id r.
Proof. unfold moved. destruct (next_stage _ _ _); [apply advance_run_id|done]. Qed.

Lemma moved_other now x r : rn_id r ≠ rn_id x → moved pbs now x r = r.
Proof. intros H. unfold moved. destruct (next_stage _ _ _); [by apply advance_run_other|done]. Qed.

(** Each row is moved by its own visit only. *)
Lemma visits_other now l r : rn_id r ∉ rn_id <$> l → foldl (λ r x, moved pbs now x r) r l = r.
Proof.
  induction l as [|x l IH]; [done|]. rewrite fmap_cons. intros [Hx Hl]%not_elem_of_cons. cbn [foldl].
  rewrite moved_other by done. by apply IH.
Qed.

Lemma visits_own now l r : NoDup (rn_id <$> l) → r ∈ l → foldl (λ r x, moved pbs now x r) r l = moved pbs now r r.
Proof.
  induction l as [|x l IH]; [by intros _ ?%elem_of_nil|]. rewrite fmap_cons. intros [Hx Hl]%NoDup_cons [->|Hr]%elem_of_cons; cbn [foldl].
  - apply visits_other. by rewrite moved_id.
  - rewrite (moved_other now x r); [by apply IH|]. intros Hid. apply Hx, list_elem_of_fmap. by exists r.
Qed.

Lemma foldl_fmap_rows {A B} (f : B → A → A) (rows : list A) (l : list B) :
  foldl (λ rows x, f x <$> rows) rows l = (λ r, foldl (λ r x, f x r) r l) <$> rows.
Proof.
  revert rows. induction l as [|x l IH]; intros rows; cbn [foldl]; [by rewrite list_fmap_id|].
  by rewrite IH, <-list_fmap_compose.
Qed.

Lemma visit_runs now l rows w :
  Forall (λ x, rn_status x = Running ∧ run_ready pbs x) l → at_rows rows w →
  runs (for_each l (advance_one now)) w (λ _, at_rows (foldl (λ rows x, moved pbs now x <$> rows) rows l)).
Proof using disk_works clock_ticks.
  intros Hl. revert rows w. induction Hl as [|x l [Hx Hready] _ IH]; intros rows w Hw; cbn [for_each foldl]; [by apply runs_ret|].
  apply runs_bind. eapply runs_impl; [by apply (advance_one_runs now x rows)|]. intros [] w1 Hw1. by apply IH.
Qed.

(** A pass returns, and every run has moved as [pass_run] says, whatever the
    other runs are. *)
Theorem advance_runs_exact now rows w :
  NoDup (rn_id <$> rows) → Forall (run_ready pbs) rows → at_rows rows w →
  runs (advance_runs now) w (λ _, at_rows (pass_run pbs now <$> rows)).
Proof using disk_works clock_ticks.
  intros Hnd Hready Hw. unfold advance_runs, get_running_playbook_runs. apply runs_bind, read_tx_runs; [done|].
  assert (Hw' : at_rows rows (tick w)) by by apply st_ticks. destruct Hw as (_ & _ & Hr). rewrite Hr.
  set (run := List.filter _ rows).
  assert (Hrun : ∀ x, x ∈ run ↔ x ∈ rows ∧ rn_status x = Running).
  { intros x. unfold run. rewrite list_elem_of_In, filter_In, <-list_elem_of_In, bool_decide_eq_true. done. }
  eapply runs_impl; [apply (visit_runs now run rows)|].
  - apply Forall_forall. intros x [Hx Hs]%Hrun. split; [done|]. by eapply Forall_forall in Hready.
  - done.
  - intros [] w1. rewrite (foldl_fmap_rows (moved pbs now)). intros H1. replace (pass_run pbs now <$> rows) with
      ((λ r, foldl (λ r x, moved pbs now x r) r run) <$> rows); [done|].
    apply list_fmap_ext. intros i r Hi%list_elem_of_lookup_2. unfold pass_run. case_bool_decide as Hs.
    + apply visits_own; [by apply NoDup_ListFilter_fmap|by apply Hrun].
    + apply visits_other. intros (x & Hid & [Hx Hsx]%Hrun)%list_elem_of_fmap. apply Hs.
      apply list_elem_of_lookup in Hi as [j Hj], Hx as [k Hk].
      assert (j = k) as ->; [|congruence]. apply (NoDup_lookup (rn_id <$> rows) j k (rn_id r)); [done|..];
        rewrite list_lookup_fmap; [by rewrite Hj|by rewrite Hk, Hid].
Qed.

(** ** Every run completes *)

Lemma pass_run_id now r : rn_id (pass_run pbs now r) = rn_id r.
Proof. unfold pass_run. case_bool_decide; [apply moved_id|done]. Qed.

Lemma pass_run_ready now r : run_ready pbs r → run_ready pbs (pass_run pbs now r).
Proof.
  unfold pass_run. case_bool_decide as Hs; [|done]. intros Hr. unfold moved, next_stage.
  destruct (definition_of _ _) as [d|]; simpl; [|done].
  destruct r as [i p h src st status re sa ua]. cbn in *. subst. destruct (Hr eq_refl) as [Hi Hd]. cbn in Hi, Hd.
  destruct (stages_of d !! _); [destruct (nlt _ _); [done|]|]; unfold advance_run; rewrite Z.eqb_refl; [|done].
  destruct (st + 1 <? _)%Z; [|done]. intros _. split; cbn; [lia|done].
Qed.

(** Passes far enough apart for any of the stages. *)
Fixpoint spaced (ss : list json) (since : num) (ts : list num) : Prop :=
  match ts with
  | [] => True
  | t :: ts' => Forall (λ s, nlt (nsub t since) (delay_of s) = false) ss ∧ spaced ss t ts'
  end.

Lemma completed_stays ts r : rn_status r = Completed → foldl (λ r t, pass_run pbs t r) r ts = r.
Proof.
  intros Hr. induction ts as [|t ts IH]; [done|]. cbn [foldl]. unfold pass_run at 2. by rewrite bool_decide_eq_false_2 by congruence.
Qed.

Lemma run_finishes d ts r :
  rn_status r = Running → definition_of pbs (rn_playbook_id r) = Some d → (0 ≤ rn_stage_index r)%Z →
  ts ≠ [] → (length (stages_of d) ≤ Z.to_nat (rn_stage_index r) + length ts)%nat → spaced (stages_of d) (rn_updated_at r) ts →
  rn_status (foldl (λ r t, pass_run pbs t r) r ts) = Completed.
Proof.
  revert r. induction ts as [|t ts IH]; [done|]. intros r Hs Hd Hi _ Hlen [Hfar Hsp]. cbn [foldl].
  unfold pass_run at 2. rewrite bool_decide_eq_true_2 by done. unfold moved, next_stage. rewrite Hd. cbn [mbind option_bind].
  destruct r as [i p h src st status re sa ua]. cbn in *. subst. rewrite Z.eqb_refl.
  destruct (stages_of d !! Z.to_nat st) as [s|] eqn:Hlook; [|by rewrite completed_stays].
  rewrite (Forall_lookup_1 _ _ _ _ Hfar Hlook). destruct (st + 1 <? _)%Z eqn:Hlt; [|by rewrite completed_stays].
  apply Z.ltb_lt in Hlt. apply IH; cbn; try done; try lia. intros ->. cbn in Hlen. lia.
Qed.

Lemma passes_exact ts rows w :
  NoDup (rn_id <$> rows) → Forall (run_ready pbs) rows → at_rows rows w →
  runs (for_each ts advance_runs) w (λ _, at_rows ((λ r, foldl (λ r t, pass_run pbs t r) r ts) <$> rows)).
Proof using disk_works clock_ticks.
  revert rows w. induction ts as [|t ts IH]; intros rows w Hnd Hready Hw; cbn [for_each foldl].
  { apply runs_ret. by rewrite list_fmap_id. }
  apply runs_bind. eapply runs_impl; [by apply advance_runs_exact|]. intros [] w1 Hw1. eapply runs_impl; [apply (IH (pass_run pbs t <$> rows)); [..|exact Hw1]|].
  - rewrite <-list_fmap_compose. erewrite list_fmap_ext; [exact Hnd|]. intros; apply pass_run_id.
  - apply Forall_fmap. eapply Forall_impl; [exact Hready|]. intros r. apply pass_run_ready.
  - intros [] w2 H2. by rewrite <-list_fmap_compose in H2.
Qed.
End engine.


(** ** A mistyped tier *)

Lemma read_tx_now {E : Env} {A} (f : Database → A) w :
  (∀ i, io_ok i = true) → read_tx f w = (Ok (f (w_db w)), tick w).
Proof.
  intros Hio. destruct (read_tx_runs f w (λ a u, a = f (w_db w) ∧ u = tick w) Hio) as (a & u & H & -> & ->); done.
Qed.

(** A definition an operator can store: the tier of its stage is a string. *)
Definition quoted_tier (n : string) : json :=
  JObj [("triggers", JArr [JObj [("type", JStr "tier_reached")]]);
        ("stages", JArr [JObj [("type", JStr "escalate"); ("target_tier", JStr n)]])]%string.

(** It passes validation, and once a run of it with a known source comes first,
    every pass raises [TypeError] in its stage: no run is ever moved again. *)
Theorem quoted_tier_stops_runs {E : Env} n cfg pbs p rows r rest s now w :
  (∀ i, io_ok i = true) → at_rows cfg pbs rows w →
  List.filter (λ r, bool_decide (rn_status r = Running)) rows = r :: rest →
  head (List.filter (λ p, pb_id p =? rn_playbook_id r)%Z pbs) = Some p → pb_definition p = JGood (quoted_tier n) →
  rn_stage_index r = 0%Z → attributable (rn_target_source r) = Some s → nlt (nsub now (rn_updated_at r)) (NInt 0) = false →
  validate_definition (quoted_tier n) = Ok (quoted_tier n) ∧
  (advance_runs now w).1 = Exn TypeError ∧ at_rows cfg pbs rows (advance_runs now w).2.
Proof.
  intros Hio Hw Hrows Hp Hd Hi Hs Hn. split; [done|].
  assert (Hw1 : at_rows cfg pbs rows (tick w)) by by apply st_ticks.
  assert (Hw2 : at_rows cfg pbs rows (tick (tick w))) by by apply st_ticks.
  assert (Ha : advance_one now r (tick w) = (Exn TypeError, tick (tick w))).
  { unfold advance_one, get_playbook_definition, mbind, M_bind.
    rewrite read_tx_now, (proj1 (proj2 Hw1)), Hp by done. cbn [fmap option_fmap option_map].
    rewrite Hd, Hi. set (st := JObj [("type", JStr "escalate"); ("target_tier", JStr n)]%string).
    change (stored_definition (JGood (quoted_tier n))) with (Ok (A:=option json) (Some (quoted_tier n))). cbn [lift].
    change (doc_list "stages" (quoted_tier n)) with (Ok [st]). cbn [lift length py_index Z.of_nat Z.leb Z.compare].
    change (py_index [st] 0) with (Some st). cbn [lift].
    change (stage_get st "delay_seconds" (JNum (NInt 0))) with (Ok (JNum (NInt 0))). cbn [lift as_num]. rewrite Hn.
    unfold run_due_stage, execute_stage, _execute_escalate, mbind, M_bind. change (py_get st "type") with (Ok (Some (JStr "escalate"))).
    cbn. rewrite Hs. change (Z.of_nat 1 <=? 0)%Z with false. cbv beta iota. rewrite (config_runs cfg pbs rows _ Hw2). reflexivity. }
  unfold advance_runs, get_running_playbook_runs, mbind, M_bind.
  rewrite read_tx_now, (proj2 (proj2 Hw)), Hrows by done. cbn [for_each]. unfold mbind, M_bind. by rewrite Ha.
Qed.

(** ** Concrete runs *)

(** Notify at once, block half a minute later. *)
Definition two_stages : json :=
  JObj [("triggers", JArr [JObj [("type", JStr "scale")]]);
        ("stages", JArr [JObj [("type", JStr "notify")];
                         JObj [("type", JStr "escalate"); ("delay_seconds", JNum (NInt 30))]])]%string.
Definition engine_world (d : json) (runs : list PlaybookRun) : World :=
  upd_db (upd_runs (λ _, mkTable runs 2)) (upd_db (upd_playbooks (λ _, mkTable
    [mkPlaybook 1 "first response" "all" None true (JGood d) (NInt 0) (NInt 0)] 1))
    (publish_json ENFORCEMENT_CONFIG_PATH (JObj DEFAULT_ENFORCEMENT_CONFIG) empty_world)).
Definition run_on (i : Z) (host : string) (src : option string) (stage : Z) : PlaybookRun :=
  mkRun i 1 host src stage Running "scale" (NInt 100) (NInt 100).
Definition demo_runs : list PlaybookRun := [run_on 1 "10.0.0.5" (Some "203.0.113.9") 0; run_on 2 "10.0.0.6" None 1].

Lemma two_stages_runnable : runnable two_stages.
Proof.
  split; [by eapply validate_wf|]. repeat constructor.
  - intros l [= <-] Ht. vm_compute in Ht. discriminate.
  - intros l [= <-] _. eexists. reflexivity.
Qed.


Example demo_statuses :
  (rn_status <$> tb_rows (db_runs (w_db (for_each [NInt 130; NInt 140] (@advance_runs calm_env) (engine_world two_stages demo_runs)).2)),
   rn_status <$> tb_rows (db_runs (w_db (for_each [NInt 130; NInt 160] (@advance_runs calm_env) (engine_world two_stages demo_runs)).2))) =
  ([Running; Completed], [Completed; Completed]).
Proof. vm_compute. reflexivity. Qed.

Lemma quoted_tier_stops_runs_witness :
  let w := engine_world (quoted_tier "2") demo_runs in
  validate_definition (quoted_tier "2") = Ok (quoted_tier "2") ∧
  (@advance_runs calm_env (NInt 130) w).1 = Exn TypeError ∧
  at_rows DEFAULT_ENFORCEMENT_CONFIG (tb_rows (db_playbooks (w_db w))) demo_runs (@advance_runs calm_env (NInt 130) w).2.
Proof.
  intros w. eapply (@quoted_tier_stops_runs calm_env "2"); [done|by repeat split|reflexivity..].
Defined.
