(* ===== verification/ApiFacts.v ===== *)
(** * Properties of the dashboard's routes

    The lists the routes keep in JSON files stay well formed through every
    failure, an added address is protected and a removed one is not, settings
    stay within their bounds, pages of the log cover it exactly once; and three
    places where the routes report or accept more than they should. *)

From S2P Require Import Prelude PyNum PyStr Json World Storage Config Alerts Db Enforcement.
From S2P Require Import EnforcementFacts Playbooks Latency Wire Capture Receiver ReceiverFacts.
From S2P Require Import IpText IpAddr Models Api.

(** ** Invariants of one JSON file *)

(** If the file holds a document, the document satisfies [Q]. *)
Definition file_inv (p : path) (Q : json → Prop) (w : World) : Prop :=
  ∀ j, w_json w !! p = Some (JText (JGood j)) → Q j.

Section file_inv.
Context {E : Env} (p : path) (Q : json → Prop).

Lemma file_inv_same w w' : w_json w' = w_json w → file_inv p Q w → file_inv p Q w'.
Proof. unfold file_inv. by intros ->. Qed.

Lemma pres_atomic_file j : Q j → pres (file_inv p Q) (_atomic_write p (publish_json p j)).
Proof.
  intros Hj w Hw. unfold _atomic_write, mbind, M_bind, gets, io, modify, try_finally, raise. simpl.
  destruct (_ || _); [by eapply file_inv_same; [|exact Hw]; destruct w|]. simpl.
  destruct (io_ok _); simpl; [|by eapply file_inv_same; [|exact Hw]; destruct w].
  destruct (io_ok _); simpl; [|by eapply file_inv_same; [|exact Hw]; destruct w].
  intros j'. destruct w. simpl. rewrite lookup_insert_eq. by intros [= <-].
Qed.

Lemma pres_save_file j : Q j → pres (file_inv p Q) (save_json_file p j).
Proof. intros Hj. apply pres_try_all; [by apply pres_atomic_file|apply pres_ret]. Qed.

Lemma pres_load_then {A} dflt (k : json → M World A) :
  Q dflt → (∀ j, Q j → pres (file_inv p Q) (k j)) →
  pres (file_inv p Q) (load_json_file p dflt ≫= k).
Proof.
  intros Hd Hk w Hw. unfold load_json_file, gets, mbind, M_bind.
  destruct (w_json w !! p) as [[[j|]| |]|] eqn:Hp; try by apply Hk.
  - apply Hk; [|done]. by apply Hw.
  - pose proof (pres_atomic_file dflt Hd w Hw) as H.
    destruct (_atomic_write p (publish_json p dflt) w) as [[[]|e] w']; [|done]. by apply Hk.
Qed.

Lemma pres_run_cmd_file c : pres (file_inv p Q) (run_cmd c).
Proof.
  intros w Hw. eapply file_inv_same; [|exact Hw]. unfold run_cmd. destruct (sub _ _ _); by destruct w.
Qed.
End file_inv.

(** ** Writing a list that is present *)

(** The file holds the array of these strings. *)
Definition holds_list (p : path) (ips : list string) (w : World) : Prop :=
  w_json w !! p = Some (JText (JGood (JArr (JStr <$> ips)))).

Lemma contains_strs ip ips : json_contains ip (JArr (JStr <$> ips)) = Ok (bool_decide (ip ∈ ips)).
Proof.
  cbn [json_contains]. f_equal. induction ips as [|x ips IH].
  { symmetry. apply bool_decide_eq_false, not_elem_of_nil. }
  cbn [fmap list_fmap existsb json_is_str]. rewrite IH. apply eq_true_iff_eq. rewrite orb_true_iff, !bool_decide_eq_true, elem_of_cons. done.
Qed.

Lemma remove_strs ip ips :
  NoDup ips → ∃ ips', remove_first ip (JStr <$> ips) = JStr <$> ips' ∧ NoDup ips' ∧
                      ∀ j, j ∈ ips' ↔ j ∈ ips ∧ j ≠ ip.
Proof.
  induction ips as [|x ips IH]; intros Hnd; [exists []; split_and!; [done|constructor|set_solver]|].
  apply NoDup_cons in Hnd as [Hx Hnd]. rewrite fmap_cons. cbn [remove_first json_is_str].
  case_bool_decide as Hip; [subst x|].
  - exists ips. split_and!; [done|done|set_solver].
  - destruct (IH Hnd) as (ips' & -> & Hnd' & Hin). exists (x :: ips').
    split_and!; [done|apply NoDup_cons; rewrite Hin; split; [naive_solver|done]|].
    intros j. rewrite !elem_of_cons, Hin. naive_solver.
Qed.

Lemma save_runs {E : Env} p j w :
  (∀ n, io_ok n = true) → p ∉ w_tmp w →
  runs (save_json_file p j) w (λ _ w', w_json w' = <[p := JText (JGood j)]> (w_json w)).
Proof.
  intros Hio Hp. destruct (_atomic_write_runs p (publish_json p j) w Hio Hp) as ([] & w' & Ha & n & ->).
  unfold save_json_file, try_all, try_except, runs. rewrite Ha. eexists _, _. split; [done|]. by destruct w.
Qed.

Section listed.
Context {E : Env} (Hio : ∀ n, io_ok n = true) (p : path).

Lemma add_listed_runs ip ips w :
  p ∉ w_tmp w → holds_list p ips w → NoDup ips →
  runs (add_listed p ip) w (λ _ w', ∃ ips', holds_list p ips' w' ∧ NoDup ips' ∧
    ∀ j, j ∈ ips' ↔ j = ip ∨ j ∈ ips).
Proof using Hio.
  intros Hp Hw Hnd. unfold add_listed. apply runs_bind. eexists _, _.
  split; [by apply load_json_file_good|]. rewrite contains_strs. apply runs_bind, (runs_lift _ _ _ _ eq_refl).
  case_bool_decide as Hin.
  - apply runs_ret. exists ips. split_and!; [done|done|naive_solver].
  - apply runs_bind, (runs_lift _ _ _ _ eq_refl). eapply runs_impl; [by apply save_runs|].
    intros [] w' Hw'. exists (ips ++ [ip]). unfold holds_list. rewrite Hw', lookup_insert_eq, fmap_app.
    split_and!; [done| |set_solver]. apply NoDup_app. split_and!; [done|set_solver|apply NoDup_singleton].
Qed.

Lemma delete_listed_runs ip ips w :
  _validate_host_ip ip = Ok ip → p ∉ w_tmp w → holds_list p ips w → NoDup ips →
  runs (delete_listed p ip) w (λ _ w', ∃ ips', holds_list p ips' w' ∧ NoDup ips' ∧
    ∀ j, j ∈ ips' ↔ j ∈ ips ∧ j ≠ ip).
Proof using Hio.
  intros Hip Hp Hw Hnd. unfold delete_listed, _validate_host_ip_or_400. rewrite Hip.
  apply runs_bind, (runs_lift _ _ _ _ eq_refl). apply runs_bind. eexists _, _.
  split; [by apply load_json_file_good|]. rewrite contains_strs. apply runs_bind, (runs_lift _ _ _ _ eq_refl).
  case_bool_decide as Hin.
  - apply runs_bind, (runs_lift _ _ _ _ eq_refl). eapply runs_impl; [by apply save_runs|].
    intros [] w' Hw'. destruct (remove_strs ip ips Hnd) as (ips' & He & Hnd' & Hin').
    exists ips'. unfold holds_list. rewrite Hw', lookup_insert_eq, He. done.
  - apply runs_ret. exists ips. split_and!; [done|done|]. intros j. split; [|naive_solver].
    intros Hj. split; [done|]. by intros ->.
Qed.
End listed.

Lemma holds_whitelisted ips w ip :
  holds_list WHITELIST_PATH ips w → whitelisted (w_json w) ip ↔ ip ∈ ips.
Proof.
  unfold holds_list, whitelisted. intros ->. split.
  - intros (wl & [= <-] & H). rewrite contains_strs in H. injection H as H. by apply bool_decide_eq_true in H.
  - intros H. eexists. split; [done|]. rewrite contains_strs. by rewrite bool_decide_eq_true_2.
Qed.

(** Adding an address to the whitelist makes it one that no enforcement action
    may touch, removing it withdraws exactly that protection, and neither
    changes the protection of any other address. *)
Theorem whitelist_edits {E : Env} payload ips w :
  (∀ n, io_ok n = true) → WHITELIST_PATH ∉ w_tmp w → holds_list WHITELIST_PATH ips w → NoDup ips →
  _validate_host_ip (ip_ip payload) = Ok (ip_ip payload) →
  runs (add_whitelist payload) w (λ _ w', ∀ j,
    whitelisted (w_json w') j ↔ j = ip_ip payload ∨ whitelisted (w_json w) j) ∧
  runs (delete_whitelist (ip_ip payload)) w (λ _ w', ∀ j,
    whitelisted (w_json w') j ↔ whitelisted (w_json w) j ∧ j ≠ ip_ip payload).
Proof.
  intros Hio Hp Hw Hnd Hip. split.
  - eapply runs_impl; [by apply (add_listed_runs Hio)|]. intros [] w' (ips' & Hw' & _ & Hin) j.
    rewrite (holds_whitelisted ips' w'), (holds_whitelisted ips w) by done. apply Hin.
  - eapply runs_impl; [by apply (delete_listed_runs Hio)|]. intros [] w' (ips' & Hw' & _ & Hin) j.
    rewrite (holds_whitelisted ips' w'), (holds_whitelisted ips w) by done. apply Hin.
Qed.

(** A write that fails is logged and swallowed: the route reports success and
    the address is as unprotected as before. *)
Theorem whitelist_add_unsaved {E : Env} payload ips w :
  io_ok (w_ticks w) = false → holds_list WHITELIST_PATH ips w → ip_ip payload ∉ ips →
  runs (add_whitelist payload) w (λ _ w', ¬ whitelisted (w_json w') (ip_ip payload)).
Proof.
  intros Hio Hw Hni. unfold add_whitelist, add_listed. apply runs_bind. eexists _, _.
  split; [by apply load_json_file_good|]. rewrite contains_strs, bool_decide_eq_false_2 by done.
  apply runs_bind, (runs_lift _ _ _ _ eq_refl). apply runs_bind, (runs_lift _ _ _ _ eq_refl).
  unfold runs, save_json_file, try_all, try_except, _atomic_write, mbind, M_bind, gets, io. simpl.
  rewrite Hio, orb_true_r. simpl. eexists _, _. split; [done|].
  assert (Hw' : holds_list WHITELIST_PATH ips (tick w)) by by destruct w.
  by rewrite (holds_whitelisted ips).
Qed.

(** ** Victims *)

(** An asset as the routes write it. *)
Definition victim_wf (v : json) (ip : string) : Prop :=
  ∃ l b, v = JObj l ∧ dict_get "ip" l = Some (JStr ip) ∧ dict_get "active" l = Some (JBool b).

(** A list of assets with distinct addresses. *)
Definition victims_wf (j : json) : Prop :=
  ∃ vs ips, j = JArr vs ∧ Forall2 victim_wf vs ips ∧ NoDup ips.

Lemma victim_item v ip : victim_wf v ip → json_item v "ip" = Ok (JStr ip).
Proof. intros (l & b & -> & Hip & _). simpl. by rewrite Hip. Qed.

Lemma ip_taken_spec ip vs ips :
  Forall2 victim_wf vs ips → ip_taken ip vs = Ok (bool_decide (ip ∈ ips)).
Proof.
  induction 1 as [|v x vs ips Hv _ IH]; [by rewrite bool_decide_eq_false_2 by apply not_elem_of_nil|].
  cbn [ip_taken]. rewrite (victim_item v x Hv). cbn [mbind res_bind json_is_str].
  destruct (bool_decide_reflect (ip = x)) as [->|Hx]; [by rewrite bool_decide_eq_true_2 by left|]. rewrite IH. f_equal.
  apply bool_decide_ext. rewrite elem_of_cons. naive_solver.
Qed.

Lemma without_ip_spec ip vs ips :
  Forall2 victim_wf vs ips →
  ∃ vs', without_ip ip vs = Ok vs' ∧ Forall2 victim_wf vs' (filter (λ x, x ≠ ip) ips).
Proof.
  induction 1 as [|v x vs ips Hv _ (vs' & IH & HF)]; [by exists []|]. cbn [without_ip].
  rewrite (victim_item v x Hv), IH. cbn [mbind res_bind json_is_str]. rewrite filter_cons.
  destruct (decide (x ≠ ip)) as [Hne|He].
  - rewrite bool_decide_eq_false_2 by congruence. eexists. split; [done|]. by constructor.
  - apply dec_stable in He as ->. rewrite bool_decide_eq_true_2 by done. by eexists.
Qed.

Lemma toggle_ip_spec ip vs ips :
  Forall2 victim_wf vs ips → ∃ vs', toggle_ip ip vs = Ok vs' ∧ Forall2 victim_wf vs' ips.
Proof.
  induction 1 as [|v x vs ips Hv _ (vs' & IH & HF)]; [by exists []|]. cbn [toggle_ip].
  rewrite (victim_item v x Hv), IH. cbn [mbind res_bind json_is_str].
  destruct (bool_decide (ip = x)); [|eexists; split; [done|]; by constructor].
  destruct Hv as (l & b & -> & Hip & Hact). simpl. rewrite Hact. cbn. eexists. split; [done|].
  constructor; [|done]. eexists _, _. split_and!; [done| |by rewrite dict_get_set_eq].
  by rewrite dict_get_set_ne.
Qed.

(** The asset list keeps distinct, complete entries whatever the operator
    submits and whichever write fails. *)
Theorem victims_invariant {E : Env} payload ip w :
  file_inv VICTIMS_PATH victims_wf w →
  file_inv VICTIMS_PATH victims_wf (add_victim payload w).2 ∧
  file_inv VICTIMS_PATH victims_wf (delete_victim ip w).2 ∧
  file_inv VICTIMS_PATH victims_wf (toggle_victim ip w).2.
Proof.
  assert (H0 : victims_wf (JArr [])) by by exists [], []; repeat constructor.
  intros Hw. split_and!; revert w Hw.
  - apply pres_load_then; [done|]. intros j (vs & ips & -> & HF & Hnd). apply pres_lift_ok.
    rewrite (ip_taken_spec _ _ _ HF). apply pres_lift_ok. case_bool_decide as Hin; [apply pres_raise|].
    apply pres_lift_ok, pres_save_file. exists (vs ++ [JObj [("ip", JStr (vp_ip payload));
      ("description", JStr (vp_description payload)); ("active", JBool true)]%string]), (ips ++ [vp_ip payload]).
    split_and!; [done|apply Forall2_app; [done|]; constructor; [by eexists _, _|constructor]|].
    apply NoDup_app. split_and!; [done|set_solver|apply NoDup_singleton].
  - apply pres_bind; [apply pres_lift|intros ip'].
    apply pres_load_then; [done|]. intros j (vs & ips & -> & HF & Hnd). apply pres_lift_ok.
    destruct (without_ip_spec ip' vs ips HF) as (vs' & -> & HF'). apply pres_lift_ok, pres_save_file.
    exists vs', (filter (λ x, x ≠ ip') ips). split_and!; [done|done|by apply NoDup_filter].
  - apply pres_bind; [apply pres_lift|intros ip'].
    apply pres_load_then; [done|]. intros j (vs & ips & -> & HF & Hnd). apply pres_lift_ok.
    destruct (toggle_ip_spec ip' vs ips HF) as (vs' & -> & HF'). apply pres_lift_ok, pres_save_file.
    by exists vs', ips.
Qed.

(** ** Enforcement settings *)

Definition in_bounds (cfg : cfgdict) : Prop :=
  Forall (λ kv, ∀ v, kv.2 = JNum v → out_of_bounds kv.1 v = false) cfg.
Definition settings_ok (j : json) : Prop := ∃ l, j = JObj l ∧ in_bounds l.

Lemma default_in_bounds : in_bounds DEFAULT_ENFORCEMENT_CONFIG.
Proof. repeat (constructor; [by intros v [= <-]|]). constructor. Qed.

Lemma dict_set_Forall {V} (P : string * V → Prop) k v d : P (k, v) → Forall P d → Forall P (dict_set k v d).
Proof.
  intros Hv. induction 1 as [|[k' v'] d Hk HF IH]; simpl; [by constructor|].
  case_decide; subst; by constructor.
Qed.

Lemma dict_update_Forall {V} (P : string * V → Prop) l d : Forall P d → Forall P l → Forall P (dict_update d l).
Proof.
  intros Hd Hl. revert d Hd. induction Hl as [|[k v] l Hk _ IH]; intros d Hd; [done|].
  apply IH. by apply dict_set_Forall.
Qed.

Lemma updates_in_bounds updates :
  existsb (λ kv, out_of_bounds kv.1 kv.2) updates = false →
  in_bounds ((λ kv, (kv.1, JNum kv.2)) <$> updates).
Proof.
  intros H. apply Forall_fmap, Forall_forall. intros [k v] Hin v' [= <-]. simpl.
  destruct (out_of_bounds k v) eqn:Ho; [|done]. exfalso. apply not_true_iff_false in H. apply H.
  apply existsb_exists. exists (k, v). split; [by apply list_elem_of_In|done].
Qed.

Lemma settings_updated l updates cfg :
  in_bounds l → merge_over DEFAULT_ENFORCEMENT_CONFIG (JObj l) = Ok cfg →
  existsb (λ kv, out_of_bounds kv.1 kv.2) updates = false →
  in_bounds (dict_update cfg ((λ kv, (kv.1, JNum kv.2)) <$> updates)).
Proof.
  intros Hl [= <-] Hu. apply dict_update_Forall; [|by apply updates_in_bounds].
  by apply dict_update_Forall; [apply default_in_bounds|].
Qed.


(** A payload that sets the block floor alone, to NaN. *)
Definition nan_floor : EnforcementConfigPayload :=
  mkEnforcementPayload None None (Some (NFlt SpecFloat.S754_nan)) None None None None None None.

Lemma tier2_nan {E : Env} wd victim cfg b rates acted w :
  is_nan b = true → tier2 wd victim cfg b rates acted w = (Ok acted, w).
Proof.
  intros Hb. induction rates as [|[ip r] rates IH]; [done|]. cbn [tier2].
  destruct (bool_decide (ip ∈ acted)); [done|].
  destruct (nge r b) eqn:Hge; [|done]. apply nle_not_nan in Hge as [Hn _]. congruence.
Qed.

(** A NaN is on neither side of a bound, so a NaN rate floor is accepted and
    stored; from then on the block bar is NaN, no rate reaches it, and the
    second tier lets every source pass, however loud. *)
Theorem nan_floor_disables_tier2 {E : Env} w :
  (∀ n, io_ok n = true) → ENFORCEMENT_CONFIG_PATH ∉ w_tmp w →
  w_json w !! ENFORCEMENT_CONFIG_PATH = Some (JText (JGood (JObj DEFAULT_ENFORCEMENT_CONFIG))) →
  runs (update_enforcement_config nan_floor) w (λ cfg w',
    w_json w' !! ENFORCEMENT_CONFIG_PATH = Some (JText (JGood (JObj cfg))) ∧
    ∀ mean_r sigma_r, ∃ b, block_boundary cfg mean_r sigma_r = Ok b ∧
      ∀ wd victim rates acted u, tier2 wd victim cfg b rates acted u = (Ok acted, u)).
Proof.
  intros Hio Hp Hw. unfold update_enforcement_config, get_enforcement_config. apply runs_bind, runs_bind.
  eexists _, _. split; [by apply load_json_file_good|]. apply (runs_lift _ _ _ _ eq_refl).
  unfold apply_settings. cbn [existsb updates_of omap]. apply runs_bind.
  eapply runs_impl; [by apply save_runs|]. intros [] w' Hw'. apply runs_bind, runs_ret, runs_ret.
  split; [by rewrite Hw', lookup_insert_eq|]. intros mean_r sigma_r.
  exists (NFlt SpecFloat.S754_nan). split; [|intros; by apply tier2_nan].
  unfold block_boundary. vm_compute (cfg_get _ _). vm_compute (cfg_num _ _). cbn [mbind res_bind as_num mret res_ret].
  unfold py_max. destruct (nlt _ _) eqn:Hlt; [|done]. apply nlt_not_nan in Hlt as [Hn _]. done.
Qed.

(** ** Log pages *)

Lemma pages_cover {A} (l : list A) (L n : nat) :
  mjoin ((λ k, take L (drop (k * L) l)) <$> seq 0 n) = take (n * L) l.
Proof.
  induction n as [|n IH]; [done|]. rewrite seq_S, fmap_app, join_app, IH. cbn [fmap list_fmap mjoin list_join].
  rewrite app_nil_r. rewrite Nat.add_0_l. replace (S n * L)%nat with (n * L + L)%nat by lia.
  by rewrite take_take_drop.
Qed.

Lemma read_tx_ok {E : Env} {A} (f : Database → A) w :
  (∀ n, io_ok n = true) → read_tx f w = (Ok (f (w_db w)), tick w).
Proof. intros Hio. unfold read_tx, execute, io, gets, mbind, M_bind. rewrite Hio. simpl. by destruct w. Qed.

Lemma get_logs_ok {E : Env} c limit offset w :
  (∀ n, io_ok n = true) →
  (get_logs c limit offset w).1 =
  Ok (mkLogPage (take (Z.to_nat (clamp_limit limit)) (drop (Z.to_nat (clamp_offset offset))
                   (logs_desc (log_filter c) (w_db w))))
        (length (logs_desc (log_filter c) (w_db w))) (clamp_limit limit) (clamp_offset offset)).
Proof.
  intros Hio. unfold get_logs, try_all, try_except, mbind, M_bind. rewrite (read_tx_ok _ w Hio).
  rewrite (read_tx_ok _ (tick w) Hio). assert (w_db (tick w) = w_db w) as -> by by destruct w.
  unfold logs_desc. by rewrite py_sort_length.
Qed.

(** Turning the pages of a filtered log shows every matching incident exactly
    once, newest first, and every page carries the true total. *)
Theorem log_pages_cover {E : Env} c L n w :
  (∀ i, io_ok i = true) → (1 ≤ L ≤ 1000)%nat →
  (length (logs_desc (log_filter c) (w_db w)) ≤ n * L)%nat →
  ∃ pages, Forall2 (λ k pg, (get_logs c (Z.of_nat L) (Z.of_nat (k * L)) w).1 = Ok pg) (seq 0 n) pages ∧
    mjoin (lp_logs <$> pages) = logs_desc (log_filter c) (w_db w) ∧
    Forall (λ pg, lp_total pg = length (logs_desc (log_filter c) (w_db w))) pages.
Proof.
  intros Hio HL Hn. set (rows := logs_desc (log_filter c) (w_db w)) in *.
  exists ((λ k, mkLogPage (take L (drop (k * L) rows)) (length rows) (Z.of_nat L) (Z.of_nat (k * L))) <$> seq 0 n).
  split_and!.
  - apply Forall2_fmap_r, Forall_Forall2_diag, Forall_true. intros k. rewrite get_logs_ok by done.
    fold rows. unfold clamp_limit, clamp_offset. rewrite Z.min_l, !Z.max_r, !Nat2Z.id by lia. done.
  - rewrite <-list_fmap_compose. unfold compose. cbn [lp_logs]. rewrite pages_cover. by apply take_ge.
  - by apply Forall_fmap, Forall_true.
Qed.

(** ** Concrete cases *)

Definition listed_world (ips : list string) : World :=
  set_json {[WHITELIST_PATH := JText (JGood (JArr (JStr <$> ips)))]} empty_world.

Lemma whitelist_edits_witness :
  let w := listed_world ["192.0.2.1"]%string in
  runs (@add_whitelist calm_env (mkIpPayload "192.0.2.2" None)) w (λ _ w', ∀ j,
    whitelisted (w_json w') j ↔ j = "192.0.2.2"%string ∨ whitelisted (w_json w) j) ∧
  runs (@delete_whitelist calm_env "192.0.2.2") w (λ _ w', ∀ j,
    whitelisted (w_json w') j ↔ whitelisted (w_json w) j ∧ j ≠ "192.0.2.2"%string).
Proof.
  intros w. apply (@whitelist_edits calm_env (mkIpPayload "192.0.2.2" None) ["192.0.2.1"]%string w);
    [done|done|reflexivity|apply NoDup_singleton|reflexivity].
Defined.

Definition full_disk : Env :=
  mkEnv (λ n, NInt 1000000) (λ _ _ _, PDone 0 EmptyString) (λ _, false) (λ _, 0%nat) default_settings.

Lemma whitelist_add_unsaved_witness :
  runs (@add_whitelist full_disk (mkIpPayload "192.0.2.2" None)) (listed_world [])
    (λ _ w', ¬ whitelisted (w_json w') "192.0.2.2").
Proof.
  apply (@whitelist_add_unsaved full_disk (mkIpPayload "192.0.2.2" None) [] (listed_world []));
    [done|reflexivity|apply not_elem_of_nil].
Defined.

Lemma victims_invariant_witness :
  file_inv VICTIMS_PATH victims_wf (@add_victim calm_env (mkVictimPayload "10.0.0.5" "web") empty_world).2 ∧
  file_inv VICTIMS_PATH victims_wf (@delete_victim calm_env "10.0.0.5" empty_world).2 ∧
  file_inv VICTIMS_PATH victims_wf (@toggle_victim calm_env "10.0.0.5" empty_world).2.
Proof. apply (@victims_invariant calm_env). intros j Hj. discriminate Hj. Defined.


Lemma nan_floor_disables_tier2_witness :
  let w := set_json {[ENFORCEMENT_CONFIG_PATH := JText (JGood (JObj DEFAULT_ENFORCEMENT_CONFIG))]} empty_world in
  runs (@update_enforcement_config calm_env nan_floor) w (λ cfg w',
    w_json w' !! ENFORCEMENT_CONFIG_PATH = Some (JText (JGood (JObj cfg))) ∧
    ∀ mean_r sigma_r, ∃ b, block_boundary cfg mean_r sigma_r = Ok b ∧
      ∀ wd victim rates acted u, @tier2 calm_env wd victim cfg b rates acted u = (Ok acted, u)).
Proof. intros w. apply (@nan_floor_disables_tier2 calm_env w); [done|done|reflexivity]. Defined.

Lemma log_pages_cover_witness :
  ∃ pages, Forall2 (λ k pg, (@get_logs calm_env "ALL" 2 (Z.of_nat (k * 2)) empty_world).1 = Ok pg) (seq 0 3) pages ∧
    mjoin (lp_logs <$> pages) = logs_desc (log_filter "ALL") (w_db empty_world) ∧
    Forall (λ pg, lp_total pg = length (logs_desc (log_filter "ALL") (w_db empty_world))) pages.
Proof. apply (@log_pages_cover calm_env "ALL" 2 3 empty_world); [done|lia|simpl; lia]. Defined.
