(* ===== verification/AlertSend.v ===== *)
(** * alerts.py: the senders, the worker and the settings routes

    [requests.post] and the SMTP conversation are one oracle: the n-th request
    sent gets the n-th outcome. A request keeps the values it is built from.
    [str(e)] of an exception is a parameter. *)

From stdpp Require Import pretty.
From S2P Require Import Prelude PyNum PyStr Regex Json World Storage Config Alerts ApiFacts.
#[local] Open Scope string_scope.

(** ** Redacting error texts *)

(** [[A-Za-z0-9_-]]. *)
Definition c_token (c : ascii) : bool := c_word c || c_one ["-"%char] c.

Definition _WEBHOOK_PATH_RE : list tok := [TLit "/api/webhooks/"; plus c_digit; TLit "/"; plus c_token].
Definition _TELEGRAM_TOKEN_RE : list tok := [TLit "bot"; plus c_digit; TLit ":"; plus c_token].

(** [if v: text = text.replace(v, "REDACTED")] *)
Definition redact_value (v : json) (text : string) : res string :=
  if json_truthy v then
    match v with JStr s => Ok (str_replace s "REDACTED" text) | _ => Exn TypeError end
  else Ok text.

Fixpoint redact_values (vs : list json) (text : string) : res string :=
  match vs with
  | [] => Ok text
  | v :: vs' => t ← redact_value v text; redact_values vs' t
  end.

Definition cfg_or_null (cfg : cfgdict) (k : string) : json := default JNull (dict_get k cfg).

(** [(cfg.get("webhook_headers") or {}).values()] *)
Definition header_dict (v : json) : res (list (string * json)) :=
  if json_truthy v then match v with JObj l => Ok l | _ => Exn AttributeError end else Ok [].

Definition _redact_secrets (text : string) (cfg : cfgdict) : res string :=
  let text := re_sub _WEBHOOK_PATH_RE "/api/webhooks/REDACTED" text in
  let text := re_sub _TELEGRAM_TOKEN_RE "botREDACTED" text in
  text ← redact_value (cfg_or_null cfg "smtp_app_password") text;
  text ← redact_value (cfg_or_null cfg "smtp_username") text;
  text ← redact_value (cfg_or_null cfg "webhook_url") text;
  headers ← header_dict (cfg_or_null cfg "webhook_headers");
  redact_values headers.*2 text.

(** ** Senders *)

Inductive request :=
  | ReqDiscord (url : json) (content : string)
  | ReqEmail (host port username password recipients : json) (subject body : string)
  | ReqTelegram (token chat_id : json) (text : string)
  | ReqWebhook (url headers : json) (subject message text title : string).

(** What became of a request: an answer (for mail, delivery), or an exception
    with its message. *)
Inductive outcome := Responded (status : Z) (text : string) | Failed (message : string).

Inductive log_line := LogDown (channel message : string) | LogWorking (channel : string).

Record Sender := mkSender {
  sn_world : World; sn_down : gset string; sn_log : list log_line; sn_sent : list request }.

Section senders.
Context {E : Env} (transport : nat → request → outcome) (exn_text : exn → string).

Definition in_world {A} (m : M World A) : M Sender A := λ s,
  let '(r, w) := m (sn_world s) in (r, mkSender w (sn_down s) (sn_log s) (sn_sent s)).

Definition send (r : request) : M Sender outcome := λ s,
  (Ok (transport (length (sn_sent s)) r),
   mkSender (sn_world s) (sn_down s) (sn_log s) (sn_sent s ++ [r])).

Definition _report_failure (channel message : string) : M Sender unit :=
  modify (λ s, if bool_decide (channel ∈ sn_down s) then s
               else mkSender (sn_world s) ({[channel]} ∪ sn_down s)
                             (sn_log s ++ [LogDown channel message]) (sn_sent s)).

Definition _report_recovered (channel : string) : M Sender unit :=
  modify (λ s, if bool_decide (channel ∈ sn_down s)
               then mkSender (sn_world s) (sn_down s ∖ {[channel]})
                             (sn_log s ++ [LogWorking channel]) (sn_sent s)
               else s).

(** The [except] clause of a sender. *)
Definition send_failed (channel title message : string) (cfg : cfgdict) : M Sender (bool * string) :=
  err ← lift (_redact_secrets message cfg);
  _report_failure channel ("Failed to send " +:+ title +:+ " alert: " +:+ err);;
  mret (false, err).

(** The [try] statement of the three senders over HTTP. *)
Definition post_alert (channel title answerer : string) (cfg : cfgdict) (r : request) : M Sender (bool * string) :=
  o ← send r;
  match o with
  | Failed message => send_failed channel title message cfg
  | Responded status text =>
      if (300 <=? status)%Z then
        try_except
          (body ← lift (_redact_secrets (str_take 200 text) cfg);
           let err := answerer +:+ " returned HTTP " +:+ pretty status in
           _report_failure channel (err +:+ ": " +:+ body);;
           mret (false, err))
          (λ e, Some (send_failed channel title (exn_text e) cfg))
      else _report_recovered channel;; mret (true, EmptyString)
  end.

Definition send_discord_alert (message : string) : M Sender (bool * string) :=
  cfg ← in_world get_alerts_config;
  enabled ← lift (cfg_get cfg "discord_enabled");
  url ← lift (cfg_get cfg "discord_webhook_url");
  if negb (json_truthy enabled) || negb (json_truthy url)
  then mret (false, "Discord alerts are not enabled/configured.")
  else post_alert "discord" "Discord" "Discord webhook" cfg (ReqDiscord url message).

Definition send_email_alert (subject body : string) : M Sender (bool * string) :=
  cfg ← in_world get_alerts_config;
  enabled ← lift (cfg_get cfg "email_enabled");
  username ← lift (cfg_get cfg "smtp_username");
  password ← lift (cfg_get cfg "smtp_app_password");
  recipients ← lift (cfg_get cfg "email_recipients");
  if negb (json_truthy enabled) || negb (json_truthy username) || negb (json_truthy password)
     || negb (json_truthy recipients)
  then mret (false, "Email alerts are not enabled/fully configured.")
  else
    host ← lift (cfg_get cfg "smtp_host");
    port ← lift (cfg_get cfg "smtp_port");
    o ← send (ReqEmail host port username password recipients subject body);
    match o with
    | Responded _ _ => _report_recovered "email";; mret (true, EmptyString)
    | Failed message => send_failed "email" "email" message cfg
    end.

Definition send_telegram_alert (message : string) : M Sender (bool * string) :=
  cfg ← in_world get_alerts_config;
  token ← lift (cfg_get cfg "telegram_bot_token");
  chat_id ← lift (cfg_get cfg "telegram_chat_id");
  enabled ← lift (cfg_get cfg "telegram_enabled");
  if negb (json_truthy enabled) || negb (json_truthy token) || negb (json_truthy chat_id)
  then mret (false, "Telegram alerts are not enabled/configured.")
  else post_alert "telegram" "Telegram" "Telegram API" cfg (ReqTelegram token chat_id message).

Definition send_webhook_alert (subject message : string) : M Sender (bool * string) :=
  cfg ← in_world get_alerts_config;
  url ← lift (cfg_get cfg "webhook_url");
  enabled ← lift (cfg_get cfg "webhook_enabled");
  if negb (json_truthy enabled) || negb (json_truthy url)
  then mret (false, "Webhook alerts are not enabled/configured.")
  else
    let headers := cfg_or_null cfg "webhook_headers" in
    post_alert "webhook" "webhook" "Webhook" cfg
      (ReqWebhook url (if json_truthy headers then headers else JObj []) subject message
         (subject +:+ ": " +:+ message) subject).

Definition nl : string := String newline EmptyString.

Definition _process_alert (subject message channel : string) : M Sender unit :=
  let to c := bool_decide (channel = c) || bool_decide (channel = "all") in
  when (to "discord") (send_discord_alert ("**" +:+ subject +:+ "**" +:+ nl +:+ message);; mret tt);;
  when (to "email") (send_email_alert subject message;; mret tt);;
  when (to "telegram") (send_telegram_alert (subject +:+ nl +:+ nl +:+ message);; mret tt);;
  when (to "webhook") (send_webhook_alert subject message;; mret tt).

(** [n] rounds of the worker's loop; it waits where the queue is empty. *)
Fixpoint run_alert_worker (n : nat) : M Sender unit :=
  match n with
  | 0 => mret tt
  | S n' =>
      q ← gets (λ s, w_alertq (sn_world s));
      match q with
      | [] => mret tt
      | (subject, message, channel) :: q' =>
          in_world (modify (set_alertq q'));;
          _process_alert subject message channel;;
          run_alert_worker n'
      end
  end.

(** ** The test route *)

Definition test_channel (on : bool) (name : string) (m : M Sender (bool * string))
    (results : list (string * string)) : M Sender (list (string * string)) :=
  if on then
    r ← m;
    mret (dict_set name (if (r : bool * string).1 then "ok" else "failed: " +:+ r.2) results)
  else mret results.

Definition send_test_alert (channel : string) : M Sender (list (string * string)) :=
  if negb (bool_decide (channel ∈ ALERT_CHANNELS)) then raise (HTTPException 400)
  else
    cfg ← in_world get_alerts_config;
    discord ← lift (cfg_get cfg "discord_enabled");
    email ← lift (cfg_get cfg "email_enabled");
    telegram ← lift (cfg_get cfg "telegram_enabled");
    webhook ← lift (cfg_get cfg "webhook_enabled");
    let test c enabled := (bool_decide (channel = c) || bool_decide (channel = "all")) && json_truthy enabled in
    if negb (test "discord" discord || test "email" email || test "telegram" telegram || test "webhook" webhook)
    then raise (HTTPException 400)
    else
      results ← test_channel (test "discord" discord) "discord"
        (send_discord_alert ("**FLOD System Test Alert**" +:+ nl +:+
           "This is a test message, if you're reading this, Discord alerting is working.")) [];
      results ← test_channel (test "email" email) "email"
        (send_email_alert "FLOD System Test Alert"
           "This is a test message from the FLOD System dashboard. If you're reading this, email alerting is working.")
        results;
      results ← test_channel (test "telegram" telegram) "telegram"
        (send_telegram_alert ("FLOD System Test Alert" +:+ nl +:+ nl +:+
           "This is a test message, if you're reading this, Telegram alerting is working.")) results;
      test_channel (test "webhook" webhook) "webhook"
        (send_webhook_alert "FLOD System Test Alert"
           "This is a test message from the FLOD System dashboard. If you're reading this, the webhook is working.")
        results.
End senders.

(** ** The settings routes *)

(** [AlertsConfigPayload]: [None] where the client sent nothing. *)
Record AlertsConfigPayload := mkAlertsPayload {
  ap_discord_enabled : option bool; ap_discord_webhook_url : option string;
  ap_email_enabled : option bool; ap_smtp_host : option string; ap_smtp_port : option Z;
  ap_smtp_username : option string; ap_smtp_app_password : option string;
  ap_email_recipients : option (list string);
  ap_telegram_enabled : option bool; ap_telegram_bot_token : option string;
  ap_telegram_chat_id : option string;
  ap_webhook_enabled : option bool; ap_webhook_url : option string;
  ap_webhook_headers : option (list (string * string)) }.

(** [payload.dict()]. *)
Definition alerts_payload_dict (p : AlertsConfigPayload) : list (string * option json) :=
  [ ("discord_enabled", JBool <$> ap_discord_enabled p);
    ("discord_webhook_url", JStr <$> ap_discord_webhook_url p);
    ("email_enabled", JBool <$> ap_email_enabled p);
    ("smtp_host", JStr <$> ap_smtp_host p);
    ("smtp_port", (λ z, JNum (NInt z)) <$> ap_smtp_port p);
    ("smtp_username", JStr <$> ap_smtp_username p);
    ("smtp_app_password", JStr <$> ap_smtp_app_password p);
    ("email_recipients", (λ l, JArr (JStr <$> l)) <$> ap_email_recipients p);
    ("telegram_enabled", JBool <$> ap_telegram_enabled p);
    ("telegram_bot_token", JStr <$> ap_telegram_bot_token p);
    ("telegram_chat_id", JStr <$> ap_telegram_chat_id p);
    ("webhook_enabled", JBool <$> ap_webhook_enabled p);
    ("webhook_url", JStr <$> ap_webhook_url p);
    ("webhook_headers", (λ l, JObj (prod_map id JStr <$> l)) <$> ap_webhook_headers p) ].

Definition alerts_updates (p : AlertsConfigPayload) : cfgdict :=
  omap (λ kv, (λ v, (kv.1, v)) <$> kv.2) (alerts_payload_dict p).

(** [safe[flag] = bool(safe.pop(key, ""))] *)
Definition redact_key (key flag : string) (safe : cfgdict) : cfgdict :=
  let v := default (JStr EmptyString) (dict_get key safe) in
  dict_set flag (JBool (json_truthy v)) (dict_pop key safe).

Definition _redact (cfg : cfgdict) : res cfgdict :=
  let safe := redact_key "smtp_app_password" "smtp_app_password_set" cfg in
  let safe := redact_key "discord_webhook_url" "discord_webhook_url_set" safe in
  let safe := redact_key "telegram_bot_token" "telegram_bot_token_set" safe in
  let safe := redact_key "webhook_url" "webhook_url_set" safe in
  headers ← header_dict (cfg_or_null safe "webhook_headers");
  let names := py_sort String.ltb headers.*1 in
  mret (dict_set "webhook_header_names" (JArr (JStr <$> names)) (dict_pop "webhook_headers" safe)).

Section settings.
Context {E : Env}.

Definition get_alerts_config_api : M World cfgdict :=
  cfg ← get_alerts_config; lift (_redact cfg).

Definition update_alerts_config (payload : AlertsConfigPayload) : M World cfgdict :=
  current ← get_alerts_config;
  let new_config := dict_update current (alerts_updates payload) in
  save_json_file ALERTS_CONFIG_PATH (JObj new_config);;
  lift (_redact new_config).
End settings.

(** ** Credentials do not leave through the settings routes *)

Definition CREDENTIALS : list string :=
  ["smtp_app_password"; "discord_webhook_url"; "telegram_bot_token"; "webhook_url"; "webhook_headers"].

(** What may be told about a credential: whether it is set, and the header names. *)
Definition same_shape (u v : json) : Prop :=
  json_truthy u = json_truthy v ∧
  match u, v with
  | JObj l, JObj l' => l.*1 = l'.*1
  | JObj _, _ | _, JObj _ => False
  | _, _ => True
  end.

Definition same_entry (hidden : list string) (a b : string * json) : Prop :=
  a.1 = b.1 ∧ (a.1 ∈ hidden → same_shape a.2 b.2) ∧ (a.1 ∉ hidden → a.2 = b.2).

(** Two configurations that differ in the values of the keys of [hidden] only. *)
Definition same_but (hidden : list string) (c c' : cfgdict) : Prop := Forall2 (same_entry hidden) c c'.

Lemma same_but_pop hidden k c c' : same_but (k :: hidden) c c' → same_but hidden (dict_pop k c) (dict_pop k c').
Proof.
  unfold same_but, dict_pop. induction 1 as [|[a x] [b y] l l' (He & Hs & Hn) _ IH]; [constructor|].
  simpl in *. subst b. rewrite !filter_cons. simpl. case_decide as Ha; [|done].
  constructor; [|done]. split_and!; simpl; [done|..]; intros H; [apply Hs|apply Hn]; set_solver.
Qed.

Lemma same_but_set hidden k v c c' :
  k ∉ hidden → same_but hidden c c' → same_but hidden (dict_set k v c) (dict_set k v c').
Proof.
  intros Hk. unfold same_but. induction 1 as [|[a x] [b y] l l' (He & Hs & Hn) HF IH]; simpl in *.
  { by repeat constructor. }
  subst b. case_decide; subst; constructor; try done.
Qed.

Lemma same_but_get hidden k c c' :
  same_but hidden c c' → k ∈ hidden →
  (dict_get k c = None ∧ dict_get k c' = None) ∨
  ∃ u v, dict_get k c = Some u ∧ dict_get k c' = Some v ∧ same_shape u v.
Proof.
  intros H Hk. induction H as [|[a x] [b y] l l' (He & Hs & Hn) _ IH]; simpl in *; [by left|].
  subst b. case_decide; subst; [|done]. right. exists x, y. auto.
Qed.

Lemma same_but_redact_key hidden key flag c c' :
  flag ∉ hidden → same_but (key :: hidden) c c' →
  same_but hidden (redact_key key flag c) (redact_key key flag c').
Proof.
  intros Hf H. unfold redact_key.
  assert (Ht : json_truthy (default (JStr EmptyString) (dict_get key c)) =
               json_truthy (default (JStr EmptyString) (dict_get key c'))).
  { destruct (same_but_get _ key _ _ H) as [[-> ->]|(u & v & -> & -> & [Hs _])]; [set_solver|done..]. }
  rewrite Ht. by apply same_but_set, same_but_pop.
Qed.

Lemma same_but_nil c c' : same_but [] c c' → c = c'.
Proof.
  induction 1 as [|[a x] [b y] l l' (He & _ & Hn) _ IH]; [done|]. simpl in *. subst.
  rewrite (Hn ltac:(set_solver)). done.
Qed.

Lemma header_names_same u v :
  same_shape u v →
  match header_dict u, header_dict v with
  | Ok l, Ok l' => l.*1 = l'.*1
  | Exn e, Exn e' => e = e'
  | _, _ => False
  end.
Proof.
  intros [Ht Hs]. unfold header_dict. rewrite Ht. destruct (json_truthy v); [|done].
  by destruct u, v.
Qed.

Lemma redact_same c c' : same_but CREDENTIALS c c' → _redact c = _redact c'.
Proof.
  intros H. unfold _redact, CREDENTIALS in *.
  apply (same_but_redact_key _ _ "smtp_app_password_set") in H; [|set_solver].
  apply (same_but_redact_key _ _ "discord_webhook_url_set") in H; [|set_solver].
  apply (same_but_redact_key _ _ "telegram_bot_token_set") in H; [|set_solver].
  apply (same_but_redact_key _ _ "webhook_url_set") in H; [|set_solver].
  revert H. generalize (redact_key "webhook_url" "webhook_url_set"
    (redact_key "telegram_bot_token" "telegram_bot_token_set" (redact_key "discord_webhook_url"
      "discord_webhook_url_set" (redact_key "smtp_app_password" "smtp_app_password_set" c)))).
  generalize (redact_key "webhook_url" "webhook_url_set"
    (redact_key "telegram_bot_token" "telegram_bot_token_set" (redact_key "discord_webhook_url"
      "discord_webhook_url_set" (redact_key "smtp_app_password" "smtp_app_password_set" c')))).
  intros s' s H.
  assert (Hh : same_shape (cfg_or_null s "webhook_headers") (cfg_or_null s' "webhook_headers")).
  { unfold cfg_or_null. destruct (same_but_get _ "webhook_headers" _ _ H) as [[-> ->]|(u & v & -> & -> & ?)];
      [set_solver|done..]. }
  apply header_names_same in Hh. apply same_but_pop, same_but_nil in H. rewrite H.
  destruct (header_dict _) as [l|e], (header_dict _) as [l'|e']; try done; [|by subst].
  cbn [mbind res_bind]. by rewrite Hh.
Qed.

Lemma same_shape_refl v : same_shape v v.
Proof. split; [done|]. by destruct v. Qed.

Lemma same_but_update hidden l c c' :
  same_but hidden c c' → same_but hidden (dict_update c l) (dict_update c' l).
Proof.
  unfold dict_update. revert c c'. induction l as [|[k v] l IH]; intros c c' H; [done|]. cbn [foldl].
  apply IH. clear IH. unfold same_but in *.
  induction H as [|[a x] [b y] m m' (He & Hs & Hn) HF IH]; simpl in *.
  { constructor; [|constructor]. split_and!; simpl; auto using same_shape_refl. }
  subst b. case_decide; subst; constructor; try done. split_and!; simpl; auto using same_shape_refl.
Qed.

Lemma redact_key_hides key flag k c :
  flag ≠ k → k = key ∨ dict_get k c = None → dict_get k (redact_key key flag c) = None.
Proof.
  intros Hf Hk. unfold redact_key. rewrite dict_get_set_ne by done.
  destruct (decide (key = k)) as [->|Hne]; [apply dict_get_pop_eq|].
  rewrite dict_get_pop_ne by done. naive_solver.
Qed.

Lemma redact_hides c r k : _redact c = Ok r → k ∈ CREDENTIALS → dict_get k r = None.
Proof.
  unfold _redact. destruct (header_dict _) as [l|e]; [|done]. cbn [mbind res_bind]. intros [= <-] Hk.
  unfold CREDENTIALS in Hk. rewrite !elem_of_cons in Hk.
  destruct Hk as [->|[->|[->|[->|[->|Hk]]]]]; [..|by apply elem_of_nil in Hk];
    rewrite dict_get_set_ne by done; [..|by rewrite dict_get_pop_eq];
    rewrite dict_get_pop_ne by done;
    repeat (apply redact_key_hides; [done|]; first [by left|right]).
Qed.

Section routes.
Context {E : Env}.

(** The settings file holds this object. *)
Definition alerts_file (saved : cfgdict) (w : World) : Prop :=
  w_json w !! ALERTS_CONFIG_PATH = Some (JText (JGood (JObj saved))).
Definition merged (saved : cfgdict) : cfgdict := dict_update DEFAULT_ALERTS_CONFIG saved.

Lemma get_alerts_config_reads saved w :
  alerts_file saved w → get_alerts_config w = (Ok (merged saved), w).
Proof.
  intros H. unfold get_alerts_config, load_json_file, mbind, M_bind, gets, mret, M_ret, lift. by rewrite H.
Qed.

Lemma update_alerts_result payload saved w :
  alerts_file saved w →
  (update_alerts_config payload w).1 = _redact (dict_update (merged saved) (alerts_updates payload)).
Proof.
  intros H. unfold update_alerts_config. unfold mbind at 1, M_bind at 1.
  rewrite (get_alerts_config_reads _ _ H). unfold mbind, M_bind, save_json_file, try_all, try_except.
  by destruct (_atomic_write _ _ _) as [[[]|e] w'].
Qed.

(** C16: The settings routes tell an operator's browser nothing of a credential but
    whether it is set (and the names of the webhook headers): with two saved
    configurations that differ in credentials only, reading and changing the
    settings are answered alike, and no answer has a credential's key. *)
Theorem credentials_hidden saved saved' w w' payload :
  alerts_file saved w → alerts_file saved' w' →
  same_but CREDENTIALS (merged saved) (merged saved') →
  (get_alerts_config_api w).1 = (get_alerts_config_api w').1 ∧
  (update_alerts_config payload w).1 = (update_alerts_config payload w').1 ∧
  (∀ r k, (get_alerts_config_api w).1 = Ok r ∨ (update_alerts_config payload w).1 = Ok r →
          k ∈ CREDENTIALS → dict_get k r = None).
Proof.
  intros H H' Hs. rewrite (update_alerts_result _ _ _ H), (update_alerts_result _ _ _ H').
  unfold get_alerts_config_api, mbind, M_bind.
  rewrite (get_alerts_config_reads _ _ H), (get_alerts_config_reads _ _ H'). cbn [fst lift].
  split_and!; [by apply redact_same|by apply redact_same, same_but_update|].
  intros r k [Hr|Hr]; by eapply redact_hides.
Qed.
End routes.

Definition alert_world (saved : cfgdict) : World :=
  set_json {[ALERTS_CONFIG_PATH := JText (JGood (JObj saved))]} empty_world.

Lemma credentials_hidden_witness :
  let w p := alert_world [("smtp_app_password", JStr p)] in
  (@get_alerts_config_api calm_env (w "hunter2")).1 = (@get_alerts_config_api calm_env (w "letmein")).1.
Proof.
  intros w. eapply (@credentials_hidden calm_env [("smtp_app_password", JStr "hunter2")]
    [("smtp_app_password", JStr "letmein")] (w "hunter2") (w "letmein")
    (mkAlertsPayload None None None None None None None None None None None None None None));
    [done..|].
  unfold same_but.
  repeat (constructor; [split_and!; simpl; [done|intros _; first [apply same_shape_refl|by split]|
    first [done|intros Hn; exfalso; apply Hn; left]]|]). constructor.
Defined.

(** ** Delivery *)

#[local] Open Scope nat_scope.
#[local] Open Scope list_scope.

(** A credential is a string wherever it is set; so are the header values. The
    settings route accepts nothing else. *)
Definition secret_ok (v : json) : Prop := json_truthy v = true → ∃ s, v = JStr s.
Definition headers_ok (v : json) : Prop :=
  json_truthy v = true → ∃ l, v = JObj l ∧ Forall (λ kv, secret_ok kv.2) l.
Definition alerts_ok (cfg : cfgdict) : Prop :=
  secret_ok (cfg_or_null cfg "smtp_app_password") ∧ secret_ok (cfg_or_null cfg "smtp_username") ∧
  secret_ok (cfg_or_null cfg "webhook_url") ∧ headers_ok (cfg_or_null cfg "webhook_headers").

Lemma redact_value_ok v t : secret_ok v → ∃ t', redact_value v t = Ok t'.
Proof.
  intros H. unfold redact_value. destruct (json_truthy v) eqn:Ht; [|eauto].
  destruct (H Ht) as [s ->]. eauto.
Qed.

Lemma redact_values_ok vs t : Forall secret_ok vs → ∃ t', redact_values vs t = Ok t'.
Proof.
  intros H. revert t. induction H as [|v vs Hv _ IH]; intros t; [by eexists|]. cbn [redact_values].
  destruct (redact_value_ok v t Hv) as [t' ->]. apply IH.
Qed.

Lemma redact_secrets_ok cfg t : alerts_ok cfg → ∃ t', _redact_secrets t cfg = Ok t'.
Proof.
  intros (H1 & H2 & H3 & H4). unfold _redact_secrets.
  destruct (redact_value_ok _ (re_sub _TELEGRAM_TOKEN_RE "botREDACTED"
    (re_sub _WEBHOOK_PATH_RE "/api/webhooks/REDACTED" t)) H1) as [t1 ->]. cbn [mbind res_bind].
  destruct (redact_value_ok _ t1 H2) as [t2 ->]. cbn [mbind res_bind].
  destruct (redact_value_ok _ t2 H3) as [t3 ->]. cbn [mbind res_bind]. unfold header_dict.
  destruct (json_truthy _) eqn:Ht; [|by eexists]. destruct (H4 Ht) as (l & -> & Hl). cbn [mbind res_bind].
  apply redact_values_ok. by rewrite Forall_fmap.
Qed.

Lemma merged_get saved k :
  is_Some (dict_get k DEFAULT_ALERTS_CONFIG) → cfg_get (merged saved) k = Ok (cfg_or_null (merged saved) k).
Proof.
  intros Hk. unfold cfg_get, cfg_or_null, merged.
  by destruct (dict_get_update _ saved k Hk) as [v ->].
Qed.

Definition is_on (cfg : cfgdict) (k : string) : bool := json_truthy (cfg_or_null cfg k).

(** The requests an alert calls for, channel by channel. *)
Definition discord_requests (cfg : cfgdict) (message : string) : list request :=
  if is_on cfg "discord_enabled" && is_on cfg "discord_webhook_url"
  then [ReqDiscord (cfg_or_null cfg "discord_webhook_url") message] else [].
Definition email_requests (cfg : cfgdict) (subject body : string) : list request :=
  if is_on cfg "email_enabled" && is_on cfg "smtp_username" && is_on cfg "smtp_app_password"
     && is_on cfg "email_recipients"
  then [ReqEmail (cfg_or_null cfg "smtp_host") (cfg_or_null cfg "smtp_port") (cfg_or_null cfg "smtp_username")
          (cfg_or_null cfg "smtp_app_password") (cfg_or_null cfg "email_recipients") subject body] else [].
Definition telegram_requests (cfg : cfgdict) (message : string) : list request :=
  if is_on cfg "telegram_enabled" && is_on cfg "telegram_bot_token" && is_on cfg "telegram_chat_id"
  then [ReqTelegram (cfg_or_null cfg "telegram_bot_token") (cfg_or_null cfg "telegram_chat_id") message] else [].
Definition webhook_requests (cfg : cfgdict) (subject message : string) : list request :=
  if is_on cfg "webhook_enabled" && is_on cfg "webhook_url"
  then [ReqWebhook (cfg_or_null cfg "webhook_url")
          (if is_on cfg "webhook_headers" then cfg_or_null cfg "webhook_headers" else JObj [])
          subject message (subject +:+ ": " +:+ message) subject] else [].

Definition selected (channel c : string) (rs : list request) : list request :=
  if bool_decide (channel = c) || bool_decide (channel = "all") then rs else [].

Definition alert_requests (cfg : cfgdict) (subject message channel : string) : list request :=
  selected channel "discord" (discord_requests cfg ("**" +:+ subject +:+ "**" +:+ nl +:+ message)) ++
  selected channel "email" (email_requests cfg subject message) ++
  selected channel "telegram" (telegram_requests cfg (subject +:+ nl +:+ nl +:+ message)) ++
  selected channel "webhook" (webhook_requests cfg subject message).

(** [m] returns, leaves the world alone and sends [rs]. *)
Definition sends {A} (m : M Sender A) (s : Sender) (rs : list request) : Prop :=
  runs m s (λ _ s', sn_world s' = sn_world s ∧ sn_sent s' = sn_sent s ++ rs).

Lemma sends_ret {A} (a : A) s : sends (mret a) s [].
Proof. apply runs_ret. by rewrite app_nil_r. Qed.

Lemma sends_lift {A B} (r : res A) a (k : A → M Sender B) s rs :
  r = Ok a → sends (k a) s rs → sends (lift r ≫= k) s rs.
Proof. intros -> H. by apply runs_bind, (runs_lift _ a). Qed.

Lemma sends_then {A B} (m : M Sender A) (k : A → M Sender B) s rs rs' :
  sends m s rs → (∀ a s', sn_world s' = sn_world s → sends (k a) s' rs') → sends (m ≫= k) s (rs ++ rs').
Proof.
  intros Hm Hk. apply runs_bind. eapply runs_impl; [exact Hm|]. intros a s' [Hw Hs].
  eapply runs_impl; [by apply Hk|]. intros b s'' [Hw' Hs']. simpl. by rewrite Hw', Hw, Hs', Hs, app_assoc.
Qed.

Lemma sends_modify f s :
  sn_world (f s) = sn_world s → sn_sent (f s) = sn_sent s → sends (modify f) s [].
Proof. intros H1 H2. apply runs_modify. by rewrite app_nil_r. Qed.

Lemma sends_report_failure c t s : sends (_report_failure c t) s [].
Proof. apply sends_modify; by case_bool_decide. Qed.
Lemma sends_report_recovered c s : sends (_report_recovered c) s [].
Proof. apply sends_modify; by case_bool_decide. Qed.

Section delivery.
Context {E : Env} (transport : nat → request → outcome) (exn_text : exn → string).

Lemma sends_failed c title msg cfg s : alerts_ok cfg → sends (send_failed c title msg cfg) s [].
Proof using.
  intros H. destruct (redact_secrets_ok cfg msg H) as [t Ht]. eapply sends_lift; [exact Ht|].
  apply (sends_then _ _ _ [] []); [apply sends_report_failure|intros; apply sends_ret].
Qed.

Lemma sends_send {A} r (k : outcome → M Sender A) s :
  (∀ o s', sn_world s' = sn_world s → sends (k o) s' []) → sends (send transport r ≫= k) s [r].
Proof using.
  intros H. apply (sends_then _ _ _ [r] []); [|done]. by eexists _, _.
Qed.

Lemma post_alert_sends c title who cfg r s :
  alerts_ok cfg → sends (post_alert transport exn_text c title who cfg r) s [r].
Proof using.
  intros H. apply sends_send. intros [st text|msg] s' _; [|by apply sends_failed].
  destruct (300 <=? st)%Z.
  - unfold sends, runs, try_except. destruct (redact_secrets_ok cfg (str_take 200 text) H) as [t Ht].
    unfold lift. rewrite Ht. unfold mbind, M_bind, _report_failure, modify, mret, M_ret.
    eexists _, _. split; [done|]. rewrite app_nil_r. by case_bool_decide.
  - apply (sends_then _ _ _ [] []); [apply sends_report_recovered|intros; apply sends_ret].
Qed.

Lemma sends_cfg {A} (k : cfgdict → M Sender A) saved s rs :
  alerts_file saved (sn_world s) → sends (k (merged saved)) s rs → sends (in_world get_alerts_config ≫= k) s rs.
Proof using.
  intros Hf H. apply runs_bind. exists (merged saved), s. split; [|done].
  unfold in_world. rewrite (get_alerts_config_reads _ _ Hf). by destruct s.
Qed.

Context (saved : cfgdict) (Hok : alerts_ok (merged saved)).

Lemma sends_discord m s :
  alerts_file saved (sn_world s) →
  sends (send_discord_alert transport exn_text m) s (discord_requests (merged saved) m).
Proof using Hok.
  intros Hf. eapply sends_cfg; [exact Hf|]. do 2 (eapply sends_lift; [by apply merged_get|]).
  rewrite <-negb_andb. unfold discord_requests, is_on.
  destruct (_ && _); simpl; [by apply post_alert_sends|apply sends_ret].
Qed.

Lemma sends_email m b s :
  alerts_file saved (sn_world s) →
  sends (send_email_alert transport m b) s (email_requests (merged saved) m b).
Proof using Hok.
  intros Hf. eapply sends_cfg; [exact Hf|]. do 4 (eapply sends_lift; [by apply merged_get|]).
  rewrite <-!negb_andb. unfold email_requests, is_on. destruct (_ && _); simpl; [|apply sends_ret].
  do 2 (eapply sends_lift; [by apply merged_get|]). apply sends_send. intros [st t|msg] s' _.
  - apply (sends_then _ _ _ [] []); [apply sends_report_recovered|intros; apply sends_ret].
  - by apply sends_failed.
Qed.

Lemma sends_telegram m s :
  alerts_file saved (sn_world s) →
  sends (send_telegram_alert transport exn_text m) s (telegram_requests (merged saved) m).
Proof using Hok.
  intros Hf. eapply sends_cfg; [exact Hf|]. do 3 (eapply sends_lift; [by apply merged_get|]).
  rewrite <-!negb_andb. unfold telegram_requests, is_on.
  destruct (_ && _); simpl; [by apply post_alert_sends|apply sends_ret].
Qed.

Lemma sends_webhook m b s :
  alerts_file saved (sn_world s) →
  sends (send_webhook_alert transport exn_text m b) s (webhook_requests (merged saved) m b).
Proof using Hok.
  intros Hf. eapply sends_cfg; [exact Hf|]. do 2 (eapply sends_lift; [by apply merged_get|]).
  rewrite <-negb_andb. unfold webhook_requests, is_on.
  destruct (_ && _); simpl; [by apply post_alert_sends|apply sends_ret].
Qed.

Lemma sends_when c channel (m : M Sender unit) s rs :
  sends m s rs → sends (when (bool_decide (channel = c) || bool_decide (channel = "all")) m) s (selected channel c rs).
Proof using. intros H. unfold when, selected. destruct (_ || _); [done|apply sends_ret]. Qed.

Lemma sends_ignore {A} (m : M Sender A) s rs : sends m s rs → sends (m;; mret tt) s rs.
Proof using. intros H. rewrite <-(app_nil_r rs). eapply sends_then; [exact H|]. intros. apply sends_ret. Qed.

Lemma process_alert_sends subject message channel s :
  alerts_file saved (sn_world s) →
  sends (_process_alert transport exn_text subject message channel) s
        (alert_requests (merged saved) subject message channel).
Proof using Hok.
  intros Hf. unfold _process_alert, alert_requests.
  apply sends_then; [by apply sends_when, sends_ignore, sends_discord|intros _ s1 H1].
  apply sends_then; [by apply sends_when, sends_ignore, sends_email; rewrite H1|intros _ s2 H2].
  apply sends_then; [by apply sends_when, sends_ignore, sends_telegram; rewrite H2, H1|intros _ s3 H3].
  by apply sends_when, sends_ignore, sends_webhook; rewrite H3, H2, H1.
Qed.
End delivery.

(** The requests of a queue of alerts. *)
Definition queue_requests (cfg : cfgdict) (q : list (string * string * string)) : list request :=
  concat ((λ '(subject, message, channel), alert_requests cfg subject message channel) <$> q).

(** The worker empties its queue in order, whatever becomes of the requests:
    each alert leads to exactly one request per channel it selects that is
    enabled and configured, a channel that fails keeps none of the others from
    being tried, and no failure stops the worker. *)
Theorem worker_delivers {E : Env} transport exn_text saved n s :
  alerts_file saved (sn_world s) → alerts_ok (merged saved) →
  length (w_alertq (sn_world s)) ≤ n →
  runs (run_alert_worker transport exn_text n) s (λ _ s',
    w_alertq (sn_world s') = [] ∧
    sn_sent s' = sn_sent s ++ queue_requests (merged saved) (w_alertq (sn_world s))).
Proof.
  intros Hf Hok. remember (w_alertq (sn_world s)) as q eqn:Hq. revert s n Hf Hq.
  induction q as [|[[subject message] channel] q IH]; intros s n Hf Hq Hn.
  { destruct n; cbn [run_alert_worker]; [apply runs_ret; by rewrite app_nil_r|].
    apply runs_bind, runs_gets. rewrite <-Hq. apply runs_ret. by rewrite app_nil_r. }
  destruct n as [|n]; [simpl in Hn; lia|]. cbn [run_alert_worker].
  apply runs_bind, runs_gets. rewrite <-Hq. apply runs_bind. unfold in_world at 1. eexists _, _.
  split; [done|]. set (s1 := mkSender _ _ _ _).
  assert (Hf1 : alerts_file saved (sn_world s1)) by (clear -Hf; unfold s1; destruct s as [[] ? ? ?]; done).
  apply runs_bind. eapply runs_impl; [by apply (process_alert_sends transport exn_text saved Hok)|].
  intros _ s2 [Hw2 Hs2]. eapply runs_impl.
  - apply IH; [by rewrite Hw2| |simpl in Hn; lia]. rewrite Hw2. unfold s1. by destruct s as [[] ? ? ?].
  - intros _ s3 [H1 H2]. split; [done|]. rewrite H2, Hs2. unfold queue_requests. rewrite fmap_cons. simpl.
    by rewrite app_assoc.
Qed.

Definition discord_on : cfgdict :=
  [("discord_enabled", JBool true); ("discord_webhook_url", JStr "https://discord/api/webhooks/1/a")].
Definition queued : Sender :=
  mkSender (set_alertq [("DDoS Detected", "10.0.0.5", "all")] (alert_world discord_on)) ∅ [] [].

Lemma worker_delivers_witness :
  runs (@run_alert_worker calm_env (λ _ _, Failed "no route") (λ _, "") 1) queued (λ _ s',
    w_alertq (sn_world s') = [] ∧
    sn_sent s' = [ReqDiscord (JStr "https://discord/api/webhooks/1/a")
                    ("**DDoS Detected**" +:+ nl +:+ "10.0.0.5")]).
Proof.
  eapply runs_impl;
    [apply (@worker_delivers calm_env _ _ discord_on); [done| |done]|].
  - split_and!; intros Ht; try discriminate Ht. 
  - intros _ s' [H1 H2]. split; [exact H1|]. rewrite H2. reflexivity.
Defined.

(** ** The journal is not flooded *)

(** The state of a channel after these lines, if they take turns. *)
Fixpoint turns (c : string) (down : bool) (log : list log_line) : option bool :=
  match log with
  | [] => Some down
  | LogDown c' _ :: log' => if decide (c' = c) then if down then None else turns c true log' else turns c down log'
  | LogWorking c' :: log' => if decide (c' = c) then if down then turns c false log' else None else turns c down log'
  end.

(** The lines of every channel take turns, and its flag says which came last. *)
Definition in_turns (s : Sender) : Prop :=
  ∀ c, turns c false (sn_log s) = Some (bool_decide (c ∈ sn_down s)).

Lemma turns_app c b l1 l2 : turns c b (l1 ++ l2) = b' ← turns c b l1; turns c b' l2.
Proof.
  revert b. induction l1 as [|[c' m|c'] l1 IH]; intros b; simpl; [done|..];
    destruct (decide (c' = c)); try apply IH; destruct b; simpl; try apply IH; done.
Qed.

Lemma pres_report_failure c m : pres in_turns (_report_failure c m).
Proof.
  apply pres_modify. intros s Hs c'. case_bool_decide as Hd; [done|]. cbn [sn_log sn_down].
  rewrite turns_app, Hs. simpl. destruct (decide (c = c')) as [->|Hne].
  - rewrite bool_decide_eq_false_2 by done. by rewrite bool_decide_eq_true_2 by set_solver.
  - f_equal. apply bool_decide_ext. set_solver.
Qed.

Lemma pres_report_recovered c : pres in_turns (_report_recovered c).
Proof.
  apply pres_modify. intros s Hs c'. case_bool_decide as Hd; [|done]. cbn [sn_log sn_down].
  rewrite turns_app, Hs. simpl. destruct (decide (c = c')) as [->|Hne].
  - rewrite bool_decide_eq_true_2 by done. by rewrite bool_decide_eq_false_2 by set_solver.
  - f_equal. apply bool_decide_ext. set_solver.
Qed.

Lemma pres_in_world {A} (m : M World A) : pres in_turns (in_world m).
Proof. intros s Hs. unfold in_world. by destruct (m (sn_world s)). Qed.

Lemma pres_send transport r : pres in_turns (send transport r).
Proof. by intros s. Qed.

#[local] Hint Resolve pres_report_failure pres_report_recovered pres_in_world pres_send : pres.

Section journal.
Context {E : Env} (transport : nat → request → outcome) (exn_text : exn → string).

Lemma pres_send_failed c t m cfg : pres in_turns (send_failed c t m cfg).
Proof using. unfold send_failed. pres_auto. Qed.
#[local] Hint Resolve pres_send_failed : pres.

Lemma pres_post_alert c t a cfg r : pres in_turns (post_alert transport exn_text c t a cfg r).
Proof using.
  unfold post_alert. pres_auto. apply pres_try_except; [pres_auto|]. intros e k [= <-]. pres_auto.
Qed.
#[local] Hint Resolve pres_post_alert : pres.

Lemma pres_process_alert subject message channel :
  pres in_turns (_process_alert transport exn_text subject message channel).
Proof using.
  unfold _process_alert, send_discord_alert, send_email_alert, send_telegram_alert, send_webhook_alert.
  pres_auto.
Qed.
#[local] Hint Resolve pres_process_alert : pres.

Lemma pres_run_alert_worker n : pres in_turns (run_alert_worker transport exn_text n).
Proof using.
  induction n as [|n IH]; cbn [run_alert_worker]; pres_auto.
Qed.

Lemma pres_send_test_alert channel : pres in_turns (send_test_alert transport exn_text channel).
Proof using.
  unfold send_test_alert, test_channel, send_discord_alert, send_email_alert, send_telegram_alert,
    send_webhook_alert. pres_auto.
Qed.
End journal.

(** However often a channel fails, its outage is logged once, and its recovery
    once before the next: through any alerts and test messages, whether they
    succeed or raise, the failure and recovery lines of every channel take
    turns. *)
Theorem outage_logged_once {E : Env} transport exn_text n channel s :
  in_turns s →
  in_turns (run_alert_worker transport exn_text n s).2 ∧
  in_turns (send_test_alert transport exn_text channel s).2.
Proof. intros Hs. split; [by apply pres_run_alert_worker|by apply pres_send_test_alert]. Qed.

Lemma outage_logged_once_witness :
  in_turns (@run_alert_worker calm_env (λ _ _, Failed "no route") (λ _, "") 1 queued).2.
Proof. apply (@outage_logged_once calm_env _ _ 1 "all" queued). intros c. reflexivity. Defined.
