(* ===== verification/Auth.v ===== *)
(** * auth.py and users.py: sessions, lockout, accounts

    A request is what the handlers read of it. [checkpw] and [hashpw] are
    bcrypt's, [token] the n-th value of [secrets.token_hex]: parameters. *)

From S2P Require Import Prelude PyNum PyStr Json World Db.

Record Request := mkRequest {
  rq_session_id : option string; rq_client : option string;
  rq_content_length : option string; rq_path : string }.

Definition MAX_REQUEST_BODY_BYTES : Z := (10 * 1024 * 1024)%Z.

(** [s.replace(old, new)] for a non-empty [old]. *)
Fixpoint replace_from (fuel : nat) (old new s : string) : string :=
  match fuel with
  | O => s
  | S fuel' =>
      match s with
      | EmptyString => EmptyString
      | String c s' =>
          if str_prefix old s then new ^^ replace_from fuel' old new
                                             (String.substring (String.length old)
                                                (String.length s - String.length old) s)
          else String c (replace_from fuel' old new s')
      end
  end.
Definition str_replace (old new s : string) : string := replace_from (S (String.length s)) old new s.

(** What the middleware decides before or instead of the handler. *)
Inductive gate :=
  | Reject (status : Z)
  | Redirect (url : string)
  | Pass (refresh_cookie : bool).

Definition too_large (content_length : option string) : bool :=
  match content_length with
  | Some s => match int_of_string s with Ok n => (MAX_REQUEST_BODY_BYTES <? n)%Z | Exn _ => false end
  | None => false
  end.

(** Paths served without a session, and paths that need one. *)
Definition public_path (p : string) : bool :=
  str_prefix "/static/login.html" p || str_prefix "/api/login" p || str_prefix "/static/base.css" p.
Definition protected_path (p : string) : bool :=
  str_suffix ".html" p || bool_decide (p = "/"%string) || str_prefix "/api/" p.

(** [[t for t in attempts if now - t <= LOGIN_WINDOW_SECS]] *)
Definition recent (now : num) (attempts : list num) : list num :=
  List.filter (λ t, nle (nsub now t) LOGIN_WINDOW_SECS) attempts.

Definition sessions (w : World) : gmap string Session := active_sessions (w_state w).

(** The account row of a username. *)
Definition find_user (username : string) (d : Database) : option User :=
  head (List.filter (λ u, bool_decide (us_username u = username)) (db_users d)).

Section auth.
Context {E : Env}.
Context (checkpw : string → string → res bool) (hashpw : nat → string → string)
        (token : nat → string).

(** ** Login throttling *)

Definition _login_locked_out (client_ip : string) : M World bool :=
  now ← time_time;
  attempts ← gets (λ w, recent now (default [] (failed_login_attempts (w_state w) !! client_ip)));
  modify (upd_state (upd_failed_login (<[client_ip := attempts]>)));;
  mret (LOGIN_MAX_ATTEMPTS <=? length attempts)%nat.

Definition _record_login_failure (client_ip : string) : M World unit :=
  now ← time_time;
  modify (upd_state (upd_failed_login (λ m, <[client_ip := default [] (m !! client_ip) ++ [now]]> m))).

(** [bcrypt.checkpw], with the ValueError of a malformed hash caught. *)
Definition password_ok (password stored_hash : string) : res bool :=
  match checkpw password stored_hash with
  | Exn ValueError => Ok false
  | r => r
  end.

(** The body of [login]'s try. *)
Definition login_body (client_ip username password : string) : M World string :=
  locked ← _login_locked_out client_ip;
  if (locked : bool) then raise (HTTPException 429)
  else
    row ← read_tx (find_user username);
    match row with
    | None => _record_login_failure client_ip;; raise (HTTPException 401)
    | Some u =>
        ok ← lift (password_ok password (us_password_hash u));
        if (ok : bool) then
          n ← gets w_ticks;
          let session_token := token n in
          now ← time_time;
          modify (upd_state (upd_sessions (<[session_token := mkSession username now]>)));;
          modify (upd_state (upd_failed_login (delete client_ip)));;
          mret session_token
        else _record_login_failure client_ip;; raise (HTTPException 401)
    end.

Definition login (rq : Request) (username password : string) : M World string :=
  try_except (login_body (default "unknown"%string (rq_client rq)) username password)
    (λ e, match e with HTTPException s => Some (raise (HTTPException s))
                     | _ => Some (raise (HTTPException 500)) end).

Definition logout (rq : Request) : M World unit :=
  match rq_session_id rq with
  | Some sid => modify (upd_state (upd_sessions (delete sid)))
  | None => mret tt
  end.

(** ** The middleware *)

(** Is the session valid? Refreshes it, or deletes it when it has idled out. *)
Definition check_session (sid : option string) : M World bool :=
  s ← gets (λ w, sid ≫= λ i, sessions w !! i);
  match sid, s with
  | Some i, Some s =>
      now ← time_time;
      if nle (nsub now (se_last_active s)) SESSION_IDLE_TIMEOUT_SECS then
        now' ← time_time;
        modify (upd_state (upd_sessions (<[i := mkSession (se_username s) now']>)));;
        mret true
      else modify (upd_state (upd_sessions (delete i)));; mret false
  | _, _ => mret false
  end.

Definition auth_gate (rq : Request) : M World gate :=
  let path := rq_path rq in
  if too_large (rq_content_length rq) then mret (Reject 413)
  else if str_contains "active-ips.html" path then
    let new_path := str_replace "active-ips.html" "active_ips.html" path in
    mret (Redirect (if str_prefix "/static/" new_path then new_path else "/static" ^^ new_path))
  else if negb (bool_decide (path = "/"%string)) && str_suffix ".html" path &&
          negb (str_prefix "/static/" path) then mret (Redirect ("/static" ^^ path))
  else if public_path path then mret (Pass false)
  else if protected_path path then
    valid ← check_session (rq_session_id rq);
    if (valid : bool) then mret (Pass true)
    else if str_prefix "/api/" path then mret (Reject 401)
    else mret (Redirect "/static/login.html")
  else mret (Pass false).

(** The handler runs exactly when the gate passes. *)
Definition auth_middleware {A} (rq : Request) (call_next : M World A) : M World (gate * option A) :=
  g ← auth_gate rq;
  match g with
  | Pass _ => r ← call_next; mret (g, Some r)
  | _ => mret (g, None)
  end.

Definition get_session_username (rq : Request) : M World string :=
  s ← gets (λ w, rq_session_id rq ≫= λ i, sessions w !! i);
  match s with Some s => mret (se_username s) | None => raise (HTTPException 401) end.

Definition revoke_sessions_for_user (username : string) : M World unit :=
  modify (upd_state (upd_sessions (filter (λ kv, se_username kv.2 ≠ username)))).

(** ** Accounts *)

Definition _reauth_locked_out (username : string) : M World bool :=
  now ← time_time;
  attempts ← gets (λ w, recent now (default [] (failed_reauth_attempts (w_state w) !! username)));
  modify (upd_state (upd_failed_reauth (<[username := attempts]>)));;
  mret (LOGIN_MAX_ATTEMPTS <=? length attempts)%nat.

Definition _record_reauth_failure (username : string) : M World unit :=
  now ← time_time;
  modify (upd_state (upd_failed_reauth (λ m, <[username := default [] (m !! username) ++ [now]]> m))).

Definition _verify_admin_password (username password : string) : M World unit :=
  locked ← _reauth_locked_out username;
  if (locked : bool) then raise (HTTPException 429)
  else
    row ← read_tx (find_user username);
    match row with
    | None => raise (HTTPException 401)
    | Some u =>
        ok ← lift (password_ok password (us_password_hash u));
        if (ok : bool) then modify (upd_state (upd_failed_reauth (delete username)))
        else _record_reauth_failure username;; raise (HTTPException 403)
    end.

(** [ORDER BY username], by code points. *)
Definition list_users : M World (list string) :=
  read_tx (λ d, py_sort String.ltb (us_username <$> db_users d)).

(** A change of the users table through [db.connect()]. *)
Definition users_tx (f : list User → list User) : M World unit :=
  execute;; execute;; modify (upd_db (upd_users f)).

Definition create_user (rq : Request) (username password admin_password : string) : M World unit :=
  caller ← get_session_username rq;
  _verify_admin_password caller admin_password;;
  n ← gets w_ticks;
  let password_hash := hashpw n password in
  execute;;
  existing ← gets (λ w, find_user username (w_db w));
  match existing with
  | Some _ => raise (HTTPException 400)
  | None => execute;; modify (upd_db (upd_users (λ us, us ++ [mkUser username password_hash ""])))
  end.

Definition delete_user (rq : Request) (username admin_password : string) : M World unit :=
  caller ← get_session_username rq;
  _verify_admin_password caller admin_password;;
  existing ← read_tx (find_user username);
  match existing with
  | None => raise (HTTPException 404)
  | Some _ =>
      count ← gets (λ w, length (db_users (w_db w)));
      if (1 <? count)%nat then
        users_tx (List.filter (λ u, negb (bool_decide (us_username u = username))));;
        revoke_sessions_for_user username
      else execute;; execute;; raise (HTTPException 400)
  end.

Definition set_password (rq : Request) (username new_password admin_password : string) : M World unit :=
  caller ← get_session_username rq;
  _verify_admin_password caller admin_password;;
  existing ← read_tx (find_user username);
  match existing with
  | None => raise (HTTPException 404)
  | Some _ =>
      n ← gets w_ticks;
      let password_hash := hashpw n new_password in
      users_tx (fmap (λ u, if bool_decide (us_username u = username)
                           then mkUser username password_hash "" else u));;
      revoke_sessions_for_user username
  end.
End auth.
