(* ===== verification/AuthFacts.v ===== *)
(** * Properties of authentication and account management

    The gate, the brute-force bound, and the account invariants. *)

From S2P Require Import Prelude PyNum PyStr Json World Db PlaybooksFacts Auth.

(** ** The gate *)

(** A session that was active within the idle timeout at [now]. *)
Definition live_session (rq : Request) (now : num) (w : World) : Prop :=
  ∃ sid s, rq_session_id rq = Some sid ∧ sessions w !! sid = Some s ∧
           nle (nsub now (se_last_active s)) SESSION_IDLE_TIMEOUT_SECS = true.

(** What needs a session: every API route but login, the root, and every page
    under /static but the login page; a page elsewhere is redirected there
    first. *)
Definition needs_session (p : string) : Prop := protected_path p = true ∧ public_path p = false.

Lemma check_session_true {E : Env} rq w w' :
  check_session (rq_session_id rq) w = (Ok true, w') → live_session rq (clk (w_ticks w)) w.
Proof.
  unfold check_session, gets, mbind, M_bind, time_time, modify. simpl.
  destruct (rq_session_id rq) as [sid|] eqn:Hrq; simpl; [|done].
  destruct (sessions w !! sid) as [s|] eqn:Hs; simpl; [|done].
  destruct (nle _ _) eqn:Hle; simpl; [|done]. intros _. by exists sid, s.
Qed.

Lemma check_session_total {E : Env} sid w : ∃ b w', check_session sid w = (Ok b, w').
Proof.
  unfold check_session, gets, mbind, M_bind, time_time, modify. simpl.
  destruct sid as [i|]; simpl; [|by eexists _, _]. destruct (sessions w !! i) as [s|]; simpl; [|by eexists _, _].
  destruct (nle _ _); by eexists _, _.
Qed.

Lemma check_session_live {E : Env} rq w :
  live_session rq (clk (w_ticks w)) w → ∃ w', check_session (rq_session_id rq) w = (Ok true, w') ∧ w_db w' = w_db w.
Proof.
  intros (sid & s & Hrq & Hs & Hle). unfold check_session, gets, mbind, M_bind, time_time, modify. rewrite Hrq. simpl.
  rewrite Hs. simpl. rewrite Hle. simpl. eexists. split; [reflexivity|by destruct w].
Qed.

(** Without a live session the gate of such a path never passes. *)
Lemma gate_closed {E : Env} rq w :
  needs_session (rq_path rq) → ¬ live_session rq (clk (w_ticks w)) w →
  ∃ g w', (∀ b, g ≠ Pass b) ∧ auth_gate rq w = (Ok g, w').
Proof.
  intros [Hp Hpub] Hlive. unfold auth_gate. rewrite Hp, Hpub.
  destruct (too_large _); [by eexists _, _; split; [|done]|]. destruct (str_contains _ _); [by eexists _, _; split; [|done]|].
  destruct (_ && _); [by eexists _, _; split; [|done]|]. unfold mbind at 1, M_bind at 1.
  destruct (check_session_total (rq_session_id rq) w) as ([] & w1 & Hc);
    [by apply check_session_true in Hc|]. rewrite Hc.
  destruct (str_prefix "/api/" (rq_path rq)); by eexists _, _; split; [|done].
Qed.

(** A request of reasonable size for a path that names no page passes when the
    path is public or the session is live. *)
Lemma gate_open {E : Env} rq w :
  too_large (rq_content_length rq) = false → str_contains "active-ips.html" (rq_path rq) = false →
  str_suffix ".html" (rq_path rq) = false →
  public_path (rq_path rq) = true ∨ live_session rq (clk (w_ticks w)) w →
  ∃ b w', auth_gate rq w = (Ok (Pass b), w') ∧ w_db w' = w_db w.
Proof.
  intros Hl Ha Hs Hor. unfold auth_gate. rewrite Hl, Ha, Hs, andb_false_r. cbn [andb].
  destruct (public_path _); [by eexists _, _|]. destruct Hor as [|Hlive]; [done|].
  destruct (protected_path _); [|by eexists _, _]. destruct (check_session_live rq w Hlive) as (w1 & Hc & Hdb).
  unfold mbind at 1, M_bind at 1. rewrite Hc. by eexists _, _.
Qed.

(** A handler behind a path that needs a session runs only for a request with a
    session that is live now. Any other request is answered by the middleware
    with a rejection or a redirect, the same whatever the handler would have
    done, and the handler's effects do not happen. *)
Theorem gate_sound {E : Env} {A} rq w :
  needs_session (rq_path rq) → ¬ live_session rq (clk (w_ticks w)) w →
  ∃ g w', (∀ b, g ≠ Pass b) ∧
          ∀ call_next : M World A, auth_middleware rq call_next w = (Ok (g, None), w').
Proof.
  intros Hp Hlive. destruct (gate_closed rq w Hp Hlive) as (g & w1 & Hg & E'). exists g, w1. split; [done|].
  intros call_next. unfold auth_middleware, mbind at 1, M_bind at 1. rewrite E'. destruct g as [| |b]; [done..|by destruct (Hg b)].
Qed.

(** ** Brute force *)

Section brute_force.
Context {E : Env}.
Context (checkpw : string → string → res bool) (token : nat → string).
(** bcrypt rejects a malformed hash with ValueError and nothing else, and all
    the attempts fall within one throttling window. *)
Hypothesis checkpw_raises : ∀ p h e, checkpw p h = Exn e → e = ValueError.
Hypothesis one_window : ∀ i j, nle (nsub (clk i) (clk j)) LOGIN_WINDOW_SECS = true.

Definition failures (ip : string) (w : World) : list num :=
  default [] (failed_login_attempts (w_state w) !! ip).

(** Every recorded failure is a clock reading. *)
Definition stamped (ip : string) (w : World) : Prop := Forall (λ t, ∃ n, t = clk n) (failures ip w).

Lemma recent_all ip w now n : now = clk n → stamped ip w → recent now (failures ip w) = failures ip w.
Proof using one_window.
  intros -> H. unfold recent, stamped in *. induction H as [|t l [m ->] _ IH]; [done|].
  cbn [List.filter]. by rewrite one_window, IH.
Qed.

Definition is_401 {A} (r : res A) : bool :=
  match r with Exn (HTTPException 401) => true | _ => false end.
Definition is_ok {A} (r : res A) : bool := match r with Ok _ => true | _ => false end.

(** The lockout check keeps every failure of the window and locks at five. *)
Lemma locked_out_spec ip w :
  stamped ip w →
  let r := _login_locked_out ip w in
  r.1 = Ok (LOGIN_MAX_ATTEMPTS <=? length (failures ip w))%nat ∧ failures ip r.2 = failures ip w.
Proof using one_window.
  intros Hs. unfold _login_locked_out, time_time, gets, modify, mbind, M_bind. simpl.
  assert (Ht : w_state (tick w) = w_state w) by by destruct w. rewrite Ht.
  fold (failures ip w). rewrite (recent_all ip w _ (w_ticks w)) by done.
  split; [done|]. destruct w as [? []]. unfold failures. simpl. by rewrite lookup_insert_eq.
Qed.

Lemma record_failure_spec ip w :
  let r := _record_login_failure ip w in
  r.1 = Ok tt ∧ failures ip r.2 = failures ip w ++ [clk (w_ticks w)].
Proof. destruct w as [? []]. unfold failures. simpl. by rewrite lookup_insert_eq. Qed.

Lemma password_ok_total p h : ∃ b, password_ok checkpw p h = Ok b.
Proof using checkpw_raises.
  unfold password_ok. destruct (checkpw p h) as [b|e] eqn:H; [eauto|].
  rewrite (checkpw_raises p h e H). eauto.
Qed.

(** A failure is recorded and reported as 401. *)
Lemma reject_spec ip w u o w' :
  stamped ip u → failures ip u = failures ip w →
  (_record_login_failure ip;; raise (A:=string) (HTTPException 401)) u = (o, w') →
  o = Exn (HTTPException 401) ∧ stamped ip w' ∧ length (failures ip w') = S (length (failures ip w)).
Proof.
  intros Hu Hfu. unfold mbind, M_bind. destruct (record_failure_spec ip u) as [Hr Hq].
  destruct (_record_login_failure ip u) as [o1 u']. simpl in Hr, Hq. subst o1. unfold raise. intros [= <- <-].
  split; [done|]. unfold stamped. rewrite Hq, Hfu, length_app. simpl. split; [|lia].
  apply Forall_app. split; [unfold stamped in Hu; by rewrite <-Hfu|]. apply Forall_singleton. by eexists.
Qed.

(** One login that does not succeed: a 401 adds one failure and had fewer
    than five before it; anything else leaves the failures alone. *)
Lemma login_body_step ip user pw w o w' :
  stamped ip w → login_body checkpw token ip user pw w = (o, w') → is_ok o = false →
  stamped ip w' ∧
  length (failures ip w') = (length (failures ip w) + if is_401 o then 1 else 0)%nat ∧
  (is_401 o = true → (length (failures ip w) < LOGIN_MAX_ATTEMPTS)%nat).
Proof using one_window checkpw_raises.
  intros Hs. unfold login_body, mbind at 1, M_bind at 1.
  destruct (locked_out_spec ip w Hs) as [Hl Hf]. destruct (_login_locked_out ip w) as [o1 w1].
  cbn [fst snd] in Hl, Hf. subst o1.
  assert (Hs1 : stamped ip (tick w1) ∧ failures ip (tick w1) = failures ip w).
  { assert (Htick : failures ip (tick w1) = failures ip w1) by by destruct w1.
    unfold stamped. rewrite Htick, Hf. done. }
  destruct (LOGIN_MAX_ATTEMPTS <=? length (failures ip w))%nat eqn:Hlock.
  { cbv beta iota. unfold raise. intros H _. injection H as <- <-. unfold stamped. rewrite Hf. split; [done|]. split; [simpl; lia|done]. }
  apply Nat.leb_gt in Hlock. unfold mbind at 1, M_bind at 1.
  destruct (read_tx_cases (find_user user) w1) as [->| ->].
  2: { intros [= <- <-] _. destruct Hs1 as [Hs1 ->]. split; [done|]. split; [simpl; lia|done]. }
  destruct Hs1 as [Hs1 Hf1].
  destruct (find_user user (w_db w1)) as [u|].
  2: { intros H _. apply (reject_spec ip w) in H as (-> & ? & ->); [|done..]. split; [done|].
       split; [simpl; lia|done]. }
  unfold mbind at 1, M_bind at 1, lift.
  destruct (password_ok_total pw (us_password_hash u)) as [[] ->].
  - unfold gets, time_time, modify, mbind, M_bind. simpl. by intros [= <- <-].
  - intros H _. apply (reject_spec ip w) in H as (-> & ? & ->); [|done..]. split; [done|].
    split; [simpl; lia|done].
Qed.

Lemma login_cases rq user pw w o w' :
  login checkpw token rq user pw w = (o, w') →
  ∃ o1, login_body checkpw token (default "unknown"%string (rq_client rq)) user pw w = (o1, w') ∧
        is_ok o = is_ok o1 ∧ is_401 o = is_401 o1.
Proof.
  unfold login, try_except. destruct (login_body _ _ _ _ _ _) as [[t|e] w1].
  - intros [= <- <-]. by eexists.
  - unfold raise. destruct e; intros [= <- <-]; by eexists.
Qed.

(** A guessing client: the answers to a sequence of attempts. *)
Fixpoint guess (rq : Request) (tries : list (string * string)) (w : World) : list (res string) :=
  match tries with
  | [] => []
  | (user, pw) :: rest =>
      let '(o, w') := login checkpw token rq user pw w in o :: guess rq rest w'
  end.

Lemma guess_bound rq tries w :
  let ip := default "unknown"%string (rq_client rq) in
  stamped ip w → (length (failures ip w) ≤ LOGIN_MAX_ATTEMPTS)%nat →
  Forall (λ o, is_ok o = false) (guess rq tries w) →
  (length (failures ip w) + length (List.filter is_401 (guess rq tries w)) ≤ LOGIN_MAX_ATTEMPTS)%nat.
Proof using one_window checkpw_raises.
  intros ip. revert w. induction tries as [|[user pw] tries IH]; intros w Hs Hlen HF; cbn [guess] in *.
  { simpl. lia. }
  destruct (login checkpw token rq user pw w) as [o w'] eqn:Hlog.
  apply Forall_cons in HF as [Ho HF]. apply login_cases in Hlog as (o1 & Hb & Hok & H401).
  destruct (login_body_step _ _ _ _ _ _ Hs Hb) as (Hs' & Hlen' & Hlt); [congruence|].
  cbn [List.filter]. specialize (IH w' Hs'). fold ip in Hlen', Hlt. rewrite H401.
  destruct (is_401 o1) eqn:E1; cbn [length]; specialize (IH ltac:(lia) HF); lia.
Qed.
End brute_force.


(** ** Accounts *)

Definition users_ok (d : Database) : Prop :=
  db_users d ≠ [] ∧ NoDup (us_username <$> db_users d).

(** Insensitive to sessions and throttling. *)
Class StAuth (I : World → Prop) : Prop := {
  st_sessions u w : I w → I (upd_state (upd_sessions u) w);
  st_failed_login u w : I w → I (upd_state (upd_failed_login u) w);
  st_failed_reauth u w : I w → I (upd_state (upd_failed_reauth u) w) }.
#[global] Instance st_state_auth I `{!StState I} : StAuth I.
Proof. split; intros; by apply st_state. Qed.

Section auth_pres.
Context {E : Env} (I : World → Prop) `{!StEnv I, !StAuth I}.
Context (checkpw : string → string → res bool).

Lemma pres_verify caller pw : pres I (_verify_admin_password checkpw caller pw).
Proof.
  unfold _verify_admin_password, _reauth_locked_out, _record_reauth_failure.
  pres_auto; apply pres_modify; intros; by apply st_failed_reauth.
Qed.

Lemma pres_revoke u : pres I (revoke_sessions_for_user u).
Proof. apply pres_modify. intros. by apply st_sessions. Qed.

Lemma pres_session_username rq : pres I (get_session_username rq).
Proof. unfold get_session_username. pres_auto. Qed.
End auth_pres.
#[export] Hint Resolve pres_verify pres_revoke pres_session_username : pres.

Lemma find_user_none u d : find_user u d = None → u ∉ us_username <$> db_users d.
Proof.
  unfold find_user. intros H (x & -> & Hx)%list_elem_of_fmap.
  destruct (List.filter _ (db_users d)) as [|y l] eqn:Hf; [|done].
  assert (Hin : In x (List.filter (λ u0, bool_decide (us_username u0 = us_username x)) (db_users d))).
  { apply filter_In. split; [by apply list_elem_of_In|by apply bool_decide_eq_true_2]. }
  by rewrite Hf in Hin.
Qed.

(** Statements between which the tables do not change. *)
Lemma gets_db_then {E : Env} {A B} I (f : Database → A) (k : A → M World B) :
  (∀ d, pres (λ w, I w ∧ w_db w = d) (k (f d))) → pres I (gets (λ w, f (w_db w)) ≫= k).
Proof. intros H w Hw. by apply (H (w_db w) w). Qed.

Lemma read_db_then {E : Env} {A B} I `{!StEnv I} (f : Database → A) (k : A → M World B) :
  (∀ d w, I w → w_db w = d → I (k (f d) w).2) → pres I (read_tx f ≫= k).
Proof.
  intros H w Hw. unfold mbind, M_bind. destruct (read_tx_cases f w) as [->| ->]; simpl.
  - apply H; [by apply st_ticks|by destruct w].
  - by apply st_ticks.
Qed.

Lemma pres_at {E : Env} {A} I d (m : M World A) :
  pres (λ w, I w ∧ w_db w = d) m → ∀ w, I w → w_db w = d → I (m w).2.
Proof. intros H w Hw Hd. by destruct (H w (conj Hw Hd)). Qed.

Section accounts.
Context {E : Env}.
Context (checkpw : string → string → res bool) (hashpw : nat → string → string).
#[local] Abbreviation I := (db_inv users_ok).
#[local] Abbreviation at_ d := (λ w : World, db_inv users_ok w ∧ w_db w = d).

Lemma at_weak d w : at_ d w → I w.
Proof. by intros [? _]. Qed.

(** A transaction on tables known to be [d]. *)
Lemma goes_users_tx d f :
  users_ok (upd_users f d) → goes (at_ d) I (users_tx f).
Proof.
  intros Hf. unfold users_tx.
  apply goes_bind; [apply at_weak|apply pres_execute, at_db_env; apply _|intros _].
  apply goes_bind; [apply at_weak|apply pres_execute, at_db_env; apply _|intros _].
  intros w [_ Hd]. unfold modify, db_inv. destruct w. simpl in *. by subst.
Qed.

Lemma goes_revoke d (m : M World unit) u :
  goes (at_ d) I m → goes (at_ d) I (m;; revoke_sessions_for_user u).
Proof.
  intros Hm w Hw. unfold mbind, M_bind. specialize (Hm w Hw).
  destruct (m w) as [[[]|] w']; simpl in *; [|done]. by apply (st_sessions (I:=I)).
Qed.

Lemma read_then {A} (f : Database → A) (k : A → M World unit) :
  (∀ d, users_ok d → goes (at_ d) I (k (f d))) → pres I (read_tx f ≫= k).
Proof.
  intros H. apply read_db_then; [apply _|]. intros d w Hw Hd. apply (H d); [|by split].
  by rewrite <-Hd.
Qed.

Lemma create_keeps rq u pw apw : pres I (create_user checkpw hashpw rq u pw apw).
Proof.
  unfold create_user. apply pres_bind; [apply pres_session_username; apply _|intros caller].
  apply pres_bind; [apply pres_verify; apply _|intros _].
  apply pres_bind; [apply pres_gets|intros n]. cbv zeta. generalize (hashpw n pw) as h. intros h.
  apply pres_bind; [apply pres_execute; apply _|intros _].
  intros w Hw. unfold gets, mbind at 1, M_bind at 1.
  destruct (find_user u (w_db w)) eqn:Hfu; [done|].
  assert (Hg : goes (at_ (w_db w)) I (execute;; modify (upd_db (upd_users (λ us, us ++ [mkUser u h ""]))))).
  { apply goes_bind; [apply at_weak|apply pres_execute, at_db_env; apply _|intros _].
    intros w1 [Hw1 Hd]. unfold modify, db_inv in *. destruct w1 as [? ? ? ? ? db]. simpl in *. subst db.
    destruct Hw as [Hne Hnd], (w_db w) as [us ? ? ? ? ? ?]. unfold users_ok. simpl in *. split; [by destruct us|].
    rewrite fmap_app. apply NoDup_app. split_and!; [done| |apply NoDup_singleton].
    intros x Hx ->%list_elem_of_singleton. simpl in Hx. by apply find_user_none in Hfu. }
  by apply Hg.
Qed.

Lemma users_filter_ok u d :
  users_ok d → (1 < length (db_users d))%nat →
  users_ok (upd_users (List.filter (λ x, negb (bool_decide (us_username x = u)))) d).
Proof.
  destruct d as [us ? ? ? ? ? ?]. unfold users_ok. simpl. intros [_ Hnd] Hlen. split.
  - destruct us as [|a [|b us]]; simpl in Hlen; [lia..|].
    apply NoDup_cons in Hnd as [Ha Hnd]. apply NoDup_cons in Hnd as [_ _].
    destruct (decide (us_username a = u)) as [Hau|Hau].
    + assert (Hbu : us_username b ≠ u) by (intros Hb; apply Ha; rewrite Hau, <-Hb; left).
      cbn [List.filter]. rewrite (bool_decide_eq_true_2 _ Hau), (bool_decide_eq_false_2 _ Hbu). done.
    + cbn [List.filter]. by rewrite (bool_decide_eq_false_2 _ Hau).
  - by apply NoDup_ListFilter_fmap.
Qed.

Lemma delete_keeps rq u apw : pres I (delete_user checkpw rq u apw).
Proof.
  unfold delete_user. apply pres_bind; [apply pres_session_username; apply _|intros caller].
  apply pres_bind; [apply pres_verify; apply _|intros _].
  apply read_then. intros d Hd. destruct (find_user u d); [|by apply goes_pres; [apply at_weak|apply pres_raise]].
  intros w [Hw Hdb]. unfold gets, mbind at 1, M_bind at 1. rewrite Hdb.
  destruct (1 <? length (db_users d))%nat eqn:Hn.
  - apply Nat.ltb_lt in Hn. apply (goes_revoke d); [|by split]. by apply goes_users_tx, users_filter_ok.
  - assert (Hp : pres I (execute;; execute;; raise (A:=unit) (HTTPException 400))); [|by apply Hp].
    repeat (apply pres_bind; [apply pres_execute; apply _|intros _]). apply pres_raise.
Qed.

Lemma set_password_keeps rq u pw apw : pres I (set_password checkpw hashpw rq u pw apw).
Proof.
  unfold set_password. apply pres_bind; [apply pres_session_username; apply _|intros caller].
  apply pres_bind; [apply pres_verify; apply _|intros _].
  apply read_then. intros d Hd. destruct (find_user u d); [|by apply goes_pres; [apply at_weak|apply pres_raise]].
  intros w Hw. unfold gets, mbind at 1, M_bind at 1. set (h := hashpw _ _).
  apply (goes_revoke d); [|done]. apply goes_users_tx.
  destruct d as [us ? ? ? ? ? ?]. unfold users_ok in *. simpl in *. destruct Hd as [Hne Hnd].
  split; [by destruct us|]. rewrite <-list_fmap_compose.
  replace (_ <$> us) with (us_username <$> us); [done|]. apply list_fmap_ext. intros i x _. simpl.
  case_bool_decide; [by simpl|done].
Qed.

(** ** Who may change accounts *)

(** The caller has a session and gave the current password of its account. *)
Definition authorised (rq : Request) (apw : string) (w : World) : Prop :=
  ∃ sid s u, rq_session_id rq = Some sid ∧ sessions w !! sid = Some s ∧
             find_user (se_username s) (w_db w) = Some u ∧
             checkpw apw (us_password_hash u) = Ok true.

Lemma db_tick w : w_db (tick w) = w_db w.
Proof. by destruct w. Qed.

Lemma verify_cases caller apw w :
  (∃ u, find_user caller (w_db w) = Some u ∧ checkpw apw (us_password_hash u) = Ok true) ∨
  ∃ e w', _verify_admin_password checkpw caller apw w = (Exn e, w') ∧ w_db w' = w_db w.
Proof.
  assert (Hdb : pres (λ w', w_db w' = w_db w) (_verify_admin_password checkpw caller apw)).
  { apply pres_verify; split; by intros; destruct w0. }
  specialize (Hdb w eq_refl).
  destruct (find_user caller (w_db w)) as [u|] eqn:Hu;
    [destruct (decide (checkpw apw (us_password_hash u) = Ok true)); [left; by exists u|]|].
  all: right; destruct (_verify_admin_password checkpw caller apw w) as [[[]|e] w'] eqn:Hv; [|by exists e, w'].
  all: exfalso; revert Hv; unfold _verify_admin_password, mbind at 1, M_bind at 1;
    destruct (_reauth_locked_out caller w) as [[[]|] w1] eqn:Hr; try done;
    assert (Hd1 : w_db w1 = w_db w);
    [revert Hr; unfold _reauth_locked_out, time_time, gets, modify, mbind, M_bind; simpl;
     intros [= _ <-]; by destruct w|];
    unfold mbind at 1, M_bind at 1; destruct (read_tx_cases (find_user caller) w1) as [->| ->]; try done;
    rewrite Hd1, Hu; try done.
  unfold mbind at 1, M_bind at 1, lift, password_ok.
  destruct (checkpw apw (us_password_hash u)) as [[]|[]]; done.
Qed.

(** The common preamble of the account operations. *)
Lemma guarded rq apw (k : string → M World unit) w o w' :
  (caller ← get_session_username rq; _verify_admin_password checkpw caller apw;; k caller) w = (o, w') →
  authorised rq apw w ∨ (is_ok o = false ∧ w_db w' = w_db w).
Proof.
  unfold mbind at 1, M_bind at 1, get_session_username, gets, mbind at 1, M_bind at 1.
  destruct (rq_session_id rq) as [sid|] eqn:Hsid; cbn [mbind option_bind];
    [|unfold raise; intros [= <- <-]; by right].
  destruct (sessions w !! sid) as [s|] eqn:Hs; [|unfold raise; intros [= <- <-]; by right].
  unfold mret, M_ret, mbind, M_bind.
  destruct (verify_cases (se_username s) apw w) as [(u & Hu & Hc)|(e & w1 & -> & Hdb)].
  - intros _. left. by exists sid, s, u.
  - intros [= <- <-]. by right.
Qed.

Lemma revoke_spec u w :
  ∀ sid s, sessions (revoke_sessions_for_user u w).2 !! sid = Some s → se_username s ≠ u.
Proof.
  destruct w as [? []]. unfold sessions. simpl. intros sid s [_ H]%map_lookup_filter_Some. done.
Qed.

(** Where an operation ends that returned: in the world after its last step. *)
Lemma bind_ok {A B} (m : M World A) (k : A → M World B) w b w' :
  (m ≫= k) w = (Ok b, w') → ∃ a w1, m w = (Ok a, w1) ∧ k a w1 = (Ok b, w').
Proof. unfold mbind, M_bind. destruct (m w) as [[a|e] w1]; [eauto|done]. Qed.
End accounts.

(** There is always an administrator account left and no two share a name:
    creating, deleting and changing passwords keep this, refused and failing
    calls included. *)
Theorem accounts_invariant {E : Env} checkpw hashpw rq u pw apw w :
  users_ok (w_db w) →
  users_ok (w_db (create_user checkpw hashpw rq u pw apw w).2) ∧
  users_ok (w_db (delete_user checkpw rq u apw w).2) ∧
  users_ok (w_db (set_password checkpw hashpw rq u pw apw w).2).
Proof. intros H. split_and!; [by apply create_keeps|by apply delete_keeps|by apply set_password_keeps]. Qed.

(** C10: No account is created, deleted or given a new password unless the request
    carries a session and the current password of the account behind it; every
    other request raises and leaves the database as it was. *)
Theorem account_changes_authorised {E : Env} checkpw hashpw rq u pw apw w o w' :
  create_user checkpw hashpw rq u pw apw w = (o, w') ∨
  delete_user checkpw rq u apw w = (o, w') ∨
  set_password checkpw hashpw rq u pw apw w = (o, w') →
  authorised checkpw rq apw w ∨ (is_ok o = false ∧ w_db w' = w_db w).
Proof. intros [H|[H|H]]; by apply guarded in H. Qed.

(** C24: After an account is deleted or given a new password no live session of it
    is left. *)
Theorem sessions_revoked {E : Env} checkpw hashpw rq u pw apw w w' :
  delete_user checkpw rq u apw w = (Ok tt, w') ∨ set_password checkpw hashpw rq u pw apw w = (Ok tt, w') →
  ∀ sid s, sessions w' !! sid = Some s → se_username s ≠ u.
Proof.
  assert (Hrev : ∀ (m : M World unit) w0, (m;; revoke_sessions_for_user u) w0 = (Ok tt, w') →
                   ∀ sid s, sessions w' !! sid = Some s → se_username s ≠ u).
  { intros m w0 (? & w1 & _ & H)%bind_ok. pose proof (revoke_spec u w1) as Hr. by rewrite H in Hr. }
  intros [H|H]; apply bind_ok in H as (caller & w1 & _ & H); apply bind_ok in H as (? & w2 & _ & H);
    apply bind_ok in H as (ex & w3 & _ & H); destruct ex; try done;
    apply bind_ok in H as (n & w4 & _ & H); [|by eapply Hrev].
  destruct (1 <? n)%nat; [by eapply Hrev|]. by apply bind_ok in H as (? & ? & _ & (? & ? & _ & ?)%bind_ok).
Qed.

(** ** Concrete cases *)

Definition admin_request : Request := mkRequest (Some "s1"%string) (Some "198.51.100.7"%string) None "/api/logs".
Definition sample_check (p h : string) : res bool := Ok (bool_decide (p = h)).
Definition sample_hash (_ : nat) (p : string) : string := p.
Definition admin_world : World :=
  upd_db (upd_users (λ _, [mkUser "root" "secret" ""; mkUser "ops" "hunter" ""]%string))
    (upd_state (upd_sessions (<["s1"%string := mkSession "root" (NInt 1000000)]>)) empty_world).

Lemma gate_sound_witness :
  ∃ g w', (∀ b, g ≠ Pass b) ∧
          ∀ call_next : M World unit,
            @auth_middleware calm_env unit admin_request call_next empty_world = (Ok (g, None), w').
Proof.
  apply (@gate_sound calm_env unit admin_request empty_world); [split; reflexivity|].
  intros (sid & s & _ & H & _). done.
Defined.


Lemma accounts_invariant_witness :
  let m := @create_user calm_env sample_check sample_hash admin_request "new" "password1" "secret" in
  users_ok (w_db (m admin_world).2).
Proof.
  intros m. apply (@accounts_invariant calm_env). split; [done|]. simpl.
  apply NoDup_ListNoDup. repeat constructor; simpl; intuition discriminate.
Defined.

Lemma account_changes_authorised_witness :
  let r := @set_password calm_env sample_check sample_hash admin_request "ops" "password2" "wrong" admin_world in
  authorised sample_check admin_request "wrong" admin_world ∨ (is_ok r.1 = false ∧ w_db r.2 = w_db admin_world).
Proof.
  intros r. apply (@account_changes_authorised calm_env sample_check sample_hash admin_request "ops" "password2").
  right. right. by destruct r eqn:Hr.
Defined.

Lemma sessions_revoked_witness :
  let r := @set_password calm_env sample_check sample_hash admin_request "root" "password2" "secret" admin_world in
  r.1 = Ok tt ∧ ∀ sid s, sessions r.2 !! sid = Some s → se_username s ≠ "root"%string.
Proof.
  intros r. split; [vm_compute; reflexivity|].
  apply (@sessions_revoked calm_env sample_check sample_hash admin_request "root" "password2" "secret" admin_world).
  right. vm_compute. reflexivity.
Defined.
