(* ===== verification/Routes.v ===== *)
(** * stage2.py: the application and its routes

    The routes in the order they are registered, and the session middleware in
    front of them. Matching a path is Starlette's: the class [Router] states
    what the program relies on, and [segments] is an implementation. FastAPI
    adds the route of its schema before any other, unless openapi_url is None.
    A route's endpoint is known by its module and function. *)

From S2P Require Import Prelude PyNum PyStr Json World Auth AuthFacts.

#[local] Open Scope string_scope.
#[local] Open Scope list_scope.

(** ** Templates

    A template has at most one parameter, in braces: its text before the
    parameter, and the text after it. *)
Fixpoint tmpl_head (t : string) : string :=
  match t with
  | EmptyString => EmptyString
  | String c t' => if bool_decide (c = "{"%char) then EmptyString else String c (tmpl_head t')
  end.
Fixpoint after_brace (t : string) : string :=
  match t with
  | EmptyString => EmptyString
  | String c t' => if bool_decide (c = "}"%char) then t' else after_brace t'
  end.
Fixpoint tmpl_tail (t : string) : option string :=
  match t with
  | EmptyString => None
  | String c t' => if bool_decide (c = "{"%char) then Some (after_brace t') else tmpl_tail t'
  end.
Definition fill (t seg : string) : string :=
  match tmpl_tail t with None => t | Some b => tmpl_head t ^^ seg ^^ b end.

(** What a parameter stands for: some characters, none of them a slash or the
    end of a line. *)
Definition plain_char (c : ascii) : bool := negb (bool_decide (c = "/"%char)) && negb (bool_decide (c = newline)).
Fixpoint all_chars (p : ascii → bool) (s : string) : bool :=
  match s with EmptyString => true | String c s' => p c && all_chars p s' end.
Definition segment (seg : string) : Prop := seg ≠ EmptyString ∧ all_chars plain_char seg = true.

(** A template without a parameter matches itself only; its expression ends in
    [$], which also stands before a final newline. *)
Class Router := {
  path_match : string → string → bool;
  mount_match : string → string → bool;
  match_own t seg : segment seg → path_match t (fill t seg) = true;
  match_head t p : path_match t p = true → str_prefix (tmpl_head t) p = true;
  match_literal t p : tmpl_tail t = None → path_match t p = true → p = t ∨ p = t ^^ String newline EmptyString;
  mount_prefix t p : mount_match t p = true → str_prefix t p = true }.

(** ** The application *)

Inductive AppRoute :=
  | Route (method template endpoint : string)
  | Mount (prefix : string).
#[export] Instance AppRoute_eq : EqDecision AppRoute.
Proof. solve_decision. Defined.

Definition schema_routes : list AppRoute := [Route "GET" "/openapi.json" "openapi"].
Definition auth_routes : list AppRoute := [Route "POST" "/api/login" "auth.login"; Route "POST" "/api/logout" "auth.logout"].
Definition api_routes : list AppRoute :=
  [Route "GET" "/" "api.read_root"; Route "GET" "/api/version" "api.get_version"; Route "GET" "/api/state" "api.get_state";
   Route "GET" "/api/history" "api.get_history"; Route "POST" "/api/whitelist" "api.add_whitelist";
   Route "DELETE" "/api/whitelist" "api.delete_whitelist"; Route "POST" "/api/shared-ips" "api.add_shared_ip";
   Route "DELETE" "/api/shared-ips" "api.delete_shared_ip"; Route "POST" "/api/victim" "api.add_victim";
   Route "DELETE" "/api/victim" "api.delete_victim"; Route "POST" "/api/victim/toggle" "api.toggle_victim";
   Route "POST" "/api/firewall/block" "api.manual_block"; Route "POST" "/api/firewall/unblock" "api.manual_unblock";
   Route "GET" "/api/config/enforcement" "api.get_enforcement_config_api";
   Route "POST" "/api/config/enforcement" "api.update_enforcement_config"; Route "GET" "/api/logs" "api.get_logs"].
Definition reports_routes : list AppRoute :=
  [Route "GET" "/api/logs/export/csv" "reports.export_csv"; Route "GET" "/api/logs/export/pdf" "reports.export_pdf"].
Definition users_routes : list AppRoute :=
  [Route "GET" "/api/users" "users.list_users"; Route "POST" "/api/users" "users.create_user";
   Route "DELETE" "/api/users" "users.delete_user"; Route "POST" "/api/users/password" "users.set_password"].
Definition alerts_routes : list AppRoute :=
  [Route "GET" "/api/config/alerts" "alerts.get_alerts_config_api"; Route "POST" "/api/config/alerts" "alerts.update_alerts_config";
   Route "POST" "/api/alerts/test" "alerts.send_test_alert"].
Definition auto_label_review_routes : list AppRoute :=
  [Route "GET" "/api/auto-label/runs" "auto_label_review.list_pending_runs";
   Route "GET" "/api/auto-label/review" "auto_label_review.review_staged_rows";
   Route "POST" "/api/auto-label/merge" "auto_label_review.merge_staged_rows";
   Route "POST" "/api/auto-label/discard" "auto_label_review.discard_staged_rows";
   Route "POST" "/api/auto-label/trim-ddos" "auto_label_review.trim_ddos_class"].
Definition playbooks_routes : list AppRoute :=
  [Route "GET" "/api/playbooks" "playbooks_api.list_playbooks"; Route "POST" "/api/playbooks" "playbooks_api.create_playbook";
   Route "POST" "/api/playbooks/validate" "playbooks_api.validate_definition_only";
   Route "POST" "/api/playbooks/parse-yaml" "playbooks_api.parse_yaml_definition";
   Route "GET" "/api/playbooks/runs" "playbooks_api.list_runs";
   Route "GET" "/api/playbooks/runs/{run_id}/events" "playbooks_api.list_run_events";
   Route "GET" "/api/playbooks/reports" "playbooks_api.list_reports";
   Route "GET" "/api/playbooks/reports/{filename}" "playbooks_api.download_report";
   Route "GET" "/api/playbooks/{playbook_id}" "playbooks_api.get_playbook";
   Route "PUT" "/api/playbooks/{playbook_id}" "playbooks_api.update_playbook";
   Route "POST" "/api/playbooks/{playbook_id}/toggle" "playbooks_api.toggle_playbook";
   Route "DELETE" "/api/playbooks/{playbook_id}" "playbooks_api.delete_playbook"].

Definition app : list AppRoute :=
  schema_routes ++ [Mount "/static"] ++ auth_routes ++ api_routes ++ reports_routes ++ users_routes ++ alerts_routes ++
  auto_label_review_routes ++ playbooks_routes.

(** The first route that matches answers. *)
Definition accepts `{Router} (method path : string) (r : AppRoute) : bool :=
  match r with
  | Route m t _ => bool_decide (m = method) && path_match t path
  | Mount p => mount_match p path
  end.
Definition dispatch `{Router} (method path : string) : option AppRoute := List.find (accepts method path) app.

(** A request through the middleware to its route. *)
Definition handle_request `{Router} {E : Env} {A} (run : AppRoute → Request → M World A) (not_found : M World A)
    (method : string) (rq : Request) : M World (gate * option A) :=
  auth_middleware rq (match dispatch method (rq_path rq) with Some r => run r rq | None => not_found end).

(** ** No route hides another *)

Definition route_path (r : AppRoute) : string := match r with Route _ t _ => t | Mount p => p end.
Definition literals : list string := List.filter (λ t, bool_decide (tmpl_tail t = None)) (route_path <$> app).
Definition has_slash (s : string) : bool := negb (all_chars (λ c, negb (bool_decide (c = "/"%char))) s).
Definition has_newline (s : string) : bool := negb (all_chars (λ c, negb (bool_decide (c = newline))) s).
Fixpoint drop_prefix (p s : string) : option string :=
  match p, s with
  | EmptyString, _ => Some s
  | String a p', String b s' => if bool_decide (a = b) then drop_prefix p' s' else None
  | _, _ => None
  end.

(** Every character of a template is on one line. *)
Definition one_line (t : string) : bool := negb (has_newline (tmpl_head t)) && negb (has_newline (default EmptyString (tmpl_tail t))).

(** Can [t'] be seen not to match a path of [t]? *)
Definition apart_templates (t' t : string) : bool :=
  match tmpl_tail t with
  | None => match tmpl_tail t' with None => negb (bool_decide (t' = t)) | Some _ => negb (str_prefix (tmpl_head t') t) end
  | Some b =>
      bool_decide (tmpl_tail t' = None) ||
      negb (str_prefix (tmpl_head t') (tmpl_head t) || str_prefix (tmpl_head t) (tmpl_head t')) ||
      (bool_decide (b = EmptyString) && match drop_prefix (tmpl_head t) (tmpl_head t') with Some rest => has_slash rest | None => false end)
  end.
Definition apart (r' r : AppRoute) : bool :=
  match r', r with
  | Route m' t' _, Route m t _ => negb (bool_decide (m' = m)) || apart_templates t' t
  | Mount p, Route _ t _ =>
      match tmpl_tail t with
      | None => negb (str_prefix p t)
      | Some _ => negb (str_prefix p (tmpl_head t) || str_prefix (tmpl_head t) p)
      end
  | _, Mount _ => true
  end.
Fixpoint no_shadow (l : list AppRoute) : bool :=
  match l with [] => true | r :: l' => List.forallb (λ x, apart r x && one_line (route_path x)) l' && no_shadow l' end.

Lemma app_no_shadow : no_shadow app = true.
Proof. vm_compute. reflexivity. Qed.

Lemma all_chars_app f a b : all_chars f (a ^^ b) = all_chars f a && all_chars f b.
Proof. induction a as [|c a IH]; [done|]. change (all_chars f (String c (a ^^ b)) = f c && all_chars f a && all_chars f b).
  cbn [all_chars]. by rewrite IH, andb_assoc. Qed.

Lemma all_chars_impl (f g : ascii → bool) s : (∀ c, f c = true → g c = true) → all_chars f s = true → all_chars g s = true.
Proof. intros Hfg. induction s as [|c s IH]; [done|]. cbn [all_chars]. rewrite !andb_true_iff. naive_solver. Qed.

Lemma drop_prefix_spec p s t : drop_prefix p s = Some t → s = p ^^ t.
Proof.
  revert s. induction p as [|a p IH]; intros s; simpl; [by intros [= ->]|].
  destruct s as [|b s]; [done|]. case_bool_decide as Hab; [|done]. subst. by intros ->%IH.
Qed.

Lemma prefix_comparable a b t : str_prefix a (b ^^ t) = true → str_prefix a b = true ∨ str_prefix b a = true.
Proof.
  revert b. induction a as [|c a IH]; intros b; [by left|]. destruct b as [|d b]; [by right|].
  change (str_prefix (String c a) (String d b ^^ t)) with (bool_decide (c = d) && str_prefix a (b ^^ t)).
  intros [Hcd Hp]%andb_true_iff. apply bool_decide_eq_true in Hcd as ->.
  destruct (IH b Hp); [left|right]; cbn [str_prefix]; by rewrite bool_decide_eq_true_2.
Qed.

Lemma prefix_cancel p a b : str_prefix (p ^^ a) (p ^^ b) = str_prefix a b.
Proof.
  induction p as [|c p IH]; [done|].
  change (bool_decide (c = c) && str_prefix (p ^^ a) (p ^^ b) = str_prefix a b). by rewrite bool_decide_eq_true_2.
Qed.

Lemma head_literal t : tmpl_tail t = None → tmpl_head t = t.
Proof. induction t as [|c t IH]; [done|]. cbn [tmpl_tail tmpl_head]. case_bool_decide; [done|]. by intros ->%IH. Qed.

Lemma fill_literal t seg : tmpl_tail t = None → fill t seg = t.
Proof. unfold fill. by intros ->. Qed.

(** No path of a template has a newline. *)
Lemma fill_one_line t seg t' : one_line t = true → segment seg → fill t seg ≠ t' ^^ String newline EmptyString.
Proof.
  unfold one_line, has_newline. rewrite !negb_involutive, andb_true_iff. intros [Hh Ht] [_ Hs] E.
  assert (H : all_chars (λ c, negb (bool_decide (c = newline))) (fill t seg) = true).
  { unfold fill. destruct (tmpl_tail t) as [b|] eqn:Hb; [|by rewrite <-(head_literal t Hb)].
    rewrite !all_chars_app, Hh. cbn [default] in Ht. unfold id in Ht. rewrite Ht, andb_true_r. cbn [andb].
    refine (all_chars_impl _ _ _ _ Hs). intros c [_ Hc]%andb_true_iff. exact Hc. }
  by rewrite E, all_chars_app, andb_false_r in H.
Qed.

Section reached.
Context {R : Router}.

(** A path that belongs to the template: not the path of a literal route. *)
Definition own_path (t seg : string) : Prop := segment seg ∧ (tmpl_tail t = None ∨ fill t seg ∉ literals).

Lemma apart_sound r' m t s seg :
  r' ∈ app → apart r' (Route m t s) = true → one_line t = true → own_path t seg → accepts m (fill t seg) r' = false.
Proof.
  intros Hin Hap Hone [Hseg Hlit]. apply not_true_is_false. intros Hacc. destruct r' as [m' t' s'|p]; cbn [apart accepts] in *.
  - apply andb_true_iff in Hacc as [->%bool_decide_eq_true Hm]. rewrite bool_decide_eq_true_2 in Hap by done. cbn in Hap.
    unfold apart_templates in Hap. destruct (tmpl_tail t) as [b|] eqn:Hb.
    + destruct Hlit as [|Hlit]; [done|]. apply orb_true_iff in Hap as [[Hap|Hap]%orb_true_iff|Hap].
      * apply bool_decide_eq_true in Hap. destruct (match_literal t' _ Hap Hm) as [E|E]; [|by apply fill_one_line in E].
        apply Hlit. rewrite E. apply list_elem_of_In, filter_In. split; [|by apply bool_decide_eq_true].
        apply list_elem_of_In, list_elem_of_fmap. by exists (Route m t' s').
      * pose proof (match_head _ _ Hm) as Hh. unfold fill in Hh. rewrite Hb in Hh.
        by destruct (prefix_comparable _ _ _ Hh) as [Hc|Hc]; rewrite Hc, ?orb_true_r in Hap.
      * apply andb_true_iff in Hap as [->%bool_decide_eq_true Hap]. destruct (drop_prefix _ _) as [rest|] eqn:Hd; [|done].
        pose proof (match_head _ _ Hm) as Hh. unfold fill in Hh. rewrite Hb, (drop_prefix_spec _ _ _ Hd), prefix_cancel, str_app_nil in Hh.
        apply str_prefix_spec in Hh as [u ->]. destruct Hseg as [_ Hs]. rewrite all_chars_app in Hs. apply andb_true_iff in Hs as [Hs _].
        unfold has_slash in Hap. rewrite (all_chars_impl _ _ _ (λ c H, proj1 (andb_prop _ _ H)) Hs) in Hap. done.
    + rewrite (fill_literal _ _ Hb) in Hm. destruct (tmpl_tail t') as [b'|] eqn:Hb'; [by rewrite (match_head _ _ Hm) in Hap|].
      apply negb_true_iff, bool_decide_eq_false in Hap. destruct (match_literal _ _ Hb' Hm) as [E|E]; [done|].
      apply (fill_one_line t seg t'); [done..|]. by rewrite fill_literal.
  - apply mount_prefix in Hacc. unfold fill in Hacc. destruct (tmpl_tail t); [|by rewrite Hacc in Hap].
    by destruct (prefix_comparable _ _ _ Hacc) as [Hc|Hc]; rewrite Hc, ?orb_true_r in Hap.
Qed.

Lemma find_first l m t s seg :
  (∀ r, r ∈ l → r ∈ app) → no_shadow l = true → Route m t s ∈ l → own_path t seg →
  List.find (accepts m (fill t seg)) l = Some (Route m t s).
Proof.
  intros Hl Hns Hin Hp. induction l as [|r l IH]; [by apply not_elem_of_nil in Hin|]. cbn [no_shadow] in Hns.
  apply andb_true_iff in Hns as [Hr Hns]. cbn [List.find]. apply elem_of_cons in Hin as [<-|Hin].
  - cbn [accepts]. rewrite bool_decide_eq_true_2 by done. by rewrite match_own by apply Hp.
  - apply list_elem_of_In in Hin as Hin'. rewrite forallb_forall in Hr. specialize (Hr _ Hin'). apply andb_true_iff in Hr as [Hap Hone].
    rewrite (apart_sound r m t s seg) by (done || apply Hl; constructor). apply IH; [|done..]. intros x Hx. apply Hl. by constructor.
Qed.
End reached.

(** ** Who is answered *)

(** Endpoints a request without a session can reach. *)
Definition open_routes : list AppRoute :=
  [Route "GET" "/openapi.json" "openapi"; Mount "/static"; Route "POST" "/api/login" "auth.login"; Route "GET" "/" "api.read_root"].

Definition comparable (a b : string) : bool := str_prefix a b || str_prefix b a.
Definition closed (r : AppRoute) : bool :=
  str_prefix "/api/" (tmpl_head (route_path r)) &&
  negb (comparable "/static/login.html" (tmpl_head (route_path r)) || comparable "/api/login" (tmpl_head (route_path r)) ||
        comparable "/static/base.css" (tmpl_head (route_path r))).

Lemma prefixes_comparable a b p : str_prefix a p = true → str_prefix b p = true → comparable a b = true.
Proof.
  intros Ha [t ->]%str_prefix_spec. unfold comparable. destruct (prefix_comparable _ _ _ Ha) as [->| ->]; [done|by rewrite orb_true_r].
Qed.

Lemma app_closed : List.forallb (λ r, bool_decide (r ∈ open_routes) || closed r && match r with Route _ _ _ => true | Mount _ => false end) app = true.
Proof. vm_compute. reflexivity. Qed.

Section gated.
Context {R : Router}.

Lemma closed_needs_session r method p :
  r ∈ app → r ∉ open_routes → accepts method p r = true → needs_session p.
Proof.
  intros Hin Hno Hacc. pose proof app_closed as H. rewrite forallb_forall in H. specialize (H r (proj1 (list_elem_of_In _ _) Hin)).
  rewrite bool_decide_eq_false_2 in H by done. cbn [orb] in H. destruct r as [m t s|]; [|by rewrite andb_false_r in H].
  cbn [accepts] in Hacc. apply andb_true_iff in Hacc as [_ Hh%match_head]. rewrite andb_true_r in H.
  unfold closed in H. cbn [route_path] in H. apply andb_true_iff in H as [Hapi Hc].
  apply negb_true_iff in Hc. rewrite !orb_false_iff in Hc. destruct Hc as [[H1 H2] H3]. split.
  - unfold protected_path. apply orb_true_iff. right. apply str_prefix_spec in Hapi as [u E].
    rewrite E in Hh. apply str_prefix_spec in Hh as [v ->]. rewrite str_app_assoc. apply str_prefix_app.
  - unfold public_path. apply not_true_is_false. intros [[Hp|Hp]%orb_true_iff|Hp]%orb_true_iff;
      pose proof (prefixes_comparable _ _ _ Hp Hh); congruence.
Qed.

(** C9: Whatever path is asked for, a request without a live session reaches the
    login, the redirect of the root, static files and the API's schema at most;
    for any other route the middleware answers, and the handler is not run. *)
Theorem routes_gated {E : Env} {A} (run : AppRoute → Request → M World A) not_found method rq w r :
  dispatch method (rq_path rq) = Some r → r ∉ open_routes → ¬ live_session rq (clk (w_ticks w)) w →
  ∃ g w', (∀ b, g ≠ Pass b) ∧ handle_request run not_found method rq w = (Ok (g, None), w').
Proof.
  intros Hd Hno Hlive. apply find_some in Hd as [Hin Hacc].
  destruct (gate_closed rq w) as (g & w1 & Hg & E'); [|done|].
  { eapply closed_needs_session; [|exact Hno|exact Hacc]. by apply list_elem_of_In. }
  exists g, w1. split; [done|]. unfold handle_request, auth_middleware, mbind at 1, M_bind at 1. rewrite E'.
  destruct g as [| |b]; [done..|by destruct (Hg b)].
Qed.

Lemma login_is_public m t : Route m t "auth.login" ∈ app → ∀ seg, public_path (fill t seg) = true.
Proof.
  assert (H : List.forallb (λ r, match r with
    | Route m t s => negb (String.eqb s "auth.login") || bool_decide (tmpl_tail t = None) && public_path t
    | Mount _ => true end) app = true) by (vm_compute; reflexivity).
  intros Hin seg. rewrite forallb_forall in H. specialize (H _ (proj1 (list_elem_of_In _ _) Hin)). cbn in H.
  apply andb_true_iff in H as [Ht%bool_decide_eq_true Hp]. by rewrite fill_literal.
Qed.

(** C22: No route hides another: a request with a live session, or for the login, for
    a path of a route that names no page is answered by that route's handler,
    on the database the request found. *)
Theorem routes_reached {E : Env} {A} (run : AppRoute → Request → M World A) not_found m t s seg rq w :
  Route m t s ∈ app → own_path t seg → rq_path rq = fill t seg →
  too_large (rq_content_length rq) = false → str_contains "active-ips.html" (rq_path rq) = false →
  str_suffix ".html" (rq_path rq) = false →
  s = "auth.login" ∨ live_session rq (clk (w_ticks w)) w →
  ∃ b w', w_db w' = w_db w ∧
    handle_request run not_found m rq w = (a ← run (Route m t s) rq; mret (Pass b, Some a)) w'.
Proof.
  intros Hin Hp Hpath Hl Ha Hs Hor. destruct (gate_open rq w Hl Ha Hs) as (b & w1 & E' & Hdb).
  { destruct Hor as [->|Hlive]; [left|by right]. rewrite Hpath. by eapply login_is_public. }
  exists b, w1. split; [done|]. unfold handle_request, auth_middleware. unfold mbind at 1, M_bind at 1. rewrite E'.
  unfold dispatch. by rewrite Hpath, (find_first app m t s seg (λ r H, H) app_no_shadow Hin Hp).
Qed.
End gated.

(** ** A router

    [^head([^/]+)tail$]: a parameter takes characters up to a slash. *)

Definition line_end : string := String newline EmptyString.
Fixpoint seg_match (b s : string) : bool :=
  match s with
  | EmptyString => false
  | String c s' => negb (bool_decide (c = "/"%char)) && (bool_decide (s' = b) || seg_match b s')
  end.
Definition segments_match (t p : string) : bool :=
  match drop_prefix (tmpl_head t) p with
  | Some rest =>
      match tmpl_tail t with
      | None => bool_decide (rest = EmptyString) || bool_decide (rest = line_end)
      | Some b => seg_match b rest || seg_match (b ^^ line_end) rest
      end
  | None => false
  end.

Lemma drop_prefix_app p s : drop_prefix p (p ^^ s) = Some s.
Proof.
  induction p as [|c p IH]; [done|]. change (drop_prefix (String c p) (String c (p ^^ s)) = Some s). cbn [drop_prefix].
  by rewrite bool_decide_eq_true_2.
Qed.

Lemma seg_match_app b seg : segment seg → seg_match b (seg ^^ b) = true.
Proof.
  intros [Hne Hs]. induction seg as [|c seg IH]; [done|]. cbn [all_chars] in Hs. apply andb_true_iff in Hs as [Hc Hs].
  change (seg_match b (String c (seg ^^ b)) = true). cbn [seg_match]. apply andb_true_iff in Hc as [-> _]. cbn [andb].
  destruct seg as [|d seg]; [by rewrite bool_decide_eq_true_2|]. by rewrite (IH ltac:(done) Hs), orb_true_r.
Qed.

#[export, refine] Instance segments : Router := {|
  path_match := segments_match; mount_match p path := str_prefix (p ^^ "/") path |}.
Proof.
  - intros t seg Hs. unfold segments_match, fill. destruct (tmpl_tail t) as [b|] eqn:Hb.
    + by rewrite drop_prefix_app, seg_match_app.
    + rewrite (head_literal t Hb). pose proof (drop_prefix_app t EmptyString) as Hd. rewrite str_app_nil in Hd. by rewrite Hd.
  - intros t p. unfold segments_match. destruct (drop_prefix _ _) as [rest|] eqn:Hd; [|done]. intros _.
    rewrite (drop_prefix_spec _ _ _ Hd). apply str_prefix_app.
  - intros t p Ht. unfold segments_match. rewrite Ht, (head_literal t Ht).
    destruct (drop_prefix _ _) as [rest|] eqn:Hd; [|done]. rewrite (drop_prefix_spec _ _ _ Hd).
    intros [->%bool_decide_eq_true| ->%bool_decide_eq_true]%orb_true_iff; [left; apply str_app_nil|by right].
  - intros t p [u ->]%str_prefix_spec. rewrite str_app_assoc. apply str_prefix_app.
Defined.

(** ** Requests *)

Definition demo_request (sid : option string) (path : string) : Request := mkRequest sid (Some "10.0.0.9") None path.
Definition named {E : Env} (r : AppRoute) (rq : Request) : M World string :=
  mret (match r with Route _ _ s => s | Mount p => p end).
Definition absent {E : Env} : M World string := raise (HTTPException 404).

(** An operator's session, and the request for a playbook that uses it. *)
Definition operator_world : World :=
  upd_state (upd_sessions (<["s1" := mkSession "root" (NInt 1000000)]>)) empty_world.
Definition playbook_request : Request := demo_request (Some "s1") "/api/playbooks/7".

Lemma routes_gated_witness :
  ∃ g w', (∀ b, g ≠ Pass b) ∧
    @handle_request segments calm_env string (@named calm_env) (@absent calm_env) "GET" (demo_request None "/api/playbooks/7") empty_world =
      (Ok (g, None), w').
Proof.
  apply (@routes_gated segments calm_env string (@named calm_env) (@absent calm_env) "GET" (demo_request None "/api/playbooks/7")
           empty_world (Route "GET" "/api/playbooks/{playbook_id}" "playbooks_api.get_playbook")).
  - vm_compute. reflexivity.
  - apply (bool_decide_eq_false_1 _). vm_compute. reflexivity.
  - intros (sid & s & H & _). discriminate H.
Defined.

Lemma routes_reached_witness :
  ∃ b w', w_db w' = w_db operator_world ∧
    @handle_request segments calm_env string (@named calm_env) (@absent calm_env) "GET" playbook_request operator_world =
      (a ← @named calm_env (Route "GET" "/api/playbooks/{playbook_id}" "playbooks_api.get_playbook") playbook_request;
       mret (Pass b, Some a)) w'.
Proof.
  apply (@routes_reached segments calm_env string (@named calm_env) (@absent calm_env) "GET" "/api/playbooks/{playbook_id}"
           "playbooks_api.get_playbook" "7" playbook_request operator_world).
  - apply list_elem_of_In. vm_compute. tauto.
  - split; [by split|]. right. apply (bool_decide_eq_false_1 _). vm_compute. reflexivity.
  - reflexivity.
  - reflexivity.
  - reflexivity.
  - reflexivity.
  - right. exists "s1", (mkSession "root" (NInt 1000000)). split; [reflexivity|]. split; vm_compute; reflexivity.
Defined.

(** The routes whose order matters. *)
Example runs_before_ids :
  dispatch "GET" "/api/playbooks/runs" = Some (Route "GET" "/api/playbooks/runs" "playbooks_api.list_runs") ∧
  dispatch "GET" "/api/playbooks/runs/3/events" = Some (Route "GET" "/api/playbooks/runs/{run_id}/events" "playbooks_api.list_run_events") ∧
  dispatch "POST" "/api/playbooks/runs" = None.
Proof. vm_compute. auto. Qed.

(** docs_url and redoc_url are None, openapi_url is not: the schema of every
    route is served to a request without a session. *)
Lemma schema_without_session {E : Env} w :
  handle_request named absent "GET" (demo_request None "/openapi.json") w = (Ok (Pass false, Some "openapi"), w).
Proof. reflexivity. Qed.
