(* ===== verification/Environment.v ===== *)
(** * The environment of Stage 2: the paths and settings of config.py, and the
    interfaces of the machine as api.py reports them

    [environ] is [os.environ], a partial function on names. [World] names a file
    by its constant ([path]) and takes a [Settings] as given; here are the file
    name behind each constant and the settings as config.py reads them.

    The interfaces come from system calls: reading a file of /sys, listing
    /sys/class/net, opening a socket and the SIOCGIFADDR request are parameters.
    Each may fail. *)

From S2P Require Import Prelude PyNum PyStr Regex PyPrint Json World Storage Config Enforcement Wire IpText IpAddr Startup Api.

(** ** Paths *)

(** [os.path.join(a, b)]. *)
Definition path_join (a b : string) : string :=
  if str_prefix "/" b then b
  else if bool_decide (a = EmptyString) || str_suffix "/" a then a ^^ b
  else a ^^ "/" ^^ b.

Definition RUNTIME_DIR : string := "/run/ddos_stage1".
Definition SOCKET_PATH : string := path_join RUNTIME_DIR "stage1.sock".
Definition STAGE1_UNIT_PATH : string := "/etc/systemd/system/ddos-stage1.service".

(** The modules config.py, train.py, train_isolation_forest.py,
    train_second_model.py and setup_admin.py share one directory. *)
Section environment.
Context (environ : string → option string) (SCRIPT_DIR : string).

(** [os.environ.get(k, d)]. *)
Definition env_get (k d : string) : string := default d (environ k).

Definition _STATE_DIR : string := env_get "FLOD_STATE_DIR" SCRIPT_DIR.

(** A file that has a variable of its own and lies in the state directory by
    default. *)
Definition state_file (var base : string) : string := env_get var (path_join _STATE_DIR base).

Definition MODEL_FILE : string := state_file "MODEL_PATH" "ddos_rf_model.joblib".
Definition IF_MODEL_FILE : string := state_file "IF_MODEL_PATH" "ddos_if_model.joblib".
Definition SECOND_MODEL_FILE : string := state_file "SECOND_MODEL_PATH" "ddos_gb_model.joblib".
Definition REPORTS_DIR : string := state_file "PLAYBOOK_REPORTS_DIR" "playbook_reports".
Definition DB_FILE : string := state_file "DB_PATH" "stage2.db".
Definition _LOG_PATH : string := state_file "STAGE2_LOG_PATH" "stage2.log".
Definition TLS_CERT_PATH : string := env_get "TLS_CERT_PATH" "/etc/ddos_stage2/tls/cert.pem".
Definition TLS_KEY_PATH : string := env_get "TLS_KEY_PATH" "/etc/ddos_stage2/tls/key.pem".

Definition file_at (p : path) : string :=
  match p with
  | WHITELIST_PATH => state_file "WHITELIST_PATH" "whitelist.json"
  | SHARED_IPS_PATH => state_file "SHARED_IPS_PATH" "shared_ips.json"
  | VICTIMS_PATH => state_file "VICTIMS_PATH" "victims.json"
  | ENFORCEMENT_CONFIG_PATH => state_file "ENFORCEMENT_CONFIG_PATH" "enforcement_config.json"
  | ALERTS_CONFIG_PATH => state_file "ALERTS_CONFIG_PATH" "alerts_config.json"
  | FLOWS_PATH => path_join RUNTIME_DIR "active_flows.json"
  | ANOMALOUS_CSV_PATH => state_file "ANOMALOUS_CSV_PATH" "anomalous_capture.csv"
  | PRETRAINING_CSV_PATH => state_file "PRETRAINING_CSV_PATH" "pretraining_capture.csv"
  | DDOS_CAPTURE_CSV_PATH => state_file "DDOS_CAPTURE_CSV_PATH" "ddos_capture.csv"
  | AUTO_LABELED_CSV_PATH => state_file "AUTO_LABELED_CSV_PATH" "auto_labeled_capture.csv"
  | TRAINING_CSV_PATH => env_get "TRAINING_CSV_PATH" ""
  end.

(** The defaults of the other programs: they read the same variables as
    config.py, and not [FLOD_STATE_DIR]. *)
Definition setup_admin_DB_PATH : string := env_get "DB_PATH" (path_join SCRIPT_DIR "stage2.db").
Definition train_MODEL_PATH : string := env_get "MODEL_PATH" (path_join SCRIPT_DIR "ddos_rf_model.joblib").
Definition train_IF_MODEL_PATH : string := env_get "IF_MODEL_PATH" (path_join SCRIPT_DIR "ddos_if_model.joblib").
Definition train_SECOND_MODEL_PATH : string :=
  env_get "SECOND_MODEL_PATH" (path_join SCRIPT_DIR "ddos_gb_model.joblib").

(** ** Settings *)

(** [float(os.environ.get(k, d))] and [int(os.environ.get(k, d))]. *)
Definition env_float (k d : string) : res num := parse_float (env_get k d).
Definition env_int (k d : string) : res Z := int_of_string (env_get k d).

(** The settings as the module evaluates them; the first that is no number ends
    the import with a ValueError. A negative bound on the waiting rows empties
    the queue at every append, as zero does. A negative
    [AUTO_LABEL_MAX_QUEUE_ROWS] is refused by [deque] when a capture file is
    read, which [Settings] cannot express: it is zero here. *)
Definition load_settings : res Settings :=
  latency ← env_float "LATENCY_LOG_INTERVAL_SECS" "30";
  delay ← env_float "AUTO_LABEL_DELAY_HOURS" "24";
  threshold ← env_float "AUTO_LABEL_CONFIDENCE_THRESHOLD" "0.90";
  queue ← env_int "AUTO_LABEL_MAX_QUEUE_ROWS" "50000";
  max_bytes ← env_int "PRETRAINING_MAX_BYTES" "52428800";
  max_age ← env_float "FLOD_FLOWS_MAX_AGE_SECS" "30";
  slow ← env_float "FLOD_SLOW_WINDOW_LOG_SECS" "1.0";
  pending ← env_int "FLOD_CAPTURE_PENDING_MAX_ROWS" "5000";
  Ok (mkSettings DB_FILE max_age slow (Z.to_nat pending) max_bytes latency delay threshold (Z.to_nat queue)).

(** What [load_settings] reads as a number, with its default. *)
Definition float_vars : list (string * string) :=
  [("LATENCY_LOG_INTERVAL_SECS", "30"); ("AUTO_LABEL_DELAY_HOURS", "24");
   ("AUTO_LABEL_CONFIDENCE_THRESHOLD", "0.90"); ("FLOD_FLOWS_MAX_AGE_SECS", "30");
   ("FLOD_SLOW_WINDOW_LOG_SECS", "1.0")]%string.
Definition int_vars : list (string * string) :=
  [("AUTO_LABEL_MAX_QUEUE_ROWS", "50000"); ("PRETRAINING_MAX_BYTES", "52428800");
   ("FLOD_CAPTURE_PENDING_MAX_ROWS", "5000")]%string.

(** The upper-case attributes of the [logging] module: its levels, and one
    string, which [basicConfig] refuses. [getattr] falls back on INFO. *)
Definition LOG_LEVELS : list (string * res Z) :=
  [("CRITICAL", Ok 50%Z); ("FATAL", Ok 50%Z); ("ERROR", Ok 40%Z); ("WARNING", Ok 30%Z); ("WARN", Ok 30%Z);
   ("INFO", Ok 20%Z); ("DEBUG", Ok 10%Z); ("NOTSET", Ok 0%Z); ("BASIC_FORMAT", Exn ValueError)]%string.

Definition _LOG_LEVEL : res Z :=
  default (Ok 20%Z)
    (dict_get (upper (env_get "FLOD_LOG_LEVEL" "INFO")) LOG_LEVELS).
End environment.

(** The variable of its own a path has, and its name in the state directory. *)
Definition path_entry (p : path) : option (string * string) :=
  match p with
  | WHITELIST_PATH => Some ("WHITELIST_PATH", "whitelist.json")
  | SHARED_IPS_PATH => Some ("SHARED_IPS_PATH", "shared_ips.json")
  | VICTIMS_PATH => Some ("VICTIMS_PATH", "victims.json")
  | ENFORCEMENT_CONFIG_PATH => Some ("ENFORCEMENT_CONFIG_PATH", "enforcement_config.json")
  | ALERTS_CONFIG_PATH => Some ("ALERTS_CONFIG_PATH", "alerts_config.json")
  | ANOMALOUS_CSV_PATH => Some ("ANOMALOUS_CSV_PATH", "anomalous_capture.csv")
  | PRETRAINING_CSV_PATH => Some ("PRETRAINING_CSV_PATH", "pretraining_capture.csv")
  | DDOS_CAPTURE_CSV_PATH => Some ("DDOS_CAPTURE_CSV_PATH", "ddos_capture.csv")
  | AUTO_LABELED_CSV_PATH => Some ("AUTO_LABELED_CSV_PATH", "auto_labeled_capture.csv")
  | FLOWS_PATH | TRAINING_CSV_PATH => None
  end%string.

(** ** Network interfaces (api.py) *)

(** Hexadecimal digits with single underscores between them, as
    [take_digits] reads decimal ones. *)
Definition hex_digit_of (c : ascii) : option Z :=
  let n := Z.of_nat (nat_of_ascii (lower c)) in
  if ((48 <=? n) && (n <=? 57))%Z then Some (n - 48)%Z
  else if ((97 <=? n) && (n <=? 102))%Z then Some (n - 87)%Z
  else None.

Fixpoint take_hex (acc : Z) (k : nat) (l : list ascii) : Z * nat * list ascii :=
  match l with
  | [] => (acc, k, [])
  | c :: l' =>
      match hex_digit_of c with
      | Some d => take_hex (acc * 16 + d)%Z (S k) l'
      | None =>
          match k, c, l' with
          | S _, "_"%char, c2 :: l2 =>
              match hex_digit_of c2 with
              | Some d => take_hex (acc * 16 + d)%Z (S k) l2
              | None => (acc, k, l)
              end
          | _, _, _ => (acc, k, l)
          end
      end
  end.

(** The prefix [0x], after which one underscore is allowed. *)
Definition drop_0x (l : list ascii) : list ascii :=
  match l with
  | "0"%char :: x :: rest =>
      if bool_decide (lower x = "x"%char) then
        match rest with "_"%char :: rest' => rest' | _ => rest end
      else l
  | _ => l
  end.

(** [int(s, 16)]. *)
Definition int_base16 (s : string) : res Z :=
  let '(neg, l) := take_sign (strip_list (list_ascii_of_string s)) in
  match take_hex 0 0 (drop_0x l) with
  | (z, S _, []) => Ok (if neg then - z else z)%Z
  | _ => Exn ValueError
  end.

(** Text as the bytes a system call gets. *)
Definition text_bytes (s : string) : list Z := (λ c, Z.of_nat (nat_of_ascii c)) <$> list_ascii_of_string s.

(** [struct.pack('256s', b)]. *)
Definition pack_256s (b : list Z) : list Z := take 256 b ++ replicate (256 - length b) 0%Z.

Definition SIOCGIFADDR : Z := 0x8915.

Section interfaces.
Context (read_file : string → option string) (listdir : string → option (list string))
  (socket_ok : string → bool) (ioctl : Z → list Z → option (list Z)).

Definition sys_net (name file : string) : string := "/sys/class/net/" ^^ name ^^ "/" ^^ file.

(** The socket is opened before the [try]; [inet_ntoa] wants four bytes. *)
Definition get_interface_ip (ifname : string) : res string :=
  if socket_ok ifname then
    Ok (match ioctl SIOCGIFADDR (pack_256s (text_bytes (str_take 15 ifname))) with
        | Some reply =>
            let a := take 4 (drop 20 reply) in
            if (length a =? 4)%nat then ipv4_str a else "UNASSIGNED"%string
        | None => "UNASSIGNED"%string
        end)
  else Exn OSError.

Definition is_interface_promisc (ifname : string) : bool :=
  match read_file (sys_net ifname "flags") with
  | Some text =>
      match int_base16 (str_strip text) with
      | Ok flags => negb (Z.land flags 0x100 =? 0)%Z
      | Exn _ => false
      end
  | None => false
  end.

Record Interface := mkInterface {
  if_name : string; if_mac : string; if_ip : string; if_up : bool; if_promisc : bool }.

(** The body of the loop of [get_state]. *)
Definition read_interface (name : string) : res Interface :=
  let up := match read_file (sys_net name "operstate") with
            | Some text => bool_decide (str_strip text = "up"%string)
            | None => false
            end in
  let mac := match read_file (sys_net name "address") with Some text => str_strip text | None => EmptyString end in
  ip ← get_interface_ip name;
  Ok (mkInterface name mac ip up (is_interface_promisc name)).

(** An exception ends the loop, and what it has appended stays. *)
Fixpoint append_interfaces (names : list string) : list Interface :=
  match names with
  | [] => []
  | name :: rest => match read_interface name with Ok i => i :: append_interfaces rest | Exn _ => [] end
  end.

Definition read_interfaces : list Interface :=
  match listdir "/sys/class/net" with Some names => append_interfaces names | None => [] end.

Definition interface_json (i : Interface) : json :=
  JObj [("name", JStr (if_name i)); ("mac", JStr (if_mac i)); ("ip", JStr (if_ip i));
        ("up", JBool (if_up i)); ("promisc", JBool (if_promisc i))]%string.

(** A poll of the dashboard: the interfaces and the unit file are read from the
    machine, the rest from the state. *)
Definition poll_state {E : Env} (target : option string) : M World StateView :=
  get_state target (interface_json <$> read_interfaces) (str_words <$> read_file STAGE1_UNIT_PATH).
End interfaces.

Definition get_version (VERSION : json) : json := JObj [("version"%string, VERSION)].

(** ** Which files the constants name *)

Section paths.
Context (environ : string → option string) (SCRIPT_DIR : string).

Lemma path_join_list a b :
  str_prefix "/" b = false →
  ∃ pre, (∀ b', str_prefix "/" b' = false → path_join a b' = pre ^^ b') ∧ path_join a b = pre ^^ b.
Proof.
  intros Hb. unfold path_join.
  destruct (bool_decide (a = EmptyString) || str_suffix "/" a) eqn:Ha.
  - exists a. split; [intros b' ->; done|by rewrite Hb].
  - exists (a ^^ "/").
    split; [intros b' ->|rewrite Hb]; by rewrite str_app_assoc.
Qed.

Lemma app_str_inj a b1 b2 : a ^^ b1 = a ^^ b2 → b1 = b2.
Proof. induction a as [|c a IH]; simpl; [done|]. intros [= H]. by apply IH. Qed.

(** Names that start with no slash are kept apart by any directory. *)
Lemma path_join_inj a b1 b2 :
  str_prefix "/" b1 = false → str_prefix "/" b2 = false → path_join a b1 = path_join a b2 → b1 = b2.
Proof.
  intros H1 H2. destruct (path_join_list a b1 H1) as (pre & Hpre & _).
  rewrite (Hpre b1 H1), (Hpre b2 H2). apply app_str_inj.
Qed.

(** Whatever the directory, the end of the text is the name. *)
Lemma path_join_end a b :
  str_prefix "/" b = false → ∃ rest, rev (list_ascii_of_string (path_join a b)) = rev (list_ascii_of_string b) ++ rest.
Proof.
  intros Hb. destruct (path_join_list a b Hb) as (pre & _ & ->).
  exists (rev (list_ascii_of_string pre)). by rewrite list_ascii_app, rev_app_distr.
Qed.

Lemma file_at_entry p var base :
  path_entry p = Some (var, base) → file_at environ SCRIPT_DIR p = state_file environ SCRIPT_DIR var base ∧
  str_prefix "/" base = false.
Proof. destruct p; intros [= <- <-]; done. Qed.

Lemma entry_names_differ p q vp vq b :
  path_entry p = Some (vp, b) → path_entry q = Some (vq, b) → p = q.
Proof. destruct p; intros [= <- <-]; destruct q; intros [=]; done. Qed.

(** The state files end differently from the snapshot of the flows. *)
Lemma flows_apart p var base :
  path_entry p = Some (var, base) → path_join (_STATE_DIR environ SCRIPT_DIR) base ≠ file_at environ SCRIPT_DIR FLOWS_PATH.
Proof.
  intros Hp Heq. destruct (file_at_entry p var base Hp) as (_ & Hb).
  destruct (path_join_end (_STATE_DIR environ SCRIPT_DIR) base Hb) as (rest & Hr). rewrite Heq in Hr.
  destruct p; try discriminate Hp; injection Hp as <- <-; vm_compute in Hr; discriminate Hr.
Qed.

Lemma path_join_nonempty a b : str_prefix "/" b = false → b ≠ EmptyString → path_join a b ≠ EmptyString.
Proof.
  intros Hb Hne. destruct (path_join_list a b Hb) as (pre & _ & ->). by destruct pre.
Qed.

Lemma state_file_default var base :
  environ var = None → state_file environ SCRIPT_DIR var base = path_join (_STATE_DIR environ SCRIPT_DIR) base.
Proof. unfold state_file, env_get. by intros ->. Qed.

(** With no variable set for a single file, the files of the constants are the
    names below the state directory, and any two constants name different
    files: writing one never touches another. *)
Theorem files_distinct p q :
  (∀ r var base, path_entry r = Some (var, base) → environ var = None) → environ "TRAINING_CSV_PATH" = None →
  file_at environ SCRIPT_DIR p = file_at environ SCRIPT_DIR q → p = q.
Proof.
  intros Hunset Htrain.
  assert (Hstate : ∀ r var base, path_entry r = Some (var, base) →
    file_at environ SCRIPT_DIR r = path_join (_STATE_DIR environ SCRIPT_DIR) base ∧ str_prefix "/" base = false).
  { intros r var base Hr. destruct (file_at_entry r var base Hr) as (-> & Hb).
    by rewrite (state_file_default var base (Hunset r var base Hr)). }
  assert (Hempty : file_at environ SCRIPT_DIR TRAINING_CSV_PATH = EmptyString)
    by (unfold file_at, env_get; by rewrite Htrain).
  assert (Hother : ∀ r var base s, path_entry r = Some (var, base) → path_entry s = None →
    file_at environ SCRIPT_DIR r ≠ file_at environ SCRIPT_DIR s).
  { intros r var base s Hr Hs. destruct (Hstate r var base Hr) as (-> & Hb).
    destruct s; try done; [by apply (flows_apart r var base)|]. rewrite Hempty.
    apply path_join_nonempty; [done|]. by destruct r; try discriminate Hr; injection Hr as <- <-. }
  destruct (path_entry p) as [[vp bp]|] eqn:Hp, (path_entry q) as [[vq bq]|] eqn:Hq; intros Heq.
  - destruct (Hstate p vp bp Hp) as (Hfp & Hbp), (Hstate q vq bq Hq) as (Hfq & Hbq).
    rewrite Hfp, Hfq in Heq. apply path_join_inj in Heq; [|done|done]. subst bq.
    by apply (entry_names_differ p q vp vq bp).
  - by destruct (Hother p vp bp q Hp Hq).
  - by destruct (Hother q vq bq p Hq Hp).
  - destruct p; try done; destruct q; try done.
    + by rewrite Hempty in Heq.
    + by rewrite Hempty in Heq.
Qed.
End paths.

(** ** Settings *)

Section settings_facts.
Context (environ : string → option string) (SCRIPT_DIR : string).

(** The module is imported with some settings exactly when every variable that
    is set holds a number of its kind. *)
Theorem load_settings_ok :
  (∃ s, load_settings environ SCRIPT_DIR = Ok s) ↔
  Forall (λ '(k, d), ∃ x, env_float environ k d = Ok x) float_vars ∧
  Forall (λ '(k, d), ∃ x, env_int environ k d = Ok x) int_vars.
Proof.
  unfold load_settings, float_vars, int_vars. rewrite !Forall_cons, !Forall_nil. split.
  - intros (s & H). unfold mbind, res_bind in H. repeat case_match; simplify_eq; naive_solver.
  - intros (([? ->] & [? ->] & [? ->] & [? ->] & [? ->] & _) & [? ->] & [? ->] & [? ->] & _). simpl. eauto.
Qed.

(** An unset environment gives the defaults of the model. *)
Lemma load_settings_default : load_settings (λ _, None) "" = Ok default_settings.
Proof.
  unfold load_settings, default_settings.
  repeat match goal with
  | |- context [env_float ?e ?k ?d] =>
      let v := eval vm_compute in (env_float e k d) in
      replace (env_float e k d) with v by (vm_compute; reflexivity)
  | |- context [env_int ?e ?k ?d] =>
      let v := eval vm_compute in (env_int e k d) in
      replace (env_int e k d) with v by (vm_compute; reflexivity)
  end.
  cbn [mbind res_bind]. f_equal.
Qed.
End settings_facts.

(** With one variable set the data of a running Stage 2 move, and the account
    that setup_admin.py makes stays where the variable is not read. *)
Lemma state_dir_moves d SCRIPT_DIR :
  str_suffix "/" d = false → d ≠ EmptyString →
  let environ k := if bool_decide (k = "FLOD_STATE_DIR"%string) then Some d else None in
  DB_FILE environ SCRIPT_DIR = d ^^ "/stage2.db" ∧
  (∀ p var base, path_entry p = Some (var, base) → file_at environ SCRIPT_DIR p = d ^^ "/" ^^ base) ∧
  setup_admin_DB_PATH environ SCRIPT_DIR = path_join SCRIPT_DIR "stage2.db".
Proof.
  intros Hd Hne environ.
  assert (Hdir : _STATE_DIR environ SCRIPT_DIR = d) by done.
  assert (Hj : ∀ b, str_prefix "/" b = false → path_join d b = d ^^ "/" ^^ b).
  { intros b Hb. unfold path_join. by rewrite Hb, Hd, bool_decide_false. }
  split; [unfold DB_FILE; by rewrite state_file_default, Hdir, Hj|]. split; [|done].
  intros p var base Hp. destruct (file_at_entry environ SCRIPT_DIR p var base Hp) as (-> & Hb).
  rewrite state_file_default, Hdir by (by destruct p; try discriminate Hp; injection Hp as <- <-). by apply Hj.
Qed.

(** ** Interfaces *)

Lemma take_hex_digits l acc k :
  Forall (λ c, is_Some (hex_digit_of c)) l →
  take_hex acc k l = (foldl (λ a c, a * 16 + default 0 (hex_digit_of c))%Z acc l, (k + length l)%nat, []).
Proof.
  revert acc k. induction l as [|c l IH]; intros acc k Hl; simpl; [by rewrite Nat.add_0_r|].
  apply Forall_cons in Hl as [[d Hd] Hl]. rewrite Hd, IH by done. simpl. by rewrite Nat.add_succ_r.
Qed.

Section interface_facts.
Context (read_file : string → option string) (listdir : string → option (list string))
  (socket_ok : string → bool) (ioctl : Z → list Z → option (list Z)).

(** What is listed: the interfaces in the order of the directory, each with what
    its own files say, up to the first for which no socket can be had. *)
Theorem interfaces_listed names :
  ∃ n, if_name <$> append_interfaces read_file socket_ok ioctl names = take n names ∧
       (n < length names → ∃ name, names !! n = Some name ∧ socket_ok name = false) ∧
       Forall (λ i, read_interface read_file socket_ok ioctl (if_name i) = Ok i ∧ socket_ok (if_name i) = true)
         (append_interfaces read_file socket_ok ioctl names).
Proof.
  induction names as [|name names (n & Hn & Hstop & Hall)]; simpl.
  { exists 0. split; [done|]. split; [lia|constructor]. }
  destruct (read_interface read_file socket_ok ioctl name) as [i|e] eqn:Hr.
  - assert (Hi : if_name i = name ∧ socket_ok name = true).
    { unfold read_interface, get_interface_ip in Hr. destruct (socket_ok name); simpl in Hr; by simplify_eq. }
    destruct Hi as [Hi Hs]. exists (S n). csimpl. rewrite Hn, Hi. split; [done|].
    split; [intros Hlt; apply Hstop; lia|]. constructor; [|done]. by rewrite Hi.
  - exists 0. split; [done|]. split; [|constructor]. intros _. exists name. split; [done|].
    unfold read_interface, get_interface_ip in Hr. by destruct (socket_ok name).
Qed.
End interface_facts.

(** White space behind visible text is all that goes. *)
Lemma strip_trailing l t :
  l ≠ [] → Forall (λ c, c_nonspace c = true) l → is_space t = true → strip_list (l ++ [t]) = l.
Proof.
  intros Hne Hl Ht. unfold strip_list.
  assert (Hd : drop_spaces (l ++ [t]) = l ++ [t]).
  { destruct l as [|c l]; [done|]. apply Forall_cons in Hl as [Hc _]. apply negb_true_iff in Hc. simpl. by rewrite Hc. }
  rewrite Hd, rev_app_distr. cbn [rev app drop_spaces]. rewrite Ht, drop_spaces_visible, rev_involutive; [done|].
  by apply Forall_rev.
Qed.

Lemma hex_visible c : is_Some (hex_digit_of c) → c_nonspace c = true.
Proof. destruct c as [[] [] [] [] [] [] [] []]; vm_compute; by intros [? ?]. Qed.

Lemma drop_0x_hex x l : is_Some (hex_digit_of x) → drop_0x ("0"%char :: "x"%char :: x :: l) = x :: l.
Proof. destruct x as [[] [] [] [] [] [] [] []]; vm_compute; by intros [? ?]. Qed.

(** What the kernel writes in [flags], the digits of a number after [0x] and a
    newline, is read as promiscuous exactly when its ninth bit is set. *)
Theorem promisc_bit (read_file : string → option string) name digits :
  digits ≠ [] → Forall (λ c, is_Some (hex_digit_of c)) digits →
  read_file (sys_net name "flags") =
    Some (string_of_list_ascii ("0"%char :: "x"%char :: digits ++ [newline])) →
  is_interface_promisc read_file name =
    Z.testbit (foldl (λ a c, a * 16 + default 0 (hex_digit_of c))%Z 0%Z digits) 8.
Proof.
  intros Hne Hd Hread. unfold is_interface_promisc. rewrite Hread. unfold str_strip, int_base16.
  rewrite !list_ascii_of_string_of_list_ascii.
  assert (Hv : Forall (λ c, c_nonspace c = true) ("0"%char :: "x"%char :: digits)).
  { do 2 (constructor; [done|]). eapply Forall_impl; [exact Hd|]. apply hex_visible. }
  pose proof (strip_trailing ("0"%char :: "x"%char :: digits) newline ltac:(done) Hv eq_refl) as Hs. cbn [app] in Hs. rewrite Hs.
  rewrite strip_visible by done. cbn [take_sign].
  destruct digits as [|x digits]; [done|]. rewrite drop_0x_hex by (by apply Forall_cons in Hd as [? _]).
  rewrite take_hex_digits by done. cbn [length Nat.add].
  set (v := foldl _ _ _). change 0x100%Z with (2 ^ 8)%Z.
  rewrite <-(Z.shiftl_1_l 8). destruct (Z.testbit v 8) eqn:Hb.
  - apply negb_true_iff, Z.eqb_neq. intros H. apply (f_equal (λ z, Z.testbit z 8)) in H.
    rewrite Z.land_spec, Hb in H. by vm_compute in H.
  - apply negb_false_iff, Z.eqb_eq, Z.bits_inj'. intros n Hn. rewrite Z.land_spec, Z.bits_0.
    destruct (decide (n = 8%Z)) as [->|Hne8]; [by rewrite Hb|].
    rewrite Z.shiftl_1_l, Z.pow2_bits_false by lia. apply andb_false_r.
Qed.

(** A machine with two interfaces: the first up, promiscuous and with an
    address, the second without any file that can be read. *)
Example demo_interfaces :
  read_interfaces
    (λ p, if bool_decide (p = "/sys/class/net/eth0/flags") then Some ("0x1103" ^^ String newline EmptyString)
          else if bool_decide (p = "/sys/class/net/eth0/operstate") then Some ("up" ^^ String newline EmptyString)
          else None)%string
    (λ _, Some ["eth0"; "wlan0"]%string) (λ _, true)
    (λ _ req, if bool_decide (take 4 req = text_bytes "eth0") then Some (replicate 20 0%Z ++ [192; 0; 2; 7]%Z) else None) =
  [mkInterface "eth0" "" "192.0.2.7" true true; mkInterface "wlan0" "" "UNASSIGNED" false false].
Proof. vm_compute. reflexivity. Qed.
