(* ===== verification/AutoLabel.v ===== *)
(** * auto_label.py, training_balance.py and auto_label_review.py

    Captured windows are re-scored by two models and staged; an operator merges
    the staged rows into the training file or discards them, and can cap the
    DDoS class. Files hold text; rows are what csv.reader makes of it. *)

From stdpp Require Import pretty.
From Stdlib Require Import SpecFloat.
From S2P Require Import Prelude PyNum PyStr Json World Storage Db Csv Capture.

Abbreviation csv_rowt := (list string).

Definition BASE_CSV_HEADER : list string := BASE_COLUMNS.
Definition TIMESTAMP_COL : nat := 11.
Definition LABEL_COL : nat := 12.

(** ** Eligibility and agreement *)

(** [(now - row_timestamp) / 3600.0] *)
Definition age_hours (now row_timestamp : num) : num :=
  NFlt (SFdiv prec64 emax64 (to_float (nsub now row_timestamp)) (float_of_Z 3600)).

Definition is_row_eligible (row_timestamp : num) (model_mtimes : list num) (delay_hours now : num) : bool :=
  if nlt (age_hours now row_timestamp) delay_hours then false
  else forallb (λ mtime, nlt row_timestamp mtime) model_mtimes.

(** The derived features of a row, in FEATURE_COLS order, and by name. *)
Record RowFeatures := mkRowFeatures {
  rf_entropy : num; rf_ewma_rate : num; rf_mean_h : num; rf_mean_r : num; rf_sigma_h : num;
  rf_sigma_r : num; rf_proto_ratio : num; rf_dominant_ip_ratio : num; rf_delta_rate : num;
  rf_delta_entropy : num; rf_dominant_rate : num; rf_source_port_entropy : num;
  rf_ttl_variance : num; rf_fingerprint_diversity : num }.

Definition feature_values (f : RowFeatures) : list num :=
  [rf_entropy f; rf_ewma_rate f; rf_mean_h f; rf_mean_r f; rf_sigma_h f; rf_sigma_r f;
   rf_proto_ratio f; rf_dominant_ip_ratio f; rf_delta_rate f; rf_delta_entropy f; rf_dominant_rate f;
   rf_source_port_entropy f; rf_ttl_variance f; rf_fingerprint_diversity f].

Definition is_row_degenerate (f : RowFeatures) : bool :=
  forallb (λ x, neq x (flt 0 1))
    [rf_entropy f; rf_proto_ratio f; rf_dominant_ip_ratio f; rf_source_port_entropy f;
     rf_ttl_variance f; rf_fingerprint_diversity f].

(** [np.argmax]: the first NaN if there is one, else the first maximum. *)
Fixpoint argmax_from (i : nat) (best : nat) (bv : num) (l : list num) : nat :=
  match l with
  | [] => best
  | x :: l' =>
      if is_nan bv then best
      else if is_nan x || nlt bv x then argmax_from (S i) i x l' else argmax_from (S i) best bv l'
  end.
Definition argmax (l : list num) : res nat :=
  match l with [] => Exn ValueError | x :: l' => Ok (argmax_from 1 0 x l') end.

Definition list_at {A} (l : list A) (i : nat) : res A :=
  match l !! i with Some x => Ok x | None => Exn IndexError end.

Definition decide_label (rf_proba : list num) (rf_classes : list Z) (second_proba : list num)
    (second_classes : list Z) (confidence_threshold : num) : res (option Z) :=
  if negb (bool_decide (rf_classes = second_classes)) then Ok None
  else
    i ← argmax rf_proba;
    j ← argmax second_proba;
    if negb (bool_decide (i = j)) then Ok None
    else
      p ← list_at rf_proba i;
      if nlt p confidence_threshold then Ok None
      else
        q ← list_at second_proba j;
        if nlt q confidence_threshold then Ok None
        else c ← list_at rf_classes i; Ok (Some c).

(** ** Trimming *)

(** [float(s)] of a CSV field. *)
Definition float_field (s : string) : res num :=
  match float_of_string s with Some f => Ok (NFlt f) | None => Exn ValueError end.

Definition row_timestamp (row : csv_rowt) : res num :=
  s ← list_at row TIMESTAMP_COL; float_field s.

Definition neg_inf : num := NFlt (S754_infinity true).

Definition _sort_key (row : csv_rowt) : num :=
  match row_timestamp row with Ok n => n | Exn _ => neg_inf end.

Definition older (a b : csv_rowt) : bool := nlt (_sort_key a) (_sort_key b).

Definition trim_csv_rows (rows : list csv_rowt) (max_rows : nat) : list csv_rowt * nat :=
  if (length rows <=? max_rows)%nat then (rows, 0%nat)
  else
    let sorted_rows := py_sort older rows in
    let dropped := (length sorted_rows - max_rows)%nat in
    (drop dropped sorted_rows, dropped).

(** ** Files *)

Definition publish_csv (p : path) (text : string) (w : World) : World :=
  set_csv (<[p := text]> (w_csv w)) w.

(** [dict(zip(header, row))] *)
Definition by_name (header row : csv_rowt) : list (string * string) :=
  dict_update [] (zip header row).

Definition float_named (d : list (string * string)) (k : string) : res num :=
  match dict_get k d with Some s => float_field s | None => Exn KeyError end.

Definition _row_to_features (row header : csv_rowt) : res RowFeatures :=
  let d := by_name header row in
  entropy ← float_named d "entropy"; ewma_rate ← float_named d "ewma_rate";
  mean_h ← float_named d "mean_h"; mean_r ← float_named d "mean_r";
  sigma_h ← float_named d "sigma_h"; sigma_r ← float_named d "sigma_r";
  proto_ratio ← float_named d "proto_ratio";
  dominant_ip_ratio ← float_named d "dominant_ip_ratio";
  source_port_entropy ← float_named d "source_port_entropy";
  ttl_variance ← float_named d "ttl_variance";
  fingerprint_diversity ← float_named d "fingerprint_diversity";
  Ok (mkRowFeatures entropy ewma_rate mean_h mean_r sigma_h sigma_r proto_ratio dominant_ip_ratio
        (nsub ewma_rate mean_r) (nsub entropy mean_h) (nmul ewma_rate dominant_ip_ratio)
        source_port_entropy ttl_variance fingerprint_diversity).

(** A model with class probabilities. *)
Record ProbaModel := mkModel {
  pm_classes : list Z; pm_predict_proba : list (list num) → res (list (list num)) }.

(** What one row of a capture file is to the scorer. *)
Inductive row_class := RCorrupt | RKeep | RScore (f : RowFeatures).

Section auto_label.
Context {E : Env}.

Definition max_queue : nat := AUTO_LABEL_MAX_QUEUE_ROWS settings.

(** [open(path)]: the text, or OSError. *)
Definition open_csv (p : path) : M World string :=
  ok ← io;
  file ← gets (λ w, w_csv w !! p);
  match file with
  | Some t => if negb ok then raise OSError else mret t
  | None => raise FileNotFoundError
  end.

(** Header and rows, the rows bounded by the deque. *)
Definition _read_rows (p : path) : M World (option csv_rowt * list csv_rowt * bool) :=
  file ← gets (λ w, w_csv w !! p);
  match file with
  | None => mret (None, [], false)
  | Some _ =>
      t ← open_csv p;
      match csv_reader t with
      | [] => mret (None, [], false)
      | header :: rows =>
          mret (Some header, drop (length rows - max_queue) rows, (max_queue <? length rows)%nat)
      end
  end.

Definition _read_training_csv (p : path) : M World (option csv_rowt * list csv_rowt) :=
  file ← gets (λ w, w_csv w !! p);
  match file with
  | None => mret (None, [])
  | Some _ =>
      t ← open_csv p;
      match csv_reader t with
      | [] => mret (None, [])
      | header :: rows => mret (Some header, rows)
      end
  end.

Definition _rewrite_csv (p : path) (header : csv_rowt) (rows : list csv_rowt) : M World unit :=
  _atomic_write p (publish_csv p (csv_rows (header :: rows))).

(** Rows after the first [offset] bytes, [None] if the file got shorter. *)
Definition _read_appended_rows (p : path) (offset : nat) : M World (option (list csv_rowt)) :=
  file ← gets (λ w, w_csv w !! p);
  match file with
  | None => raise FileNotFoundError
  | Some t =>
      if (String.length t <? offset)%nat then mret None
      else
        t' ← open_csv p;
        mret (Some (csv_reader (String.substring offset (String.length t' - offset) t')))
  end.

(** One row of the first loop of [_score_rows]. *)
Definition classify_row (header : csv_rowt) (model_mtimes : list num) (row : csv_rowt)
    : M World row_class :=
  if negb (length row =? length header)%nat then mret RCorrupt
  else
    match row_timestamp row with
    | Exn _ => mret RKeep
    | Ok ts =>
        now ← time_time;
        if negb (is_row_eligible ts model_mtimes (AUTO_LABEL_DELAY_HOURS settings) now) then mret RKeep
        else
          match _row_to_features row header with
          | Exn _ => mret RKeep
          | Ok f =>
              if negb (forallb is_finite (feature_values f)) then mret RKeep
              else if is_row_degenerate f then mret RKeep
              else mret (RScore f)
          end
    end.

Fixpoint split_rows (header : csv_rowt) (model_mtimes : list num) (rows : list csv_rowt)
    : M World (list csv_rowt * list (csv_rowt * RowFeatures) * nat) :=
  match rows with
  | [] => mret ([], [], 0%nat)
  | row :: rows' =>
      c ← classify_row header model_mtimes row;
      rest ← split_rows header model_mtimes rows';
      let '(kept, scorable, corrupt) := rest in
      mret match c with
           | RCorrupt => (kept, scorable, S corrupt)
           | RKeep => (row :: kept, scorable, corrupt)
           | RScore f => (kept, (row, f) :: scorable, corrupt)
           end
  end.

(** [labeled_row[label] = str(label)] on the first 13 columns. *)
Definition label_row (row : csv_rowt) (label : Z) : res csv_rowt :=
  let labeled_row := take (length BASE_CSV_HEADER) row in
  if (LABEL_COL <? length labeled_row)%nat then Ok (<[LABEL_COL := pretty label]> labeled_row)
  else Exn IndexError.

(** The second loop: [zip(scorable, rf_probas, second_probas)]. *)
Fixpoint label_rows (clf second_clf : ProbaModel) (scorable : list (csv_rowt * RowFeatures))
    (ps qs : list (list num)) : res (list csv_rowt * list csv_rowt) :=
  match scorable, ps, qs with
  | (row, _) :: scorable', p :: ps', q :: qs' =>
      label ← decide_label p (pm_classes clf) q (pm_classes second_clf)
                (AUTO_LABEL_CONFIDENCE_THRESHOLD settings);
      staged ← match label with
               | None => Ok None
               | Some c => r ← label_row row c; Ok (Some r)
               end;
      rest ← label_rows clf second_clf scorable' ps' qs';
      let '(kept, labeled) := rest in
      Ok (match staged with
          | None => (row :: kept, labeled)
          | Some r => (kept, r :: labeled)
          end)
  | _, _, _ => Ok ([], [])
  end.

Definition _score_rows (rows : list csv_rowt) (header : csv_rowt) (clf second_clf : ProbaModel)
    (model_mtimes : list num) : M World (list csv_rowt * list csv_rowt * nat) :=
  s ← split_rows header model_mtimes rows;
  let '(kept, scorable, corrupt) := s in
  match scorable with
  | [] => mret (kept, [], corrupt)
  | _ =>
      let df := (λ x, feature_values x.2) <$> scorable in
      ps ← lift (pm_predict_proba clf df);
      qs ← lift (pm_predict_proba second_clf df);
      r ← lift (label_rows clf second_clf scorable ps qs);
      mret (kept ++ r.1, r.2, corrupt)
  end.

Definition _append_labeled_row (p : path) (row : csv_rowt) : M World unit :=
  file ← gets (λ w, w_csv w !! p);
  let header := match file with Some _ => EmptyString | None => csv_row BASE_CSV_HEADER end in
  append_text p (header ^^ csv_row row);; mret tt.

(** [others] is what other processes do to the files while no lock is held. *)
Definition _process_capture_file (others : M World unit) (p : path) (clf second_clf : ProbaModel)
    (model_mtimes : list num) (labeled_out : path) : M World nat :=
  file ← gets (λ w, w_csv w !! p);
  match file with
  | None => mret 0%nat
  | Some text =>
      rd ← _read_rows p;
      match rd with
      | (None, _, _) => mret 0%nat
      | (Some header, rows, was_bounded) =>
          let '(rows, dropped) := trim_csv_rows rows max_queue in
          s ← _score_rows rows header clf second_clf model_mtimes;
          let '(kept_rows, labeled_rows, corrupt) := s in
          if bool_decide (dropped = 0%nat) && bool_decide (corrupt = 0%nat) &&
             bool_decide (labeled_rows = []) && negb was_bounded then mret 0%nat
          else
            others;;
            appended ← _read_appended_rows p (String.length text);
            match appended with
            | None => mret 0%nat
            | Some appended =>
                for_each labeled_rows (_append_labeled_row labeled_out);;
                _rewrite_csv p header (kept_rows ++ appended);;
                mret (length labeled_rows)
            end
      end
  end.

Definition _trim_capture_file_only (others : M World unit) (p : path) : M World nat :=
  rd ← _read_rows p;
  match rd with
  | (None, _, _) => mret 0%nat
  | (Some header, rows, was_bounded) =>
      let '(rows, dropped) := trim_csv_rows rows max_queue in
      others;;
      when (negb (bool_decide (dropped = 0%nat)) || was_bounded) (_rewrite_csv p header rows);;
      mret dropped
  end.

(** The loop of [main], and the run recorded when something was staged. *)
Fixpoint label_files (others : M World unit) (models : option (ProbaModel * ProbaModel))
    (model_mtimes : list num) (ps : list path) : M World nat :=
  match ps with
  | [] => mret 0%nat
  | p :: ps' =>
      n ← try_all
            (match models with
             | Some (clf, second) =>
                 _process_capture_file others p clf second model_mtimes AUTO_LABELED_CSV_PATH
             | None => _trim_capture_file_only others p;; mret 0%nat
             end) (mret 0%nat);
      rest ← label_files others models model_mtimes ps';
      mret (n + rest)%nat
  end.

Definition auto_label_main (others : M World unit) (models : option (ProbaModel * ProbaModel))
    (model_mtimes : list num) : M World unit :=
  total ← label_files others models model_mtimes
            [PRETRAINING_CSV_PATH; ANOMALOUS_CSV_PATH; DDOS_CAPTURE_CSV_PATH];
  if bool_decide (total = 0%nat) then mret tt
  else now ← time_time; record_auto_label_run now (Z.of_nat total).
End auto_label.

(** ** training_balance.py *)

Definition NORMAL : string := "0".
Definition FLASH_CROWD : string := "1".
Definition DDOS : string := "2".
Definition SESSION_GAP_SECONDS : num := flt 30 1.

(** [float(r[TIMESTAMP_COL])] of every row, or the first error. *)
Fixpoint stamp_rows (rows : list csv_rowt) : res (list (num * csv_rowt)) :=
  match rows with
  | [] => Ok []
  | r :: rows' => t ← row_timestamp r; rest ← stamp_rows rows'; Ok ((t, r) :: rest)
  end.

Fixpoint tag_sessions (prev : option (num * string)) (sid : Z) (rows : list (num * csv_rowt))
    : res (list (csv_rowt * Z)) :=
  match rows with
  | [] => Ok []
  | (ts, row) :: rows' =>
      label ← list_at row LABEL_COL;
      let is_new := match prev with
                    | None => true
                    | Some (pt, pl) =>
                        nlt SESSION_GAP_SECONDS (nsub ts pt) || negb (bool_decide (label = pl))
                    end in
      let sid' := if is_new then (sid + 1)%Z else sid in
      rest ← tag_sessions (Some (ts, label)) sid' rows';
      Ok ((row, sid') :: rest)
  end.

Definition _assign_sessions (rows : list csv_rowt) : res (list (csv_rowt * Z)) :=
  stamped ← stamp_rows rows;
  tag_sessions None 0 (py_sort (λ a b, nlt a.1 b.1) stamped).

Definition is_ddos_row (row : csv_rowt) : bool := bool_decide (row !! LABEL_COL = Some DDOS).
Definition count_label (l : string) (rows : list csv_rowt) : nat :=
  length (List.filter (λ r, bool_decide (r !! LABEL_COL = Some l)) rows).

(** Every row has a label column. *)
Fixpoint labels_present (rows : list csv_rowt) : res unit :=
  match rows with
  | [] => Ok tt
  | r :: rows' => _ ← list_at r LABEL_COL; labels_present rows'
  end.

(** The DDoS session ids in order of first appearance, and a session's size. *)
Definition session_ids (tagged : list (csv_rowt * Z)) : list Z :=
  foldl (λ ids rs, if is_ddos_row rs.1 && negb (bool_decide (rs.2 ∈ ids)) then ids ++ [rs.2] else ids)
        [] tagged.
Definition session_size (tagged : list (csv_rowt * Z)) (sid : Z) : nat :=
  length (List.filter (λ rs, is_ddos_row rs.1 && bool_decide (rs.2 = sid)) tagged).

(** The greedy choice: kept ids and their row count. *)
Fixpoint choose_sessions (tagged : list (csv_rowt * Z)) (cap : nat) (ids : list Z)
    (kept : gset Z) (n : nat) : gset Z * nat :=
  match ids with
  | [] => (kept, n)
  | sid :: ids' =>
      let size := session_size tagged sid in
      if (n + size <=? cap)%nat then choose_sessions tagged cap ids' ({[sid]} ∪ kept) (n + size)
      else choose_sessions tagged cap ids' kept n
  end.

Definition trim_ddos_sessions (shuffle : list Z → list Z) (rows : list csv_rowt)
    : res (list csv_rowt * nat * nat) :=
  _ ← labels_present rows;
  let cap := Nat.min (count_label NORMAL rows) (count_label FLASH_CROWD rows) in
  if (count_label DDOS rows <=? cap)%nat then Ok (rows, 0%nat, cap)
  else
    tagged ← _assign_sessions rows;
    let '(kept_ids, kept_count) := choose_sessions tagged cap (shuffle (session_ids tagged)) ∅ 0 in
    let dropped := (count_label DDOS rows - kept_count)%nat in
    let result := (List.filter (λ rs, negb (is_ddos_row rs.1) || bool_decide (rs.2 ∈ kept_ids)) tagged).*1 in
    Ok (result, dropped, cap).

(** ** auto_label_review.py *)

Definition REVIEW_ROW_LIMIT : Z := 500.

Record ReviewPage := mkPage {
  pg_header : csv_rowt; pg_rows : list csv_rowt; pg_total : Z; pg_offset : Z; pg_limit : Z;
  pg_has_prev : bool; pg_has_next : bool; pg_truncated : bool }.

Section review.
Context {E : Env}.
(** [config.TRAINING_CSV_PATH] may be empty; [shuffle] is
    [random.Random(42).shuffle]. *)
Context (training_configured : bool) (shuffle : list Z → list Z).

Definition newest_run (a b : AutoLabelRun) : bool := nlt (al_timestamp b) (al_timestamp a).

Definition list_pending_runs : M World (list AutoLabelRun) :=
  read_tx (λ d, py_sort newest_run
                  (List.filter (λ r, negb (al_resolved r)) (tb_rows (db_auto_label_runs d)))).

Definition review_staged_rows (offset limit : Z) : M World ReviewPage :=
  if (offset <? 0)%Z then raise (HTTPException 400)
  else
    let limit := Z.max 1 (Z.min limit REVIEW_ROW_LIMIT) in
    rd ← _read_rows AUTO_LABELED_CSV_PATH;
    match rd with
    | (None, _, _) => mret (mkPage BASE_CSV_HEADER [] 0 0 limit false false false)
    | (Some header, rows, _) =>
        let total := Z.of_nat (length rows) in
        let page := take (Z.to_nat limit) (drop (Z.to_nat offset) rows) in
        let n := Z.of_nat (length page) in
        mret (mkPage header page total offset limit (0 <? offset)%Z (offset + n <? total)%Z (n <? total)%Z)
    end.

Definition resolve_run (r : AutoLabelRun) : AutoLabelRun :=
  mkAutoLabelRun (al_id r) (al_timestamp r) (al_rows_labeled r) true.

Definition _resolve_all_runs : M World unit :=
  execute;; execute;; modify (upd_db (upd_auto_label_runs (tb_map resolve_run))).

Definition merge_staged_rows : M World nat :=
  if negb training_configured then raise (HTTPException 400)
  else
    rd ← _read_rows AUTO_LABELED_CSV_PATH;
    match rd with
    | (None, _, _) | (Some _, [], _) => raise (HTTPException 400)
    | (Some _, staged_rows, _) =>
        tr ← _read_training_csv TRAINING_CSV_PATH;
        let '(target_header, target_rows) :=
          match tr with (Some h, rows) => (h, rows) | (None, _) => (BASE_CSV_HEADER, []) end in
        _rewrite_csv TRAINING_CSV_PATH target_header (target_rows ++ staged_rows);;
        _rewrite_csv AUTO_LABELED_CSV_PATH BASE_CSV_HEADER [];;
        _resolve_all_runs;;
        mret (length staged_rows)
    end.

Definition discard_staged_rows : M World nat :=
  rd ← _read_rows AUTO_LABELED_CSV_PATH;
  match rd with
  | (None, _, _) | (Some _, [], _) => raise (HTTPException 400)
  | (Some _, staged_rows, _) =>
      _rewrite_csv AUTO_LABELED_CSV_PATH BASE_CSV_HEADER [];;
      _resolve_all_runs;;
      mret (length staged_rows)
  end.

Definition trim_ddos_class : M World (nat * nat * option nat) :=
  if negb training_configured then raise (HTTPException 400)
  else
    tr ← _read_training_csv TRAINING_CSV_PATH;
    match tr with
    | (None, _) | (Some _, []) => raise (HTTPException 400)
    | (Some header, rows) =>
        r ← lift (trim_ddos_sessions shuffle rows);
        let '(trimmed, dropped, cap) := r in
        if bool_decide (dropped = 0%nat) then mret (0%nat, cap, None)
        else
          _rewrite_csv TRAINING_CSV_PATH header trimmed;;
          mret (dropped, cap, Some (length trimmed))
    end.
End review.
