(* ===== verification/AutoLabelFacts.v ===== *)
(** * Properties of automatic labeling

    What it takes for a row to be labeled without a human, that no captured
    row disappears while files are scored, and what merging and balancing keep. *)

From stdpp Require Import pretty.
From Stdlib Require Import SpecFloat.
From S2P Require Import Prelude PyNum PyStr Json World Storage Db Csv Capture AutoLabel.

(** ** Agreement *)

(** [np.argmax] of NaN-free values: in range, and nothing is larger. *)
Lemma argmax_from_spec l i best bv pre :
  (best < i)%nat → length pre = i → pre !! best = Some bv →
  Forall (λ x, is_nan x = false) (pre ++ l) → Forall (λ x, nle x bv = true) pre →
  ∃ v, (pre ++ l) !! argmax_from i best bv l = Some v ∧ Forall (λ x, nle x v = true) (pre ++ l).
Proof.
  revert i best bv pre. induction l as [|x l IH]; intros i best bv pre Hbi Hlen Hbest Hnan Hmax; cbn [argmax_from].
  { rewrite app_nil_r in *. by exists bv. }
  assert (Hbv : is_nan bv = false).
  { eapply Forall_forall in Hnan; [exact Hnan|]. apply elem_of_app. left. by eapply list_elem_of_lookup_2. }
  assert (Hx : is_nan x = false).
  { eapply Forall_forall in Hnan; [exact Hnan|]. apply elem_of_app. right. left. }
  rewrite Hbv, Hx. cbn [orb].
  assert (Happ : pre ++ x :: l = (pre ++ [x]) ++ l) by by rewrite <-app_assoc.
  rewrite Happ in *. destruct (nlt bv x) eqn:Hlt.
  - apply IH; [lia|rewrite length_app; simpl; lia| |done|].
    + rewrite lookup_app_r by lia. by rewrite Hlen, Nat.sub_diag.
    + apply Forall_app. split; [|apply Forall_singleton; by apply nle_refl].
      eapply Forall_impl; [exact Hmax|]. simpl. intros y Hy. eapply nle_trans; [exact Hy|]. by apply nlt_nle.
  - apply IH; [lia|rewrite length_app; simpl; lia| |done|].
    + by apply lookup_app_l_Some.
    + apply Forall_app. split; [done|]. apply Forall_singleton.
      rewrite nlt_nge in Hlt by done. by apply negb_false_iff in Hlt.
Qed.

Lemma argmax_spec l i :
  Forall (λ x, is_nan x = false) l → argmax l = Ok i →
  ∃ v, l !! i = Some v ∧ Forall (λ x, nle x v = true) l.
Proof.
  destruct l as [|x l]; [done|]. intros Hn [= <-].
  apply (argmax_from_spec l 1 0 x [x]); [lia|done..|].
  apply Forall_singleton. apply nle_refl. by apply Forall_cons in Hn as [? _].
Qed.

(** Both models know the same classes in the same order, both put their top
    probability, which reaches the threshold, on the class [c]. *)
Definition agreed (c : Z) (ps : list num) (cs : list Z) (qs : list num) (cs' : list Z) (thr : num) : Prop :=
  cs = cs' ∧ ∃ i p q, cs !! i = Some c ∧ ps !! i = Some p ∧ qs !! i = Some q ∧
    Forall (λ x, nle x p = true) ps ∧ Forall (λ x, nle x q = true) qs ∧
    nle thr p = true ∧ nle thr q = true.

Lemma list_at_ok {A} (l : list A) i x : list_at l i = Ok x → l !! i = Some x.
Proof. unfold list_at. destruct (l !! i); congruence. Qed.

Lemma list_at_some {A} (l : list A) i x : l !! i = Some x → list_at l i = Ok x.
Proof. unfold list_at. by intros ->. Qed.

Lemma decide_label_agreed ps cs qs cs' thr c :
  Forall (λ x, is_nan x = false) ps → Forall (λ x, is_nan x = false) qs → is_nan thr = false →
  decide_label ps cs qs cs' thr = Ok (Some c) → agreed c ps cs qs cs' thr.
Proof.
  intros Hp Hq Ht. unfold decide_label. case_bool_decide as Hcs; cbn [negb]; [subst cs'|done].
  destruct (argmax ps) as [i|] eqn:Hi; cbn [mbind res_bind]; [|done].
  destruct (argmax qs) as [j|] eqn:Hj; cbn [mbind res_bind]; [|done].
  case_bool_decide as Hij; cbn [negb]; [subst j|done].
  destruct (argmax_spec ps i Hp Hi) as (p & Hpi & Hpm). destruct (argmax_spec qs i Hq Hj) as (q & Hqi & Hqm).
  rewrite (list_at_some _ _ _ Hpi). cbn [mbind res_bind]. destruct (nlt p thr) eqn:Hpt; [done|].
  rewrite (list_at_some _ _ _ Hqi). cbn [mbind res_bind]. destruct (nlt q thr) eqn:Hqt; [done|].
  destruct (list_at cs i) as [c'|] eqn:Hc; cbn; [|done]. intros [= <-]. apply list_at_ok in Hc.
  assert (Hnp : is_nan p = false) by (eapply Forall_forall in Hp; [exact Hp|by eapply list_elem_of_lookup_2]).
  assert (Hnq : is_nan q = false) by (eapply Forall_forall in Hq; [exact Hq|by eapply list_elem_of_lookup_2]).
  rewrite nlt_nge, negb_false_iff in Hpt, Hqt by done.
  split; [done|]. by exists i, p, q.
Qed.

(** ** Scoring *)

(** A row that may be labeled: the right shape, old enough, older than both
    models, readable, finite and not an idle window. *)
Definition scorable {E : Env} (header : csv_rowt) (mtimes : list num) (row : csv_rowt) (f : RowFeatures) : Prop :=
  length row = length header ∧
  ∃ ts now, row_timestamp row = Ok ts ∧ nlt (age_hours now ts) (AUTO_LABEL_DELAY_HOURS settings) = false ∧
    Forall (λ m, nlt ts m = true) mtimes ∧
    _row_to_features row header = Ok f ∧ Forall (λ x, is_finite x = true) (feature_values f) ∧
    is_row_degenerate f = false.

Lemma forallb_Forall {A} (p : A → bool) l : forallb p l = true ↔ Forall (λ x, p x = true) l.
Proof.
  rewrite forallb_forall, Forall_forall. split; intros H x Hx; apply H; by apply list_elem_of_In.
Qed.

Lemma classify_row_spec {E : Env} header mtimes row w :
  ∃ c w', classify_row header mtimes row w = (Ok c, w') ∧
    match c with
    | RCorrupt => length row ≠ length header
    | RKeep => True
    | RScore f => scorable header mtimes row f
    end.
Proof.
  unfold classify_row. destruct (length row =? length header)%nat eqn:Hl; cbn [negb].
  2: { apply Nat.eqb_neq in Hl. by eexists _, _. }
  apply Nat.eqb_eq in Hl. destruct (row_timestamp row) as [ts|] eqn:Hts; [|by eexists _, _].
  unfold mbind, M_bind, time_time. set (now := clk (w_ticks w)).
  destruct (is_row_eligible ts mtimes _ now) eqn:Hel; cbn [negb]; [|by eexists _, _].
  destruct (_row_to_features row header) as [f|] eqn:Hf; [|by eexists _, _].
  destruct (forallb is_finite (feature_values f)) eqn:Hfin; cbn [negb]; [|by eexists _, _].
  destruct (is_row_degenerate f) eqn:Hdeg; [by eexists _, _|].
  eexists _, _. split; [done|]. unfold is_row_eligible in Hel.
  destruct (nlt (age_hours now ts) _) eqn:Hage; [done|].
  split; [done|]. exists ts, now. rewrite <-!forallb_Forall. done.
Qed.

(** The first loop sorts every row into exactly one of three groups. *)
Lemma split_rows_spec {E : Env} header mtimes rows w :
  ∃ kept sc corrupt cor w', split_rows header mtimes rows w = (Ok (kept, sc, corrupt), w') ∧
    rows ≡ₚ kept ++ sc.*1 ++ cor ∧ length cor = corrupt ∧
    Forall (λ r, length r ≠ length header) cor ∧ Forall (λ x, scorable header mtimes x.1 x.2) sc.
Proof.
  revert w. induction rows as [|row rows IH]; intros w; cbn [split_rows].
  { by exists [], [], 0%nat, [], w. }
  unfold mbind, M_bind. destruct (classify_row_spec header mtimes row w) as (c & w1 & -> & Hc).
  destruct (IH w1) as (kept & sc & corrupt & cor & w2 & -> & Hperm & Hcor & Hbad & Hsc).
  destruct c as [| |f].
  - exists kept, sc, (S corrupt), (row :: cor), w2. split_and!; [done| |simpl; by rewrite Hcor|by constructor|done].
    rewrite Hperm, !app_assoc. apply Permutation_middle.
  - exists (row :: kept), sc, corrupt, cor, w2. split_and!; try done. simpl. by rewrite Hperm.
  - exists kept, ((row, f) :: sc), corrupt, cor, w2. split_and!; try done; [|by constructor].
    simpl. rewrite Hperm. apply Permutation_middle.
Qed.

(** A labeled row and the captured row it comes from. *)
Definition labeled_from {E : Env} (clf second : ProbaModel) (ps qs : list num) (row lrow : csv_rowt) : Prop :=
  ∃ c, decide_label ps (pm_classes clf) qs (pm_classes second) (AUTO_LABEL_CONFIDENCE_THRESHOLD settings)
         = Ok (Some c) ∧ label_row row c = Ok lrow.

Lemma label_rows_spec {E : Env} clf second sc ps qs kept labeled :
  length ps = length sc → length qs = length sc →
  label_rows clf second sc ps qs = Ok (kept, labeled) →
  ∃ lab, sc.*1 ≡ₚ kept ++ lab ∧
    Forall2 (λ row lrow, ∃ f p q, (row, f) ∈ sc ∧ p ∈ ps ∧ q ∈ qs ∧ labeled_from clf second p q row lrow) lab labeled.
Proof.
  revert ps qs kept labeled.
  induction sc as [|[row f] sc IH]; intros [|p ps] [|q qs] kept labeled Hp Hq; try done.
  { intros [= <- <-]. by exists []. }
  cbn [label_rows]. destruct (decide_label p _ q _ _) as [l|] eqn:Hl; cbn [mbind res_bind]; [|done].
  destruct (match l with None => _ | Some _ => _ end) as [staged|] eqn:Hst; cbn [mbind res_bind]; [|done].
  destruct (label_rows clf second sc ps qs) as [[kept' labeled']|] eqn:Hr; cbn [mbind res_bind]; [|done].
  destruct (IH ps qs kept' labeled') as (lab & Hperm & HF); [simpl in *; lia..|done|].
  assert (HF' : Forall2 (λ row0 lrow, ∃ f0 p0 q0, (row0, f0) ∈ (row, f) :: sc ∧ p0 ∈ p :: ps ∧ q0 ∈ q :: qs ∧
                          labeled_from clf second p0 q0 row0 lrow) lab labeled').
  { eapply Forall2_impl; [exact HF|]. intros r lr (f0 & p0 & q0 & ? & ? & ? & ?).
    exists f0, p0, q0. split_and!; try (by right); done. }
  destruct staged as [lr|]; intros [= <- <-].
  - exists (row :: lab). split; [simpl; rewrite Hperm; apply Permutation_middle|].
    constructor; [|done]. destruct l as [c|]; [|done]. cbn [mbind res_bind] in Hst.
    destruct (label_row row c) as [lr'|] eqn:Hlr; [|done]. cbn in Hst. simplify_eq.
    exists f, p, q. split_and!; [left|left|left|by exists c].
  - exists lab. split; [simpl; by rewrite Hperm|done].
Qed.

(** A classifier as scikit-learn documents it: one probability row per input
    row, without NaN. *)
Definition well_behaved (m : ProbaModel) : Prop :=
  ∀ df ps, pm_predict_proba m df = Ok ps →
           length ps = length df ∧ Forall (Forall (λ x, is_nan x = false)) ps.

(** A row labeled by two models that agree, and its labeled copy. *)
Definition rightly_labeled {E : Env} (clf second : ProbaModel) (header : csv_rowt) (mtimes : list num)
    (row lrow : csv_rowt) : Prop :=
  ∃ f c ps qs, scorable header mtimes row f ∧
    agreed c ps (pm_classes clf) qs (pm_classes second) (AUTO_LABEL_CONFIDENCE_THRESHOLD settings) ∧
    label_row row c = Ok lrow.

Section scoring.
Context {E : Env} (clf second : ProbaModel) (Hclf : well_behaved clf) (Hsecond : well_behaved second).
Hypothesis threshold_num : is_nan (AUTO_LABEL_CONFIDENCE_THRESHOLD settings) = false.

Lemma score_rows_spec rows header mtimes w kept labeled corrupt w' :
  _score_rows rows header clf second mtimes w = (Ok (kept, labeled, corrupt), w') →
  ∃ lab cor, rows ≡ₚ kept ++ lab ++ cor ∧ length cor = corrupt ∧
    Forall (λ r, length r ≠ length header) cor ∧
    Forall2 (rightly_labeled clf second header mtimes) lab labeled.
Proof using Hclf Hsecond threshold_num.
  unfold _score_rows, mbind at 1, M_bind at 1.
  destruct (split_rows_spec header mtimes rows w) as (kept0 & sc & n & cor & w1 & -> & Hperm & Hn & Hbad & Hsc).
  assert (Hdec : sc = [] ∨ sc ≠ []) by (destruct sc; [by left|by right]).
  destruct Hdec as [->|Hne].
  { intros [= <- <- <- <-]. exists [], cor. by rewrite Hperm. }
  replace (match sc with [] => _ | _ :: _ => _ end) with (
    let df := (λ x, feature_values x.2) <$> sc in
    ps ← lift (pm_predict_proba clf df);
    qs ← lift (pm_predict_proba second df);
    r ← lift (label_rows clf second sc ps qs);
    (mret (kept0 ++ r.1, r.2, n) : M World _)) by by destruct sc. cbv zeta.
  unfold lift, mbind, M_bind.
  destruct (pm_predict_proba clf _) as [ps|] eqn:Hps; [|done].
  destruct (pm_predict_proba second _) as [qs|] eqn:Hqs; [|done].
  destruct (label_rows clf second sc ps qs) as [[kept1 lab1]|] eqn:Hl; [|done].
  intros [= <- <- <- <-].
  apply Hclf in Hps as [Hpl Hpn]. apply Hsecond in Hqs as [Hql Hqn]. rewrite length_fmap in Hpl, Hql.
  apply label_rows_spec in Hl as (lab & Hsplit & HF); [|done..].
  exists lab, cor. simpl. split_and!; try done.
  - rewrite Hperm, Hsplit. by rewrite <-!app_assoc.
  - eapply Forall2_impl; [exact HF|]. intros row lrow (f & p & q & Hin & Hp & Hq & c & Hd & Hrow).
    exists f, c, p, q. split_and!; [by apply (proj1 (Forall_forall _ _) Hsc (row, f))| |done].
    apply decide_label_agreed; [by apply (proj1 (Forall_forall _ _) Hpn)|
      by apply (proj1 (Forall_forall _ _) Hqn)|done|done].
Qed.
End scoring.


(** ** Trimming to the cap *)

Lemma trim_csv_rows_spec rows n :
  Forall (λ r, is_nan (_sort_key r) = false) rows →
  ∃ gone, rows ≡ₚ gone ++ (trim_csv_rows rows n).1 ∧
    (trim_csv_rows rows n).2 = length gone ∧
    length (trim_csv_rows rows n).1 = Nat.min n (length rows) ∧
    (∀ a b, a ∈ gone → b ∈ (trim_csv_rows rows n).1 → nlt (_sort_key b) (_sort_key a) = false).
Proof.
  intros Hnan. unfold trim_csv_rows. destruct (length rows <=? n)%nat eqn:Hle.
  { apply Nat.leb_le in Hle. exists []. split_and!; [done|done|simpl; lia|]. by intros ? ? []%elem_of_nil. }
  apply Nat.leb_gt in Hle. cbn [fst snd]. rewrite py_sort_length.
  set (k := (length rows - n)%nat). exists (take k (py_sort older rows)).
  assert (Hs : StronglySorted (py_le older) (py_sort older rows)).
  { apply (py_sort_sorted older (λ r, is_nan (_sort_key r) = false)); [| |done].
    - intros x y _ _. unfold older. apply nlt_asym.
    - intros x y z Hx Hy Hz. unfold py_le, older. rewrite !nlt_nge, !negb_false_iff by done.
      intros Hxy Hyz. by eapply nle_trans. }
  split_and!.
  - rewrite take_drop. by rewrite py_sort_perm.
  - rewrite length_take, py_sort_length. lia.
  - rewrite length_drop, py_sort_length. lia.
  - intros a b Ha Hb. rewrite <-(take_drop k (py_sort older rows)) in Hs.
    clear -Hs Ha Hb. induction (take k (py_sort older rows)) as [|z l IH]; [by apply elem_of_nil in Ha|].
    simpl in Hs. apply StronglySorted_inv in Hs as [Hs Hz].
    apply elem_of_cons in Ha as [->|Ha]; [|by apply IH].
    eapply Forall_forall in Hz; [exact Hz|]. apply elem_of_app. by right.
Qed.

(** ** Files while they are scored *)

Lemma substring_all s : String.substring 0 (String.length s) s = s.
Proof. induction s as [|c s IH]; [done|]. simpl. by rewrite IH. Qed.

Lemma substring_app a b :
  String.substring (String.length a) (String.length (a ^^ b) - String.length a) (a ^^ b) = b.
Proof.
  induction a as [|c a IH]; [|exact IH].
  change (String.substring 0 (String.length b - 0) b = b). rewrite Nat.sub_0_r. apply substring_all.
Qed.

(** The receiver appending rows to a capture file. *)
Definition receiver_appends (p : path) (new : list csv_rowt) : M World unit :=
  modify (λ w, publish_csv p (default EmptyString (w_csv w !! p) ^^ csv_rows new) w).

Section files.
Context {E : Env}.
Hypothesis disk_ok : ∀ n, io_ok n = true.

Lemma open_csv_runs p t w :
  w_csv w !! p = Some t → runs (open_csv p) w (λ t' w', t' = t ∧ w' = tick w).
Proof using disk_ok.
  intros Hp. exists t, (tick w). split; [|done]. unfold open_csv, io, gets, mbind, M_bind. simpl.
  rewrite csv_tick, Hp, disk_ok. done.
Qed.

Lemma rewrite_csv_runs p h rows w :
  p ∉ w_tmp w →
  runs (_rewrite_csv p h rows) w (λ _ w',
    w_csv w' = <[p := csv_rows (h :: rows)]> (w_csv w) ∧ w_tmp w' = w_tmp w ∧ w_db w' = w_db w).
Proof using disk_ok.
  intros Hp. unfold _rewrite_csv.
  eapply runs_impl; [by apply _atomic_write_runs|]. intros [] w' [n ->]. by destruct w.
Qed.

Lemma append_labeled_runs p row w :
  runs (_append_labeled_row p row) w (λ _ w',
    w_csv w' = <[p := default (csv_row BASE_CSV_HEADER) (w_csv w !! p) ^^ csv_row row]> (w_csv w) ∧
    w_tmp w' = w_tmp w).
Proof using disk_ok.
  unfold _append_labeled_row. apply runs_bind, runs_gets, runs_bind. unfold append_text.
  apply runs_bind. exists true, (tick w). split; [unfold io; by rewrite disk_ok|]. cbn [negb].
  apply runs_bind, runs_gets, runs_bind. exists true, (tick (tick w)). split; [unfold io; by rewrite disk_ok|].
  apply runs_bind, runs_gets, runs_bind, runs_modify, runs_ret, runs_ret.
  destruct w. simpl. split; [|done]. by destruct (w_csv !! p).
Qed.

Lemma append_all_runs p q rows w :
  p ≠ q →
  runs (for_each rows (_append_labeled_row q)) w (λ _ w',
    w_csv w' !! p = w_csv w !! p ∧ w_tmp w' = w_tmp w ∧
    w_csv w' !! q = match rows with
                    | [] => w_csv w !! q
                    | _ => Some (default (csv_row BASE_CSV_HEADER) (w_csv w !! q) ^^ csv_rows rows)
                    end).
Proof using disk_ok.
  intros Hpq. revert w. induction rows as [|r rows IH]; intros w; cbn [for_each]; [by apply runs_ret|].
  apply runs_bind. eapply runs_impl; [apply append_labeled_runs|]. intros [] w1 [Hc1 Ht1].
  eapply runs_impl; [apply IH|]. intros [] w2 (H1 & H2 & H3).
  rewrite H1, H2, H3, Hc1, Ht1, lookup_insert_ne, lookup_insert_eq by done. split_and!; [done|done|].
  change (csv_rows (r :: rows)) with (csv_row r ^^ csv_rows rows). rewrite <-str_app_assoc.
  destruct rows; [by rewrite (str_app_nil (_ ^^ _))|done].
Qed.

(** Scoring reads the clock and nothing else. *)
Lemma split_rows_frame header mtimes rows w o w' :
  split_rows header mtimes rows w = (o, w') → w_csv w' = w_csv w ∧ w_tmp w' = w_tmp w.
Proof using E.
  intros H. assert (Hp : pres (λ u, w_csv u = w_csv w ∧ w_tmp u = w_tmp w) (split_rows header mtimes rows)).
  { clear H. induction rows as [|r rows IH]; cbn [split_rows]; pres_auto.
    unfold classify_row. repeat case_match; pres_auto; by intros []. }
  specialize (Hp w (conj eq_refl eq_refl)). by rewrite H in Hp.
Qed.

Lemma score_rows_frame rows header clf second mtimes w o w' :
  _score_rows rows header clf second mtimes w = (o, w') → w_csv w' = w_csv w ∧ w_tmp w' = w_tmp w.
Proof using E.
  unfold _score_rows, mbind at 1, M_bind at 1.
  destruct (split_rows header mtimes rows w) as [[[[kept sc] n]|] w1] eqn:Hs; apply split_rows_frame in Hs.
  - intros H. assert (w' = w1) as ->; [|done]. revert H. unfold lift, mbind, M_bind.
    destruct sc as [|x sc]; [by intros [= _ <-]|].
    destruct (pm_predict_proba clf _); [|by intros [= _ <-]].
    destruct (pm_predict_proba second _); [|by intros [= _ <-]].
    destruct (label_rows _ _ _ _ _); by intros [= _ <-].
  - by intros [= <- <-].
Qed.

Lemma read_appended_runs p t new w :
  w_csv w !! p = Some (t ^^ csv_rows new) → Forall (λ r, r ≠ []) new →
  runs (_read_appended_rows p (String.length t)) w (λ a w', a = Some new ∧ w' = tick w).
Proof using disk_ok.
  intros Hp Hnew. unfold _read_appended_rows. apply runs_bind, runs_gets. rewrite Hp.
  destruct (String.length (t ^^ csv_rows new) <? String.length t)%nat eqn:Hl.
  { apply Nat.ltb_lt in Hl. rewrite length_app_str in Hl. lia. }
  apply runs_bind. eapply runs_impl; [by apply open_csv_runs|]. intros t' w' [-> ->].
  apply runs_ret. split; [|done]. by rewrite substring_app, read_rows.
Qed.
End files.


(** ** Two ways to lose captured rows *)

(** Without models the file is trimmed without taking the lock: a row the
    receiver appends between the read and the rewrite is gone. *)
Theorem trim_only_loses_appended {E : Env} p w text header rows new :
  (∀ n, io_ok n = true) → p ∉ w_tmp w →
  w_csv w !! p = Some text → csv_reader text = header :: rows → header ≠ [] →
  (max_queue < length rows)%nat →
  Forall (λ r, r ≠ []) (drop (length rows - max_queue) rows) →
  runs (_trim_capture_file_only (receiver_appends p new) p) w (λ _ w',
    ∃ text', w_csv w' !! p = Some text' ∧
             csv_reader text' = header :: drop (length rows - max_queue) rows).
Proof.
  intros Hio Htmp Hp Hread Hh Hlen Hrows. unfold _trim_capture_file_only.
  apply runs_bind. unfold _read_rows. apply runs_bind, runs_gets. rewrite Hp.
  apply runs_bind. eapply runs_impl; [by apply open_csv_runs|]. intros t w0 [-> ->].
  rewrite Hread. apply runs_ret. set (rs := drop _ rows) in *.
  assert (Hrs : length rs = max_queue) by (subst rs; rewrite length_drop; lia).
  unfold trim_csv_rows. assert ((length rs <=? max_queue)%nat = true) as -> by (apply Nat.leb_le; lia).
  assert ((max_queue <? length rows)%nat = true) as -> by (apply Nat.ltb_lt; lia).
  rewrite orb_true_r. cbn [when]. apply runs_bind, runs_modify, runs_bind.
  eapply runs_impl; [apply (rewrite_csv_runs Hio); by destruct w|].
  intros [] w2 (Hc & _). apply runs_ret. eexists. rewrite Hc, lookup_insert_eq. split; [done|].
  apply read_rows. by constructor.
Qed.

(** A labeled row that cannot be staged is removed from the capture file all the
    same: the error is swallowed where it happens, and the run counts it. *)
Definition stage_fails : Env :=
  mkEnv (λ _, NInt 10000000) (λ _ _ _, PDone 0 "") (λ n, negb (n =? 3)%nat) (λ _, 0%nat) default_settings.

Definition sure_model : ProbaModel :=
  mkModel [0; 1; 2]%Z (λ df, Ok ((λ _, [flt 5 100; flt 95 100; flt 0 1]) <$> df)).

Definition captured_row : csv_rowt :=
  ["1.5"; "20.0"; "1.5"; "20.0"; "0.1"; "2.0"; "0.9"; "0.2"; "3.0"; "4.0"; "5.0"; "1000.000"; ""]%string.

Definition capture_world : World :=
  set_csv {[PRETRAINING_CSV_PATH := csv_rows [BASE_CSV_HEADER; captured_row]]} empty_world.

(** A labeled row that cannot be staged is removed from the capture file all the same, and the run counts it as labeled. *)
Theorem staged_row_lost :
  let r := @_process_capture_file stage_fails (mret tt) PRETRAINING_CSV_PATH sure_model sure_model
             [NInt 9000000; NInt 9000000] AUTO_LABELED_CSV_PATH capture_world in
  r.1 = Ok 1%nat ∧ w_csv r.2 !! AUTO_LABELED_CSV_PATH = None ∧
  csv_reader (default EmptyString (w_csv r.2 !! PRETRAINING_CSV_PATH)) = [BASE_CSV_HEADER].
Proof. vm_compute. done. Qed.

(** ** Merging *)

(** Merging appends the staged rows to the training rows, in order, empties the
    staging file and resolves every run. Only the newest [max_queue] staged rows
    take part: what the bounded read left out is dropped with the rest. *)
Theorem merge_appends {E : Env} w text header (staged target : list csv_rowt) thead ttext :
  (∀ n, io_ok n = true) → TRAINING_CSV_PATH ∉ w_tmp w → AUTO_LABELED_CSV_PATH ∉ w_tmp w →
  w_csv w !! AUTO_LABELED_CSV_PATH = Some text → csv_reader text = header :: staged →
  staged ≠ [] → (0 < max_queue)%nat →
  w_csv w !! TRAINING_CSV_PATH = Some ttext → csv_reader ttext = thead :: target →
  Forall (λ r, r ≠ []) (thead :: target) → Forall (λ r, r ≠ []) staged →
  let merged := drop (length staged - max_queue) staged in
  runs (merge_staged_rows true) w (λ n w',
    n = length merged ∧
    (∃ t, w_csv w' !! TRAINING_CSV_PATH = Some t ∧ csv_reader t = thead :: target ++ merged) ∧
    (∃ t, w_csv w' !! AUTO_LABELED_CSV_PATH = Some t ∧ csv_reader t = [BASE_CSV_HEADER]) ∧
    Forall (λ r, al_resolved r = true) (tb_rows (db_auto_label_runs (w_db w')))).
Proof.
  intros Hio Ht1 Ht2 Hs Hsr Hne Hpos Htr Htrr HFt HFs merged. unfold merge_staged_rows. cbn [negb].
  apply runs_bind. unfold _read_rows. apply runs_bind, runs_gets. rewrite Hs.
  apply runs_bind. eapply runs_impl; [by apply open_csv_runs|]. intros t w0 [-> ->].
  rewrite Hsr. apply runs_ret. fold merged.
  assert (Hm : merged ≠ []).
  { intros H%(f_equal length). subst merged. rewrite length_drop in H. simpl in H.
    destruct staged; [done|]. simpl in H. lia. }
  destruct merged as [|m ms] eqn:Em; [done|]. rewrite <-Em.
  apply runs_bind. unfold _read_training_csv. apply runs_bind, runs_gets. rewrite csv_tick, Htr.
  apply runs_bind. eapply runs_impl; [apply open_csv_runs; [done|by rewrite csv_tick]|].
  intros t w1 [-> ->]. rewrite Htrr. apply runs_ret. cbv beta iota.
  assert (HFm : Forall (λ r, r ≠ []) merged) by by apply Forall_drop.
  apply runs_bind. eapply runs_impl; [apply (rewrite_csv_runs Hio); by destruct w|].
  intros [] w2 (Hc2 & Htm2 & Hd2). apply runs_bind.
  eapply runs_impl; [apply (rewrite_csv_runs Hio); rewrite Htm2; by destruct w|].
  intros [] w3 (Hc3 & Htm3 & Hd3). apply runs_bind. unfold _resolve_all_runs, execute.
  apply runs_bind, runs_bind. exists true, (tick w3). split; [unfold io; by rewrite Hio|]. apply runs_ret.
  apply runs_bind, runs_bind. exists true, (tick (tick w3)). split; [unfold io; by rewrite Hio|]. apply runs_ret.
  apply runs_modify, runs_ret. split; [done|].
  assert (Hc : w_csv (upd_db (upd_auto_label_runs (tb_map resolve_run)) (tick (tick w3))) = w_csv w3)
    by by destruct w3. rewrite Hc, Hc3. split_and!.
  - rewrite lookup_insert_ne by done. rewrite Hc2, lookup_insert_eq. eexists. split; [done|].
    apply Forall_cons in HFt as [? ?]. apply read_rows. constructor; [done|]. by apply Forall_app.
  - rewrite lookup_insert_eq. eexists. split; [done|]. by apply read_rows; repeat constructor.
  - destruct w3 as [? ? ? ? ? []]. simpl. apply Forall_fmap, Forall_true. by intros [].
Qed.

(** ** Balancing the DDoS class *)

Lemma stamp_rows_rows rows l : stamp_rows rows = Ok l → l.*2 = rows.
Proof.
  revert l. induction rows as [|r rows IH]; intros l; cbn [stamp_rows]; [by intros [= <-]|].
  destruct (row_timestamp r); cbn; [|done]. destruct (stamp_rows rows); cbn; [|done].
  intros [= <-]. simpl. by rewrite IH.
Qed.

Lemma tag_sessions_rows prev sid rows l : tag_sessions prev sid rows = Ok l → l.*1 = rows.*2.
Proof.
  revert prev sid l. induction rows as [|[t r] rows IH]; intros prev sid l; cbn [tag_sessions]; [by intros [= <-]|].
  destruct (list_at r LABEL_COL); cbn [mbind res_bind]; [|done].
  destruct (tag_sessions _ _ rows) eqn:Ht; cbn [mbind res_bind]; [|done].
  intros [= <-]. simpl. f_equal. by eapply IH.
Qed.

Lemma assign_sessions_perm rows tagged : _assign_sessions rows = Ok tagged → tagged.*1 ≡ₚ rows.
Proof.
  unfold _assign_sessions. destruct (stamp_rows rows) as [st|] eqn:Hs; cbn [mbind res_bind]; [|done].
  intros Ht%tag_sessions_rows. rewrite Ht, (fmap_Permutation snd _ _ (py_sort_perm _ st)).
  by rewrite (stamp_rows_rows _ _ Hs).
Qed.

Lemma session_ids_NoDup tagged : NoDup (session_ids tagged).
Proof.
  assert (Hgen : ∀ ids, NoDup ids → NoDup (foldl (λ ids rs,
      if is_ddos_row rs.1 && negb (bool_decide (rs.2 ∈ ids)) then ids ++ [rs.2] else ids) ids tagged));
    [|apply Hgen; constructor].
  induction tagged as [|[r s] tagged IH]; intros ids H; simpl; [done|]. apply IH.
  destruct (is_ddos_row r); simpl; [|done]. case_bool_decide; simpl; [done|].
  apply NoDup_app. split_and!; [done| |apply NoDup_singleton]. by intros x Hx ->%list_elem_of_singleton.
Qed.

(** DDoS rows of the sessions in [kept]. *)
Definition kept_rows (tagged : list (csv_rowt * Z)) (kept : gset Z) : nat :=
  length (List.filter (λ rs, is_ddos_row rs.1 && bool_decide (rs.2 ∈ kept)) tagged).

Lemma kept_rows_add tagged kept sid :
  sid ∉ kept → kept_rows tagged ({[sid]} ∪ kept) = (kept_rows tagged kept + session_size tagged sid)%nat.
Proof.
  intros Hs. unfold kept_rows, session_size. induction tagged as [|[r s] tagged IH]; [done|].
  cbn [List.filter fst snd]. destruct (is_ddos_row r); cbn [andb fst snd]; [|exact IH].
  destruct (decide (s = sid)) as [->|Hne].
  - rewrite (bool_decide_eq_true_2 (sid ∈ {[sid]} ∪ kept)) by set_solver.
    rewrite (bool_decide_eq_false_2 (sid ∈ kept)) by done. rewrite (bool_decide_eq_true_2 (sid = sid)) by done.
    cbn [length]. lia.
  - rewrite (bool_decide_ext (s ∈ {[sid]} ∪ kept) (s ∈ kept)) by set_solver.
    rewrite (bool_decide_eq_false_2 (s = sid)) by done. case_bool_decide; cbn [length]; lia.
Qed.

Lemma choose_sessions_spec tagged cap ids kept n kept' n' :
  NoDup ids → (∀ s, s ∈ ids → s ∉ kept) → n = kept_rows tagged kept → (n ≤ cap)%nat →
  choose_sessions tagged cap ids kept n = (kept', n') →
  n' = kept_rows tagged kept' ∧ (n' ≤ cap)%nat.
Proof.
  revert kept n. induction ids as [|sid ids IH]; intros kept n Hnd Hdis Hn Hle; cbn [choose_sessions].
  { by intros [= <- <-]. }
  apply NoDup_cons in Hnd as [Hsid Hnd].
  destruct (n + session_size tagged sid <=? cap)%nat eqn:Hfit.
  - apply Nat.leb_le in Hfit. apply IH; [done| | |done].
    + intros s Hs. assert (s ∉ kept) by (apply Hdis; by right). set_solver.
    + rewrite kept_rows_add; [by subst|]. apply Hdis. left.
  - apply IH; try done. intros s Hs. apply Hdis. by right.
Qed.

Lemma count_label_perm l a b : a ≡ₚ b → count_label l a = count_label l b.
Proof.
  intros H. unfold count_label. induction H as [|x a b _ IH|x y a|]; simpl; repeat case_match; simpl; congruence.
Qed.

Lemma filter_fst_length {A B} (f : A → bool) (g : A * B → bool) l :
  length (List.filter f (List.filter g l).*1) = length (List.filter (λ x, f x.1 && g x) l).
Proof.
  induction l as [|[a b] l IH]; [done|]. cbn [List.filter]. destruct (g (a, b)); cbn [fst].
  - rewrite fmap_cons. cbn [List.filter fst]. destruct (f a); cbn [andb length]; by rewrite IH.
  - rewrite andb_false_r. exact IH.
Qed.

(** Balancing never touches Normal or Flash Crowd rows, leaves at most as many
    DDoS rows as the smaller of those classes has, drops whole sessions only
    (some rows of a session are kept exactly if all its DDoS rows are), and
    counts what it dropped. *)
Theorem trim_ddos_spec shuffle rows result dropped cap :
  (∀ l : list Z, shuffle l ≡ₚ l) →
  trim_ddos_sessions shuffle rows = Ok (result, dropped, cap) →
  cap = Nat.min (count_label NORMAL rows) (count_label FLASH_CROWD rows) ∧
  (count_label DDOS result ≤ cap)%nat ∧
  (count_label DDOS result + dropped = count_label DDOS rows)%nat ∧
  ((result = rows ∧ dropped = 0%nat) ∨
   ∃ tagged kept, _assign_sessions rows = Ok tagged ∧ tagged.*1 ≡ₚ rows ∧
     result = (List.filter (λ rs, negb (is_ddos_row rs.1) || bool_decide (rs.2 ∈ (kept : gset Z))) tagged).*1).
Proof.
  intros Hsh. unfold trim_ddos_sessions. destruct (labels_present rows); cbn [mbind res_bind]; [|done].
  set (c := Nat.min _ _). destruct (count_label DDOS rows <=? c)%nat eqn:Hle.
  { intros [= <- <- <-]. apply Nat.leb_le in Hle. split_and!; [done|done|lia|by left]. }
  destruct (_assign_sessions rows) as [tagged|] eqn:Ht; cbn [mbind res_bind]; [|done].
  destruct (choose_sessions tagged c (shuffle (session_ids tagged)) ∅ 0) as [kept n] eqn:Hch.
  intros [= <- <- <-]. pose proof (assign_sessions_perm _ _ Ht) as Hperm.
  apply choose_sessions_spec in Hch as [Hn Hcap];
    [|rewrite Hsh; apply session_ids_NoDup|intros; apply not_elem_of_empty| |lia].
  2: { unfold kept_rows. clear. induction tagged as [|[r s] tagged IH]; [done|]. cbn [List.filter].
       rewrite bool_decide_eq_false_2, andb_false_r by apply not_elem_of_empty. done. }
  assert (Hcount : count_label DDOS
    (List.filter (λ rs, negb (is_ddos_row rs.1) || bool_decide (rs.2 ∈ kept)) tagged).*1 = n).
  { unfold count_label. rewrite filter_fst_length, Hn. unfold kept_rows. f_equal.
    apply filter_ext. intros [r s]. unfold is_ddos_row. simpl. by destruct (bool_decide (r !! LABEL_COL = _)). }
  rewrite Hcount. split_and!; [done|done| |right; by exists tagged, kept].
  enough (n ≤ count_label DDOS rows)%nat by lia.
  rewrite Hn, <-(count_label_perm _ _ _ Hperm). unfold kept_rows, count_label. clear.
  induction tagged as [|[r s] tagged IH]; [done|]. rewrite fmap_cons. cbn [List.filter fst].
  fold (is_ddos_row r). destruct (is_ddos_row r); cbn [andb]; [|done].
  case_bool_decide; cbn [length]; lia.
Qed.

(** ** Concrete cases *)

Definition later_env : Env :=
  mkEnv (λ _, NInt 10000000) (λ _ _ _, PDone 0 EmptyString) (λ _, true) (λ _, 0%nat) default_settings.
Definition score_result :=
  @_score_rows later_env [captured_row] BASE_CSV_HEADER sure_model sure_model [NInt 9000000] (tick capture_world).
Definition labeled_row : csv_rowt := take LABEL_COL captured_row ++ ["1"%string].

Lemma sure_model_ok : well_behaved sure_model.
Proof.
  intros df ps [= <-]. rewrite length_fmap. split; [done|]. apply Forall_fmap, Forall_true. intros ?.
  repeat constructor.
Qed.


Definition late_row : csv_rowt := ["appended"%string].


(** A queue of one row. *)
Definition short_env : Env :=
  mkEnv (λ _, NInt 10000000) (λ _ _ _, PDone 0 EmptyString) (λ _, true) (λ _, 0%nat)
    (mkSettings "stage2.db" (flt 30 1) (flt 1 1) 5000 52428800 (flt 30 1) (flt 24 1) (flt 9 10) 1).
Definition two_rows_world : World :=
  set_csv {[PRETRAINING_CSV_PATH := csv_rows [BASE_CSV_HEADER; captured_row; labeled_row]]} empty_world.

Lemma trim_only_loses_appended_witness :
  runs (@_trim_capture_file_only short_env (receiver_appends PRETRAINING_CSV_PATH [late_row])
          PRETRAINING_CSV_PATH) two_rows_world
    (λ _ w', ∃ text', w_csv w' !! PRETRAINING_CSV_PATH = Some text' ∧
                      csv_reader text' = BASE_CSV_HEADER :: [labeled_row]).
Proof.
  eapply (@trim_only_loses_appended short_env PRETRAINING_CSV_PATH two_rows_world _ BASE_CSV_HEADER
            [captured_row; labeled_row] [late_row]);
    [done|done|reflexivity|vm_compute; reflexivity|done|apply Nat.lt_1_2|by repeat constructor].
Defined.

Definition staged_world : World :=
  set_csv {[AUTO_LABELED_CSV_PATH := csv_rows [BASE_CSV_HEADER; labeled_row];
            TRAINING_CSV_PATH := csv_rows [BASE_CSV_HEADER; captured_row]]} empty_world.

Lemma merge_appends_witness :
  runs (@merge_staged_rows later_env true) staged_world (λ n w',
    n = length (drop (1 - @max_queue later_env) [labeled_row]) ∧
    (∃ t, w_csv w' !! TRAINING_CSV_PATH = Some t ∧
          csv_reader t = BASE_CSV_HEADER :: [captured_row] ++ drop (1 - @max_queue later_env) [labeled_row]) ∧
    (∃ t, w_csv w' !! AUTO_LABELED_CSV_PATH = Some t ∧ csv_reader t = [BASE_CSV_HEADER]) ∧
    Forall (λ r, al_resolved r = true) (tb_rows (db_auto_label_runs (w_db w')))).
Proof.
  eapply (@merge_appends later_env staged_world _ BASE_CSV_HEADER [labeled_row] [captured_row] BASE_CSV_HEADER);
    [done|done|done|reflexivity|vm_compute; reflexivity|done|apply Nat.lt_0_succ|reflexivity|
     vm_compute; reflexivity|by repeat constructor|by repeat constructor].
Defined.

Definition stamped_row (ts l : string) : csv_rowt := replicate TIMESTAMP_COL "0"%string ++ [ts; l].
Definition balance_rows : list csv_rowt :=
  [stamped_row "1.0" "0"; stamped_row "2.0" "1"; stamped_row "10.0" "2"; stamped_row "100.0" "2"].

Lemma trim_ddos_spec_witness :
  let r := trim_ddos_sessions id balance_rows in
  ∃ result dropped cap, r = Ok (result, dropped, cap) ∧ (count_label DDOS result ≤ cap)%nat ∧
    (count_label DDOS result + dropped = count_label DDOS balance_rows)%nat.
Proof.
  intros r. assert (Hr : r = Ok (take 3 balance_rows, 1%nat, 1%nat)) by (vm_compute; reflexivity).
  destruct (trim_ddos_spec id balance_rows (take 3 balance_rows) 1 1 (λ l, Permutation_refl l) Hr)
    as (_ & H1 & H2 & _).
  exact (ex_intro _ _ (ex_intro _ _ (ex_intro _ _ (conj Hr (conj H1 H2))))).
Defined.
