(* ===== verification/System.v ===== *)
(** * The receiver and the dashboard together

    Windows from Stage 1 and requests of operators, in any order, on one
    process: what an operator has listed stays protected from whatever comes
    after, until somebody removes it. Each operation is one step; it may raise,
    and what it did before raising stays. The operations are the set-up, a
    window, the poll, and every route that changes the state; sending a test
    alert only talks to the channels, and the other routes only read. *)

From S2P Require Import Prelude PyNum PyStr Json World Storage Config Alerts Db Enforcement.
From S2P Require Import EnforcementFacts Playbooks PlaybooksFacts Latency Wire Csv Capture Receiver ReceiverFacts.
From S2P Require Import IpText IpAddr Models Api ApiFacts PlaybooksApi AlertSend Auth AutoLabel.

(** ** Operations

    [Setup] and [ReceiveWindow] are what [main] starts; the others are the
    handlers of the registered routers, with their parsed arguments. *)

Inductive op :=
  | Setup
  | ReceiveWindow (data : list Z)
  | AddWhitelist (p : IpPayload) | DeleteWhitelist (ip : string)
  | AddShared (p : IpPayload) | DeleteShared (ip : string)
  | AddVictim (p : VictimPayload) | DeleteVictim (ip : string) | ToggleVictim (ip : string)
  | Block (p : IpPayload) | Unblock (p : IpPayload)
  | SaveSettings (p : EnforcementConfigPayload) | SaveAlerts (p : AlertsConfigPayload)
  | PostPlaybook (p : PlaybookPayload) | PutPlaybook (i : Z) (p : PlaybookPayload)
  | TogglePlaybook (i : Z) (l : list (string * json)) | DeletePlaybook (i : Z)
  | Login (rq : Request) (username password : string) | Logout (rq : Request)
  | CreateUser (rq : Request) (username password admin_password : string)
  | DeleteUser (rq : Request) (username admin_password : string)
  | SetPassword (rq : Request) (username password admin_password : string)
  | MergeStaged | DiscardStaged | TrimDdos
  | Poll (target : option string) (interfaces : list json) (unit_file : option (list string)).

Section system.
Context {E : Env}.
Context (clf : option RandomForest) (if_clf : option IsolationForest) (mean : list num → num).
Context (checkpw : string → string → res bool) (hashpw : nat → string → string) (token : nat → string).
Context (training_configured : bool) (shuffle : list Z → list Z).

(** An answer, or an error the caller gets and the process survives. *)
Definition answer {A} (m : M World A) : M World unit := try_all (m;; mret tt) (mret tt).

Definition run_op (o : op) : M World unit :=
  match o with
  | Setup => setup_ipset
  | ReceiveWindow data => answer (process_window clf if_clf mean data)
  | AddWhitelist p => answer (add_whitelist p)
  | DeleteWhitelist ip => answer (delete_whitelist ip)
  | AddShared p => answer (add_shared_ip p)
  | DeleteShared ip => answer (delete_shared_ip ip)
  | AddVictim p => answer (add_victim p)
  | DeleteVictim ip => answer (delete_victim ip)
  | ToggleVictim ip => answer (toggle_victim ip)
  | Block p => answer (manual_block p)
  | Unblock p => answer (manual_unblock p)
  | SaveSettings p => answer (update_enforcement_config p)
  | SaveAlerts p => answer (update_alerts_config p)
  | PostPlaybook p => answer (post_playbook p)
  | PutPlaybook i p => answer (put_playbook i p)
  | TogglePlaybook i l => answer (toggle_playbook i l)
  | DeletePlaybook i => answer (delete_playbook_route i)
  | Login rq u p => answer (login checkpw token rq u p)
  | Logout rq => answer (logout rq)
  | CreateUser rq u p a => answer (create_user checkpw hashpw rq u p a)
  | DeleteUser rq u a => answer (delete_user checkpw rq u a)
  | SetPassword rq u p a => answer (set_password checkpw hashpw rq u p a)
  | MergeStaged => answer (merge_staged_rows training_configured)
  | DiscardStaged => answer discard_staged_rows
  | TrimDdos => answer (trim_ddos_class training_configured shuffle)
  | Poll t i u => answer (get_state t i u)
  end.

Definition run_system (ops : list op) : M World unit := for_each ops run_op.

(** ** What a list forbids *)

Inductive listing := Whitelist | SharedEgress.
Definition file_of (k : listing) : path := match k with Whitelist => WHITELIST_PATH | SharedEgress => SHARED_IPS_PATH end.
Definition forbids (k : listing) (s : ipset_name) : Prop := match k with Whitelist => True | SharedEgress => s = ddos_blocklist end.

(** The list holds [ips], and since [t0] nothing has added [ip] to a set it forbids. *)
Definition guarded (k : listing) (ip : string) (ips : list string) (t0 : list event) (w : World) : Prop :=
  holds_list (file_of k) ips w ∧
  ∃ l, w_trace w = t0 ++ l ∧ Forall (λ ev, ∀ s, forbids k s → not_added s ip ev) l.

Section guarded.
Context (k : listing) (ip : string) (ips : list string) (t0 : list event).
#[local] Abbreviation I := (guarded k ip ips t0).

#[global] Instance guarded_env : StEnv (guarded k ip ips t0).
Proof.
  split; try (by intros ? []). intros p j w Hp [Hh Ht]. unfold guarded, holds_list in *. destruct w. simpl in *.
  rewrite lookup_insert_ne by congruence. done.
Qed.
#[global] Instance guarded_state : StState (guarded k ip ips t0).
Proof. by intros ? []. Qed.
#[global] Instance guarded_capture : StCapture (guarded k ip ips t0).
Proof. split; by intros ? []. Qed.
#[global] Instance guarded_db : StDb (guarded k ip ips t0).
Proof. by intros ? []. Qed.

Lemma guarded_emit ev w : (∀ s, forbids k s → not_added s ip ev) → I w → I (emit ev w).
Proof.
  intros Hev (Hh & l & Hl & Hf). split; [by destruct w|]. exists (l ++ [ev]).
  split; [by rewrite emit_trace, Hl, app_assoc|]. by apply Forall_app_2; [|apply Forall_singleton].
Qed.

#[global] Instance guarded_alert : StAlert (guarded k ip ips t0).
Proof. split; [intros; by apply guarded_emit|by intros ? []]. Qed.

(** Any command but an addition of [ip]. *)
Definition harmless (c : cmd) : Prop := ∀ s t, forbids k s → c ≠ IpsetAdd s ip t.
#[global] Instance guarded_cmd : StCmd harmless (guarded k ip ips t0).
Proof. intros c r w Hc Hw. apply guarded_emit; [|done]. intros s Hs t r' [= ->]. by apply (Hc s t Hs). Qed.

Lemma pres_harmless c : harmless c → pres I (run_cmd c).
Proof. intros Hc. eapply pres_run_cmd; [apply _|exact guarded_cmd|exact Hc]. Qed.

Lemma guarded_publish p j w : p ≠ file_of k → I w → I (publish_json p j w).
Proof. intros Hp [Hh Ht]. unfold guarded, holds_list in *. destruct w. simpl in *. split; [by rewrite lookup_insert_ne|done]. Qed.

End guarded.

Section protected.
Context (k : listing) (ip : string) (ips : list string) (t0 : list event) (Hin : ip ∈ ips).
#[local] Abbreviation I := (guarded k ip ips t0).

Lemma listed_here w : I w → w_json w !! file_of k = Some (JText (JGood (JArr (JStr <$> ips)))).
Proof. by intros [Hh _]. Qed.
Lemma contains_here : json_contains ip (JArr (JStr <$> ips)) = Ok true.
Proof using Hin. by rewrite contains_strs, bool_decide_eq_true_2. Qed.

Lemma pres_limit_guarded ip' dur v r c e : pres I (ratelimit_ip ip' dur v r c e).
Proof using Hin.
  destruct (decide (ip' = ip)) as [->|Hne].
  - pose proof listed_here as Hl. revert Hl. destruct k; intros Hl.
    + eapply (pres_ratelimit_ip_whitelisted _ _ ip); [exact Hl|apply contains_here].
    + apply pres_ratelimit_ip; [apply _..|]. intros o w. apply guarded_emit. intros s Hs t r' [= <- _]. discriminate Hs.
  - apply pres_ratelimit_ip; [apply _..|]. intros o w. apply guarded_emit. intros s Hs t r' [= _ ->]. done.
Qed.

Lemma pres_block_guarded ip' dur v r e : pres I (block_ip ip' dur v r e).
Proof using Hin.
  destruct (decide (ip' = ip)) as [->|Hne].
  - pose proof listed_here as Hl. revert Hl. destruct k; intros Hl.
    + eapply (pres_block_ip_whitelisted _ _ ip); [exact Hl|apply contains_here].
    + eapply (pres_block_ip_shared _ _ ip); [exact Hl|apply contains_here|].
      intros o w. apply guarded_emit. intros s Hs t r' [= <- _]. discriminate Hs.
  - apply pres_block_ip; [apply _..|]. intros s' o w. apply guarded_emit. intros s Hs t r' [= _ ->]. done.
Qed.

(** *** Every operation but edits of the list itself *)

Ltac harmless := apply pres_harmless; by intros ? ? ? [=].
(** The steps a route is made of. *)
Ltac guarded_steps := pres_auto; first
  [ harmless | apply pres_time_time; apply _ | apply pres_io; apply _ | apply pres_execute; apply _
  | apply pres_read_tx; apply _ | apply pres_load_json_file; apply _ | apply pres_get_enforcement_config; apply _
  | apply pres_log_incident; apply _ | apply pres_modify; intros w; apply st_state | apply pres_modify; intros w; apply st_db | idtac ].

Lemma pres_atomic_write_any I' `{!StEnv I'} p publish :
  (∀ w, I' w → I' (publish w)) → pres I' (_atomic_write p publish).
Proof using.
  intros Hp w Hw. unfold _atomic_write, mbind, M_bind, gets, io, modify, try_finally, raise. simpl.
  assert (H1 : I' (tick w)) by by apply st_ticks.
  destruct (_ || _); simpl; [done|]. set (w1 := set_tmp _ (tick w)). assert (Hw1 : I' w1) by by apply st_tmp. clearbody w1.
  destruct (io_ok _); simpl; [|by apply st_tmp, st_ticks].
  destruct (io_ok _); simpl; [|by apply st_tmp, st_ticks, st_ticks].
  by apply st_tmp, st_tmp, Hp, st_ticks, st_ticks.
Qed.

Lemma pres_save_other p j : p ≠ file_of k → pres I (save_json_file p j).
Proof using.
  intros Hp. apply pres_try_all; [|apply pres_ret]. apply pres_atomic_write_any; [apply _|]. intros w. by apply guarded_publish.
Qed.

Lemma pres_users_update u : pres I (modify (upd_db u)).
Proof using. apply pres_modify. intros w. apply st_db. Qed.

Lemma pres_answer {A} I' (m : M World A) : pres I' m → pres I' (answer m).
Proof using. intros Hm. apply pres_try_all; [apply pres_bind; [done|intros; apply pres_ret]|apply pres_ret]. Qed.

Lemma pres_guarded_setup : pres I setup_ipset.
Proof using.
  unfold setup_ipset, _ensure_hashlimit_rule, ensure_rule.
  guarded_steps.
Qed.

Lemma pres_guarded_window data : pres I (process_window clf if_clf mean data).
Proof using Hin.
  apply pres_process_window; try apply _.
  - intros. apply pres_block_guarded.
  - intros. apply pres_limit_guarded.
  - intros. apply pres_check_and_start; [apply _|]. intros. apply pres_start_if_due_db; apply _.
  - intros. apply pres_advance_runs; try apply _.
    + intros. apply pres_block_guarded.
    + intros. apply pres_limit_guarded.
    + intros. harmless.
    + intros. apply pres_advance_playbook_run_db; apply _.
Qed.

Lemma pres_guarded_unblock ip' v : pres I (unblock_ip ip' v).
Proof using. unfold unblock_ip. guarded_steps. Qed.

Lemma pres_guarded_tx {A} (f : Database → Database * A) d : pres I (write_tx f d).
Proof using. apply pres_write_tx; [apply _|]. intros w. apply st_db. Qed.

(** *** The other files *)

Lemma pres_guarded_settings p : pres I (update_enforcement_config p).
Proof using.
  unfold update_enforcement_config, apply_settings, update_ratelimit_hashlimit, _ensure_hashlimit_rule, ensure_rule.
  guarded_steps; apply pres_save_other; by destruct k.
Qed.

Lemma pres_guarded_alerts p : pres I (update_alerts_config p).
Proof using.
  unfold update_alerts_config, get_alerts_config. guarded_steps; apply pres_save_other; by destruct k.
Qed.

Lemma pres_guarded_victims p ip' : pres I (add_victim p) ∧ pres I (delete_victim ip') ∧ pres I (toggle_victim ip').
Proof using.
  unfold add_victim, delete_victim, toggle_victim. split_and!; guarded_steps; apply pres_save_other; by destruct k.
Qed.

Lemma pres_guarded_playbooks p i l :
  pres I (post_playbook p) ∧ pres I (put_playbook i p) ∧ pres I (toggle_playbook i l) ∧ pres I (delete_playbook_route i).
Proof using.
  unfold post_playbook, put_playbook, toggle_playbook, delete_playbook_route, require_playbook, get_playbook, create_playbook,
    update_playbook, set_playbook_enabled, delete_playbook.
  split_and!; guarded_steps; apply pres_guarded_tx.
Qed.

(** *** Accounts *)

Lemma pres_guarded_accounts rq u p a :
  pres I (login checkpw token rq u p) ∧ pres I (logout rq) ∧ pres I (create_user checkpw hashpw rq u p a) ∧
  pres I (delete_user checkpw rq u a) ∧ pres I (set_password checkpw hashpw rq u p a).
Proof using.
  unfold login, login_body, _login_locked_out, _record_login_failure, logout, create_user, delete_user, set_password,
    _verify_admin_password, _reauth_locked_out, _record_reauth_failure, get_session_username, revoke_sessions_for_user, users_tx.
  split_and!; [apply pres_try_except; [|intros e m Hm; destruct e; injection Hm as <-]| | | |]; guarded_steps.
Qed.

(** *** The review of staged rows *)

Lemma pres_guarded_open p : pres I (open_csv p).
Proof using. unfold open_csv. guarded_steps. Qed.

Lemma pres_guarded_read p : pres I (_read_rows p) ∧ pres I (_read_training_csv p).
Proof using. unfold _read_rows, _read_training_csv. split; guarded_steps; apply pres_guarded_open. Qed.

Lemma pres_guarded_rewrite p header rows : pres I (_rewrite_csv p header rows).
Proof using.
  unfold _rewrite_csv. apply pres_atomic_write_any; [apply _|]. intros w. unfold publish_csv. apply st_csv.
Qed.

Lemma pres_guarded_review :
  pres I (merge_staged_rows training_configured) ∧ pres I discard_staged_rows ∧
  pres I (trim_ddos_class training_configured shuffle).
Proof using.
  unfold merge_staged_rows, discard_staged_rows, trim_ddos_class, _resolve_all_runs.
  split_and!; guarded_steps; first [apply pres_guarded_read | apply pres_guarded_rewrite].
Qed.

Lemma pres_guarded_poll t i u : pres I (get_state t i u).
Proof using.
  unfold get_state, get_blocked_ips, get_ratelimited_ips. guarded_steps; apply pres_get_members; try apply _; intros; harmless.
Qed.

Lemma pres_guarded_listed p ip' : p ≠ file_of k → pres I (add_listed p ip') ∧ pres I (delete_listed p ip').
Proof using. intros Hp. unfold add_listed, delete_listed. split; guarded_steps; by apply pres_save_other. Qed.
End protected.

End system.

(** *** Edits of the list *)

Section edits.
Context {E : Env} (k : listing) (ip : string) (t0 : list event).

#[global] Instance env_or I J `{!StEnv I, !StEnv J} : StEnv (λ w, I w ∨ J w).
Proof.
  split; intros; (destruct_or!; [left|right]);
    (by apply st_ticks || by apply st_tmp || by apply st_conn || by apply st_purge ||
     by apply st_new_file || by apply st_latency || by apply st_steps || by apply st_lat_last).
Qed.

(** A save either happens or does not. *)
Lemma save_own ips ips' w :
  guarded k ip ips t0 w →
  let w' := (save_json_file (file_of k) (JArr (JStr <$> ips')) w).2 in guarded k ip ips t0 w' ∨ guarded k ip ips' t0 w'.
Proof using.
  intros Hw. apply (pres_try_all (λ w, guarded k ip ips t0 w ∨ guarded k ip ips' t0 w)); [|apply pres_ret|by left].
  apply pres_atomic_write_any; [apply _|]. intros u Hu. right. assert (Ht : ∃ l, w_trace u = t0 ++ l ∧
    Forall (λ ev, ∀ s, forbids k s → not_added s ip ev) l) by by destruct Hu as [[_ ?]|[_ ?]].
  unfold guarded, holds_list. destruct u. simpl in *. split; [by rewrite lookup_insert_eq|done].
Qed.

(** The same, as the last step of a route. *)
Lemma save_keeps ips ips' w :
  guarded k ip ips t0 w → ip ∈ ips → ip ∈ ips' →
  ∃ ips'', ip ∈ ips'' ∧ guarded k ip ips'' t0 (save_json_file (file_of k) (JArr (JStr <$> ips')) w).2.
Proof using. intros Hw Hi Hi'. destruct (save_own ips ips' w Hw); eauto. Qed.

Lemma add_own ips ip' w :
  guarded k ip ips t0 w → ip ∈ ips → ∃ ips', ip ∈ ips' ∧ guarded k ip ips' t0 (add_listed (file_of k) ip' w).2.
Proof using.
  intros Hw Hin. unfold add_listed, mbind, M_bind. rewrite (load_json_file_good _ _ _ w (proj1 Hw)), contains_strs. cbn [lift].
  case_bool_decide; [by exists ips|]. cbn [lift json_append]. change (?l ++ [JStr ip']) with (l ++ (JStr <$> [ip'])). rewrite <-fmap_app.
  apply (save_keeps ips); [done|done|]. apply elem_of_app. by left.
Qed.

Lemma remove_first_keeps ip' ips :
  ∃ ips', remove_first ip' (JStr <$> ips) = JStr <$> ips' ∧ ∀ j, j ≠ ip' → j ∈ ips → j ∈ ips'.
Proof using.
  induction ips as [|x ips (ips' & He & Hk)]; [by exists []|]. rewrite fmap_cons. cbn [remove_first json_is_str].
  case_bool_decide; [exists ips; split; [done|set_solver]|]. exists (x :: ips'). rewrite He. split; [done|set_solver].
Qed.

Lemma validated s : _validate_host_ip_or_400 s = Ok s ∨ ∃ e, _validate_host_ip_or_400 s = Exn e.
Proof using. unfold _validate_host_ip_or_400, _validate_host_ip. destruct (ip_address s) as [a|e]; [by left|right]. destruct e; by eexists. Qed.

Lemma delete_own ips ip' w :
  guarded k ip ips t0 w → ip ∈ ips → ip' ≠ ip →
  ∃ ips', ip ∈ ips' ∧ guarded k ip ips' t0 (delete_listed (file_of k) ip' w).2.
Proof using.
  intros Hw Hin Hne. unfold delete_listed, mbind, M_bind.
  destruct (validated ip') as [-> | [e ->]]; cbn [lift]; [|by exists ips].
  rewrite (load_json_file_good _ _ _ w (proj1 Hw)), contains_strs. cbn [lift].
  case_bool_decide; [|by exists ips]. cbn [lift json_remove].
  destruct (remove_first_keeps ip' ips) as (ips' & -> & Hk). apply (save_keeps ips); [done|done|]. by apply Hk.
Qed.
End edits.

(** ** Protection *)

(** The operation takes [ip] off the list. *)
Definition removes (k : listing) (ip : string) (o : op) : Prop :=
  match k, o with
  | Whitelist, DeleteWhitelist x | SharedEgress, DeleteShared x => x = ip
  | _, _ => False
  end.

Lemma pres_for_each_in {W A} (I : W → Prop) (l : list A) (body : A → M W unit) :
  (∀ x, x ∈ l → pres I (body x)) → pres I (for_each l body).
Proof.
  induction l as [|x l IH]; intros Hb; cbn [for_each]; [apply pres_ret|].
  apply pres_bind; [apply Hb; by left|]. intros _. apply IH. intros y Hy. apply Hb. by right.
Qed.

Section protection.
Context {E : Env}.
Context (clf : option RandomForest) (if_clf : option IsolationForest) (mean : list num → num).
Context (checkpw : string → string → res bool) (hashpw : nat → string → string) (token : nat → string).
Context (training_configured : bool) (shuffle : list Z → list Z).
Context (k : listing) (ip : string) (t0 : list event).

(** Listed, and not touched since. *)
Definition safe (w : World) : Prop := ∃ ips, ip ∈ ips ∧ guarded k ip ips t0 w.

Lemma safe_pres {A} (m : M World A) :
  (∀ ips, ip ∈ ips → pres (guarded k ip ips t0) m) → pres safe (answer m).
Proof using.
  intros Hm. apply pres_answer. intros w (ips & Hin & Hw). exists ips. split; [done|]. by apply Hm.
Qed.

Lemma safe_listed p ip' :
  pres safe (answer (add_listed p ip')) ∧ (p ≠ file_of k ∨ ip' ≠ ip → pres safe (answer (delete_listed p ip'))).
Proof using.
  destruct (decide (p = file_of k)) as [->|Hp].
  - split; [|intros [|Hne]; [done|]]; apply pres_answer; intros w (ips & Hin & Hw); [by eapply add_own|by eapply delete_own].
  - split; [|intros _]; apply safe_pres; intros ips _; by apply pres_guarded_listed.
Qed.

Lemma safe_op o : ¬ removes k ip o → pres safe (run_op clf if_clf mean checkpw hashpw token training_configured shuffle o).
Proof using.
  intros Hr. destruct o; cbn [run_op].
  - intros w (ips & Hin & Hw). exists ips. split; [done|]. by apply pres_guarded_setup.
  - apply safe_pres. intros. by apply pres_guarded_window.
  - apply safe_listed.
  - apply safe_listed. destruct k; [right; by intros ->|by left].
  - apply safe_listed.
  - apply safe_listed. destruct k; [by left|right; by intros ->].
  - apply safe_pres. intros ips _. destruct (pres_guarded_victims k ip ips t0 p "") as (H & _ & _). exact H.
  - apply safe_pres. intros ips _. destruct (pres_guarded_victims k ip ips t0 (mkVictimPayload "" "") ip0) as (_ & H & _). exact H.
  - apply safe_pres. intros ips _. destruct (pres_guarded_victims k ip ips t0 (mkVictimPayload "" "") ip0) as (_ & _ & H). exact H.
  - apply safe_pres. intros. unfold manual_block. by apply pres_block_guarded.
  - apply safe_pres. intros. unfold manual_unblock. apply pres_bind; [apply pres_guarded_unblock|].
    intros b. destruct b; [apply pres_ret|apply pres_raise].
  - apply safe_pres. intros. apply pres_guarded_settings.
  - apply safe_pres. intros. apply pres_guarded_alerts.
  - apply safe_pres. intros ips _. destruct (pres_guarded_playbooks k ip ips t0 p 0 []) as (H & _ & _ & _). exact H.
  - apply safe_pres. intros ips _. destruct (pres_guarded_playbooks k ip ips t0 p i []) as (_ & H & _ & _). exact H.
  - apply safe_pres. intros ips _. destruct (pres_guarded_playbooks k ip ips t0 (mkPlaybookPayload "" "" None true []) i l) as (_ & _ & H & _). exact H.
  - apply safe_pres. intros ips _. destruct (pres_guarded_playbooks k ip ips t0 (mkPlaybookPayload "" "" None true []) i []) as (_ & _ & _ & H). exact H.
  - apply safe_pres. intros ips _. destruct (pres_guarded_accounts checkpw hashpw token k ip ips t0 rq username password "") as (H & _ & _ & _ & _). exact H.
  - apply safe_pres. intros ips _. destruct (pres_guarded_accounts checkpw hashpw token k ip ips t0 rq "" "" "") as (_ & H & _ & _ & _). exact H.
  - apply safe_pres. intros ips _. destruct (pres_guarded_accounts checkpw hashpw token k ip ips t0 rq username password admin_password) as (_ & _ & H & _ & _). exact H.
  - apply safe_pres. intros ips _. destruct (pres_guarded_accounts checkpw hashpw token k ip ips t0 rq username "" admin_password) as (_ & _ & _ & H & _). exact H.
  - apply safe_pres. intros ips _. destruct (pres_guarded_accounts checkpw hashpw token k ip ips t0 rq username password admin_password) as (_ & _ & _ & _ & H). exact H.
  - apply safe_pres. intros ips _. destruct (pres_guarded_review training_configured shuffle k ip ips t0) as (H & _ & _). exact H.
  - apply safe_pres. intros ips _. destruct (pres_guarded_review training_configured shuffle k ip ips t0) as (_ & H & _). exact H.
  - apply safe_pres. intros ips _. destruct (pres_guarded_review training_configured shuffle k ip ips t0) as (_ & _ & H). exact H.
  - apply safe_pres. intros. apply pres_guarded_poll.
Qed.
End protection.


(** An operation never ends the process: the next one is always served. *)
Lemma system_goes_on {E : Env} clf if_clf mean checkpw hashpw token training_configured shuffle ops w :
  (run_system clf if_clf mean checkpw hashpw token training_configured shuffle ops w).1 = Ok tt.
Proof.
  apply for_each_ok. intros o u. assert (Ha : ∀ A (m : M World A), (answer m u).1 = Ok tt).
  { intros A m. unfold answer. destruct (try_all_ok (m;; mret tt) tt u) as [[] H]. exact H. }
  destruct o; cbn [run_op]; try apply Ha. unfold setup_ipset. destruct (try_all_ok (W:=World) (A:=unit)
    (run_cmd (IpsetCreate ddos_blocklist);; ensure_rule INPUT RuleBlock;; ensure_rule FORWARD RuleBlock;;
     run_cmd (IpsetCreate ddos_ratelimit);; cfg ← get_enforcement_config; pps ← lift (cfg_get cfg "ratelimit_hashlimit_pps");
     _ensure_hashlimit_rule pps) tt u) as [[] H]. exact H.
Qed.

(** ** A run *)

Definition mixed_ops : list op :=
  [Setup; AddVictim (mkVictimPayload "10.0.0.5" "web"); Block (mkIpPayload "192.0.2.7" None);
   AddWhitelist (mkIpPayload "192.0.2.8" None); DeleteWhitelist "192.0.2.8"; Block (mkIpPayload "192.0.2.8" None);
   MergeStaged; Poll None [] None].
Definition no_bcrypt (_ _ : string) : res bool := Ok false.


(** ** The same address, spelled otherwise *)

(** The whitelist is compared as text, and an entry is stored as it was typed:
    one that spells an IPv6 address as Stage 2 does not is accepted, reported
    as added, and protects nothing. *)
Definition typed_ip : string := "2001:DB8::5".
Definition shown_ip : string := "2001:db8::5".

Theorem spelling_defeats_whitelist :
  _validate_host_ip typed_ip = Ok typed_ip ∧ ip_address typed_ip = ip_address shown_ip ∧
  let w := (@run_system calm_env None None (λ _, NInt 0) no_bcrypt (λ _ s, s) (λ _, "t"%string) true (λ l, l)
              [AddWhitelist (mkIpPayload typed_ip None); Block (mkIpPayload shown_ip None)] empty_world).2 in
  holds_list WHITELIST_PATH [typed_ip] w ∧
  EvCmd (IpsetAdd ddos_blocklist shown_ip (JNum (NInt 600))) (PDone 0 EmptyString) ∈ w_trace w.
Proof.
  split; [vm_compute; reflexivity|]. split; [vm_compute; reflexivity|]. intros w. split; [vm_compute; reflexivity|].
  apply list_elem_of_In. vm_compute. auto 10.
Qed.
