(* ===== verification/Scripts.v ===== *)
(** * scripts/trim_ddos_class.py and scripts/label_from_benchmark.py

    The offline trim works on the dictionaries of [csv.DictReader]; it is a
    second implementation of training_balance.py, and decides the same. The
    benchmark labeler takes ground truth from what a benchmark was sending; its
    [main] is in [LabelBenchmark]. *)

From stdpp Require Import pretty.
From S2P Require Import Prelude PyNum PyStr PyTime Csv Json World Storage Config Capture AutoLabel AutoLabelFacts.

(** ** trim_ddos_class.py

    The script stores a row's session number in the row, under a key that is not
    a column of a training file; here it is beside the row. *)

(** [row[k]] and [float(row[k])]. *)
Definition d_item (r : drow) (k : string) : res (option string) :=
  match dict_get k r with Some v => Ok v | None => Exn KeyError end.
Definition d_float (v : option string) : res num :=
  match v with Some s => float_field s | None => Exn TypeError end.

Definition d_timestamp (r : drow) : res num := v ← d_item r "timestamp"; d_float v.

Fixpoint d_stamps (rows : list drow) : res (list (num * drow)) :=
  match rows with
  | [] => Ok []
  | r :: rows' => t ← d_timestamp r; rest ← d_stamps rows'; Ok ((t, r) :: rest)
  end.

Fixpoint d_sessions (prev : option (num * option string)) (sid : Z) (rows : list (num * drow))
    : res (list (drow * Z)) :=
  match rows with
  | [] => Ok []
  | (ts, row) :: rows' =>
      label ← d_item row "label";
      let is_new := match prev with
                    | None => true
                    | Some (pt, pl) =>
                        nlt SESSION_GAP_SECONDS (nsub ts pt) || negb (bool_decide (label = pl))
                    end in
      let sid' := if is_new then (sid + 1)%Z else sid in
      rest ← d_sessions (Some (ts, label)) sid' rows';
      Ok ((row, sid') :: rest)
  end.

Definition assign_sessions (rows : list drow) : res (list (drow * Z)) :=
  stamped ← d_stamps rows;
  d_sessions None 0 (py_sort (λ a b, nlt a.1 b.1) stamped).

Definition d_labeled (l : string) (r : drow) : bool := bool_decide (dict_get "label" r = Some (Some l)).
Definition d_count (l : string) (rows : list drow) : nat := length (List.filter (d_labeled l) rows).

Definition d_session_ids (tagged : list (drow * Z)) : list Z :=
  foldl (λ ids rs, if d_labeled DDOS rs.1 && negb (bool_decide (rs.2 ∈ ids)) then ids ++ [rs.2] else ids)
        [] tagged.
Definition d_session_size (tagged : list (drow * Z)) (sid : Z) : nat :=
  length (List.filter (λ rs, d_labeled DDOS rs.1 && bool_decide (rs.2 = sid)) tagged).

Fixpoint d_choose (tagged : list (drow * Z)) (cap : nat) (ids : list Z) (kept : gset Z) (n : nat)
    : gset Z * nat :=
  match ids with
  | [] => (kept, n)
  | sid :: ids' =>
      let size := d_session_size tagged sid in
      if (n + size <=? cap)%nat then d_choose tagged cap ids' ({[sid]} ∪ kept) (n + size)
      else d_choose tagged cap ids' kept n
  end.

Definition trim_sessions (shuffle : list Z → list Z) (rows : list drow) : res (list drow * nat * nat) :=
  tagged ← assign_sessions rows;
  let cap := Nat.min (d_count NORMAL tagged.*1) (d_count FLASH_CROWD tagged.*1) in
  if (d_count DDOS tagged.*1 <=? cap)%nat then Ok (tagged.*1, 0%nat, cap)
  else
    let '(kept_ids, kept_count) := d_choose tagged cap (shuffle (d_session_ids tagged)) ∅ 0 in
    let dropped := (d_count DDOS tagged.*1 - kept_count)%nat in
    let result := (List.filter (λ rs, negb (d_labeled DDOS rs.1) || bool_decide (rs.2 ∈ kept_ids)) tagged).*1 in
    Ok (result, dropped, cap).

(** [main]: the text the file is overwritten with, if it is. *)
Definition trim_main (shuffle : list Z → list Z) (dry_run : bool) (text : string) : res (option string) :=
  match dict_reader text with
  | (Some fieldnames, rows) =>
      if negb (bool_decide ("label"%string ∈ fieldnames)) || negb (bool_decide ("timestamp"%string ∈ fieldnames))
      then Ok None
      else
        r ← trim_sessions shuffle rows;
        let '(trimmed, dropped, _) := r in
        if (dropped =? 0)%nat || dry_run then Ok None
        else
          Ok (Some (csv_rows (fieldnames :: ((λ row, (λ k, default EmptyString (mjoin (dict_get k row))) <$> fieldnames)
                                               <$> trimmed))))
  | (None, _) => Ok None
  end.

(** ** label_from_benchmark.py *)

Definition DEFAULT_MARGIN_SECS : num := flt 15 1.

Definition phase_label (classes : gset string) : option Z :=
  if bool_decide ("attack"%string ∈ classes) then Some 2%Z
  else if bool_decide ("flashcrowd"%string ∈ classes) then Some 1%Z
  else if bool_decide ("normal"%string ∈ classes) then Some 0%Z
  else None.

(** A phase: start, end, label, name. *)
Record Phase := mkPhase { ph_start : num; ph_end : num; ph_label : Z; ph_name : string }.

Definition parse_boundary_time (text : string) : res num :=
  parsed ← strptime_secs (str_take 19 (str_strip text)); utc_timestamp parsed.

Fixpoint parse_boundaries (lines : list string) : res (list (string * num)) :=
  match lines with
  | [] => Ok []
  | line :: ls =>
      match str_split "009" line with
      | name :: time :: _ =>
          if bool_decide (name = EmptyString) then parse_boundaries ls
          else t ← parse_boundary_time time; rest ← parse_boundaries ls; Ok ((name, t) :: rest)
      | _ => parse_boundaries ls
      end
  end.

Fixpoint parse_variants (classes : gmap string (gset string)) (lines : list string) : gmap string (gset string) :=
  match lines with
  | [] => classes
  | line :: ls =>
      match str_split "009" line with
      | name :: cls :: _ => parse_variants (<[name := {[cls]} ∪ default ∅ (classes !! name)]> classes) ls
      | _ => parse_variants classes ls
      end
  end.

(** [zip(boundaries, boundaries[1:])]: a phase ends where the next begins. *)
Definition phases_of (classes : gmap string (gset string)) (margin_secs : num)
    (boundaries : list (string * num)) : list Phase :=
  omap (λ '((name, start), (_, end_)),
    label ← phase_label (default ∅ (classes !! name));
    if nle (nsub end_ start) (nmul (NInt 2) margin_secs) then None
    else Some (mkPhase (nadd start margin_secs) (nsub end_ margin_secs) label name))
    (zip boundaries (tail boundaries)).

Definition load_phases (boundaries_tsv : string) (variants_tsv : option string) (margin_secs : num)
    : res (list Phase) :=
  boundaries ← parse_boundaries (file_lines boundaries_tsv);
  let classes := parse_variants ∅ (file_lines (default EmptyString variants_tsv)) in
  mret (phases_of classes margin_secs boundaries).

Definition read_capture_rows (text : string) : list csv_rowt :=
  match csv_reader text with
  | [] => []
  | header :: rows =>
      omap (λ row, if negb (length row =? length header)%nat then None
                   else match row_timestamp row with
                        | Ok _ => Some (take (length BASE_CSV_HEADER) row)
                        | Exn _ => None
                        end) rows
  end.

(** The first phase a timestamp falls into. *)
Definition in_phase (ts : num) (ph : Phase) : bool := nle (ph_start ph) ts && nlt ts (ph_end ph).
Definition phase_at (ts : num) (phases : list Phase) : option Phase := head (List.filter (in_phase ts) phases).

Definition row_key (row : csv_rowt) : csv_rowt := take (S TIMESTAMP_COL) row.

(** [out[LABEL_COL] = str(label)] *)
Definition set_label (row : csv_rowt) (label : Z) : res csv_rowt :=
  if (LABEL_COL <? length row)%nat then Ok (<[LABEL_COL := pretty label]> row) else Exn IndexError.

(** [label_rows(rows, phases, wanted_labels)], from the state of its loop. *)
Fixpoint benchmark_rows (rows : list csv_rowt) (phases : list Phase) (wanted : gset Z)
    (counts : gmap string nat) (seen : gset csv_rowt) : res (list csv_rowt * gmap string nat) :=
  match rows with
  | [] => Ok ([], counts)
  | row :: rows' =>
      ts ← row_timestamp row;
      match phase_at ts phases with
      | Some ph =>
          if bool_decide (ph_label ph ∈ wanted) && negb (bool_decide (row_key row ∈ seen)) then
            out ← set_label row (ph_label ph);
            let counts' := <[ph_name ph := S (default 0 (counts !! ph_name ph))]> counts in
            rest ← benchmark_rows rows' phases wanted counts' ({[row_key row]} ∪ seen);
            Ok (out :: rest.1, rest.2)
          else benchmark_rows rows' phases wanted counts seen
      | None => benchmark_rows rows' phases wanted counts seen
      end
  end.

(** ** The two trims agree *)

Abbreviation as_dict := (dict_row BASE_CSV_HEADER).
Definition full_row (r : csv_rowt) : Prop := length r = length BASE_CSV_HEADER.

Lemma as_dict_label r : dict_get "label"%string (as_dict r) = Some (r !! LABEL_COL).
Proof. reflexivity. Qed.
Lemma as_dict_timestamp r : dict_get "timestamp"%string (as_dict r) = Some (r !! TIMESTAMP_COL).
Proof. reflexivity. Qed.

Lemma full_row_label r : full_row r → ∃ l, r !! LABEL_COL = Some l.
Proof. intros H. apply lookup_lt_is_Some_2. rewrite H. unfold LABEL_COL. simpl. lia. Qed.

Lemma d_timestamp_eq r : full_row r → d_timestamp (as_dict r) = row_timestamp r.
Proof.
  intros H. destruct (lookup_lt_is_Some_2 r TIMESTAMP_COL) as [s Hs].
  { rewrite H. unfold TIMESTAMP_COL. simpl. lia. }
  unfold d_timestamp, d_item, row_timestamp, list_at. by rewrite as_dict_timestamp, Hs.
Qed.

Lemma d_labeled_eq l r : d_labeled l (as_dict r) = bool_decide (r !! LABEL_COL = Some l).
Proof. unfold d_labeled. rewrite as_dict_label. apply bool_decide_ext. split; congruence. Qed.

Lemma d_stamps_eq rows :
  Forall full_row rows → d_stamps (as_dict <$> rows) = res_map (fmap (prod_map id as_dict)) (stamp_rows rows).
Proof.
  induction 1 as [|r rows Hr _ IH]; [done|]. rewrite fmap_cons. cbn [d_stamps stamp_rows].
  rewrite (d_timestamp_eq r Hr). destruct (row_timestamp r); [|done]. cbn [mbind res_bind]. rewrite IH.
  by destruct (stamp_rows rows).
Qed.

Lemma py_sort_fmap {A B} (f : A → B) (lt : B → B → bool) l :
  py_sort lt (f <$> l) = f <$> py_sort (λ a b, lt (f a) (f b)) l.
Proof.
  induction l as [|x l IH]; [done|]. rewrite fmap_cons. simpl. rewrite IH.
  generalize (py_sort (λ a b, lt (f a) (f b)) l). clear. intros l.
  induction l as [|y l IH]; [done|]. rewrite fmap_cons. simpl. destruct (lt (f y) (f x)); [|done].
  by rewrite IH.
Qed.

Lemma d_sessions_eq prev sid l :
  Forall (λ x, full_row x.2) l →
  d_sessions (prod_map id Some <$> prev) sid (prod_map id as_dict <$> l) =
  res_map (fmap (prod_map as_dict id)) (tag_sessions prev sid l).
Proof.
  intros H. revert prev sid. induction H as [|[ts r] l Hr _ IH]; intros prev sid; [done|].
  rewrite fmap_cons. cbn [d_sessions tag_sessions prod_map fst snd id].
  destruct (full_row_label r Hr) as [lab Hl]. unfold d_item, list_at. rewrite as_dict_label, Hl.
  assert (Hnew : match prod_map id Some <$> prev with
                 | None => true
                 | Some (pt, pl) => nlt SESSION_GAP_SECONDS (nsub ts pt) || negb (bool_decide (Some lab = pl))
                 end = match prev with
                       | None => true
                       | Some (pt, pl) => nlt SESSION_GAP_SECONDS (nsub ts pt) || negb (bool_decide (lab = pl))
                       end).
  { destruct prev as [[pt pl]|]; [|done]. cbn. f_equal. f_equal. apply bool_decide_ext. split; congruence. }
  cbn [mbind res_bind]. rewrite Hnew.
  change (Some (ts, Some lab)) with (prod_map id Some <$> Some (ts, lab)).
  rewrite IH. by destruct (tag_sessions _ _ l).
Qed.

Lemma tag_sessions_total prev sid l :
  Forall (λ x, full_row x.2) l → ∃ tagged, tag_sessions prev sid l = Ok tagged.
Proof.
  intros H. revert prev sid. induction H as [|[ts r] l Hr _ IH]; intros prev sid; [by eexists|].
  cbn [tag_sessions]. destruct (full_row_label r Hr) as [lab Hl]. unfold list_at. rewrite Hl.
  cbn [mbind res_bind]. match goal with |- context [tag_sessions ?p ?s l] => destruct (IH p s) as [t ->] end.
  by eexists.
Qed.

Lemma stamp_rows_full rows stamped :
  Forall full_row rows → stamp_rows rows = Ok stamped → Forall (λ x, full_row x.2) stamped.
Proof.
  intros H. revert stamped. induction H as [|r rows Hr _ IH]; intros stamped; cbn [stamp_rows].
  { intros [= <-]. constructor. }
  destruct (row_timestamp r); cbn [mbind res_bind]; [|done].
  destruct (stamp_rows rows); cbn [mbind res_bind]; [|done]. intros [= <-]. constructor; [done|by apply IH].
Qed.

Lemma assign_sessions_eq rows stamped :
  Forall full_row rows → stamp_rows rows = Ok stamped →
  ∃ tagged, _assign_sessions rows = Ok tagged ∧
            assign_sessions (as_dict <$> rows) = Ok (prod_map as_dict id <$> tagged).
Proof.
  intros Hf Hs. unfold _assign_sessions, assign_sessions. rewrite d_stamps_eq, Hs by done. cbn [res_map mbind res_bind].
  assert (HF : Forall (λ x, full_row x.2) (py_sort (λ a b, nlt a.1 b.1) stamped)).
  { rewrite py_sort_perm. by eapply stamp_rows_full. }
  destruct (tag_sessions_total None 0 _ HF) as [tagged Ht]. exists tagged. split; [exact Ht|].
  rewrite py_sort_fmap. pose proof (d_sessions_eq None 0 _ HF) as He. rewrite Ht in He. exact He.
Qed.

Lemma d_count_eq l rows : d_count l (as_dict <$> rows) = count_label l rows.
Proof.
  unfold d_count, count_label. rewrite (filter_fmap_eq as_dict _ (λ r, bool_decide (r !! LABEL_COL = Some l))).
  - by rewrite length_fmap.
  - intros r. apply d_labeled_eq.
Qed.

Lemma d_session_ids_eq tagged : d_session_ids (prod_map as_dict id <$> tagged) = session_ids tagged.
Proof.
  unfold d_session_ids, session_ids.
  match goal with |- foldl ?f _ _ = foldl ?g _ _ =>
    cut (∀ ids, foldl f ids (prod_map as_dict id <$> tagged) = foldl g ids tagged); [by intros ->|] end.
  induction tagged as [|[r s] tagged IH]; intros ids; [done|].
  rewrite fmap_cons. cbn [foldl prod_map fst snd]. rewrite d_labeled_eq. apply IH.
Qed.

Lemma d_session_size_eq tagged sid :
  d_session_size (prod_map as_dict id <$> tagged) sid = session_size tagged sid.
Proof.
  unfold d_session_size, session_size.
  rewrite (filter_fmap_eq (prod_map as_dict id) _ (λ rs, is_ddos_row rs.1 && bool_decide (rs.2 = sid))).
  - by rewrite length_fmap.
  - intros [r s]. simpl. by rewrite d_labeled_eq.
Qed.

Lemma d_choose_eq tagged cap ids kept n :
  d_choose (prod_map as_dict id <$> tagged) cap ids kept n = choose_sessions tagged cap ids kept n.
Proof.
  revert kept n. induction ids as [|sid ids IH]; intros kept n; [done|]. cbn [d_choose choose_sessions].
  rewrite d_session_size_eq. destruct (_ <=? cap)%nat; apply IH.
Qed.

Lemma labels_present_full rows : Forall full_row rows → labels_present rows = Ok tt.
Proof.
  induction 1 as [|r rows Hr _ IH]; [done|]. cbn [labels_present].
  destruct (full_row_label r Hr) as [l Hl]. unfold list_at. by rewrite Hl.
Qed.

(** On complete rows with readable timestamps, the offline script and the
    dashboard's balance step drop the same rows: the same count, the same cap,
    and when anything is dropped the same rows in the same order. *)
Theorem trim_scripts_agree shuffle rows stamped :
  Forall full_row rows → stamp_rows rows = Ok stamped →
  ∃ result result' dropped cap,
    trim_ddos_sessions shuffle rows = Ok (result, dropped, cap) ∧
    trim_sessions shuffle (as_dict <$> rows) = Ok (result', dropped, cap) ∧
    (count_label DDOS rows > cap → result' = as_dict <$> result).
Proof.
  intros Hf Hs. destruct (assign_sessions_eq rows stamped Hf Hs) as (tagged & Ht & Hd).
  pose proof (assign_sessions_perm _ _ Ht) as Hperm.
  unfold trim_ddos_sessions, trim_sessions. rewrite labels_present_full, Hd by done. cbn [mbind res_bind].
  assert (Hfst : (prod_map as_dict id <$> tagged).*1 = as_dict <$> tagged.*1)
    by by rewrite <-!list_fmap_compose.
  rewrite Hfst, !d_count_eq, !(count_label_perm _ _ _ Hperm).
  set (cap := Nat.min _ _). destruct (count_label DDOS rows <=? cap)%nat eqn:Hle.
  { apply Nat.leb_le in Hle. eexists _, _, _, _. split_and!; [done..|lia]. }
  rewrite Ht. cbn [mbind res_bind]. rewrite d_session_ids_eq, d_choose_eq.
  destruct (choose_sessions tagged cap (shuffle (session_ids tagged)) ∅ 0) as [kept n].
  eexists _, _, _, _. split_and!; [done..|]. intros _.
  rewrite (filter_fmap_eq (prod_map as_dict id) _
             (λ rs, negb (is_ddos_row rs.1) || bool_decide (rs.2 ∈ kept))).
  - by rewrite <-!list_fmap_compose.
  - intros [r s]. simpl. by rewrite d_labeled_eq.
Qed.

(** The two trims on a small file: three DDoS rows, one session dropped. *)
Definition demo_row (ts label : string) : csv_rowt := replicate 11 "0"%string ++ [ts; label].
Definition demo_rows : list csv_rowt :=
  [demo_row "1" "0"; demo_row "2" "1"; demo_row "100" "2"; demo_row "200" "2"; demo_row "201" "2"].

Lemma trim_scripts_agree_witness :
  ∃ result result' dropped cap,
    trim_ddos_sessions id demo_rows = Ok (result, dropped, cap) ∧
    trim_sessions id (as_dict <$> demo_rows) = Ok (result', dropped, cap) ∧
    (count_label DDOS demo_rows > cap → result' = as_dict <$> result).
Proof.
  destruct (stamp_rows demo_rows) as [stamped|e] eqn:Hs; [|vm_compute in Hs; discriminate].
  eapply trim_scripts_agree; [|exact Hs]. repeat constructor.
Defined.

(** ** The benchmark labeler *)

(** The phase a row is labelled from. *)
Definition row_phase (phases : list Phase) (row : csv_rowt) : option Phase :=
  match row_timestamp row with Ok ts => phase_at ts phases | Exn _ => None end.
Definition label_with (row : csv_rowt) (label : Z) : csv_rowt := <[LABEL_COL := pretty label]> row.
Definition from_phase (phases : list Phase) (name : string) (row : csv_rowt) : bool :=
  bool_decide (ph_name <$> row_phase phases row = Some name).

(** A row as [read_capture_rows] returns it. *)
Definition capture_row (row : csv_rowt) : Prop := full_row row ∧ ∃ ts, row_timestamp row = Ok ts.

Lemma key_lookup r i : i ≤ TIMESTAMP_COL → row_key r !! i = r !! i.
Proof. intros Hi. unfold row_key. apply lookup_take_lt. lia. Qed.

Lemma row_timestamp_key r r' : row_key r = row_key r' → row_timestamp r = row_timestamp r'.
Proof.
  intros H. unfold row_timestamp, list_at.
  by rewrite <-(key_lookup r), <-(key_lookup r'), H.
Qed.
Lemma row_phase_key phases r r' : row_key r = row_key r' → row_phase phases r = row_phase phases r'.
Proof. intros H. unfold row_phase. by rewrite (row_timestamp_key _ _ H). Qed.

Lemma row_key_label r l : row_key (label_with r l) = row_key r.
Proof. unfold row_key, label_with. apply take_insert_ge. unfold TIMESTAMP_COL, LABEL_COL. lia. Qed.

Lemma set_label_full r l : full_row r → set_label r l = Ok (label_with r l).
Proof. intros H. unfold set_label. rewrite H. reflexivity. Qed.

(** What one run of the loop has done, from a set [seen] and the counts so far. *)
Definition labelled (rows : list csv_rowt) (phases : list Phase) (wanted : gset Z)
    (counts : gmap string nat) (seen : gset csv_rowt) (out : list csv_rowt) (counts' : gmap string nat) : Prop :=
  (∀ o, o ∈ out → (row_key o ∉ seen) ∧
     ∃ row ph, row ∈ rows ∧ row_phase phases row = Some ph ∧ ph_label ph ∈ wanted ∧
               o = label_with row (ph_label ph)) ∧
  (∀ row ph, row ∈ rows → row_phase phases row = Some ph → ph_label ph ∈ wanted → row_key row ∉ seen →
     ∃ o, o ∈ out ∧ row_key o = row_key row ∧ o !! LABEL_COL = Some (pretty (ph_label ph))) ∧
  NoDup (row_key <$> out) ∧
  (∀ name, default 0 (counts' !! name) =
           default 0 (counts !! name) + length (List.filter (from_phase phases name) out)).

Lemma labelled_skip row rows phases wanted counts seen out counts' :
  (∀ ph, row_phase phases row = Some ph → ph_label ph ∈ wanted → row_key row ∈ seen) →
  labelled rows phases wanted counts seen out counts' →
  labelled (row :: rows) phases wanted counts seen out counts'.
Proof.
  intros Hskip (Hs & Hc & Hn & Hk). split_and!; [..|done|done].
  - intros o Ho. destruct (Hs o Ho) as (? & r & ph & ? & ?). split; [done|]. exists r, ph. set_solver.
  - intros r ph [->|Hr]%elem_of_cons Hp Hw Hseen; [|by eapply Hc]. destruct Hseen. eauto.
Qed.

Lemma labelled_take row ph rows phases wanted counts seen out counts' :
  full_row row → row_phase phases row = Some ph → ph_label ph ∈ wanted → row_key row ∉ seen →
  labelled rows phases wanted (<[ph_name ph := S (default 0 (counts !! ph_name ph))]> counts)
           ({[row_key row]} ∪ seen) out counts' →
  labelled (row :: rows) phases wanted counts seen (label_with row (ph_label ph) :: out) counts'.
Proof.
  intros Hf Hp Hw Hseen (Hs & Hc & Hn & Hk). split_and!.
  - intros o [->|Ho]%elem_of_cons.
    + rewrite row_key_label. split; [done|]. exists row, ph. set_solver.
    + destruct (Hs o Ho) as (? & r & ph' & ? & ?). split; [set_solver|]. exists r, ph'. set_solver.
  - intros r ph' Hr Hp' Hw' Hs'. destruct (decide (row_key r = row_key row)) as [He|Hne].
    + exists (label_with row (ph_label ph)). rewrite row_key_label, He. split_and!; [set_solver|done|].
      rewrite (row_phase_key _ _ _ He), Hp in Hp'. injection Hp' as <-. unfold label_with.
      apply list_lookup_insert_eq. rewrite Hf. unfold LABEL_COL. simpl. lia.
    + apply elem_of_cons in Hr as [->|Hr]; [done|].
      destruct (Hc r ph') as (o & ? & ?); [set_solver..|]. exists o. set_solver.
  - rewrite fmap_cons, row_key_label. constructor; [|done]. intros (o & He & Ho)%list_elem_of_fmap.
    destruct (Hs o Ho) as [? _]. set_solver.
  - intros name. rewrite Hk. cbn [List.filter]. unfold from_phase at 2.
    rewrite (row_phase_key _ _ row) by apply row_key_label. rewrite Hp. simpl.
    destruct (decide (ph_name ph = name)) as [->|Hne].
    + rewrite bool_decide_true by done. rewrite lookup_insert_eq. simpl. lia.
    + rewrite bool_decide_false by congruence. by rewrite lookup_insert_ne.
Qed.

Lemma benchmark_rows_labelled rows phases wanted counts seen :
  Forall capture_row rows →
  ∃ out counts', benchmark_rows rows phases wanted counts seen = Ok (out, counts') ∧
                 labelled rows phases wanted counts seen out counts'.
Proof.
  intros H. revert counts seen. induction H as [|row rows [Hf [ts Hts]] _ IH]; intros counts seen.
  { exists [], counts. split; [done|]. split_and!; [set_solver..|constructor|]. simpl. lia. }
  cbn [benchmark_rows]. rewrite Hts. cbn [mbind res_bind].
  assert (Hph : row_phase phases row = phase_at ts phases) by (unfold row_phase; by rewrite Hts).
  destruct (phase_at ts phases) as [ph|].
  2:{ destruct (IH counts seen) as (out & c & -> & ?). exists out, c. split; [done|].
      apply labelled_skip; [congruence|done]. }
  destruct (decide (ph_label ph ∈ wanted)) as [Hw|Hw].
  - rewrite bool_decide_true by done. destruct (decide (row_key row ∈ seen)) as [Hs|Hs].
    + rewrite (bool_decide_true (row_key row ∈ seen)) by done. simpl.
      destruct (IH counts seen) as (out & c & -> & ?). exists out, c. split; [done|].
      apply labelled_skip; [done|done].
    + rewrite (bool_decide_false (row_key row ∈ seen)) by done. cbn [negb andb].
      rewrite set_label_full by done. cbn [mbind res_bind].
      edestruct IH as (out & c & -> & Hl). cbn [mbind res_bind]. eexists _, c. split; [done|].
      by apply labelled_take.
  - rewrite bool_decide_false by done. simpl.
    destruct (IH counts seen) as (out & c & -> & ?). exists out, c. split; [done|].
    apply labelled_skip; [congruence|done].
Qed.

Lemma read_capture_rows_ok text header records :
  csv_reader text = header :: records → length BASE_CSV_HEADER ≤ length header →
  Forall capture_row (read_capture_rows text).
Proof.
  intros Ht Hh. unfold read_capture_rows. rewrite Ht. apply Forall_forall. intros r.
  rewrite list_elem_of_omap. intros (row & _ & Hr). destruct (length row =? length header)%nat eqn:Hl; [|done].
  apply Nat.eqb_eq in Hl. simpl in Hr. destruct (row_timestamp row) as [ts|e] eqn:Hts; [|done].
  injection Hr as <-. split.
  - unfold full_row. rewrite length_take. apply Nat.min_l. by rewrite Hl.
  - exists ts. rewrite <-Hts. apply row_timestamp_key. unfold row_key. rewrite take_take. f_equal.
Qed.

(** The labeler, from a capture file whose header has the base columns, raises
    nothing. Every row written is a row of the file inside a phase whose label
    was asked for, with that label in place of its own; every such row of the
    file is written under its ground-truth label, and a window is written once
    however often it was captured; the counts are of the rows written. *)
Theorem benchmark_labels text header records phases wanted :
  csv_reader text = header :: records → length BASE_CSV_HEADER ≤ length header →
  let rows := read_capture_rows text in
  ∃ out counts, benchmark_rows rows phases wanted ∅ ∅ = Ok (out, counts) ∧
    (∀ o, o ∈ out → ∃ row ph, row ∈ rows ∧ row_phase phases row = Some ph ∧ ph_label ph ∈ wanted ∧
                              o = label_with row (ph_label ph)) ∧
    (∀ row ph, row ∈ rows → row_phase phases row = Some ph → ph_label ph ∈ wanted →
       ∃ o, o ∈ out ∧ row_key o = row_key row ∧ o !! LABEL_COL = Some (pretty (ph_label ph))) ∧
    NoDup (row_key <$> out) ∧
    (∀ name, default 0 (counts !! name) = length (List.filter (from_phase phases name) out)).
Proof.
  intros Ht Hh rows.
  destruct (benchmark_rows_labelled rows phases wanted ∅ ∅) as (out & counts & He & Hs & Hc & Hn & Hk).
  { by eapply read_capture_rows_ok. }
  exists out, counts. split_and!; [done|..|done|].
  - intros o Ho. by destruct (Hs o Ho).
  - intros row ph Hr Hp Hw. apply Hc; set_solver.
  - intros name. rewrite Hk, lookup_empty. done.
Qed.

(** A window captured twice in an attack phase, and one outside of it. *)
Definition demo_capture : string :=
  csv_rows [BASE_CSV_HEADER; demo_row "20" "0"; demo_row "20" ""; demo_row "100" "0"].
Definition demo_phases : list Phase := [mkPhase (flt 15 1) (flt 45 1) 2 "attack_syn"].

Lemma benchmark_labels_witness :
  ∃ out counts, benchmark_rows (read_capture_rows demo_capture) demo_phases {[2%Z]} ∅ ∅ = Ok (out, counts) ∧
    NoDup (row_key <$> out) ∧
    ∃ o, o ∈ out ∧ row_key o = row_key (demo_row "20" "") ∧ o !! LABEL_COL = Some (pretty 2%Z).
Proof.
  destruct (benchmark_labels demo_capture BASE_CSV_HEADER
              [demo_row "20" "0"; demo_row "20" ""; demo_row "100" "0"] demo_phases {[2%Z]})
    as (out & counts & He & _ & Hc & Hn & _); [vm_compute; reflexivity|reflexivity|].
  exists out, counts. split; [exact He|]. split; [exact Hn|].
  apply (Hc (demo_row "20" "") (mkPhase (flt 15 1) (flt 45 1) 2 "attack_syn")).
  - apply list_elem_of_lookup_2 with 1%nat. vm_compute. reflexivity.
  - vm_compute. reflexivity.
  - apply elem_of_singleton_2. reflexivity.
Defined.
