(* ===== verification/LabelBenchmark.v ===== *)
(** * scripts/label_from_benchmark.py: [main]

    The labels asked for, the phases of every run, the rows of every capture,
    and the file written. The texts of the files are arguments; argparse is
    represented by the parsed arguments and the exit of [parser.error]. *)

From stdpp Require Import pretty.
From S2P Require Import Prelude PyNum PyStr PyTime Csv Json World Storage Config Capture AutoLabel Scripts.

(** A run directory: phase_boundaries.tsv and traffic_variants.tsv. *)
Record BenchRunDir := mkBenchRunDir { br_boundaries : string; br_variants : option string }.

(** [{int(x) for x in labels.split(",") if x.strip()}] *)
Definition parse_labels (labels : string) : res (gset Z) :=
  l ← map_res int_of_string (List.filter (λ x, negb (bool_decide (str_strip x = EmptyString))) (str_split "," labels));
  Ok (list_to_set l).

Definition GROUND_TRUTH : gset Z := {[0; 1; 2]}%Z.

Definition row_label (row : csv_rowt) : string := default EmptyString (row !! LABEL_COL).
Definition tally_label (d : list (string * Z)) (row : csv_rowt) : list (string * Z) :=
  dict_set (row_label row) (default 0 (dict_get (row_label row) d) + 1)%Z d.
Definition by_label (labeled : list csv_rowt) : list (string * Z) := foldl tally_label [] labeled.

Definition key_lt {V} (a b : string * V) : bool := String.ltb a.1 b.1.

Record LabelRun := mkLabelRun {
  lr_file : string; lr_rows : list csv_rowt; lr_by_label : list (string * Z); lr_by_phase : list (string * nat) }.

Definition label_main (runs : list BenchRunDir) (captures : list string) (labels : string) (margin : num) : res LabelRun :=
  wanted ← parse_labels labels;
  if negb (bool_decide (wanted ⊆ GROUND_TRUTH)) then Exn (SystemExit 2)
  else
    phases ← map_res (λ r, load_phases (br_boundaries r) (br_variants r) margin) runs;
    labeled ← benchmark_rows (mjoin (read_capture_rows <$> captures)) (mjoin phases) wanted ∅ ∅;
    Ok (mkLabelRun (csv_rows (BASE_CSV_HEADER :: labeled.1)) labeled.1
          (py_sort key_lt (by_label labeled.1)) (py_sort key_lt (map_to_list labeled.2))).

(** What it prints; the label counts in the spelling of a Python dictionary. *)
Fixpoint dict_items (l : list (string * Z)) : string :=
  match l with
  | [] => EmptyString
  | [(k, v)] => "'" ^^ k ^^ "': " ^^ pretty v
  | (k, v) :: l' => "'" ^^ k ^^ "': " ^^ pretty v ^^ ", " ^^ dict_items l'
  end.
Definition label_lines (out : string) (r : LabelRun) : list string :=
  ("Wrote " ^^ pretty (Z.of_nat (length (lr_rows r))) ^^ " labeled row(s) to " ^^ out ^^ ": {" ^^ dict_items (lr_by_label r) ^^ "}") ::
  ((λ p, "  " ^^ p.1 ^^ ": " ^^ pretty (Z.of_nat p.2)) <$> lr_by_phase r).

(** ** Properties *)

Definition total (d : list (string * Z)) : Z := foldr (λ p s, p.2 + s)%Z 0%Z d.

Lemma total_set k d : total (dict_set k (default 0 (dict_get k d) + 1)%Z d) = (total d + 1)%Z.
Proof.
  induction d as [|[k' v] d IH]; [reflexivity|]. cbn [dict_set dict_get]. destruct (decide (k = k')); cbn [total foldr snd default].
  - unfold id. fold (total d). lia.
  - fold (total d). fold (total (dict_set k (default 0 (dict_get k d) + 1)%Z d)). rewrite IH. lia.
Qed.

Lemma by_label_total l d : total (foldl tally_label d l) = (total d + Z.of_nat (length l))%Z.
Proof.
  revert d. induction l as [|row l IH]; intros d; cbn [foldl length]; [lia|]. rewrite IH. unfold tally_label. rewrite total_set. lia.
Qed.

Lemma total_perm d d' : d ≡ₚ d' → total d = total d'.
Proof. induction 1; unfold total in *; cbn; lia. Qed.

(** A capture whose header has the base columns. *)
Definition base_capture (text : string) : Prop :=
  ∃ header records, csv_reader text = header :: records ∧ length BASE_CSV_HEADER ≤ length header.

Lemma capture_rows_joined captures :
  Forall base_capture captures → Forall capture_row (mjoin (read_capture_rows <$> captures)).
Proof.
  induction 1 as [|t l (h & r & Ht & Hh) _ IH]; [constructor|]. rewrite fmap_cons. apply Forall_app.
  split; [by eapply read_capture_rows_ok|done].
Qed.

(** Once the labels are ground-truth labels and the runs can be read, the
    script writes a file that reads back as the training header and the rows
    it counted: each a captured row under the label of the phase it fell in,
    one of the labels asked for, and no window twice. *)
Theorem label_run_written runs captures labels margin wanted phases :
  parse_labels labels = Ok wanted → wanted ⊆ GROUND_TRUTH →
  map_res (λ r, load_phases (br_boundaries r) (br_variants r) margin) runs = Ok phases →
  Forall base_capture captures →
  ∃ r, label_main runs captures labels margin = Ok r ∧
       csv_reader (lr_file r) = BASE_CSV_HEADER :: lr_rows r ∧
       total (lr_by_label r) = Z.of_nat (length (lr_rows r)) ∧ NoDup (row_key <$> lr_rows r) ∧
       ∀ o, o ∈ lr_rows r → ∃ row ph, row ∈ mjoin (read_capture_rows <$> captures) ∧
         row_phase (mjoin phases) row = Some ph ∧ ph_label ph ∈ wanted ∧ o = label_with row (ph_label ph).
Proof.
  intros Hl Hw Hp Hc. unfold label_main. rewrite Hl. cbn [mbind res_bind]. rewrite bool_decide_eq_true_2 by done. cbn [negb].
  rewrite Hp. cbn [mbind res_bind].
  destruct (benchmark_rows_labelled _ (mjoin phases) wanted ∅ ∅ (capture_rows_joined _ Hc)) as (out & counts & -> & Hs & _ & Hn & _).
  cbn [mbind res_bind]. eexists. split; [done|]. cbn [lr_file lr_rows lr_by_label fst].
  assert (Hr : ∀ o, o ∈ out → ∃ row ph, row ∈ mjoin (read_capture_rows <$> captures) ∧
         row_phase (mjoin phases) row = Some ph ∧ ph_label ph ∈ wanted ∧ o = label_with row (ph_label ph))
    by (intros o Ho; by destruct (Hs o Ho)).
  split; [|split; [|split]]; [| |done|done].
  - apply read_rows. constructor; [done|]. apply Forall_forall. intros o Ho ->. destruct (Hr [] Ho) as (row & ph & Hrow & _ & _ & E).
    apply (f_equal length) in E. unfold label_with in E. rewrite length_insert in E.
    destruct (proj1 (Forall_forall _ _) (capture_rows_joined _ Hc) _ Hrow) as [Hf _]. unfold full_row in Hf. by rewrite Hf in E.
  - rewrite (total_perm _ (by_label out)) by apply py_sort_perm. unfold by_label. rewrite by_label_total. done.
Qed.

(** A label outside the ground truth is refused before anything is read. *)
Lemma unknown_label_refused runs captures labels margin wanted l :
  parse_labels labels = Ok wanted → l ∈ wanted → (l < 0 ∨ 2 < l)%Z →
  label_main runs captures labels margin = Exn (SystemExit 2).
Proof.
  intros Hl Hin Hb. unfold label_main. rewrite Hl. cbn [mbind res_bind]. rewrite bool_decide_eq_false_2; [done|].
  intros Hsub. specialize (Hsub l Hin). unfold GROUND_TRUTH in Hsub. set_unfold. lia.
Qed.

(** ** A run *)

Definition tab : string := String (ascii_of_nat 9) EmptyString.
Definition demo_dir : BenchRunDir :=
  mkBenchRunDir ("attack" ^^ tab ^^ "1970-01-01 00:00:10" ^^ String newline ("session_end" ^^ tab ^^ "1970-01-01 00:01:10"))
    (Some ("attack" ^^ tab ^^ "attack" ^^ tab ^^ "syn")).

Lemma label_run_written_witness :
  match parse_labels "0, 2", map_res (λ r, load_phases (br_boundaries r) (br_variants r) (NInt 5)) [demo_dir] with
  | Ok wanted, Ok phases =>
      ∃ r, label_main [demo_dir] [demo_capture] "0, 2" (NInt 5) = Ok r ∧
           csv_reader (lr_file r) = BASE_CSV_HEADER :: lr_rows r ∧
           total (lr_by_label r) = Z.of_nat (length (lr_rows r)) ∧ NoDup (row_key <$> lr_rows r) ∧
           ∀ o, o ∈ lr_rows r → ∃ row ph, row ∈ mjoin (read_capture_rows <$> [demo_capture]) ∧
             row_phase (mjoin phases) row = Some ph ∧ ph_label ph ∈ wanted ∧ o = label_with row (ph_label ph)
  | _, _ => False
  end.
Proof.
  destruct (parse_labels "0, 2") as [wanted|] eqn:Hl; [|vm_compute in Hl; discriminate].
  destruct (map_res _ [demo_dir]) as [phases|] eqn:Hp; [|vm_compute in Hp; discriminate].
  apply (label_run_written [demo_dir] [demo_capture] "0, 2" (NInt 5) wanted phases Hl).
  - injection Hl as <-. apply (bool_decide_eq_true_1 _). vm_compute. reflexivity.
  - exact Hp.
  - constructor; [|constructor]. eexists _, _. split; [vm_compute; reflexivity|apply Nat.leb_le; vm_compute; reflexivity].
Defined.

Example demo_labels :
  (λ r, label_lines "out.csv" r) <$> (match label_main [demo_dir] [demo_capture] "2" (NInt 5) with Ok r => Some r | Exn _ => None end) =
  Some ["Wrote 1 labeled row(s) to out.csv: {'2': 1}"; "  attack: 1"]%string.
Proof. vm_compute. reflexivity. Qed.
