(* ===== verification/Calibrate.v ===== *)
(** * scripts/calibrate.py: sigma floors from the sensor's window log

    The journal, systemctl, the clock and the user id are an environment; the
    four files the script touches are the state. The printed report and
    the progress lines are in [CalibrateReport].
    A value of the tuning file is kept as a number, not as the text [%s]
    makes of it. *)

From S2P Require Import Prelude PyNum PyStat PyStr Regex.
#[local] Open Scope Z_scope.

(** ** Reading the journal *)

Definition ANSI_RE : list tok :=
  [TLit (String (ascii_of_nat 27) "["); star (λ c, c_digit c || c_one [";"%char] c); TLit "m"].

Definition WINDOW_RE : list tok :=
  [TLit "Window #"; group c_digit; TLit "[victim="; group (c_not ["]"%char]); TLit "]: r="; group c_number;
   TLit " pps | h="; group c_number; TLit " bits | μ_r="; group c_number; TLit " σ_r="; group c_number;
   TLit " (active="; group c_number; TLit ") | μ_h="; group c_number; TLit " σ_h="; group c_number;
   TLit " (active="; group c_number; TLit ") | cooldown="; group c_digit].

Definition K_RE : list tok :=
  [TLit "Analysis: thread started |"; star c_any; TLit "| k="; group c_number].

Definition WARMUP_RE : list tok :=
  [TLit "Analysis [victim="; group (c_not ["]"%char]); TLit "]: warm-up window "; group c_digit; TLit "/";
   group c_digit].

Record CalWindow := mkCalWindow {
  cw_wid : Z; cw_r : num; cw_h : num; cw_mean_r : num; cw_sigma_r : num;
  cw_mean_h : num; cw_sigma_h : num; cw_cooldown : Z }.

Definition window_of_groups (g : list string) : res (string * CalWindow) :=
  match g with
  | [id; ip; r; h; mean_r; sigma_r; _; mean_h; sigma_h; _; cooldown] =>
      wid ← int_of_string id; r ← parse_float r; h ← parse_float h;
      mean_r ← parse_float mean_r; sigma_r ← parse_float sigma_r;
      mean_h ← parse_float mean_h; sigma_h ← parse_float sigma_h; cd ← int_of_string cooldown;
      Ok (ip, mkCalWindow wid r h mean_r sigma_r mean_h sigma_h cd)
  | _ => Exn IndexError
  end.

(** [by_ip.setdefault(ip, []).append(w)] *)
Definition add_window (ip : string) (w : CalWindow) (d : list (string * list CalWindow))
    : list (string * list CalWindow) := dict_set ip (default [] (dict_get ip d) ++ [w]) d.

Fixpoint parse_window_lines (lines : list string) (by_ip : list (string * list CalWindow)) (k : option num)
    : res (list (string * list CalWindow) * option num) :=
  match lines with
  | [] => Ok (by_ip, k)
  | line :: ls =>
      match re_search K_RE line with
      | Some g => v ← parse_float (default EmptyString (head g)); parse_window_lines ls by_ip (Some v)
      | None =>
          match re_search WINDOW_RE line with
          | None => parse_window_lines ls by_ip k
          | Some g => iw ← window_of_groups g; parse_window_lines ls (add_window iw.1 iw.2 by_ip) k
          end
      end
  end.
Definition parse_windows (text : string) : res (list (string * list CalWindow) * option num) :=
  parse_window_lines (splitlines text) [] None.

Fixpoint parse_warmup_lines (lines : list string) (progress : list (string * (Z * Z))) : res (list (string * (Z * Z))) :=
  match lines with
  | [] => Ok progress
  | line :: ls =>
      match re_search WARMUP_RE line with
      | Some [ip; n; total] =>
          n ← int_of_string n; total ← int_of_string total;
          parse_warmup_lines ls (dict_set ip (n, total) progress)
      | _ => parse_warmup_lines ls progress
      end
  end.
Definition parse_warmup (text : string) : res (list (string * (Z * Z))) := parse_warmup_lines (splitlines text) [].

(** ** Statistics *)

(** [l[i]] for an index that is not negative. *)
Definition nth_num (l : list num) (i : Z) : res num :=
  match l !! Z.to_nat i with Some x => Ok x | None => Exn IndexError end.

Definition percentile (values : list num) (q : num) : res num :=
  match values with
  | [] => Ok (flt 0 1)
  | _ =>
      let s := py_sorted values in
      match s with
      | [x] => Ok x
      | _ =>
          let pos := nmul (NInt (Z.of_nat (length s) - 1)) q in
          lo ← nfloor pos; hi ← nceil pos;
          if lo =? hi then i ← py_int pos; nth_num s i
          else a ← nth_num s lo; b ← nth_num s hi;
               Ok (nadd a (nmul (nsub b a) (nsub pos (NInt lo))))
      end
  end.

Definition robust_sigma (values : list num) : res num :=
  if (length values <? 2)%nat then Ok (flt 0 1)
  else
    med ← median values;
    mad ← median ((λ v, nabs (nsub v med)) <$> values);
    if nlt (flt 0 1) mad then Ok (nmul mad (flt 14826 10000)) else pstdev values.

Record Floors := mkFloors {
  fl_windows_total : nat; fl_windows_clean : nat; fl_flagged_share : num;
  fl_mu_r : num; fl_peak_r : num; fl_spread_r : num; fl_tail_r : num; fl_rate_floor : num;
  fl_mu_h : num; fl_trough_h : num; fl_spread_h : num; fl_tail_h : num; fl_entropy_floor : num;
  fl_learned_mean_r : num; fl_learned_sigma_r : num; fl_learned_sigma_h : num }.

Definition clean_windows (windows : list CalWindow) : list CalWindow :=
  List.filter (λ w, cw_cooldown w =? 0) windows.

Definition recommend (windows : list CalWindow) (k margin : num) : res (option Floors) :=
  let clean := clean_windows windows in
  if (length clean <? 2)%nat then Ok None
  else
    let rates := cw_r <$> clean in
    let entropies := cw_h <$> clean in
    mu_r ← fmean rates;
    mu_h ← fmean entropies;
    peak_r ← percentile rates (flt 995 1000);
    trough_h ← percentile entropies (flt 5 1000);
    spread_r ← robust_sigma rates;
    spread_h ← robust_sigma entropies;
    over_r ← ndiv (nsub (nmul peak_r (nadd (flt 1 1) margin)) mu_r) k;
    over_h ← ndiv (nsub mu_h (nmul trough_h (nsub (flt 1 1) margin))) k;
    let tail_r := py_max (flt 0 1) over_r in
    let tail_h := py_max (flt 0 1) over_h in
    share ← ndiv (len_num clean) (len_num windows);
    lm ← fmean (cw_mean_r <$> clean);
    lr ← fmean (cw_sigma_r <$> clean);
    lh ← fmean (cw_sigma_h <$> clean);
    Ok (Some (mkFloors (length windows) (length clean) (nsub (flt 1 1) share)
                mu_r peak_r spread_r tail_r (py_max (py_max spread_r tail_r) (flt 1 1))
                mu_h trough_h spread_h tail_h (py_max (py_max spread_h tail_h) (flt 1 1000)) lm lr lh)).

(** [max(..)] of an empty sequence raises. *)
Definition max_of (l : list num) : res num := match l with [] => Exn ValueError | x :: l' => Ok (py_max_list x l') end.
Definition min_of (l : list num) : res num := match l with [] => Exn ValueError | x :: l' => Ok (py_min_list x l') end.

Definition reconcile (results : list (string * Floors)) : res (num * num) :=
  rate ← max_of (fl_rate_floor <$> results.*2);
  entropy ← max_of (fl_entropy_floor <$> results.*2);
  rate_lo ← min_of (fl_rate_floor <$> results.*2);
  if (1 <? length results)%nat && nlt (NInt 0) rate_lo then _ ← ndiv rate rate_lo; Ok (rate, entropy)
  else Ok (rate, entropy).

Definition SENSOR_ENTROPY_SIGMA_CEILING : num := flt 15 100.

Definition build_flags (rate_floor entropy_floor : num) : list (string * num) :=
  [("--rate-sigma-floor"%string, py_round rate_floor 1);
   ("--entropy-sigma-floor"%string, py_round entropy_floor 4)] ++
  (if nlt SENSOR_ENTROPY_SIGMA_CEILING (nmul entropy_floor (flt 2 1))
   then [("--entropy-sigma-ceiling"%string, py_min (flt 9 10) (py_round (nmul entropy_floor (flt 3 1)) 4))]
   else []).

(** ** The unit file *)

Definition TUNING_FILE : string := "/etc/ddos_stage1/tuning.env".
Definition TUNING_VAR : string := "FLOD_TUNING".
Definition nl : string := String newline EmptyString.
Definition tuning_ref : string := "$" ^^ TUNING_VAR.

Definition is_envfile (l : string) : bool :=
  str_prefix "EnvironmentFile=" (str_strip l) && str_contains TUNING_FILE l.
Definition is_exec (l : string) : bool := str_prefix "ExecStart=" l.
Definition env_line : string := "EnvironmentFile=-" ^^ TUNING_FILE ^^ nl.
Definition with_tuning (l : string) : string := rstrip_newline l ^^ " " ^^ tuning_ref ^^ nl.

Fixpoint find_index (p : string → bool) (ls : list string) : option nat :=
  match ls with
  | [] => None
  | l :: ls' => if p l then Some 0%nat else S <$> find_index p ls'
  end.

(** [lines] of the unit after the patch and whether it changed. *)
Definition patch_lines (lines : list string) : option (list string * bool) :=
  let has_envfile := existsb is_envfile lines in
  i ← find_index is_exec lines;
  l ← lines !! i;
  let refers := str_contains tuning_ref l in
  let lines1 := if refers then lines else <[i := with_tuning l]> lines in
  let lines2 := if has_envfile then lines1 else take i lines1 ++ env_line :: drop i lines1 in
  Some (lines2, negb refers || negb has_envfile).

(** ** The host *)

(** Each consultation of the environment has its own number. *)
Class Machine := mkMachine {
  geteuid : Z;
  process : nat → list string → Z * string;
  monotonic : nat → num;
  (** [(datetime.now() - timedelta(..)).strftime(..)] by the seconds taken off *)
  now_minus : Z → res string }.

Record Host := mkHost {
  h_tick : nat; h_cmds : list (list string);
  h_unit : option (list string);
  h_tuning : option (nat * list (string * num));
  h_dropin : bool; h_baseline : bool }.

Definition h_step (h : Host) : Host :=
  mkHost (S (h_tick h)) (h_cmds h) (h_unit h) (h_tuning h) (h_dropin h) (h_baseline h).
Definition h_log (c : list string) (h : Host) : Host :=
  mkHost (h_tick h) (h_cmds h ++ [c]) (h_unit h) (h_tuning h) (h_dropin h) (h_baseline h).
Definition set_unit (u : list string) (h : Host) : Host :=
  mkHost (h_tick h) (h_cmds h) (Some u) (h_tuning h) (h_dropin h) (h_baseline h).
Definition set_tuning (t : option (nat * list (string * num))) (h : Host) : Host :=
  mkHost (h_tick h) (h_cmds h) (h_unit h) t (h_dropin h) (h_baseline h).
Definition set_dropin (b : bool) (h : Host) : Host :=
  mkHost (h_tick h) (h_cmds h) (h_unit h) (h_tuning h) b (h_baseline h).
Definition set_baseline (b : bool) (h : Host) : Host :=
  mkHost (h_tick h) (h_cmds h) (h_unit h) (h_tuning h) (h_dropin h) b.

Record Args := mkArgs {
  a_windows : Z; a_since : string; a_timeout : Z; a_partial : bool; a_k : option num; a_margin : num;
  a_apply : bool; a_clear_baseline : bool; a_auto_debug : bool; a_no_restart : bool; a_reset : bool }.

Definition SERVICE : string := "ddos-stage1.service".
Definition daemon_reload : list string := ["systemctl"; "daemon-reload"].
Definition restart : list string := ["systemctl"; "restart"; SERVICE].

(** [try: m finally: f], where [f] may raise itself. *)
Definition finally_do {W A} (m : M W A) (f : M W unit) : M W A := λ w,
  let '(r, w1) := m w in
  match f w1 with (Ok _, w2) => (r, w2) | (Exn e, w2) => (Exn e, w2) end.

Section host.
Context {E : Machine}.

Definition die {A} : M Host A := raise (SystemExit 1).

(** [subprocess.run], and [run] with [check]. *)
Definition invoke (c : list string) : M Host (Z * string) := λ h,
  (Ok (process (h_tick h) c), h_step (h_log c h)).
Definition run (c : list string) : M Host string :=
  r ← invoke c; if negb (r.1 =? 0) then die else mret r.2.
Definition time_monotonic : M Host num := λ h, (Ok (monotonic (h_tick h)), h_step h).
Definition need_root : M Host unit := if negb (geteuid =? 0) then die else mret tt.

Definition unit_secs (u : string) : Z :=
  if bool_decide (u = "s"%string) then 1 else if bool_decide (u = "m"%string) then 60
  else if bool_decide (u = "h"%string) then 3600 else 86400.

Definition journal_since (spec : string) : res string :=
  match re_fullmatch [TLit "-"; group c_digit; TRep (c_one ["s"%char; "m"%char; "h"%char; "d"%char]) 1 (Some 1%nat) true true]
                     (str_strip spec) with
  | Some [n; u] => n ← int_of_string n; now_minus (n * unit_secs u)
  | _ => Ok spec
  end.

Definition read_journal (since : string) : M Host string :=
  out ← run ["journalctl"; "-u"; SERVICE; "--no-pager"; "-o"; "cat"; "--since"; since];
  mret (re_sub ANSI_RE EmptyString out).

Definition sample_size (ws : list CalWindow) : Z := Z.of_nat (length (clean_windows ws)).
Definition sample_full (args : Args) (by_ip : list (string * list CalWindow)) : bool :=
  forallb (λ iw, a_windows args <=? sample_size iw.2) by_ip.

(** [collect]: [fuel] rounds of its loop; [None] when they are used up. *)
Fixpoint collect_loop (args : Args) (since : string) (deadline : num) (fuel : nat)
    : M Host (option (list (string * list CalWindow) * option num)) :=
  match fuel with
  | 0%nat => mret None
  | S fuel' =>
      text ← read_journal since;
      parsed ← lift (parse_windows text);
      match parsed.1 with
      | [] =>
          _ ← lift (parse_warmup text);
          now ← time_monotonic;
          if nle deadline now then die else collect_loop args since deadline fuel'
      | _ =>
          if sample_full args parsed.1 then mret (Some parsed)
          else
            now ← time_monotonic;
            if nle deadline now then if a_partial args then mret (Some parsed) else die
            else collect_loop args since deadline fuel'
      end
  end.

Definition collect (args : Args) (since_spec : string) (fuel : nat)
    : M Host (option (list (string * list CalWindow) * option num)) :=
  since ← lift (journal_since since_spec);
  now ← time_monotonic;
  collect_loop args since (nadd now (NInt (a_timeout args * 60))) fuel.

Definition set_debug_logging (enabled : bool) : M Host bool :=
  h ← gets h_dropin;
  if negb enabled && negb h then mret false
  else
    modify (set_dropin enabled);;
    run daemon_reload;;
    run restart;;
    when enabled (invoke ["systemctl"; "show"; SERVICE; "-p"; "Environment"];; mret tt);;
    mret true.

Definition ensure_unit_reads_tuning : M Host bool :=
  u ← gets h_unit;
  match u with
  | None => die
  | Some lines =>
      match patch_lines lines with
      | None => die
      | Some (lines', changed) => when changed (modify (set_unit lines'));; mret changed
      end
  end.

Definition write_tuning (flags : list (string * num)) (sample : nat) : M Host unit :=
  modify (set_tuning (Some (sample, flags))).

Definition do_reset (args : Args) : M Host Z :=
  need_root;;
  t ← gets h_tuning;
  match t with
  | None => mret 0
  | Some _ =>
      modify (set_tuning None);;
      when (negb (a_no_restart args)) (run restart;; mret tt);;
      mret 0
  end.

(** The targets with enough clean windows, and their floors. *)
Fixpoint recommend_all (by_ip : list (string * list CalWindow)) (k margin : num) : res (list (string * Floors)) :=
  match by_ip with
  | [] => Ok []
  | (ip, ws) :: rest =>
      d ← recommend ws k margin;
      ds ← recommend_all rest k margin;
      Ok (match d with Some f => (ip, f) :: ds | None => ds end)
  end.

Definition min_sample (results : list (string * Floors)) : nat :=
  match fl_windows_clean <$> results.*2 with [] => 0 | n :: ns => foldl Nat.min n ns end.

(** [main], from the parsed arguments on. *)
Definition apply_calibration (args : Args) (results : list (string * Floors)) (flags : list (string * num))
    : M Host Z :=
  ensure_unit_reads_tuning;;
  write_tuning flags (min_sample results);;
  run daemon_reload;;
  b ← gets h_baseline;
  when (a_clear_baseline args && b) (modify (set_baseline false));;
  when (negb (a_no_restart args)) (run restart;; mret tt);;
  mret 0.

Definition conclude (args : Args) (by_ip : list (string * list CalWindow)) (journal_k : option num) : M Host Z :=
  let k := match a_k args with
           | Some x => if is_zero x then journal_k else Some x
           | None => journal_k
           end in
  match k with
  | None => die
  | Some k =>
      results ← lift (recommend_all by_ip k (a_margin args));
      match results with
      | [] => die
      | _ =>
          floors ← lift (reconcile results);
          let flags := build_flags floors.1 floors.2 in
          if negb (a_apply args) then mret 0 else apply_calibration args results flags
      end
  end.

Definition calibrate_main (args : Args) (fuel : nat) : M Host (option Z) :=
  if a_reset args then r ← do_reset args; mret (Some r)
  else
    (if a_apply args || a_auto_debug args then need_root else mret tt);;
    (if a_windows args <? 2 then die else mret tt);;
    when (a_auto_debug args) (set_debug_logging true;; mret tt);;
    since ← lift (if a_auto_debug args then journal_since "-1m" else Ok (a_since args));
    sample ← finally_do (collect args since fuel)
               (when (a_auto_debug args) (set_debug_logging false;; mret tt));
    match sample with
    | None => mret None
    | Some (by_ip, journal_k) => r ← conclude args by_ip journal_k; mret (Some r)
    end.
End host.
