(* ===== verification/CalibrateFacts.v ===== *)
(** * What the calibration does to the host

    The unit patch, the floors, termination of the sampling loop, and the
    files a run may touch. *)

From S2P Require Import Prelude PyNum PyStat PyStr Regex Calibrate.

(** ** The unit file *)

Lemma contains_app p a b : str_contains p (a ^^ p ^^ b) = true.
Proof.
  induction a as [|c a IH].
  - change (EmptyString ^^ p ^^ b) with (p ^^ b). destruct (p ^^ b) eqn:Hb; cbn [str_contains];
      rewrite <-Hb, str_prefix_app; done.
  - change (str_prefix p (String c (a ^^ p ^^ b)) || str_contains p (a ^^ p ^^ b) = true).
    rewrite IH. by rewrite orb_true_r.
Qed.

Lemma prefix_app_r p a b : str_prefix p a = true → str_prefix p (a ^^ b) = true.
Proof. intros [t ->]%str_prefix_spec. rewrite str_app_assoc. apply str_prefix_app. Qed.

Lemma drop_newlines_app l c r : c ≠ newline → ∃ u, drop_newlines (l ++ c :: r) = u ++ c :: r.
Proof.
  intros Hc. induction l as [|x l [u IH]]; simpl.
  - rewrite bool_decide_eq_false_2 by done. by exists [].
  - case_bool_decide; [by exists u|]. by exists (x :: l).
Qed.

Lemma drop_spaces_app l c r : is_space c = false → ∃ u, drop_spaces (l ++ c :: r) = u ++ c :: r.
Proof.
  intros Hc. induction l as [|x l [u IH]]; simpl.
  - rewrite Hc. by exists [].
  - destruct (is_space x); [by exists u|]. by exists (x :: l).
Qed.

(** The text before the last character that is no newline stays. *)
Lemma rstrip_prefix p c t :
  c ≠ newline → ∃ t', rstrip_newline (p ^^ String c t) = p ^^ String c t'.
Proof.
  intros Hc. unfold rstrip_newline. rewrite list_ascii_app. cbn [list_ascii_of_string].
  rewrite rev_app_distr. cbn [rev]. rewrite <-app_assoc. cbn [app].
  destruct (drop_newlines_app (rev (list_ascii_of_string t)) c (rev (list_ascii_of_string p)) Hc) as [u ->].
  rewrite rev_app_distr. cbn [rev]. rewrite rev_involutive, <-app_assoc. cbn [app].
  exists (string_of_list_ascii (rev u)). rewrite <-(string_of_list_ascii_of_string p) at 2.
  induction (list_ascii_of_string p) as [|x l IH]; [done|]. exact (f_equal (String x) IH).
Qed.

Lemma exec_with_tuning l : is_exec l = true → is_exec (with_tuning l) = true.
Proof.
  intros [t ->]%str_prefix_spec. unfold with_tuning, is_exec.
  change "ExecStart=" with ("ExecStart" ^^ "=").
  assert (He : ("ExecStart" ^^ "=") ^^ t = "ExecStart" ^^ String "=" t) by reflexivity.
  rewrite He. destruct (rstrip_prefix "ExecStart" "=" t) as [t' ->]; [done|]. reflexivity.
Qed.

Lemma strip_two c1 c2 t :
  is_space c1 = false → is_space c2 = false → ∃ u, strip_list (c1 :: c2 :: t) = c1 :: c2 :: u.
Proof.
  intros H1 H2. unfold strip_list. cbn [drop_spaces]. rewrite H1. cbn [rev]. rewrite <-app_assoc.
  cbn [app]. destruct (drop_spaces_app (rev t) c2 [c1] H2) as [u ->]. rewrite rev_app_distr. by eexists.
Qed.

Lemma exec_not_envfile l : is_exec l = true → is_envfile l = false.
Proof.
  intros [t ->]%str_prefix_spec. unfold is_envfile. apply andb_false_iff. left. unfold str_strip.
  change (list_ascii_of_string ("ExecStart=" ^^ t))
    with ("E"%char :: "x"%char :: list_ascii_of_string ("ecStart=" ^^ t)).
  destruct (strip_two "E" "x" (list_ascii_of_string ("ecStart=" ^^ t))) as [u ->]; done.
Qed.

Lemma tuning_in_with l : str_contains tuning_ref (with_tuning l) = true.
Proof. unfold with_tuning. rewrite <-(str_app_assoc _ " "). apply contains_app. Qed.

Lemma find_index_spec p ls i :
  find_index p ls = Some i → ∃ l, ls !! i = Some l ∧ p l = true ∧ Forall (λ x, p x = false) (take i ls).
Proof.
  revert i. induction ls as [|x ls IH]; simpl; intros i; [done|]. destruct (p x) eqn:Hx.
  - intros [= <-]. exists x. by repeat constructor.
  - destruct (find_index p ls) as [j|]; [|done]. intros [= <-]. destruct (IH j eq_refl) as (l & ? & ? & ?).
    exists l. simpl. auto.
Qed.

Lemma find_index_at p pre l post :
  Forall (λ x, p x = false) pre → p l = true → find_index p (pre ++ l :: post) = Some (length pre).
Proof. induction 1 as [|x pre Hx _ IH]; simpl; intros Hl; [by rewrite Hl|]. by rewrite Hx, IH. Qed.

Lemma find_index_none p ls : find_index p ls = None ↔ Forall (λ x, p x = false) ls.
Proof.
  induction ls as [|x ls IH]; simpl; [by split; [constructor|]|]. rewrite Forall_cons.
  destruct (p x); [naive_solver|]. destruct (find_index p ls); naive_solver.
Qed.

(** The shape of a patched unit: the lines before [ExecStart=], the reference
    to the tuning file, and [ExecStart=] itself with the variable. *)
Definition exec_line (l : string) : string := if str_contains tuning_ref l then l else with_tuning l.
Definition env_lines (lines : list string) : list string := if existsb is_envfile lines then [] else [env_line].

Lemma patch_lines_shape pre l post :
  Forall (λ x, is_exec x = false) pre → is_exec l = true →
  patch_lines (pre ++ l :: post) =
    Some (pre ++ env_lines (pre ++ l :: post) ++ exec_line l :: post,
          negb (str_contains tuning_ref l) || negb (existsb is_envfile (pre ++ l :: post))).
Proof.
  intros Hpre Hl. unfold patch_lines. rewrite (find_index_at is_exec pre l post) by done. simpl.
  rewrite list_lookup_middle by done. simpl. unfold exec_line, env_lines.
  assert (Hins : <[length pre := with_tuning l]> (pre ++ l :: post) = pre ++ with_tuning l :: post).
  { rewrite <-(Nat.add_0_r (length pre)). by rewrite insert_app_r. }
  destruct (str_contains tuning_ref l), (existsb is_envfile (pre ++ l :: post)) eqn:He;
    rewrite ?Hins; simpl; rewrite ?take_app_length, ?drop_app_length; done.
Qed.

Lemma patched_has_envfile pre l post :
  is_exec l = true →
  existsb is_envfile (pre ++ env_lines (pre ++ l :: post) ++ exec_line l :: post) = true.
Proof.
  intros Hl. unfold env_lines. destruct (existsb is_envfile (pre ++ l :: post)) eqn:He.
  - rewrite !existsb_app in *. simpl in *. rewrite (exec_not_envfile l Hl) in He.
    apply orb_true_iff in He as [->|He]; [done|]. simpl in He. rewrite He. by rewrite !orb_true_r.
  - rewrite !existsb_app. simpl. by rewrite orb_true_r.
Qed.

(** Lines that are neither [ExecStart=] nor the reference to the tuning file. *)
Definition other_lines (lines : list string) : list string :=
  List.filter (λ l, negb (is_exec l) && negb (is_envfile l)) lines.

Lemma other_lines_patched pre l post :
  is_exec l = true →
  other_lines (pre ++ env_lines (pre ++ l :: post) ++ exec_line l :: post) = other_lines (pre ++ l :: post).
Proof.
  intros Hl. unfold other_lines. rewrite !List.filter_app. f_equal. cbn [List.filter].
  assert (He : is_exec (exec_line l) = true).
  { unfold exec_line. destruct (str_contains _ l); [done|by apply exec_with_tuning]. }
  rewrite Hl, He. cbn [negb andb]. unfold env_lines. by destruct (existsb _ _).
Qed.

(** The unit is patched exactly when it has an [ExecStart=] line; patching is
    idempotent. Afterwards the first [ExecStart=] expands the tuning variable
    and an [EnvironmentFile=] line names the tuning file, every other line is
    where it was, and a file reported unchanged is unchanged. *)
Theorem unit_patch lines :
  (patch_lines lines = None ↔ Forall (λ l, is_exec l = false) lines) ∧
  (∀ lines' changed, patch_lines lines = Some (lines', changed) →
     patch_lines lines' = Some (lines', false) ∧
     existsb is_envfile lines' = true ∧
     (∃ i l, find_index is_exec lines' = Some i ∧ lines' !! i = Some l ∧ str_contains tuning_ref l = true) ∧
     other_lines lines' = other_lines lines ∧
     (changed = false → lines' = lines)).
Proof.
  destruct (find_index is_exec lines) as [i|] eqn:Hi.
  2:{ assert (HF : Forall (λ l, is_exec l = false) lines) by by apply find_index_none.
      unfold patch_lines. rewrite Hi. split; [done|]. intros ? ? [=]. }
  destruct (find_index_spec _ _ _ Hi) as (l & Hl & Hx & Hpre).
  assert (Hlines : lines = take i lines ++ l :: drop (S i) lines) by by rewrite take_drop_middle.
  set (pre := take i lines) in *. set (post := drop (S i) lines) in *.
  rewrite Hlines. rewrite patch_lines_shape by done. split.
  { split; [done|]. rewrite Forall_app, Forall_cons. intros (_ & He & _). congruence. }
  intros lines' changed [= <- <-].
  assert (He : is_exec (exec_line l) = true).
  { unfold exec_line. destruct (str_contains _ l); [done|by apply exec_with_tuning]. }
  assert (Ht : str_contains tuning_ref (exec_line l) = true).
  { unfold exec_line. destruct (str_contains tuning_ref l) eqn:Hc; [done|apply tuning_in_with]. }
  assert (Hpre' : Forall (λ x, is_exec x = false) (pre ++ env_lines (pre ++ l :: post))).
  { apply Forall_app. split; [done|]. unfold env_lines. destruct (existsb _ _); by repeat constructor. }
  pose proof (patched_has_envfile pre l post Hx) as Henv. rewrite !(app_assoc pre) in *.
  split_and!.
  - rewrite patch_lines_shape by done.
    assert (env_lines ((pre ++ env_lines (pre ++ l :: post)) ++ exec_line l :: post) = []) as ->
      by (unfold env_lines at 1; by rewrite Henv).
    assert (exec_line (exec_line l) = exec_line l) as -> by (unfold exec_line at 1; by rewrite Ht).
    by rewrite Henv, Ht.
  - done.
  - exists (length (pre ++ env_lines (pre ++ l :: post))), (exec_line l). split_and!; [|by apply list_lookup_middle|done].
    by apply find_index_at.
  - rewrite <-app_assoc. by apply other_lines_patched.
  - intros [Hc Hv]%orb_false_iff. apply negb_false_iff in Hc, Hv. unfold env_lines, exec_line. rewrite Hc, Hv.
    by rewrite app_nil_r.
Qed.

(** ** The floors *)

Definition real_floors (d : Floors) : Prop :=
  is_nan (fl_spread_r d) = false ∧ is_nan (fl_tail_r d) = false ∧
  is_nan (fl_spread_h d) = false ∧ is_nan (fl_tail_h d) = false.

(** The floors of one target as [recommend] computes them. *)
Definition derived (d : Floors) : Prop :=
  fl_rate_floor d = py_max (py_max (fl_spread_r d) (fl_tail_r d)) (flt 1 1) ∧
  fl_entropy_floor d = py_max (py_max (fl_spread_h d) (fl_tail_h d)) (flt 1 1000).

Lemma max3_ge a b c :
  is_nan a = false → is_nan b = false → is_nan c = false →
  let m := py_max (py_max a b) c in
  is_nan m = false ∧ nle a m = true ∧ nle b m = true ∧ nle c m = true.
Proof.
  intros Ha Hb Hc m. assert (Hab : is_nan (py_max a b) = false) by (destruct (py_max_is a b) as [->| ->]; done).
  subst m. split_and!.
  - destruct (py_max_is (py_max a b) c) as [->| ->]; done.
  - eapply nle_trans; [by apply (py_max_ge_l a b)|by apply py_max_ge_l].
  - eapply nle_trans; [by apply (py_max_ge_r a b)|by apply py_max_ge_l].
  - by apply py_max_ge_r.
Qed.

Ltac res_step :=
  match goal with
  | |- context [res_bind _ _ _ ?m] => destruct m eqn:?; cbn [mbind res_bind]; [|discriminate]
  end.

Lemma recommend_derived windows k margin d : recommend windows k margin = Ok (Some d) → derived d.
Proof.
  unfold recommend. destruct (_ <? 2)%nat; [done|]. unfold mbind. repeat res_step.
  intros [= <-]. by split.
Qed.

Lemma recommend_all_derived by_ip k margin results :
  recommend_all by_ip k margin = Ok results → Forall (λ r, derived r.2) results.
Proof.
  revert results. induction by_ip as [|[ip ws] by_ip IH]; intros results; cbn [recommend_all].
  { intros [= <-]. constructor. }
  destruct (recommend ws k margin) as [d|] eqn:Hd; cbn [mbind res_bind]; [|done].
  destruct (recommend_all by_ip k margin) as [ds|]; cbn [mbind res_bind]; [|done]. intros [= <-].
  destruct d as [d|]; [|by apply IH]. constructor; [by eapply recommend_derived|by apply IH].
Qed.

Lemma reconcile_max results rate entropy :
  reconcile results = Ok (rate, entropy) →
  max_of (fl_rate_floor <$> results.*2) = Ok rate ∧ max_of (fl_entropy_floor <$> results.*2) = Ok entropy.
Proof.
  unfold reconcile. destruct (max_of (fl_rate_floor <$> results.*2)) as [r|]; cbn [mbind res_bind]; [|done].
  destruct (max_of (fl_entropy_floor <$> results.*2)) as [e|]; cbn [mbind res_bind]; [|done].
  destruct (min_of _); cbn [mbind res_bind]; [|done]. destruct (_ && _); [|by intros [= <- <-]].
  destruct (ndiv _ _); cbn [mbind res_bind]; [|done]. by intros [= <- <-].
Qed.

Lemma max_of_ge l m y : max_of l = Ok m → Forall (λ n, is_nan n = false) l → y ∈ l → nle y m = true.
Proof. destruct l as [|x l]; [done|]. intros [= <-]. apply py_max_list_ge. Qed.

(** One pair of floors covers every target: whatever was measured, unless it
    is no number, the chosen rate floor is at least the spread and the tail of
    each target and at least 1 pps, and the entropy floor likewise and at
    least 0.001 bits. *)
Theorem floors_cover by_ip k margin results rate entropy :
  recommend_all by_ip k margin = Ok results → reconcile results = Ok (rate, entropy) →
  Forall (λ r, real_floors r.2) results →
  Forall (λ r, nle (fl_spread_r r.2) rate = true ∧ nle (fl_tail_r r.2) rate = true ∧ nle (flt 1 1) rate = true ∧
               nle (fl_spread_h r.2) entropy = true ∧ nle (fl_tail_h r.2) entropy = true ∧
               nle (flt 1 1000) entropy = true) results.
Proof.
  intros Hr%recommend_all_derived [Hrate Hent]%reconcile_max Hreal.
  assert (Hm : Forall (λ r : string * Floors,
    (is_nan (fl_rate_floor r.2) = false ∧ nle (fl_spread_r r.2) (fl_rate_floor r.2) = true ∧
     nle (fl_tail_r r.2) (fl_rate_floor r.2) = true ∧ nle (flt 1 1) (fl_rate_floor r.2) = true) ∧
    (is_nan (fl_entropy_floor r.2) = false ∧ nle (fl_spread_h r.2) (fl_entropy_floor r.2) = true ∧
     nle (fl_tail_h r.2) (fl_entropy_floor r.2) = true ∧ nle (flt 1 1000) (fl_entropy_floor r.2) = true)) results).
  { apply Forall_forall. intros r Hin. rewrite Forall_forall in Hr, Hreal.
    destruct (Hr r Hin) as [-> ->], (Hreal r Hin) as (? & ? & ? & ?). split; by apply max3_ge. }
  apply Forall_forall. intros r Hin. rewrite Forall_forall in Hm.
  destruct (Hm r Hin) as [(_ & H1 & H2 & H3) (_ & H4 & H5 & H6)].
  assert (Hmax : nle (fl_rate_floor r.2) rate = true ∧ nle (fl_entropy_floor r.2) entropy = true).
  { split; (eapply max_of_ge; [eassumption|..|by apply list_elem_of_fmap_2, list_elem_of_fmap_2]);
      rewrite !Forall_fmap; apply Forall_forall; intros x Hx; by destruct (Hm x Hx) as [[] []]. }
  destruct Hmax as [Ha Hb]. split_and!; eapply nle_trans; eassumption.
Qed.

(** ** Runs of the script *)

(** What a run leaves alone: the four files, and the commands are reads. *)
Definition is_read (c : list string) : Prop := head c = Some "journalctl"%string.
Definition untouched (h0 h : Host) : Prop :=
  h_unit h = h_unit h0 ∧ h_tuning h = h_tuning h0 ∧ h_dropin h = h_dropin h0 ∧ h_baseline h = h_baseline h0 ∧
  ∃ cs, h_cmds h = h_cmds h0 ++ cs ∧ Forall is_read cs.

Lemma pres_finally_do {W A} (I : W → Prop) (m : M W A) f :
  pres I m → pres I f → pres I (finally_do m f).
Proof.
  intros Hm Hf w Hw. unfold finally_do. specialize (Hm w Hw). destruct (m w) as [r w1].
  specialize (Hf w1 Hm). by destruct (f w1) as [[]].
Qed.

Section host.
Context {E : Machine}.

Section collect_pres.
Context (I : Host → Prop).
Context (Hread : ∀ c, is_read c → pres I (invoke c)) (Htime : pres I time_monotonic).

Lemma pres_read_journal since : pres I (read_journal since).
Proof using Hread.
  unfold read_journal, run, die. apply pres_bind; [|intros; apply pres_ret].
  apply pres_bind; [by apply Hread|]. intros r. by pres_auto.
Qed.

Lemma pres_collect args spec fuel : pres I (collect args spec fuel).
Proof using All.
  unfold collect. apply pres_bind; [apply pres_lift|intros since]. apply pres_bind; [done|intros now].
  generalize (nadd now (NInt (a_timeout args * 60))). intros deadline.
  induction fuel as [|fuel IH]; cbn [collect_loop]; [apply pres_ret|].
  apply pres_bind; [apply pres_read_journal|intros text].
  unfold die. pres_auto.
Qed.
End collect_pres.

Lemma untouched_refl h : untouched h h.
Proof. split_and!; try done. exists []. by rewrite app_nil_r. Qed.

Lemma pres_untouched_read h0 c : is_read c → pres (untouched h0) (invoke c).
Proof.
  intros Hc h (? & ? & ? & ? & cs & Hcs & HF). split_and!; try done. exists (cs ++ [c]).
  simpl. rewrite Hcs, app_assoc. split; [done|]. apply Forall_app. by repeat constructor.
Qed.
Lemma pres_untouched_time h0 : pres (untouched h0) time_monotonic.
Proof. by intros h. Qed.

Lemma conclude_pure args by_ip k h : a_apply args = false → (conclude args by_ip k h).2 = h.
Proof.
  intros Ha. unfold conclude. rewrite Ha. cbn [negb]. unfold die, lift, mbind, M_bind, raise, mret, M_ret.
  destruct (match a_k args with Some x => if is_zero x then k else Some x | None => k end); [|done].
  destruct (recommend_all _ _ _) as [[|r rs]|]; [done| |done]. by destruct (reconcile _).
Qed.

(** Without --apply, --auto-debug and --reset the script only looks: however
    the run ends, the unit, the tuning file, the drop-in and the baseline are
    what they were, and nothing but journalctl has been run. *)
Theorem measuring_changes_nothing args fuel h :
  a_apply args = false → a_auto_debug args = false → a_reset args = false →
  untouched h (calibrate_main args fuel h).2.
Proof.
  intros Ha Hd Hr. unfold calibrate_main. rewrite Ha, Hd, Hr. cbn [orb].
  revert h. enough (Hp : ∀ h0, pres (untouched h0)
    (mret tt;; (if a_windows args <? 2 then die else mret tt)%Z;; when false (set_debug_logging true;; mret tt);;
     since ← lift (Ok (a_since args));
     sample ← finally_do (collect args since fuel) (when false (set_debug_logging false;; mret tt));
     match sample with
     | None => mret None
     | Some (by_ip, journal_k) => r ← conclude args by_ip journal_k; mret (Some r)
     end)) by (intros h; apply Hp, untouched_refl).
  intros h0. apply pres_bind; [apply pres_ret|intros _]. apply pres_bind; [unfold die; pres_auto|intros _].
  apply pres_bind; [apply pres_ret|intros _]. apply pres_bind; [apply pres_lift|intros since].
  apply pres_bind.
  - apply pres_finally_do; [|apply pres_ret]. apply pres_collect; [apply pres_untouched_read|apply pres_untouched_time].
  - intros [[by_ip k]|]; [|apply pres_ret]. apply pres_bind; [|intros; apply pres_ret].
    intros h Hh. by rewrite conclude_pure.
Qed.

(** An answer of the loop: every target seen is full, unless a partial sample
    was asked for. *)
Definition good_sample (args : Args) (r : res (option (list (string * list CalWindow) * option num))) : Prop :=
  match r with
  | Ok None => False
  | Ok (Some (by_ip, _)) => by_ip ≠ [] ∧ (a_partial args = false → sample_full args by_ip = true)
  | Exn _ => True
  end.

Lemma read_journal_tick since h : h_tick (read_journal since h).2 = S (h_tick h).
Proof.
  unfold read_journal, run, invoke, die, mbind, M_bind, raise, mret, M_ret.
  by destruct (process _ _) as [rc out]; destruct (negb _).
Qed.

Lemma collect_loop_ends args since deadline n fuel h :
  (∀ t, n ≤ t → nle deadline (monotonic t) = true) → 1 ≤ fuel → n < h_tick h + 2 * fuel →
  good_sample args (collect_loop args since deadline fuel h).1.
Proof.
  intros Hclk. revert h. induction fuel as [|fuel IH]; intros h H1 Hn; [lia|]. cbn [collect_loop].
  unfold mbind at 1, M_bind at 1. pose proof (read_journal_tick since h) as Ht.
  destruct (read_journal since h) as [[text|e] h1]; [|done]. cbn [snd] in Ht.
  assert (Hround : ∀ k : num → M Host (option (list (string * list CalWindow) * option num)),
    (∀ now, nle deadline now = true → ∀ h', good_sample args (k now h').1) →
    (∀ now, nle deadline now = false → k now = collect_loop args since deadline fuel) →
    good_sample args ((time_monotonic ≫= k) h1).1).
  { intros k Hend Hagain. unfold mbind, M_bind, time_monotonic. rewrite Ht.
    destruct (nle deadline (monotonic (S (h_tick h)))) eqn:Hd; [by apply Hend|].
    rewrite (Hagain _ Hd). assert (S (h_tick h) < n).
    { apply Nat.nle_gt. intros Hle. by rewrite (Hclk _ Hle) in Hd. }
    apply IH; [lia|]. unfold h_step. cbn [h_tick]. lia. }
  unfold mbind at 1, M_bind at 1, lift at 1. destruct (parse_windows text) as [[by_ip k]|e]; [|done]. cbn [fst].
  destruct by_ip as [|iw by_ip].
  - unfold mbind at 1, M_bind at 1, lift at 1. destruct (parse_warmup text); [|done].
    apply Hround; intros now ->; done.
  - destruct (sample_full args (iw :: by_ip)) eqn:Hfull; [by split|].
    apply Hround; intros now ->; [|done]. intros h'. destruct (a_partial args) eqn:Hp; [|done].
    split; [done|]. intros Hp2. congruence.
Qed.

(** C12: The sampling loop always ends: once the clock stays past the deadline,
    which is the time limit after the first reading, one more round answers or
    exits, whatever the journal holds. An answer is never an empty sample, and
    without --partial every target in it has the clean windows asked for. *)
Theorem collect_terminates args spec n fuel h :
  (∀ t, n ≤ t → nle (nadd (monotonic (h_tick h)) (NInt (a_timeout args * 60))) (monotonic t) = true) →
  1 ≤ fuel → n ≤ h_tick h + 2 * fuel →
  good_sample args (collect args spec fuel h).1.
Proof.
  intros Hclk H1 Hn. unfold collect, mbind, M_bind, lift. destruct (journal_since spec); [|done].
  unfold time_monotonic. eapply collect_loop_ends; [exact Hclk|done|]. unfold h_step. cbn [h_tick]. lia.
Qed.

(** ** Debug logging *)

Definition quiet (h : Host) : Prop := h_dropin h = false.

Lemma pres_quiet_invoke c : pres quiet (invoke c).
Proof. by intros h. Qed.
Lemma pres_quiet_run c : pres quiet (run c).
Proof. unfold run, die. apply pres_bind; [apply pres_quiet_invoke|]. intros r. pres_auto. Qed.
#[local] Hint Resolve pres_quiet_run : pres.

Lemma pres_quiet_conclude args by_ip k : pres quiet (conclude args by_ip k).
Proof.
  unfold conclude, apply_calibration, ensure_unit_reads_tuning, write_tuning, die.
  pres_auto; apply pres_modify; by intros h.
Qed.

(** Turning debug logging off removes the drop-in, even when systemctl fails. *)
Lemma debug_off h : h_dropin (set_debug_logging false h).2 = false.
Proof.
  unfold set_debug_logging. unfold mbind at 1, M_bind at 1, gets. destruct (h_dropin h) eqn:Hd; [|done].
  cbn [negb andb]. unfold mbind at 1, M_bind at 1, modify at 1.
  apply (pres_bind quiet (run daemon_reload)); [apply pres_quiet_run| |done]. intros _. pres_auto.
Qed.

(** A run with --auto-debug whose enabling of the debug log succeeded leaves no
    drop-in behind, however sampling and the rest end. *)
Theorem debug_log_removed args fuel t h :
  a_auto_debug args = true → a_reset args = false → now_minus 60 = Ok t → h_dropin h = false →
  (∃ b, (set_debug_logging true h).1 = Ok b) →
  h_dropin (calibrate_main args fuel h).2 = false.
Proof.
  intros Ha Hr Hnow Hd [b Hb]. unfold calibrate_main. rewrite Ha, Hr, orb_true_r. unfold need_root, die.
  unfold mbind, M_bind. destruct (negb (geteuid =? 0)%Z); [done|]. unfold mret at 1, M_ret at 1.
  destruct (a_windows args <? 2)%Z; [done|]. unfold mret at 1, M_ret at 1. unfold when.
  destruct (set_debug_logging true h) as [[b'|e] h1]; [|done]. unfold mret at 1, M_ret at 1, lift.
  change (journal_since "-1m") with (now_minus 60). rewrite Hnow. unfold finally_do.
  destruct (collect args t fuel h1) as [r h2]. pose proof (debug_off h2) as Hoff.
  destruct (set_debug_logging false h2) as [[b2|e] h3]; [|done]. cbn [snd] in Hoff.
  unfold mret at 1, M_ret at 1. destruct r as [[[by_ip k]|]|e]; [|done..].
  pose proof (pres_quiet_conclude args by_ip k h3 Hoff) as Hq.
  by destruct (conclude args by_ip k h3) as [[z|e] h4].
Qed.
End host.

(** ** Concrete runs *)

(** A journal with two clean windows of one host, and systemctl that works. *)
Definition window_line (id r h cooldown : string) : string :=
  "Window #" ^^ id ^^ "[victim=10.0.0.5]: r=" ^^ r ^^ " pps | h=" ^^ h ^^
  " bits | μ_r=100.0 σ_r=5.0 (active=5.0) | μ_h=3.0 σ_h=0.1 (active=0.1) | cooldown=" ^^ cooldown ^^ nl.
Definition demo_journal : string :=
  "Analysis: thread started | mode=kernel | k=3.0" ^^ nl ^^
  window_line "1" "100.0" "3.00" "0" ^^ window_line "2" "900.0" "0.10" "4" ^^ window_line "3" "120.0" "3.10" "0".

Definition demo_machine : Machine :=
  mkMachine 0 (λ _ c, (0%Z, if bool_decide (head c = Some "journalctl"%string) then demo_journal else EmptyString))
    (λ n, NInt (Z.of_nat n)) (λ _, Ok "2026-01-01 00:00:00"%string).
Definition demo_args (auto_debug : bool) : Args :=
  mkArgs 2 "now" 1 false None (flt 1 10) false false auto_debug false false.
Definition demo_host : Host := mkHost 0 [] (Some ["[Service]" ^^ nl; "ExecStart=/bin/s" ^^ nl]) None false true.

Definition demo_by_ip : list (string * list CalWindow) :=
  [("10.0.0.5"%string, [mkCalWindow 1 (flt 100 1) (flt 3 1) (flt 100 1) (flt 5 1) (flt 3 1) (flt 1 10) 0;
                        mkCalWindow 3 (flt 120 1) (flt 31 10) (flt 100 1) (flt 5 1) (flt 3 1) (flt 1 10) 0])].
Definition ok_or {A} (a : A) (r : res A) : A := match r with Ok x => x | Exn _ => a end.
Definition demo_results : list (string * Floors) := ok_or [] (recommend_all demo_by_ip (flt 3 1) (flt 1 10)).
Definition demo_floors : num * num := ok_or (flt 0 1, flt 0 1) (reconcile demo_results).

Lemma floors_cover_witness :
  Forall (λ r, nle (fl_spread_r r.2) demo_floors.1 = true ∧ nle (fl_tail_r r.2) demo_floors.1 = true ∧
               nle (flt 1 1) demo_floors.1 = true ∧ nle (fl_spread_h r.2) demo_floors.2 = true ∧
               nle (fl_tail_h r.2) demo_floors.2 = true ∧ nle (flt 1 1000) demo_floors.2 = true) demo_results.
Proof.
  apply (floors_cover demo_by_ip (flt 3 1) (flt 1 10)).
  - vm_compute. reflexivity.
  - vm_compute. reflexivity.
  - assert (H : forallb (λ r : string * Floors, negb (is_nan (fl_spread_r r.2) || is_nan (fl_tail_r r.2) ||
      is_nan (fl_spread_h r.2) || is_nan (fl_tail_h r.2))) demo_results = true) by (vm_compute; reflexivity).
    apply Forall_forall. intros r Hr. rewrite forallb_forall in H.
    specialize (H r (proj1 (list_elem_of_In _ _) Hr)).
    apply negb_true_iff in H. rewrite !orb_false_iff in H. destruct H as [[[? ?] ?] ?]. by split_and!.
Defined.

Lemma measuring_changes_nothing_witness :
  untouched demo_host (@calibrate_main demo_machine (demo_args false) 2 demo_host).2.
Proof. apply (@measuring_changes_nothing demo_machine (demo_args false) 2 demo_host); reflexivity. Defined.

Lemma demo_clock n t : n ≤ t → nle (nadd (NInt 0) (NInt (Z.of_nat n))) (NInt (Z.of_nat t)) = true.
Proof.
  intros H. unfold nle, ncmp, ext_cmp, ext_of, fin_cmp. simpl. rewrite !Z.mul_1_r.
  destruct (0 + Z.of_nat n ?= Z.of_nat t)%Z eqn:Hc; [done..|]. apply Z.compare_gt_iff in Hc. lia.
Qed.

Lemma collect_terminates_witness :
  good_sample (demo_args false) (@collect demo_machine (demo_args false) "now" 30 demo_host).1.
Proof.
  apply (@collect_terminates demo_machine (demo_args false) "now" 60 30 demo_host);
    [intros t Ht; exact (demo_clock 60 t Ht)|lia|reflexivity].
Defined.

Lemma debug_log_removed_witness :
  h_dropin (@calibrate_main demo_machine (demo_args true) 2 demo_host).2 = false.
Proof.
  eapply (@debug_log_removed demo_machine (demo_args true) 2); try reflexivity. by eexists.
Defined.

(** If systemctl cannot restart the sensor, enabling exits after the drop-in
    was written and before the script takes note to remove it. *)
Definition broken_machine : Machine :=
  mkMachine 0 (λ _ c, (if bool_decide (c = restart) then 1%Z else 0%Z, EmptyString))
    (λ n, NInt (Z.of_nat n)) (λ _, Ok EmptyString).
Lemma debug_log_left :
  let r := @calibrate_main broken_machine (demo_args true) 2 demo_host in
  r.1 = Exn (SystemExit 1) ∧ h_dropin r.2 = true.
Proof. split; vm_compute; reflexivity. Qed.
