(* ===== verification/Reports.v ===== *)
(** * reports.py: the CSV export of the incident log

    The response is a generator: its chunks, and the exception that ends it if
    one does. Everything before the first chunk is inside the handler's [try].
    The PDF route is in [ReportPdf]. *)

From S2P Require Import Prelude PyNum PyStr PyTime Regex Csv Json World Db Api.

Definition CSV_EXPORT_HEADER : list string :=
  ["Timestamp (UTC)"; "Source IP"; "Destination IP"; "Protocol";
   "Packet Rate (PPS)"; "Shannon Entropy (bits)"; "Classification"].

(** What a spreadsheet takes for the start of a formula. *)
Definition formula_start (c : ascii) : bool :=
  bool_decide (c ∈ ["="%char; "+"%char; "-"%char; "@"%char; "009"%char; "013"%char]).

Definition _csv_safe (value : string) : string :=
  match value with
  | String c _ => if formula_start c then "'" ^^ value else value
  | EmptyString => value
  end.

(** [f"{r[4]:.2f}"] when there is a rate, [f"{r[5]:.4f}"] whether there is an
    entropy or not: formatting [None] is a [TypeError]. *)
Definition export_row (r : LogRow) : res (list string) :=
  date_str ← utc_text (lg_timestamp r);
  entropy ← match lg_entropy r with Some e => Ok (fmt_fixed e 4) | None => Exn TypeError end;
  Ok [date_str; _csv_safe (lg_src_ip r); _csv_safe (lg_dst_ip r); _csv_safe (lg_proto r);
      match lg_rate r with Some x => fmt_fixed x 2 | None => EmptyString end; entropy; lg_classification r].

Fixpoint iter_rows (rows : list LogRow) : list string * option exn :=
  match rows with
  | [] => ([], None)
  | r :: rs =>
      match export_row r with
      | Ok cells => let '(chunks, e) := iter_rows rs in (csv_row cells :: chunks, e)
      | Exn e => ([], Some e)
      end
  end.

Definition iter_csv (rows : list LogRow) : list string * option exn :=
  let '(chunks, e) := iter_rows rows in (csv_row CSV_EXPORT_HEADER :: chunks, e).

Section export.
Context {E : Env}.

Definition export_csv : M World (list string * option exn) :=
  try_all
    (rows ← read_tx (logs_desc (λ _, true));
     mret (iter_csv rows))
    (raise (HTTPException 500)).
End export.

(** ** Theorems *)

Definition joined (chunks : list string) : string := foldr (λ a b, a ^^ b) EmptyString chunks.

(** A cell that no spreadsheet evaluates. *)
Definition inert (s : string) : Prop := match s with String c _ => formula_start c = false | EmptyString => True end.

Lemma csv_safe_inert s : inert (_csv_safe s).
Proof. destruct s as [|c s]; simpl; [done|]. by destruct (formula_start c) eqn:H. Qed.

(** What the export says of one incident. *)
Definition exported (r : LogRow) (cells : list string) : Prop :=
  ∃ date rate entropy s, cells = [date; _csv_safe (lg_src_ip r); _csv_safe (lg_dst_ip r); _csv_safe (lg_proto r);
                                rate; entropy; lg_classification r] ∧
    PyStat.nfloor (lg_timestamp r) = Ok s ∧ strptime_secs date = Ok (UNIX_EPOCH + s * 1000000)%Z ∧
    (lg_rate r = None → rate = EmptyString).

Lemma export_row_spec r cells : export_row r = Ok cells → exported r cells.
Proof.
  unfold export_row, mbind, res_bind. destruct (utc_text _) as [date|] eqn:Hd; [|done].
  destruct (lg_entropy r) as [e|]; [|done]. intros [= <-].
  destruct (PyStat.nfloor (lg_timestamp r)) as [s|] eqn:Hs; [|by unfold utc_text in Hd; rewrite Hs in Hd].
  eexists _, _, _, s. split; [done|]. split; [done|]. split; [by apply (utc_text_parses (lg_timestamp r))|].
  by intros ->.
Qed.

Lemma iter_rows_spec rows chunks e :
  iter_rows rows = (chunks, e) →
  ∃ cells done rest, rows = done ++ rest ∧ chunks = csv_row <$> cells ∧ Forall2 exported done cells ∧
    match e with
    | None => rest = []
    | Some x => ∃ r rest', rest = r :: rest' ∧ export_row r = Exn x
    end.
Proof.
  revert chunks e. induction rows as [|r rows IH]; intros chunks e; simpl.
  - intros [= <- <-]. by exists [], [], [].
  - destruct (export_row r) as [c|x] eqn:Hr.
    + destruct (iter_rows rows) as [chunks' e'] eqn:Hi. intros [= <- <-].
      destruct (IH _ _ eq_refl) as (cells & done & rest & -> & -> & Hf & He).
      exists (c :: cells), (r :: done), rest. split; [done|]. split; [done|]. split; [|done].
      constructor; [by apply export_row_spec|done].
    + intros [= <- <-]. exists [], [], (r :: rows). split; [done|]. split; [done|]. split; [constructor|]. eauto.
Qed.

Lemma joined_rows rows : joined (csv_row <$> rows) = csv_rows rows.
Proof. induction rows as [|r rows IH]; [done|]. exact (f_equal (String.append (csv_row r)) IH). Qed.

(** C38: The export, read back as CSV, is the header and one record per incident,
    newest first, with the incident's second as its date and no address or
    protocol a spreadsheet would evaluate. If it breaks off, the records before
    the one that raised are there and complete. *)
Theorem export_reads_back {E : Env} w :
  (∀ n, io_ok n = true) →
  runs export_csv w (λ out _,
    ∃ cells done rest, logs_desc (λ _, true) (w_db w) = done ++ rest ∧
      csv_reader (joined out.1) = CSV_EXPORT_HEADER :: cells ∧ Forall2 exported done cells ∧
      Forall (λ c, Forall inert (take 3 (drop 1 c))) cells ∧
      match out.2 with
      | None => rest = []
      | Some x => ∃ r rest', rest = r :: rest' ∧ export_row r = Exn x
      end).
Proof.
  intros Hio. unfold export_csv, try_all, try_except, read_tx, execute, io, gets, runs, mbind, M_bind.
  rewrite Hio. simpl. eexists _, _. split; [done|].
  assert (Hdb : w_db (tick w) = w_db w) by by destruct w. rewrite Hdb. unfold iter_csv.
  destruct (iter_rows _) as [chunks e] eqn:Hi. apply iter_rows_spec in Hi as (cells & done & rest & Hr & -> & Hf & He).
  exists cells, done, rest. split; [done|]. split_and!; [|done| |done].
  - cbn [fst]. change (joined (csv_row CSV_EXPORT_HEADER :: (csv_row <$> cells))) with
      (joined (csv_row <$> CSV_EXPORT_HEADER :: cells)). rewrite joined_rows. apply read_rows.
    constructor; [done|]. clear -Hf. induction Hf as [|r c done cells (d & x & e & s & -> & _) _ IH]; constructor; done.
  - clear -Hf. induction Hf as [|r c done cells (d & x & e & s & -> & _) _ IH]; constructor; [|done].
    simpl. repeat constructor; apply csv_safe_inert.
Qed.

(** An incident without an entropy, as releasing an address or blocking one by
    hand logs it, ends the export in the middle with a [TypeError], after the
    response has begun. *)
Theorem null_entropy_breaks_export rows r rest :
  lg_entropy r = None → (∃ date, utc_text (lg_timestamp r) = Ok date) → Forall (λ r, is_Some (lg_entropy r)) rows →
  Forall (λ r, ∃ date, utc_text (lg_timestamp r) = Ok date) rows →
  (iter_csv (rows ++ r :: rest)).2 = Some TypeError ∧ length (iter_csv (rows ++ r :: rest)).1 = S (length rows).
Proof.
  intros Hr [d Hd] Hsome Hdates. assert (H : ∃ chunks, iter_rows (rows ++ r :: rest) = (chunks, Some TypeError) ∧
                                   length chunks = length rows).
  { induction rows as [|x rows IH]; simpl.
    - exists []. unfold export_row, mbind, res_bind. by rewrite Hd, Hr.
    - apply Forall_cons in Hsome as [[e He] Hsome], Hdates as [[dx Hdx] Hdates].
      destruct (IH Hsome Hdates) as (chunks & Hi & Hl). unfold export_row, mbind, res_bind. rewrite Hdx, He, Hi.
      eexists. split; [done|]. simpl. by rewrite Hl. }
  destruct H as (chunks & Hi & Hl). unfold iter_csv. rewrite Hi. simpl. by rewrite Hl.
Qed.

Definition demo_log (entropy : option num) (src : string) : LogRow :=
  mkLog 1 (NInt 1772281805) src "10.0.0.5" "MIXED" (Some (flt 3 2)) entropy "Blocked".

Lemma null_entropy_breaks_export_witness :
  (iter_csv ([demo_log (Some (flt 1 2)) "203.0.113.9"] ++ demo_log None "203.0.113.9" :: [])).2 = Some TypeError ∧
  length (iter_csv ([demo_log (Some (flt 1 2)) "203.0.113.9"] ++ demo_log None "203.0.113.9" :: [])).1 = 2.
Proof.
  apply (null_entropy_breaks_export [demo_log (Some (flt 1 2)) "203.0.113.9"] (demo_log None "203.0.113.9") []).
  - reflexivity.
  - eexists. vm_compute. reflexivity.
  - constructor; [by eexists|constructor].
  - constructor; [|constructor]. eexists. vm_compute. reflexivity.
Defined.

Definition logged_world : World :=
  upd_db (upd_logs (tb_insert (λ i, mkLog i (NInt 1772281805) "=cmd|calc" "10.0.0.5" "MIXED" None (Some (flt 1 2)) "DDoS")))
         empty_world.

Lemma export_reads_back_witness :
  runs (@export_csv calm_env) logged_world (λ out _,
    ∃ cells done rest, logs_desc (λ _, true) (w_db logged_world) = done ++ rest ∧
      csv_reader (joined out.1) = CSV_EXPORT_HEADER :: cells ∧ Forall2 exported done cells ∧
      Forall (λ c, Forall inert (take 3 (drop 1 c))) cells ∧
      match out.2 with
      | None => rest = []
      | Some x => ∃ r rest', rest = r :: rest' ∧ export_row r = Exn x
      end).
Proof. apply (@export_reads_back calm_env). reflexivity. Defined.
