(* ===== verification/ReportData.v ===== *)
(** * report_data.py: what an incident report says

    The aggregation of the logs, the metrics history and the enforcement state
    into the report's content. Percentages are kept as numbers, colours by the
    class they belong to; the strings the template prints are made of them in
    [ReportText]. SQLite's [AVG], the
    order of the groups of a [GROUP BY] and [math.log10] are parameters; the
    statements of one report are one step. *)

From S2P Require Import Prelude PyNum PyStat Json World Config Db Enforcement.

Definition TRAFFIC_CLASSES : list string :=
  ["Normal"; "Flash Crowd"; "Anomalous"; "Rate Limited (Flash Crowd)"; "Rate Limited"; "Blocked"].
Definition STACK_CLASSES : list string := ["Normal"; "Flash Crowd"; "Anomalous"; "Rate Limited"; "Blocked"].
Definition SEVERITY_ORDER : list string :=
  ["Blocked"; "Rate Limited"; "Rate Limited (Flash Crowd)"; "Flash Crowd"; "Anomalous"; "Normal"].

Definition MAX_BUCKETS : Z := 180.
Definition BUCKET_STEPS_SECONDS : list Z := [60; 300; 900; 1800; 3600; 7200; 21600; 43200; 86400]%Z.
Definition MAX_LIST_ROWS : nat := 10.
Definition MAX_PHASES : nat := 4.

(** ** Buckets *)

Definition fits (span : num) (step : Z) : res bool :=
  n ← ndiv span (NInt step); Ok (nle n (NInt MAX_BUCKETS)).

Fixpoint first_fit (span : num) (steps : list Z) (last : Z) : res Z :=
  match steps with
  | [] => Ok last
  | step :: steps' => ok ← fits span step; if (ok : bool) then Ok step else first_fit span steps' last
  end.

Definition report_span (hours : num) : num := nmul (py_max hours (flt 1 60)) (NInt 3600).

Definition _pick_bucket_seconds (hours : num) : res Z := first_fit (report_span hours) BUCKET_STEPS_SECONDS 86400.

(** [CAST(x AS INTEGER)]: truncated, and clamped to 64 bits. *)
Definition cast_int (n : num) : Z :=
  match n with
  | NFlt (SpecFloat.S754_infinity true) => - 2 ^ 63
  | NFlt (SpecFloat.S754_infinity false) => 2 ^ 63 - 1
  | _ => match py_int n with Ok z => Z.max (- 2 ^ 63) (Z.min (2 ^ 63 - 1) z) | Exn _ => 0 end
  end%Z.

(** [CAST(timestamp / ? AS INTEGER)]; the column is REAL, the step positive. *)
Definition bucket_of (step : Z) (ts : num) : Z :=
  match ndiv (NFlt (to_float ts)) (NInt step) with Ok q => cast_int q | Exn _ => 0 end.

(** [x or d] for a number that may be NULL. *)
Definition num_or (x : option num) (d : num) : num :=
  match x with Some n => if is_zero n then d else n | None => d end.

Definition _rate_threshold (mean_r sigma_r k : option num) : num :=
  nadd (num_or mean_r (flt 0 1)) (nmul (num_or k (flt 2 1)) (num_or sigma_r (flt 0 1))).
Definition _entropy_threshold (mean_h sigma_h k : option num) : num :=
  nsub (num_or mean_h (flt 0 1)) (nmul (num_or k (flt 2 1)) (num_or sigma_h (flt 0 1))).

(** ** The queries *)

(** [WHERE timestamp >= ? AND classification != 'Released'] *)
Definition reported (since : num) (r : LogRow) : bool :=
  nle since (lg_timestamp r) && negb (bool_decide (lg_classification r = "Released"%string)).

(** [MAX(x)] over the values that are not NULL. *)
Definition sql_max (l : list (option num)) : option num :=
  match omap id l with [] => None | x :: l' => Some (py_max_list x l') end.

(** Descending order with NULL last. *)
Definition null_lt (a b : option num) : bool :=
  match a, b with Some x, Some y => nlt x y | None, Some _ => true | _, None => false end.

Record SourceDetail := mkSourceDetail {
  sd_ip : string; sd_n : nat; sd_first : num; sd_last : num; sd_peak : option num; sd_status : string }.

Record Col := mkCol {
  co_idx : Z; co_start : Z; co_total : nat; co_stacked : list (string * nat); co_counts : string → nat;
  co_peak_rate : num; co_avg_entropy : option num;
  co_rate_threshold : num; co_entropy_threshold : num; co_dominant : option string }.

Record Phase := mkPhase {
  ph_start : Z; ph_end : Z; ph_title : string; ph_records : nat; ph_buckets : nat; ph_peak : num;
  ph_entropy : option num }.

Section queries.
Context (avg : list num → num) (groups : list string → list string).

(** [AVG(x)]: NULL where no value is. *)
Definition sql_avg (l : list (option num)) : option num :=
  match omap id l with [] => None | l' => Some (avg l') end.

Definition count_class (cls : string) (rows : list LogRow) : nat :=
  length (List.filter (λ r, bool_decide (lg_classification r = cls)) rows).

(** [SELECT key, COUNT(..) .. GROUP BY key ORDER BY n DESC LIMIT ?]. *)
Definition top_rows (key : LogRow → string) (rows : list LogRow) : list (string * nat) :=
  take MAX_LIST_ROWS (py_sort (λ a b, (b.2 <? a.2)%nat)
    ((λ k, (k, length (List.filter (λ r, bool_decide (key r = k)) rows))) <$> groups (key <$> rows))).

Definition rows_of (ip : string) (rows : list LogRow) : list LogRow :=
  List.filter (λ r, bool_decide (lg_src_ip r = ip)) rows.

(** [GROUP BY src_ip ORDER BY MAX(rate) DESC LIMIT ?], and what the operator
    sees of each source. *)
Definition source_status (ip : string) (blocked limited : list (string * Z)) : string :=
  if bool_decide (ip ∈ blocked.*1) then "Blocked"
  else if bool_decide (ip ∈ limited.*1) then "Rate limited" else "None".

Definition source_details (rows : list LogRow) (blocked limited : list (string * Z)) : list SourceDetail :=
  take MAX_LIST_ROWS (py_sort (λ a b, null_lt (sd_peak b) (sd_peak a))
    (omap (λ ip,
       match lg_timestamp <$> rows_of ip rows with
       | [] => None
       | t :: ts => Some (mkSourceDetail ip (length (rows_of ip rows)) (py_min_list t ts) (py_max_list t ts)
                            (sql_max (lg_rate <$> rows_of ip rows)) (source_status ip blocked limited))
       end) (groups (lg_src_ip <$> rows)))).

(** ** Columns *)

Definition in_bucket (step idx : Z) (rows : list LogRow) : list LogRow :=
  List.filter (λ r, (bucket_of step (lg_timestamp r) =? idx)%Z) rows.

(** The stack of a bucket: the flash crowd caps are counted with the caps. *)
Definition stacked_of (rows : list LogRow) : list (string * nat) :=
  (λ cls, (cls, if bool_decide (cls = "Rate Limited"%string)
                then count_class cls rows + count_class "Rate Limited (Flash Crowd)" rows
                else count_class cls rows)) <$> STACK_CLASSES.

Definition sum_nat (l : list nat) : nat := foldr Nat.add 0 l.

Definition dominant_class (counts : string → nat) : option string :=
  head (List.filter (λ cls, (0 <? counts cls)%nat) SEVERITY_ORDER).

Definition thresholds_at (live : Metrics) (step idx : Z) (metrics : list MetricRow) : num * num :=
  match List.filter (λ m, (bucket_of step (mr_timestamp m) =? idx)%Z) metrics with
  | [] => (_rate_threshold (Some (mt_mean_r live)) (Some (mt_sigma_r live)) (Some (mt_k_multiplier live)),
           _entropy_threshold (Some (mt_mean_h live)) (Some (mt_sigma_h live)) (Some (mt_k_multiplier live)))
  | ms => let a f := sql_avg (Some ∘ f <$> ms) in
          (_rate_threshold (a mr_mean_r) (a mr_sigma_r) (a mr_k),
           _entropy_threshold (a mr_mean_h) (a mr_sigma_h) (a mr_k))
  end.

Definition col_at (live : Metrics) (step : Z) (rows : list LogRow) (metrics : list MetricRow) (idx : Z) : Col :=
  let here := in_bucket step idx rows in
  let counts cls := count_class cls here in
  let stacked := stacked_of here in
  let thr := thresholds_at live step idx metrics in
  mkCol idx (idx * step) (sum_nat stacked.*2) stacked counts
        (num_or (sql_max (lg_rate <$> here)) (flt 0 1)) (sql_avg (lg_entropy <$> here))
        thr.1 thr.2 (dominant_class counts).

Definition z_range (lo hi : Z) : list Z := (λ n, (lo + Z.of_nat n)%Z) <$> seq 0 (Z.to_nat (hi + 1 - lo)).

Definition cols_of (live : Metrics) (step : Z) (rows : list LogRow) (metrics : list MetricRow) : list Col :=
  match (λ r, bucket_of step (lg_timestamp r)) <$> rows with
  | [] => []
  | b :: bs => col_at live step rows metrics <$> z_range (foldl Z.min b bs) (foldl Z.max b bs)
  end.

(** ** Phases *)

(** [runs]: [None] is a column without records; the newest run comes first. *)
Definition extend_runs (runs : list (option (string * list Col))) (c : Col) : list (option (string * list Col)) :=
  match co_dominant c with
  | None => None :: runs
  | Some d =>
      match runs with
      | Some (d', cs) :: rest => if bool_decide (d' = d) then Some (d', cs ++ [c]) :: rest else Some (d, [c]) :: runs
      | _ => Some (d, [c]) :: runs
      end
  end.
Definition runs_of (cols : list Col) : list (string * list Col) := omap id (rev (foldl extend_runs [] cols)).

Fixpoint index_of (x : string) (l : list string) : nat :=
  match l with [] => 0 | y :: l' => if bool_decide (x = y) then 0 else S (index_of x l') end.

(** [_priority]: severity, then the longest first. *)
Definition priority_lt (a b : string * list Col) : bool :=
  let i := index_of a.1 SEVERITY_ORDER in
  let j := index_of b.1 SEVERITY_ORDER in
  (i <? j)%nat || ((i =? j)%nat && (length b.2 <? length a.2)%nat).

Definition run_start (r : string * list Col) : Z := match r.2 with c :: _ => co_start c | [] => 0%Z end.
Definition start_lt (a b : string * list Col) : bool := (run_start a <? run_start b)%Z.

Definition kept_runs (cols : list Col) : list (string * list Col) :=
  py_sort start_lt (take MAX_PHASES (py_sort priority_lt (runs_of cols))).

(** [sum(l)] starts from the integer 0. *)
Definition phase_entropy (rows : list Col) : res (option num) :=
  match omap co_avg_entropy rows with
  | [] => Ok None
  | es => q ← ndiv (foldl nadd (NInt 0) es) (len_num es); Ok (Some q)
  end.

Definition phase_of (bucket_s : Z) (r : string * list Col) : res Phase :=
  match co_peak_rate <$> r.2, last r.2 with
  | p :: ps, Some c =>
      e ← phase_entropy r.2;
      Ok (mkPhase (run_start r) (co_start c + bucket_s) r.1 (sum_nat (co_total <$> r.2)) (length r.2)
                  (py_max_list p ps) e)
  | _, _ => Exn ValueError
  end.

Fixpoint phases_of_runs (bucket_s : Z) (rs : list (string * list Col)) : res (list Phase) :=
  match rs with
  | [] => Ok []
  | r :: rs' => p ← phase_of bucket_s r; ps ← phases_of_runs bucket_s rs'; Ok (p :: ps)
  end.

Definition _build_phases (cols : list Col) (bucket_s : Z) : res (list Phase) :=
  phases_of_runs bucket_s (kept_runs cols).
End queries.

(** ** The chart *)

Record Bar := mkBar {
  ba_tick : bool; ba_stack : list num; ba_rate_h : num; ba_rate_color : string;
  ba_entropy_h : num; ba_entropy_color : string }.

Record Chart := mkChart {
  ch_axis_total : num; ch_axis_rate : num; ch_bars : list Bar; ch_rate_pct : num; ch_entropy_pct : num }.

Definition hundred : num := NInt 100.
(** [max(0.0, min(1.0, x)) * 100] *)
Definition unit_pct (x : num) : num := nmul (py_max (flt 0 1) (py_min (flt 1 1) x)) hundred.
Definition pow10 (e : Z) : num := if (0 <=? e)%Z then NInt (10 ^ e) else flt 1 (10 ^ (- e)).

Section chart.
Context (log10 : num → num).

(** [math.log10] raises on zero and below. *)
Definition math_log10 (x : num) : res num := if nle x (NInt 0) then Exn ValueError else Ok (log10 x).

Definition _nice_ceiling (value : num) : res num :=
  if nle value (NInt 0) then Ok (flt 1 1)
  else
    l ← math_log10 value;
    exp ← nfloor l;
    match List.filter (λ c, nle value c) ((λ mult, nmul (NInt mult) (pow10 exp)) <$> [1; 2; 5; 10]%Z) with
    | c :: _ => Ok (NFlt (to_float c))
    | [] => Ok (NFlt (to_float (pow10 (exp + 1))))
    end.

(** [math.log10(x + 1) / math.log10(axis + 1) * 100] *)
Definition log_pct (x axis : num) : res num :=
  a ← math_log10 (nadd x (NInt 1)); b ← math_log10 (nadd axis (NInt 1)); q ← ndiv a b; Ok (nmul q hundred).

Definition stack_pct (axis_total : num) (n : nat) : res num :=
  q ← ndiv (NInt (Z.of_nat n)) axis_total; Ok (nmul q hundred).

Definition bar_of (axis_total axis_rate : num) (label_every : nat) (ic : nat * Col) : res Bar :=
  let '(i, c) := ic in
  stack ← map_res (stack_pct axis_total) (co_stacked c).*2;
  let pr := co_peak_rate c in
  let thr := co_rate_threshold c in
  rate_h ← (if nlt (NInt 0) pr then log_pct pr axis_rate else Ok (flt 0 1));
  let color :=
    if nle thr (NInt 0) then "Normal"
    else if nlt (nmul thr (NInt 10)) pr then "Blocked" else if nlt thr pr then "Rate Limited" else "Normal" in
  match co_avg_entropy c with
  | None => Ok (mkBar (i mod label_every =? 0)%nat stack rate_h color (flt 0 1) "Normal")
  | Some e => Ok (mkBar (i mod label_every =? 0)%nat stack rate_h color (unit_pct e)
                        (if nlt e (co_entropy_threshold c) then "Blocked" else "Normal"))
  end.

Definition max_total (cols : list Col) : nat := foldl Nat.max 1 (co_total <$> cols).
Definition max_peak (cols : list Col) : num := py_max_list (flt 1 1) (co_peak_rate <$> cols).
Definition max_threshold (cols : list Col) : num :=
  match co_rate_threshold <$> cols with [] => flt 1 1 | t :: ts => py_max_list t ts end.

Definition chart_of (cols : list Col) : res Chart :=
  axis_total ← _nice_ceiling (NInt (Z.of_nat (max_total cols)));
  axis_rate ← _nice_ceiling (py_max (max_peak cols) (max_threshold cols));
  let label_every := match cols with [] => 1 | _ => Nat.max 1 (length cols / 22) end in
  bars ← map_res (bar_of axis_total axis_rate label_every) (imap (λ i c, (i, c)) cols);
  match last cols with
  | None => Ok (mkChart axis_total axis_rate bars (flt 0 1) (flt 0 1))
  | Some c =>
      pct ← log_pct (co_rate_threshold c) axis_rate;
      Ok (mkChart axis_total axis_rate bars pct (unit_pct (co_entropy_threshold c)))
  end.
End chart.

(** The blocked addresses by the time left: the width of a bar is relative to
    the longest. *)
Definition block_bar (longest : Z) (b : string * Z) : res (string * Z * num) :=
  q ← ndiv (NInt b.2) (NInt longest); Ok (b, py_min (flt 100 1) (nmul q hundred)).

Definition longest_hold (blocked : list (string * Z)) : Z :=
  match blocked.*2 with [] => 1 | z :: zs => foldl Z.max z zs end.
Definition block_bars (blocked : list (string * Z)) : res (list (string * Z * num)) :=
  map_res (block_bar (longest_hold blocked)) (take MAX_LIST_ROWS blocked).

(** ** The report *)

Record Mix := mkMix { mx_name : string; mx_n : nat }.

Record Report := mkReport {
  rp_hours : num; rp_bucket : Z; rp_total_records : nat; rp_unique_sources : nat; rp_unique_victims : nat;
  rp_cols : list Col; rp_phases : list Phase; rp_mix : list Mix;
  rp_victims : list (string * nat); rp_sources : list (string * nat); rp_unattributed : option (string * nat);
  rp_source_detail : list SourceDetail; rp_blocks : list (string * Z * num); rp_chart : Chart;
  rp_blocked_total : nat; rp_limited_total : nat;
  rp_timeline : list (PlaybookEvent * string * string);
  rp_rate_threshold : num; rp_entropy_threshold : num; rp_peak_rate : num; rp_peak_multiple : num;
  rp_below_entropy : nat; rp_window : option (Z * Z); rp_interfaces : option string * option string }.

Definition is_unattributed (ip : string) : bool := bool_decide (ip ∈ ["0.0.0.0"; "::"; "Unknown"]%string).

(** The thresholds of the last column, or of the live metrics. *)
Definition last_thresholds (live : Metrics) (cols : list Col) : num * num :=
  match last cols with
  | Some c => (co_rate_threshold c, co_entropy_threshold c)
  | None => (_rate_threshold (Some (mt_mean_r live)) (Some (mt_sigma_r live)) (Some (mt_k_multiplier live)),
             _entropy_threshold (Some (mt_mean_h live)) (Some (mt_sigma_h live)) (Some (mt_k_multiplier live)))
  end.

Definition peak_of (cols : list Col) : num :=
  match co_peak_rate <$> cols with [] => flt 0 1 | p :: ps => py_max_list p ps end.

Definition is_below (c : Col) : bool :=
  match co_avg_entropy c with Some e => nlt e (co_entropy_threshold c) | None => false end.

Section report.
Context {E : Env} (avg : list num → num) (groups : list string → list string) (log10 : num → num).

(** The rows a report covers, and its columns. *)
Definition report_rows (since : num) (d : Database) : list LogRow :=
  List.filter (reported since) (tb_rows (db_logs d)).
Definition report_cols (live : Metrics) (since : num) (step : Z) (d : Database) : list Col :=
  cols_of avg live step (report_rows since d)
    (List.filter (λ m, nle since (mr_timestamp m)) (tb_rows (db_metrics d))).

Definition build_context (hours : num) (unit_file : option (list string)) : M World Report :=
  now ← time_time;
  let since := nsub now (nmul hours (NInt 3600)) in
  bucket_s ← lift (_pick_bucket_seconds hours);
  d ← read_tx id;
  live ← gets (λ w, last_metrics (w_state w));
  let rows := report_rows since d in
  let cols := report_cols live since bucket_s d in
  let thr := last_thresholds live cols in
  chart ← lift (chart_of log10 cols);
  phases ← lift (_build_phases cols bucket_s);
  let mix := (λ cls, mkMix cls (count_class cls rows)) <$> TRAFFIC_CLASSES in
  let victims := top_rows groups lg_dst_ip rows in
  let sources := top_rows groups lg_src_ip rows in
  blocked ← get_blocked_ips;
  let blocked := py_sort (λ a b, (b.2 <? a.2)%Z) blocked in
  limited ← get_ratelimited_ips;
  blocks ← lift (block_bars blocked);
  now2 ← time_time;
  timeline ← get_playbook_events_between since now2;
  let peak := peak_of cols in
  multiple ← lift (if nlt (NInt 0) thr.1 then ndiv peak thr.1 else Ok (flt 0 1));
  (match cols with [] => time_time;; mret tt | _ => mret tt end);;
  mret (mkReport hours bucket_s (length rows) (length (remove_dups (lg_src_ip <$> rows)))
          (length (remove_dups (lg_dst_ip <$> rows))) cols phases mix victims sources
          (head (List.filter (λ s, is_unattributed s.1) sources))
          (source_details groups rows blocked limited) blocks chart
          (length blocked) (length limited) timeline thr.1 thr.2 peak multiple
          (length (List.filter is_below cols))
          (match cols, last cols with
           | c :: _, Some c' => Some (co_start c, (co_start c' + bucket_s)%Z)
           | _, _ => None
           end)
          (get_sniffer_interfaces unit_file)).
End report.

(** ** Steps and buckets *)

Lemma first_fit_spec span steps last s :
  first_fit span steps last = Ok s →
  (s ∈ steps ∧ fits span s = Ok true) ∨ (s = last ∧ Forall (λ x, fits span x = Ok false) steps).
Proof.
  induction steps as [|x steps IH]; cbn [first_fit].
  { intros [= <-]. right. by split; [|constructor]. }
  destruct (fits span x) as [[]|e] eqn:Hf; cbn [mbind res_bind]; [intros [= <-]; left; set_solver| |done].
  intros [[Hs Ht]|[Hs HF]]%IH; [left; set_solver|right]. split; [done|by constructor].
Qed.

Lemma fits_total span step : step ≠ 0%Z → ∃ b, fits span step = Ok b.
Proof.
  intros Hs. unfold fits, ndiv. rewrite int_not_zero by done. by eexists.
Qed.

(** Every report row falls into exactly one column. *)

Lemma z_range_elem lo hi z : z ∈ z_range lo hi ↔ (lo <= z <= hi)%Z.
Proof.
  unfold z_range. rewrite list_elem_of_fmap. split.
  - intros (n & -> & Hn%elem_of_seq). lia.
  - intros Hz. exists (Z.to_nat (z - lo)). split; [lia|]. apply elem_of_seq. lia.
Qed.
Lemma z_range_NoDup lo hi : NoDup (z_range lo hi).
Proof. unfold z_range. apply NoDup_fmap_2; [intros x y Hxy; simpl in Hxy; lia|apply NoDup_seq]. Qed.

Lemma sum_nat_app l l' : sum_nat (l ++ l') = sum_nat l + sum_nat l'.
Proof. unfold sum_nat. induction l; simpl; lia. Qed.

Lemma sum_nat_add {A} (f g : A → nat) l :
  sum_nat ((λ x, f x + g x) <$> l) = sum_nat (f <$> l) + sum_nat (g <$> l).
Proof. unfold sum_nat. induction l as [|x l IH]; [done|]. rewrite !fmap_cons. cbn [foldr]. lia. Qed.

