(* ===== verification/ReportFacts.v ===== *)
(** * What an incident report promises

    Every reported row is in exactly one column, the totals agree, and the
    phases are the most severe runs of columns, in order of time. *)

From S2P Require Import Prelude PyNum PyStat Json World Db Enforcement ReportData.

(** ** Counting by bucket *)

Lemma sum_indicator (z : Z) (l : list Z) :
  NoDup l → sum_nat ((λ i, if (z =? i)%Z then 1 else 0) <$> l) = if decide (z ∈ l) then 1 else 0.
Proof.
  induction 1 as [|x l Hx _ IH]; [done|]. rewrite fmap_cons. unfold sum_nat in *. cbn [foldr]. rewrite IH.
  destruct (Z.eqb_spec z x) as [->|Hne].
  - rewrite decide_False by done. by rewrite decide_True by left.
  - destruct (decide (z ∈ l)) as [Hin|Hni]; [by rewrite decide_True by by right|].
    rewrite decide_False; [done|]. set_solver.
Qed.

Lemma count_split {A} (f : A → Z) (p : A → bool) (l : list A) (range : list Z) :
  NoDup range → (∀ x, x ∈ l → f x ∈ range) →
  sum_nat ((λ i, length (List.filter p (List.filter (λ x, (f x =? i)%Z) l))) <$> range) = length (List.filter p l).
Proof.
  intros Hnd. induction l as [|x l IH]; intros Hin.
  { clear. induction range as [|i range IH]; [done|]. rewrite fmap_cons. exact IH. }
  assert (Hx : sum_nat ((λ i, if (f x =? i)%Z then 1 else 0) <$> range) = 1).
  { rewrite sum_indicator by done. by rewrite decide_True by (apply Hin; left). }
  specialize (IH ltac:(intros y Hy; apply Hin; by right)). cbn [List.filter].
  destruct (p x) eqn:Hp.
  - cbn [length]. rewrite <-IH, <-(Nat.add_1_l (sum_nat _)), <-Hx, <-sum_nat_add. f_equal. apply list_fmap_ext.
    intros _ i _. destruct (f x =? i)%Z; cbn [List.filter]; rewrite ?Hp; reflexivity.
  - rewrite <-IH. f_equal. apply list_fmap_ext. intros _ i _.
    destruct (f x =? i)%Z; cbn [List.filter]; rewrite ?Hp; reflexivity.
Qed.

(** ** Columns *)

Section cols.
Context (avg : list num → num) (live : Metrics) (step : Z) (metrics : list MetricRow).

Lemma stacked_total rows :
  sum_nat (stacked_of rows).*2 = sum_nat ((λ cls, count_class cls rows) <$> TRAFFIC_CLASSES).
Proof using. unfold stacked_of, STACK_CLASSES, TRAFFIC_CLASSES, sum_nat. simpl. lia. Qed.

Lemma cols_shape rows :
  ∃ range, cols_of avg live step rows metrics = col_at avg live step rows metrics <$> range ∧
    NoDup range ∧ ∀ r, r ∈ rows → bucket_of step (lg_timestamp r) ∈ range.
Proof using.
  unfold cols_of. destruct rows as [|r rows].
  { exists []. split_and!; [done|constructor|]. intros x Hx. by apply elem_of_nil in Hx. }
  rewrite fmap_cons. eexists. split; [reflexivity|]. split; [apply z_range_NoDup|].
  intros x Hx. apply z_range_elem.
  assert (Hb : bucket_of step (lg_timestamp x) ∈
    bucket_of step (lg_timestamp r) :: ((λ r, bucket_of step (lg_timestamp r)) <$> rows)).
  { exact (list_elem_of_fmap_2 (λ r, bucket_of step (lg_timestamp r)) (r :: rows) x Hx). }
  split; [by apply foldl_min_le|by apply foldl_max_ge].
Qed.

(** Each class is counted once over all columns. *)
Lemma cols_count rows cls :
  sum_nat ((λ c, co_counts c cls) <$> cols_of avg live step rows metrics) = count_class cls rows.
Proof using.
  destruct (cols_shape rows) as (range & -> & Hnd & Hin). rewrite <-list_fmap_compose.
  unfold count_class. rewrite <-(count_split (λ r, bucket_of step (lg_timestamp r)) _ rows range) by done. done.
Qed.

Lemma cols_total rows :
  sum_nat (co_total <$> cols_of avg live step rows metrics) =
  sum_nat ((λ cls, count_class cls rows) <$> TRAFFIC_CLASSES).
Proof using.
  assert (Hsum : sum_nat (co_total <$> cols_of avg live step rows metrics) =
    sum_nat ((λ c, sum_nat ((λ cls, co_counts c cls) <$> TRAFFIC_CLASSES)) <$> cols_of avg live step rows metrics)).
  { destruct (cols_shape rows) as (range & -> & _). rewrite <-!list_fmap_compose. f_equal.
    apply list_fmap_ext. intros _ i _. apply stacked_total. }
  rewrite Hsum. clear Hsum.
  assert (Hsw : ∀ (l : list Col) (cs : list string),
    sum_nat ((λ c, sum_nat ((λ cls, co_counts c cls) <$> cs)) <$> l) =
    sum_nat ((λ cls, sum_nat ((λ c, co_counts c cls) <$> l)) <$> cs)).
  { intros l cs. induction cs as [|cls cs IH].
    - clear. induction l as [|c l IH]; [done|]. rewrite fmap_cons. exact IH.
    - rewrite fmap_cons. cbn [sum_nat foldr]. fold (sum_nat ((λ cls, sum_nat ((λ c, co_counts c cls) <$> l)) <$> cs)).
      rewrite <-IH, <-sum_nat_add. done. }
  rewrite Hsw. f_equal. apply list_fmap_ext. intros _ cls _. apply cols_count.
Qed.
End cols.

(** Rows of the classes the report knows. *)
Definition known_class (r : LogRow) : Prop := lg_classification r ∈ TRAFFIC_CLASSES.

Lemma known_total rows :
  Forall known_class rows → sum_nat ((λ cls, count_class cls rows) <$> TRAFFIC_CLASSES) = length rows.
Proof.
  induction 1 as [|r rows Hr _ IH]; [done|]. cbn [length]. rewrite <-IH.
  unfold known_class, TRAFFIC_CLASSES in Hr. unfold TRAFFIC_CLASSES, sum_nat, count_class. simpl.
  repeat match goal with |- context [bool_decide (lg_classification r = ?c)] =>
    destruct (bool_decide_reflect (lg_classification r = c)) as [?|?]; simpl end; try congruence; try lia.
  exfalso. set_solver.
Qed.

(** ** Phases *)

Definition shown (c : Col) : Prop := is_Some (co_dominant c).
#[global] Instance shown_dec c : Decision (shown c) := _.

(** A run: columns with its class in common, at least one. *)
Definition run_ok (r : string * list Col) : Prop :=
  r.2 ≠ [] ∧ Forall (λ c, co_dominant c = Some r.1) r.2.

Lemma extend_runs_ok runs c :
  Forall run_ok (omap id runs) → Forall run_ok (omap id (extend_runs runs c)).
Proof.
  intros H. unfold extend_runs. destruct (co_dominant c) as [d|] eqn:Hd; [|done].
  assert (Hnew : run_ok (d, [c])) by (split; [done|by repeat constructor]).
  destruct runs as [|[[d' cs]|] rest]; simpl in *; try by constructor.
  case_bool_decide as He; [|by constructor]. subst d'. apply Forall_cons in H as [[Hne Hall] H].
  constructor; [|done]. split; [by destruct cs|]. apply Forall_app. split; [done|by repeat constructor].
Qed.

Lemma extend_runs_concat runs c :
  concat (omap id (rev (extend_runs runs c))).*2 =
  concat (omap id (rev runs)).*2 ++ (if decide (shown c) then [c] else []).
Proof.
  unfold extend_runs. destruct (decide (shown c)) as [[d Hd]|Hn].
  - rewrite Hd.
    assert (Hnew : concat (omap id (rev (Some (d, [c]) :: runs))).*2 = concat (omap id (rev runs)).*2 ++ [c]).
    { cbn [rev]. rewrite omap_app, fmap_app, concat_app. reflexivity. }
    destruct runs as [|[[d' cs]|] rest]; try exact Hnew. case_bool_decide; [|exact Hnew].
    cbn [rev]. rewrite !omap_app, !fmap_app, !concat_app. simpl. by rewrite !app_nil_r, app_assoc.
  - unfold shown in Hn. destruct (co_dominant c) as [d|]; [by destruct Hn|].
    cbn [rev]. rewrite omap_app. simpl. by rewrite !app_nil_r.
Qed.

Lemma runs_of_spec cols :
  Forall run_ok (runs_of cols) ∧ concat (runs_of cols).*2 = filter shown cols.
Proof.
  unfold runs_of.
  assert (H : ∀ runs, Forall run_ok (omap id runs) →
    Forall run_ok (omap id (foldl extend_runs runs cols)) ∧
    concat (omap id (rev (foldl extend_runs runs cols))).*2 = concat (omap id (rev runs)).*2 ++ filter shown cols).
  { induction cols as [|c cols IH]; intros runs Hr; cbn [foldl]; [by rewrite app_nil_r|].
    destruct (IH (extend_runs runs c)) as [H1 H2]; [by apply extend_runs_ok|]. split; [done|].
    rewrite H2, extend_runs_concat, filter_cons, <-app_assoc. by destruct (decide (shown c)). }
  destruct (H [] (Forall_nil_2 _)) as [H1 H2]. split; [|exact H2].
  apply Forall_forall. intros r Hr. rewrite Forall_forall in H1. apply H1.
  rewrite list_elem_of_omap in *. destruct Hr as (x & Hx & He). exists x. split; [|done].
  apply list_elem_of_In, in_rev, list_elem_of_In in Hx. done.
Qed.

Lemma priority_lt_asym x y : priority_lt x y = true → priority_lt y x = false.
Proof. unfold priority_lt. rewrite orb_true_iff, andb_true_iff, orb_false_iff, andb_false_iff, !Nat.ltb_lt, !Nat.ltb_ge, Nat.eqb_eq, Nat.eqb_neq. lia. Qed.
Lemma priority_le_trans x y z : py_le priority_lt x y → py_le priority_lt y z → py_le priority_lt x z.
Proof.
  unfold py_le, priority_lt. rewrite !orb_false_iff, !andb_false_iff, !Nat.ltb_ge, !Nat.eqb_neq. lia.
Qed.

Lemma sorted_app_split {A} (R : A → A → Prop) l1 l2 :
  StronglySorted R (l1 ++ l2) → ∀ x y, x ∈ l1 → y ∈ l2 → R x y.
Proof.
  induction l1 as [|a l1 IH]; intros Hs x y Hx Hy; [by apply elem_of_nil in Hx|].
  apply StronglySorted_inv in Hs as [Hs Ha]. apply elem_of_cons in Hx as [->|Hx]; [|by eapply IH].
  rewrite Forall_forall in Ha. apply Ha. set_solver.
Qed.

(** At most four runs are kept; they appear in order of time; and a run left
    out is no more severe, and of the same severity no longer, than any kept. *)
Lemma kept_runs_spec cols :
  ∃ dropped, kept_runs cols ++ dropped ≡ₚ runs_of cols ∧ length (kept_runs cols) = Nat.min MAX_PHASES (length (runs_of cols)) ∧
    StronglySorted (λ a b, (run_start a <= run_start b)%Z) (kept_runs cols) ∧
    ∀ k r, k ∈ kept_runs cols → r ∈ dropped → priority_lt r k = false.
Proof.
  unfold kept_runs. set (sorted := py_sort priority_lt (runs_of cols)).
  exists (drop MAX_PHASES sorted). split_and!.
  - rewrite py_sort_perm, take_drop. apply py_sort_perm.
  - rewrite py_sort_length, length_take. unfold sorted. by rewrite py_sort_length.
  - assert (Hs : StronglySorted (py_le start_lt) (py_sort start_lt (take MAX_PHASES sorted))).
    { apply (py_sort_sorted start_lt (λ _, True)); [..|by apply Forall_true].
      - intros x y _ _. unfold start_lt. rewrite Z.ltb_lt, Z.ltb_ge. lia.
      - intros x y z _ _ _. unfold py_le, start_lt. rewrite !Z.ltb_ge. lia. }
    clear -Hs. induction Hs as [|x l _ IH HF]; constructor; [done|]. eapply Forall_impl; [exact HF|].
    intros y. unfold py_le, start_lt. by rewrite Z.ltb_ge.
  - assert (Hs : StronglySorted (py_le priority_lt) sorted).
    { apply (py_sort_sorted priority_lt (λ _, True)); [..|by apply Forall_true].
      - intros x y _ _. apply priority_lt_asym.
      - intros x y z _ _ _. apply priority_le_trans. }
    intros k r Hk Hr. rewrite py_sort_perm in Hk. rewrite <-(take_drop MAX_PHASES sorted) in Hs.
    by apply (sorted_app_split _ _ _ Hs).
Qed.

(** A phase is the summary of its run. *)
Definition summarises (bucket_s : Z) (r : string * list Col) (p : Phase) : Prop :=
  ph_title p = r.1 ∧ ph_start p = run_start r ∧ ph_buckets p = length r.2 ∧
  ph_records p = sum_nat (co_total <$> r.2) ∧
  ∃ c, last r.2 = Some c ∧ ph_end p = (co_start c + bucket_s)%Z.

Lemma len_num_nonzero {A} (x : A) l : is_zero (len_num (x :: l)) = false.
Proof.
  unfold is_zero, neq, ncmp, ext_cmp, ext_of, fin_cmp, len_num. cbn [length Z.min Z.sub Z.opp Z.add Z.pow]. 
  rewrite Z.mul_1_r. destruct (Z.compare_spec (Z.of_nat (S (length l))) 0); [lia|done|done].
Qed.

Lemma phase_of_total bucket_s r : run_ok r → ∃ p, phase_of bucket_s r = Ok p ∧ summarises bucket_s r p.
Proof.
  intros [Hne _]. unfold phase_of. destruct (last r.2) as [c|] eqn:Hl; [|by apply last_None in Hl].
  destruct r as [d cs]. cbn [fst snd] in *. destruct cs as [|c0 cs]; [done|]. rewrite fmap_cons.
  assert (He : ∃ e, phase_entropy (c0 :: cs) = Ok e).
  { unfold phase_entropy. destruct (omap co_avg_entropy (c0 :: cs)) as [|e es]; [by eexists|].
    unfold ndiv. rewrite len_num_nonzero. by eexists. }
  destruct He as [e ->]. cbn [mbind res_bind]. eexists. split; [done|]. split_and!; try done. by exists c.
Qed.

Lemma phases_of_runs_total bucket_s rs :
  Forall run_ok rs → ∃ ps, phases_of_runs bucket_s rs = Ok ps ∧ Forall2 (summarises bucket_s) rs ps.
Proof.
  induction 1 as [|r rs Hr _ (ps & Hps & HF)]; [by exists []|]. cbn [phases_of_runs].
  destruct (phase_of_total bucket_s r Hr) as (p & -> & Hp). cbn [mbind res_bind]. rewrite Hps.
  cbn [mbind res_bind]. exists (p :: ps). by split; [|constructor].
Qed.

Lemma kept_runs_ok cols : Forall run_ok (kept_runs cols).
Proof.
  destruct (kept_runs_spec cols) as (dropped & Hp & _).
  assert (H : Forall run_ok (kept_runs cols ++ dropped)) by (rewrite Hp; apply runs_of_spec).
  by apply Forall_app in H as [H _].
Qed.

(** The phases of a report summarise runs of consecutive columns with one
    dominant class, which together are exactly the columns with records: no
    more than four, the most severe ones whenever some are left out, and in
    order of time. *)
Theorem phases_spec cols bucket_s :
  Forall run_ok (runs_of cols) ∧ concat (runs_of cols).*2 = filter shown cols ∧
  ∃ ps kept dropped, _build_phases cols bucket_s = Ok ps ∧ Forall2 (summarises bucket_s) kept ps ∧
    kept ++ dropped ≡ₚ runs_of cols ∧ length ps ≤ MAX_PHASES ∧ (dropped ≠ [] → length ps = MAX_PHASES) ∧
    StronglySorted (λ a b, (run_start a <= run_start b)%Z) kept ∧
    (∀ k r, k ∈ kept → r ∈ dropped → priority_lt r k = false).
Proof.
  destruct (runs_of_spec cols) as [Hok Hcat]. split; [done|]. split; [done|].
  destruct (kept_runs_spec cols) as (dropped & Hperm & Hlen & Hs & Hpri).
  destruct (phases_of_runs_total bucket_s (kept_runs cols) (kept_runs_ok cols)) as (ps & Hps & HF).
  exists ps, (kept_runs cols), dropped. pose proof (Forall2_length _ _ _ HF) as Hl.
  apply Permutation_length in Hperm as Hplen. rewrite length_app in Hplen.
  split_and!; try done; [lia|]. intros Hd. destruct dropped; [done|]. cbn [length] in Hplen. lia.
Qed.

(** ** The report as a whole *)

Lemma first_fit_total span steps last :
  Forall (λ s, s ≠ 0%Z) steps → ∃ s, first_fit span steps last = Ok s.
Proof.
  induction 1 as [|x steps Hx _ IH]; [by eexists|]. cbn [first_fit].
  destruct (fits_total span x Hx) as [[] ->]; cbn [mbind res_bind]; [by eexists|done].
Qed.

Lemma pick_bucket_total hours : ∃ s, _pick_bucket_seconds hours = Ok s.
Proof. apply first_fit_total. by repeat constructor. Qed.


Section whole.
Context {E : Env}.

Lemma ipset_members_runs s w (P : list (string * Z) → World → Prop) :
  (∀ l w', w_db w' = w_db w → P l w') → runs (_get_ipset_members s) w P.
Proof.
  intros HP. unfold _get_ipset_members, try_all, try_except.
  match goal with |- runs (λ w, match ?m w with _ => _ end) _ _ => assert (Hd : w_db (m w).2 = w_db w) end.
  { unfold mbind, M_bind, run_cmd, lift, mret, M_ret.
    destruct (sub _ _ _) as [rc out|]; [destruct (negb _)|]; by destruct w. }
  match type of Hd with w_db (?m w).2 = _ => destruct (m w) as [[l|e] w'] eqn:Hm end.
  - exists l, w'. split; [by rewrite Hm|by apply HP].
  - exists [], w'. split; [by rewrite Hm|by apply HP].
Qed.

(** The same, remembering which listing it was. *)
Lemma ipset_members_runs' s w (P : list (string * Z) → World → Prop) :
  (∀ l w', _get_ipset_members s w = (Ok l, w') → P l w') → runs (_get_ipset_members s) w P.
Proof.
  intros HP. destruct (ipset_members_runs s w (λ _ _, True)) as (l & w' & Hm & _); [done|].
  exists l, w'. auto.
Qed.
End whole.

Lemma block_bars_total blocked :
  blocked = [] ∨ longest_hold blocked ≠ 0%Z → ∃ bars, block_bars blocked = Ok bars.
Proof.
  intros H. unfold block_bars. destruct H as [->|H]; [by eexists|].
  induction (take MAX_LIST_ROWS blocked) as [|b l [bars IH]]; [by eexists|]. cbn [map_res].
  assert (Hq : ∃ y, block_bar (longest_hold blocked) b = Ok y).
  { unfold block_bar, ndiv. rewrite int_not_zero by done. by eexists. }
  destruct Hq as [y ->]. cbn [mbind res_bind]. rewrite IH. by eexists.
Qed.

(** The three counts of a report. *)
Lemma counts_agree avg live since step d :
  let rows := report_rows since d in
  let cols := report_cols avg live since step d in
  let mix := (λ cls, mkMix cls (count_class cls rows)) <$> TRAFFIC_CLASSES in
  sum_nat (co_total <$> cols) = sum_nat (mx_n <$> mix) ∧
  Forall (λ m, sum_nat ((λ c, co_counts c (mx_name m)) <$> cols) = mx_n m) mix ∧
  (Forall (λ r, known_class r ∨ lg_classification r = "Released"%string) (tb_rows (db_logs d)) →
   sum_nat (mx_n <$> mix) = length rows).
Proof.
  intros rows cols mix. unfold mix. rewrite <-list_fmap_compose.
  assert (Hmix : (mx_n ∘ λ cls, mkMix cls (count_class cls rows)) <$> TRAFFIC_CLASSES =
                 (λ cls, count_class cls rows) <$> TRAFFIC_CLASSES) by done.
  rewrite Hmix. split_and!; [apply cols_total| |].
  - rewrite Forall_fmap. apply Forall_forall. intros cls _. apply cols_count.
  - intros HF. apply known_total. apply Forall_forall. intros r Hr. unfold rows, report_rows in Hr.
    apply list_elem_of_In, filter_In in Hr as [Hr Hrep]. apply list_elem_of_In in Hr.
    rewrite Forall_forall in HF. destruct (HF r Hr) as [?|He]; [done|].
    unfold reported in Hrep. rewrite He, bool_decide_true in Hrep by done. by rewrite andb_false_r in Hrep.
Qed.


Definition report_world : World :=
  upd_db (upd_logs (tb_insert (λ i, mkLog i (flt 5 1) "203.0.113.9" "10.0.0.5" "MIXED" (Some (flt 900 1)) None
                                          "Blocked"))) empty_world.

(** [math.log10] on the values of the example. *)
Definition demo_log10 (x : num) : num := if nlt (NInt 100) x then flt 295 100 else if nlt (NInt 1) x then flt 3 10 else flt 0 1.
Definition demo_chart : res Chart :=
  chart_of demo_log10 (report_cols (λ _, flt 0 1) (last_metrics (w_state report_world))
    (nsub (@clk calm_env (w_ticks report_world)) (nmul (flt 6 1) (NInt 3600))) 300 (w_db report_world)).

