(* ===== verification/ReportText.v ===== *)
(** * report_data.py: the texts of a report

    The figures of [ReportData] as the strings the template prints: grouped
    integers, times, percentages, colours, the body of a phase. The random part
    of the report's name, the version and the text of a playbook event's stage
    and detail are parameters. *)

From stdpp Require Import pretty.
From Stdlib Require Import SpecFloat.
From S2P Require Import Prelude PyNum PyStat PyStr PyTime Json World ReportData.

#[local] Open Scope Z_scope.

Definition COLORS : list (string * string) :=
  [("Normal", "#5b93a8"); ("Flash Crowd", "#dcc257"); ("Anomalous", "#a78bfa"); ("Rate Limited", "#d99a4a");
   ("Rate Limited (Flash Crowd)", "#e3d67e"); ("Blocked", "#c8493c")]%string.
Definition color (cls : string) : res string :=
  match dict_get cls COLORS with Some c => Ok c | None => Exn KeyError end.

(** ** Numbers *)

(** Commas between groups of three, on the digits from the right. *)
Fixpoint group3 (l : list ascii) : list ascii :=
  match l with
  | a :: b :: c :: ((_ :: _) as l') => a :: b :: c :: ","%char :: group3 l'
  | _ => l
  end.
Definition with_commas (digits : string) : string :=
  string_of_list_ascii (rev (group3 (rev (list_ascii_of_string digits)))).

(** [format(z, ",")] *)
Definition fmt_grouped (z : Z) : string :=
  if z <? 0 then "-" ^^ with_commas (pretty (- z)) else with_commas (pretty z).

Definition _fmt_int (n : num) : res string := z ← py_int n; Ok (fmt_grouped z).

(** The part before the first point, and the rest with it. *)
Fixpoint split_point (l : list ascii) : list ascii * list ascii :=
  match l with
  | [] => ([], [])
  | c :: l' => if bool_decide (c = "."%char) then ([], l) else let '(a, b) := split_point l' in (c :: a, b)
  end.

(** [format(x, ",.<d>f")] *)
Definition fmt_comma (n : num) (d : nat) : string :=
  let body l := let '(a, b) := split_point l in string_of_list_ascii (rev (group3 (rev a)) ++ b) in
  match list_ascii_of_string (fmt_fixed n d) with
  | "-"%char :: l => "-" ^^ body l
  | l => body l
  end.

Definition pct2 (n : num) : string := fmt_fixed n 2 ^^ "%".

(** [time.strftime("%H:%M", time.gmtime(epoch))] *)
Definition _fmt_time (epoch : num) : res string := t ← utc_text epoch; Ok (String.substring 11 5 t).

(** ** Columns *)

Record ColText := mkColText {
  ct_tick : string; ct_normal : string; ct_flash : string; ct_anomalous : string; ct_rl : string;
  ct_blocked : string; ct_rate_h : string; ct_rate_color : string; ct_entropy_h : string; ct_entropy_color : string }.

(** The stack of a bar is in the order of STACK_CLASSES. *)
Definition col_text (bc : Bar * Col) : res ColText :=
  let '(b, c) := bc in
  tick ← (if ba_tick b then _fmt_time (NInt (co_start c)) else Ok EmptyString);
  rate_color ← color (ba_rate_color b);
  entropy_color ← color (ba_entropy_color b);
  match ba_stack b with
  | [normal; flash; anomalous; rl; blocked] =>
      Ok (mkColText tick (pct2 normal) (pct2 flash) (pct2 anomalous) (pct2 rl) (pct2 blocked)
            (if nlt (NInt 0) (co_peak_rate c) then pct2 (ba_rate_h b) else "0%") rate_color
            (match co_avg_entropy c with Some _ => pct2 (ba_entropy_h b) | None => "0%" end) entropy_color)
  | _ => Exn KeyError
  end.

(** ** Phases *)

Record PhaseText := mkPhaseText { pt_time : string; pt_title : string; pt_color : string; pt_body : string }.

Fixpoint join_spaces (l : list string) : string :=
  match l with [] => EmptyString | [x] => x | x :: l' => x ^^ " " ^^ join_spaces l' end.

Definition _phase_body (total_records n_buckets : nat) (peak : num) (avg_entropy : option num) : res string :=
  avg ← (if (n_buckets =? 0)%nat then Ok (NInt 0)
         else ndiv (NInt (Z.of_nat total_records)) (NInt (Z.of_nat n_buckets)));
  Ok (join_spaces (
    ["About " ^^ fmt_fixed avg 0 ^^ " records logged per window."] ++
    (if nlt (NInt 0) peak then ["Highest single rate seen was " ^^ fmt_comma peak 1 ^^ " pps."] else []) ++
    (match avg_entropy with
     | Some e => ["Average source spread (entropy) was " ^^ fmt_fixed e 2 ^^ " bits."]
     | None => []
     end))).

Definition phase_text (p : Phase) : res PhaseText :=
  a ← _fmt_time (NInt (ph_start p)); b ← _fmt_time (NInt (ph_end p)); c ← color (ph_title p);
  body ← _phase_body (ph_records p) (ph_buckets p) (ph_peak p) (ph_entropy p);
  Ok (mkPhaseText (a ^^ "–" ^^ b) (ph_title p) c body).

(** ** Lists *)

Record MixText := mkMixText { mt_name : string; mt_count : string; mt_pct : string; mt_w : string; mt_color : string }.
Definition nat_num (n : nat) : num := NInt (Z.of_nat n).

(** [n / total * 100], or 0.0 when the total is zero. *)
Definition share_of (n total : nat) : res num :=
  if (total =? 0)%nat then Ok (flt 0 1) else q ← ndiv (nat_num n) (nat_num total); Ok (nmul q (NInt 100)).

Definition mix_text (total : nat) (m : Mix) : res MixText :=
  pct ← share_of (mx_n m) total; c ← color (mx_name m);
  Ok (mkMixText (mx_name m) (fmt_grouped (Z.of_nat (mx_n m))) (pct2 pct) (fmt_fixed pct 3 ^^ "%") c).

Record BarText := mkBarText { bt_ip : string; bt_n : string; bt_w : string; bt_unattributed : bool }.
Definition longest_bar (l : list (string * nat)) : nat :=
  match l.*2 with [] => 1%nat | n :: ns => foldl Nat.max n ns end.
Definition bar_text (longest : nat) (r : string * nat) : res BarText :=
  q ← ndiv (nat_num r.2) (nat_num longest);
  Ok (mkBarText r.1 (fmt_grouped (Z.of_nat r.2)) (pct2 (nmul q (NInt 100))) (is_unattributed r.1)).
Definition bar_texts (l : list (string * nat)) : res (list BarText) := map_res (bar_text (longest_bar l)) l.

Record BlockText := mkBlockText { kt_ip : string; kt_left : string; kt_w : string }.
Definition block_text (b : string * Z * num) : BlockText :=
  mkBlockText b.1.1 (pretty b.1.2 ^^ "s") (pct2 b.2).

Record DetailText := mkDetailText {
  dt_ip : string; dt_n : string; dt_first : string; dt_last : string; dt_peak : string; dt_status : string;
  dt_unattributed : bool }.
Definition detail_text (s : SourceDetail) : res DetailText :=
  a ← _fmt_time (sd_first s); b ← _fmt_time (sd_last s);
  Ok (mkDetailText (sd_ip s) (fmt_grouped (Z.of_nat (sd_n s))) a b
        (match sd_peak s with Some p => fmt_fixed p 1 | None => "n/a" end) (sd_status s) (is_unattributed (sd_ip s))).

Record TimelineText := mkTimelineText {
  tt_when : string; tt_stage : string; tt_host : string; tt_source : string; tt_playbook : string; tt_detail : string }.

(** [value or "n/a"] *)
Definition text_or (d : string) (s : option string) : string :=
  match s with Some (String _ _ as t) => t | _ => d end.

(** ** The context *)

Record ReportText := mkReportText {
  rt_id : string; rt_generated_at : string; rt_window_label : string; rt_version : string;
  rt_ingress : string; rt_egress : string; rt_state : string; rt_total_records : string;
  rt_unique_sources : nat; rt_unique_victims : nat; rt_blocked_count : nat; rt_limited_count : nat;
  rt_peak_fmt : string; rt_peak_multiple : num; rt_cols : list ColText; rt_starts : list Z;
  rt_axis_ticks : list string; rt_axis_rate_top : string; rt_rate_val : num; rt_rate_pct : string;
  rt_entropy_val : num; rt_entropy_pct : string; rt_phases : list PhaseText; rt_mix : list MixText;
  rt_victims : list BarText; rt_sources : list BarText; rt_unattributed : option BarText;
  rt_details : list DetailText; rt_timeline : list TimelineText; rt_blocks : list BlockText;
  rt_current_rate : num; rt_current_entropy : num; rt_live_rate : num; rt_live_entropy : num;
  rt_rate_gauge : string; rt_entropy_gauge : string; rt_entropy_marker : string;
  rt_below : nat; rt_below_pct : num; rt_enforced : nat; rt_blocked_share : string; rt_limited_share : string }.

(** [min(100.0, current / live * 100) if live else 0], as a percentage. *)
Definition rate_gauge (current live : num) : res string :=
  if is_zero live then Ok (pct2 (NInt 0))
  else q ← ndiv current live; Ok (pct2 (py_min (flt 100 1) (nmul q (NInt 100)))).

Definition axis_ticks (top : num) : res (list string) :=
  a ← _fmt_int top;
  q ← ndiv (nmul top (NInt 2)) (NInt 3); b ← _fmt_int q;
  q ← ndiv top (NInt 3); c ← _fmt_int q;
  Ok [a; b; c; "0"%string].

Section text.
Context (stage_text : json → string) (event_detail : stage_detail → string).

Definition timeline_text (e : PlaybookEvent * string * string) : res TimelineText :=
  let '(ev, host, name) := e in
  w ← _fmt_time (pe_fired_at ev);
  Ok (mkTimelineText w (stage_text (pe_stage_type ev)) host (text_or "n/a" (pe_target_source ev)) name
        (event_detail (pe_detail ev))).

Definition window_label (w : option (Z * Z)) : res string :=
  match w with
  | Some (s, e) => a ← _fmt_time (NInt s); b ← _fmt_time (NInt e); Ok (a ^^ " → " ^^ b ^^ " UTC")
  | None => Ok "no traffic in the selected window"%string
  end.

(** From the figures to the dictionary [build_context] returns; [hex] is
    [uuid4().hex[:12].upper()], [now] the time of the last clock reading. *)
Definition report_text (hex version : string) (now : num) (live : Metrics) (r : Report) : res ReportText :=
  cols ← map_res col_text (zip (ch_bars (rp_chart r)) (rp_cols r));
  phases ← map_res phase_text (rp_phases r);
  mix ← map_res (mix_text (rp_total_records r)) (rp_mix r);
  victims ← bar_texts (rp_victims r);
  sources ← bar_texts (rp_sources r);
  details ← map_res detail_text (rp_source_detail r);
  timeline ← map_res timeline_text (rp_timeline r);
  below ← share_of (rp_below_entropy r) (length (rp_cols r));
  let live_rate := _rate_threshold (Some (mt_mean_r live)) (Some (mt_sigma_r live)) (Some (mt_k_multiplier live)) in
  let live_entropy := _entropy_threshold (Some (mt_mean_h live)) (Some (mt_sigma_h live)) (Some (mt_k_multiplier live)) in
  let enforced := (rp_blocked_total r + rp_limited_total r)%nat in
  blocked_share ← share_of (rp_blocked_total r) enforced;
  label ← window_label (rp_window r);
  generated ← utc_text now;
  ticks ← axis_ticks (ch_axis_total (rp_chart r));
  gauge ← rate_gauge (mt_ewma_rate live) live_rate;
  Ok (mkReportText ("FLOD-" ^^ hex) (generated ^^ " UTC") label version
        (text_or "not configured" (rp_interfaces r).1) (text_or "not configured" (rp_interfaces r).2)
        (mt_latest_classification live) (fmt_grouped (Z.of_nat (rp_total_records r)))
        (rp_unique_sources r) (rp_unique_victims r) (rp_blocked_total r) (rp_limited_total r)
        (fmt_comma (rp_peak_rate r) 0) (rp_peak_multiple r) cols (co_start <$> rp_cols r)
        ticks (fmt_comma (ch_axis_rate (rp_chart r)) 0)
        (rp_rate_threshold r) (match rp_cols r with [] => "0%" | _ => pct2 (ch_rate_pct (rp_chart r)) end)
        (rp_entropy_threshold r) (match rp_cols r with [] => "0%" | _ => pct2 (ch_entropy_pct (rp_chart r)) end)
        phases mix victims sources (head (List.filter bt_unattributed sources)) details timeline
        (block_text <$> rp_blocks r)
        (mt_ewma_rate live) (mt_entropy live) live_rate live_entropy
        gauge (pct2 (unit_pct (mt_entropy live))) (pct2 (unit_pct live_entropy))
        (rp_below_entropy r) below enforced (pct2 blocked_share)
        (pct2 (if (enforced =? 0)%nat then flt 0 1 else nsub (flt 100 1) blocked_share))).
End text.
