(* ===== verification/ReportPdf.v ===== *)
(** * report_pdf.py: the report as HTML

    The template is a list of pieces: its own text, named by the line it starts
    on and its place on it, and values, which the environment escapes. The
    text itself, markupsafe's escaping and WeasyPrint are parameters. A loop of
    the template is a map, a condition an [if]. *)

From stdpp Require Import pretty.
From Stdlib Require Import SpecFloat.
From S2P Require Import Prelude PyNum PyStat PyStr PyTime Json World Config Db Enforcement ReportData ReportText.

#[local] Open Scope Z_scope.

Inductive piece :=
  | Lit (line place : nat)
  | Out (value : string).

Definition T (line : nat) : piece := Lit line 0.
Definition optional (b : bool) (l : list piece) : list piece := if b then l else [].
Definition for_in {A} (l : list A) (body : A → list piece) : list piece := mjoin (body <$> l).
Definition int_out (n : nat) : piece := Out (pretty (Z.of_nat n)).
(** ["%.<d>f"|format(x)] *)
Definition fixed_out (n : num) (d : nat) : piece := Out (fmt_fixed n d).


(** A window's length, from the distance of the first two columns. *)
Definition _bucket_label (starts : list Z) : string :=
  let seconds := match starts with a :: b :: _ => b - a | _ => 0 end in
  let seconds := if seconds =? 0 then 60 else seconds in
  if seconds <? 3600 then pretty (seconds / 60) ^^ "-minute window" else pretty (seconds / 3600) ^^ "-hour window".

Section template.
Context (ctx : ReportText) (bucket_label : string) (colors : string → string).

Definition has_cols : bool := match rt_cols ctx with [] => false | _ => true end.

(** Lines 20 to 142: style and header. *)
Definition head_pieces : list piece :=
  [T 21; Out (rt_id ctx); T 30; T 129] ++
  (if has_cols then [T 134; Out (rt_window_label ctx); Lit 134 1; Out (rt_total_records ctx); Lit 134 2] else [Lit 134 3]) ++
  [Lit 134 4; Out (rt_id ctx); T 137; Out (rt_generated_at ctx); T 138; Out (rt_ingress ctx); T 139; Out (rt_egress ctx);
   Lit 139 1; Out (rt_version ctx); T 140].

(** Lines 144 to 170: the tiles. *)
Definition usually_exceeded : bool := nle (flt 15 10) (rt_peak_multiple ctx).
Definition tile_pieces : list piece :=
  [T 144; Out (upper (rt_state ctx)); T 147; int_out (rt_blocked_count ctx); T 152; int_out (rt_limited_count ctx);
   T 157; Out (rt_peak_fmt ctx); T 162] ++
  (if usually_exceeded then [T 163; fixed_out (rt_peak_multiple ctx) 0; Lit 163 1] else [Lit 163 2]) ++
  [Lit 163 3; Out (rt_total_records ctx); T 167; int_out (rt_unique_sources ctx); T 168;
   int_out (rt_unique_victims ctx); Lit 168 1].

(** Lines 172 to 236: the charts. *)
Definition legend_pieces : list piece :=
  for_in STACK_CLASSES (λ cls, [T 177; Out (colors cls); Lit 177 1; Out cls; Lit 177 2]).
Definition tick_pieces (line : nat) : list piece :=
  for_in (rt_cols ctx) (λ c, [T line; Out (ct_tick c); Lit line 1]).

Definition volume_pieces : list piece :=
  [T 173] ++ legend_pieces ++ [T 179; Out bucket_label; T 180] ++
  for_in (rt_axis_ticks ctx) (λ t, [T 182; Out t; Lit 182 1]) ++ [Lit 182 2] ++
  for_in (rt_cols ctx) (λ c,
    [T 185; Out (ct_blocked c); T 186; Out (colors "Blocked"); Lit 186 1; Out (ct_rl c); T 187;
     Out (colors "Rate Limited"); Lit 187 1; Out (ct_flash c); T 188; Out (colors "Flash Crowd"); Lit 188 1;
     Out (ct_anomalous c); T 189; Out (colors "Anomalous"); Lit 189 1; Out (ct_normal c); T 190;
     Out (colors "Normal"); Lit 190 1]) ++
  [T 192] ++ tick_pieces 194 ++ [Lit 194 2].

Definition rate_pieces : list piece :=
  [T 198; Out (rt_axis_rate_top ctx); T 200; Out bucket_label; T 201; fixed_out (rt_rate_val ctx) 1; Lit 201 1;
   Out (rt_axis_rate_top ctx); T 203; Out (rt_rate_pct ctx); T 205; fixed_out (rt_rate_val ctx) 1; T 206] ++
  for_in (rt_cols ctx) (λ c, [T 209; Out (ct_rate_h c); Lit 209 1; Out (ct_rate_color c); Lit 209 2]) ++
  [T 210] ++ tick_pieces 212 ++ [Lit 212 2].

Definition entropy_pieces : list piece :=
  [T 220; Out bucket_label; T 222; Out (rt_entropy_pct ctx); T 226; fixed_out (rt_entropy_val ctx) 4; T 227] ++
  for_in (rt_cols ctx) (λ c, [T 230; Out (ct_entropy_h c); Lit 230 1; Out (ct_entropy_color c); Lit 230 2]) ++
  [T 231] ++ tick_pieces 233 ++ [Lit 233 2].

Definition chart_pieces : list piece :=
  (if has_cols then volume_pieces ++ rate_pieces else [T 216]) ++ optional has_cols entropy_pieces.

(** Lines 238 to 252: the phases. *)
Definition phase_pieces : list piece :=
  match rt_phases ctx with
  | [] => []
  | phases =>
      [T 239; int_out (length phases); T 241] ++
      for_in phases (λ p, [T 243; Out (pt_color p); T 244; Out (pt_time p); T 245; Out (pt_title p); T 246;
                           Out (pt_body p); T 247]) ++ [T 250]
  end.

(** Lines 254 to 316: the mix, the targets, the sources, the blocks. *)
Definition mix_pieces : list piece :=
  [T 254; Out (rt_total_records ctx); T 257] ++
  for_in (rt_mix ctx) (λ k, [T 259; Out (mt_w k); Lit 259 1; Out (mt_color k); Lit 259 2]) ++ [T 260] ++
  for_in (rt_mix ctx) (λ k, [T 262; Out (mt_color k); T 263; Out (mt_name k); T 264; Out (mt_count k); T 265;
                             Out (mt_pct k); T 266]) ++ [T 269].

Definition victim_pieces : list piece :=
  match rt_victims ctx with
  | [] => [T 279]
  | victims => for_in victims (λ v, [T 274; Out (bt_ip v); T 275; Out (bt_n v); Lit 275 1; Out (bt_w v); T 276])
  end ++ [T 281].

Definition unattributed_pieces : list piece :=
  match rt_unattributed ctx with
  | Some s => [Lit 289 0; Out (bt_ip s); Lit 289 1; Out (bt_n s); Lit 289 2; Out (rt_total_records ctx); Lit 289 3]
  | None => []
  end.
Definition source_pieces : list piece :=
  [T 284] ++ unattributed_pieces ++ [T 290] ++
  match rt_sources ctx with
  | [] => [T 298]
  | sources =>
      for_in sources (λ s,
        [T 292] ++ optional (bt_unattributed s) [T 293] ++ [Lit 293 1; Out (bt_ip s); Lit 293 2; Out (bt_w s); T 294] ++
        [if bt_unattributed s then Lit 294 1 else Lit 294 2] ++ [Lit 294 3; Out (bt_n s); T 295])
  end ++ [T 300].

Definition block_pieces : list piece :=
  [T 301] ++
  (if (length (rt_blocks ctx) <? rt_blocked_count ctx)%nat
   then [T 304; int_out (length (rt_blocks ctx)); Lit 304 1; int_out (rt_blocked_count ctx); Lit 304 2]
   else [Lit 304 3; int_out (rt_blocked_count ctx); Lit 304 4]) ++ [Lit 304 5] ++
  match rt_blocks ctx with
  | [] => [T 313]
  | blocks => for_in blocks (λ b, [T 307; Out (kt_ip b); T 308; Out (kt_w b); T 309; Out (kt_left b); T 310])
  end ++ [T 315].

(** Lines 318 to 364: the sources in detail, the playbook timeline. *)
Definition status_place (status : string) : nat :=
  if bool_decide (status = "Blocked"%string) then 1 else if bool_decide (status = "Rate limited"%string) then 2 else 3.
Definition detail_row (s : DetailText) : list piece :=
  [T 333] ++ optional (dt_unattributed s) [Lit 333 1] ++ [Lit 333 2; Out (dt_ip s); Lit 333 3; Out (dt_n s); T 334] ++
  [Out (if bool_decide (dt_n s = "1"%string) then EmptyString else "s")] ++
  [Lit 334 1; Out (dt_first s); T 335; Out (dt_last s); T 336; Out (dt_peak s); T 337] ++
  [Lit 338 (status_place (dt_status s)); Lit 338 4; Out (dt_status s); Lit 338 5].
Definition detail_pieces : list piece :=
  [T 318] ++
  match rt_details ctx with [] => [T 342] | details => [T 325] ++ for_in details detail_row ++ [T 340] end ++ [T 344].

Definition no_source (e : TimelineText) : bool := bool_decide (tt_source e = "n/a"%string).
Definition has_detail (e : TimelineText) : bool := negb (bool_decide (tt_detail e = EmptyString)).
Definition timeline_row (e : TimelineText) : list piece :=
  [T 352; Out (tt_when e); T 353; Out (tt_stage e); T 354; Out (tt_playbook e); T 356; Out (tt_host e); Lit 356 1] ++
  optional (negb (no_source e)) [Lit 356 2; Out (tt_source e); Lit 356 3] ++ [Lit 356 4] ++
  optional (has_detail e) [Out (tt_detail e)] ++ [T 357].
Definition timeline_pieces : list piece :=
  [T 346] ++ match rt_timeline ctx with [] => [T 362] | rows => for_in rows timeline_row end ++ [T 364].

(** Lines 366 to 401: the baseline. *)
Definition above_rate : bool := nle (rt_live_rate ctx) (rt_current_rate ctx).
Definition above_entropy : bool := nle (rt_live_entropy ctx) (rt_current_entropy ctx).
Definition baseline_pieces : list piece :=
  [T 366; fixed_out (rt_current_rate ctx) 1; T 371; Lit 371 (if above_rate then 1 else 2); Lit 371 3;
   fixed_out (rt_live_rate ctx) 1; Lit 371 4; Out (rt_rate_gauge ctx); T 373;
   fixed_out (rt_current_entropy ctx) 4; T 380; Lit 380 (if above_entropy then 1 else 2); Lit 380 3;
   fixed_out (rt_live_entropy ctx) 4; Lit 380 4; Out (rt_entropy_gauge ctx); T 382; Out (rt_entropy_marker ctx); T 383;
   int_out (rt_below ctx); T 385; int_out (length (rt_cols ctx)); Lit 385 1; fixed_out (rt_below_pct ctx) 1; Lit 385 2;
   int_out (rt_enforced ctx); T 389; Out (rt_blocked_share ctx); T 391; Out (rt_limited_share ctx); T 392;
   Out (upper (rt_state ctx)); T 394].

Definition template : list piece :=
  head_pieces ++ tile_pieces ++ chart_pieces ++ phase_pieces ++ mix_pieces ++ victim_pieces ++ source_pieces ++
  block_pieces ++ detail_pieces ++ timeline_pieces ++ baseline_pieces.
End template.

(** ** Rendering *)

Section render.
Context (text : nat → nat → string) (escape : string → string).

Definition render_piece (p : piece) : string :=
  match p with Lit line place => text line place | Out v => escape v end.
Definition html_of (l : list piece) : string := foldr (λ p s, render_piece p ^^ s) EmptyString l.

(** [colors[cls]]; an undefined value prints as nothing. *)
Definition color_of (cls : string) : string := default EmptyString (dict_get cls COLORS).

Definition report_html (ctx : ReportText) : string :=
  html_of (template ctx (_bucket_label (rt_starts ctx)) color_of).

(** [HTML(string=html).write_pdf()] may raise. *)
Context {B : Type} (write_pdf : string → res B).
Definition render_pdf (ctx : ReportText) : res B := write_pdf (report_html ctx).
End render.

(** ** The route of reports.py *)

Section route.
Context {E : Env} {B : Type} (avg : list num → num) (groups : list string → list string) (log10 : num → num).
Context (stage_text : json → string) (event_detail : stage_detail → string).
Context (text : nat → nat → string) (escape : string → string) (write_pdf : string → res B).

Definition report_context (hex version : string) (hours : num) (unit_file : option (list string)) : M World ReportText :=
  live ← gets (λ w, last_metrics (w_state w));
  r ← build_context avg groups log10 hours unit_file;
  now ← time_time;
  lift (report_text stage_text event_detail hex version now live r).

(** Whatever fails becomes one answer. *)
Definition export_pdf (hex version : string) (hours : num) (unit_file : option (list string)) : M World B :=
  try_all (ctx ← report_context hex version hours unit_file; lift (render_pdf text escape write_pdf ctx))
    (raise (HTTPException 500)).
End route.
