(* ===== verification/ReportPdfFacts.v ===== *)
(** * What a report cannot be made to print

    Escaped values add no markup, so the markup of a report is that of the
    template's own text, and which of it appears depends on the shape of the
    data only. Grouped integers read back. *)

From stdpp Require Import pretty.
From Stdlib Require Import SpecFloat.
From S2P Require Import Prelude PyNum PyStat PyStr PyTime Json World Config Db Enforcement ReportData ReportText ReportPdf.

#[local] Open Scope Z_scope.

(** ** Markup *)

(** The characters that begin or end a tag or an attribute: less than, greater
    than and both quotes. *)
Definition is_markup (c : ascii) : bool :=
  bool_decide (c ∈ (ascii_of_nat <$> [60; 62; 34; 39]%nat)).
Definition markup (s : string) : list ascii := List.filter is_markup (list_ascii_of_string s).

Lemma markup_app a b : markup (a ^^ b) = markup a ++ markup b.
Proof.
  unfold markup. induction a as [|c a IH]; [done|].
  change (String c a ^^ b) with (String c (a ^^ b)). cbn [list_ascii_of_string List.filter]. rewrite IH.
  by destruct (is_markup c).
Qed.

(** The places of the template's text in a list of pieces. *)
Definition lits (l : list piece) : list (nat * nat) :=
  omap (λ p, match p with Lit line place => Some (line, place) | Out _ => None end) l.

Lemma lits_app a b : lits (a ++ b) = lits a ++ lits b.
Proof. unfold lits. by rewrite omap_app. Qed.

Section markup.
Context (text : nat → nat → string) (escape : string → string).
Hypothesis escape_inert : ∀ v, markup (escape v) = [].

Lemma markup_html l : markup (html_of text escape l) = mjoin ((λ p, markup (text p.1 p.2)) <$> lits l).
Proof using escape_inert.
  induction l as [|p l IH]; [done|].
  change (html_of text escape (p :: l)) with (render_piece text escape p ^^ html_of text escape l).
  rewrite markup_app, IH. destruct p as [line place|v]; [done|]. cbn [render_piece]. by rewrite escape_inert.
Qed.
End markup.

(** ** Shape *)

Section loops.
Context {A F : Type} (flag : A → F) (body : A → list piece) (g : F → list (nat * nat)).

Lemma lits_for_in l l' :
  (∀ x, lits (body x) = g (flag x)) → flag <$> l = flag <$> l' → lits (for_in l body) = lits (for_in l' body).
Proof.
  intros Hg Hf. unfold for_in.
  assert (H : ∀ k, lits (mjoin (body <$> k)) = mjoin (g <$> (flag <$> k))).
  { induction k as [|x k IH]; [done|]. rewrite !fmap_cons.
    change (mjoin (body x :: (body <$> k))) with (body x ++ mjoin (body <$> k)). by rewrite lits_app, Hg, IH. }
  by rewrite !H, Hf.
Qed.
End loops.

(** A loop whose text is always the same. *)
Lemma lits_loop {A} (body : A → list piece) k l l' :
  (∀ x, lits (body x) = k) → length l = length l' → lits (for_in l body) = lits (for_in l' body).
Proof.
  intros Hk Hl. apply (lits_for_in (λ _, ()) body (λ _, k)); [done|].
  revert l' Hl. induction l as [|x l IH]; intros [|y l']; cbn [length]; try done. intros [= Hl].
  rewrite !fmap_cons. by rewrite (IH l' Hl).
Qed.

Record Shape := mkShape {
  sh_cols : nat; sh_ticks : nat; sh_exceeded : bool; sh_phases : nat; sh_mix : nat; sh_victims : nat;
  sh_unattributed : bool; sh_sources : list bool; sh_more_blocked : bool; sh_blocks : nat;
  sh_details : list (bool * nat); sh_timeline : list (bool * bool); sh_rate : bool; sh_entropy : bool }.

Definition shape (c : ReportText) : Shape := mkShape
  (length (rt_cols c)) (length (rt_axis_ticks c)) (usually_exceeded c) (length (rt_phases c)) (length (rt_mix c))
  (length (rt_victims c)) (match rt_unattributed c with Some _ => true | None => false end)
  (bt_unattributed <$> rt_sources c) (length (rt_blocks c) <? rt_blocked_count c)%nat (length (rt_blocks c))
  ((λ s, (dt_unattributed s, status_place (dt_status s))) <$> rt_details c)
  ((λ e, (no_source e, has_detail e)) <$> rt_timeline c) (above_rate c) (above_entropy c).

Section same_shape.
Context (c c' : ReportText) (label label' : string) (colors : string → string).
Hypothesis Hs : shape c = shape c'.

Lemma has_cols_shape : has_cols c = has_cols c'.
Proof using Hs.
  assert (H : length (rt_cols c) = length (rt_cols c')) by (injection Hs; done). unfold has_cols.
  by destruct (rt_cols c), (rt_cols c').
Qed.

Lemma head_shape : lits (head_pieces c) = lits (head_pieces c').
Proof using Hs. unfold head_pieces. rewrite <-has_cols_shape. by destruct (has_cols c). Qed.

Lemma tile_shape : lits (tile_pieces c) = lits (tile_pieces c').
Proof using Hs.
  unfold tile_pieces. replace (usually_exceeded c') with (usually_exceeded c) by (injection Hs; done).
  by destruct (usually_exceeded c).
Qed.

Lemma tick_shape line : lits (tick_pieces c line) = lits (tick_pieces c' line).
Proof using Hs. apply (lits_loop _ [(line, 0%nat); (line, 1%nat)]); [done|]. injection Hs; done. Qed.

Lemma volume_shape : lits (volume_pieces c label colors) = lits (volume_pieces c' label' colors).
Proof using Hs.
  unfold volume_pieces. rewrite !lits_app, tick_shape. repeat (apply (f_equal2 app); [try done|]); try done.
  - eapply lits_loop; [intros; unfold lits; cbn; reflexivity|]. injection Hs; done.
  - eapply lits_loop; [intros; unfold lits; cbn; reflexivity|]. injection Hs; done.
Qed.

Lemma rate_shape : lits (rate_pieces c label) = lits (rate_pieces c' label').
Proof using Hs.
  unfold rate_pieces. rewrite !lits_app, tick_shape. repeat (apply (f_equal2 app); [try done|]); try done.
  eapply lits_loop; [intros; unfold lits; cbn; reflexivity|]. injection Hs; done.
Qed.

Lemma entropy_shape : lits (entropy_pieces c label) = lits (entropy_pieces c' label').
Proof using Hs.
  unfold entropy_pieces. rewrite !lits_app, tick_shape. repeat (apply (f_equal2 app); [try done|]); try done.
  eapply lits_loop; [intros; unfold lits; cbn; reflexivity|]. injection Hs; done.
Qed.

Lemma chart_shape : lits (chart_pieces c label colors) = lits (chart_pieces c' label' colors).
Proof using Hs.
  unfold chart_pieces. rewrite <-has_cols_shape. destruct (has_cols c); [|done].
  cbn [optional]. by rewrite !lits_app, volume_shape, rate_shape, entropy_shape.
Qed.

Lemma phase_shape : lits (phase_pieces c) = lits (phase_pieces c').
Proof using Hs.
  assert (H : length (rt_phases c) = length (rt_phases c')) by (injection Hs; done). unfold phase_pieces.
  destruct (rt_phases c) as [|p l], (rt_phases c') as [|p' l']; try done. rewrite !lits_app.
  apply (f_equal2 app); [done|]. apply (f_equal2 app); [|done]. eapply lits_loop; [intros; unfold lits; cbn; reflexivity|done].
Qed.

Lemma mix_shape : lits (mix_pieces c) = lits (mix_pieces c').
Proof using Hs.
  assert (H : length (rt_mix c) = length (rt_mix c')) by (injection Hs; done).
  unfold mix_pieces. rewrite !lits_app. repeat (apply (f_equal2 app); [try done|]); try done;
    (eapply lits_loop; [intros; unfold lits; cbn; reflexivity|done]).
Qed.

Lemma victim_shape : lits (victim_pieces c) = lits (victim_pieces c').
Proof using Hs.
  assert (H : length (rt_victims c) = length (rt_victims c')) by (injection Hs; done). unfold victim_pieces.
  destruct (rt_victims c) as [|p l], (rt_victims c') as [|p' l']; try done. rewrite !lits_app. apply (f_equal2 app); [|done].
  eapply lits_loop; [intros; unfold lits; cbn; reflexivity|done].
Qed.

Lemma source_shape : lits (source_pieces c) = lits (source_pieces c').
Proof using Hs.
  assert (H : bt_unattributed <$> rt_sources c = bt_unattributed <$> rt_sources c') by (injection Hs; done).
  assert (Hu : lits (unattributed_pieces c) = lits (unattributed_pieces c')).
  { assert (Hb : match rt_unattributed c with Some _ => true | None => false end =
                 match rt_unattributed c' with Some _ => true | None => false end) by (injection Hs; done).
    unfold unattributed_pieces. by destruct (rt_unattributed c), (rt_unattributed c'). }
  unfold source_pieces. rewrite !lits_app, Hu. do 3 (apply (f_equal2 app); [done|]). apply (f_equal2 app); [|done].
  destruct (rt_sources c) as [|s l], (rt_sources c') as [|s' l']; try done.
  revert H. apply (lits_for_in bt_unattributed _ (λ b : bool,
    [(292, 0)] ++ (if b then [(293, 0)] else []) ++ [(293, 1); (293, 2); (294, 0); if b then (294, 1) else (294, 2); (294, 3); (295, 0)])%nat).
  intros x. by destruct (bt_unattributed x).
Qed.

Lemma block_shape : lits (block_pieces c) = lits (block_pieces c').
Proof using Hs.
  assert (H : length (rt_blocks c) = length (rt_blocks c')) by (injection Hs; done).
  assert (Hb : (length (rt_blocks c) <? rt_blocked_count c)%nat = (length (rt_blocks c') <? rt_blocked_count c')%nat)
    by (injection Hs; done).
  unfold block_pieces. rewrite !lits_app. apply (f_equal2 app); [done|].
  apply (f_equal2 app); [rewrite Hb; destruct (length (rt_blocks c') <? rt_blocked_count c')%nat; reflexivity|].
  apply (f_equal2 app); [done|]. apply (f_equal2 app); [|done]. destruct (rt_blocks c) as [|s l], (rt_blocks c') as [|s' l']; try done.
  eapply lits_loop; [intros; unfold lits; cbn; reflexivity|done].
Qed.

Lemma detail_shape : lits (detail_pieces c) = lits (detail_pieces c').
Proof using Hs.
  set (flag := λ s, (dt_unattributed s, status_place (dt_status s))).
  assert (H : flag <$> rt_details c = flag <$> rt_details c') by (injection Hs; done).
  unfold detail_pieces. rewrite !lits_app. apply (f_equal2 app); [done|]. apply (f_equal2 app); [|done].
  destruct (rt_details c) as [|s l], (rt_details c') as [|s' l']; try done. rewrite !lits_app. apply (f_equal2 app); [done|].
  apply (f_equal2 app); [|done]. revert H. apply (lits_for_in flag _ (λ f : bool * nat,
    [(333, 0)] ++ (if f.1 then [(333, 1)] else []) ++
    [(333, 2); (333, 3); (334, 0); (334, 1); (335, 0); (336, 0); (337, 0); (338, f.2); (338, 4); (338, 5)])%nat).
  intros x. unfold detail_row, flag. by destruct (dt_unattributed x).
Qed.

Lemma timeline_shape : lits (timeline_pieces c) = lits (timeline_pieces c').
Proof using Hs.
  set (flag := λ e, (no_source e, has_detail e)).
  assert (H : flag <$> rt_timeline c = flag <$> rt_timeline c') by (injection Hs; done).
  unfold timeline_pieces. rewrite !lits_app. apply (f_equal2 app); [done|]. apply (f_equal2 app); [|done].
  destruct (rt_timeline c) as [|s l], (rt_timeline c') as [|s' l']; try done.
  revert H. apply (lits_for_in flag _ (λ f : bool * bool,
    [(352, 0); (353, 0); (354, 0); (356, 0); (356, 1)] ++ (if f.1 then [] else [(356, 2); (356, 3)]) ++ [(356, 4); (357, 0)])%nat).
  intros x. unfold timeline_row, flag. by destruct (no_source x), (has_detail x).
Qed.

Lemma baseline_shape : lits (baseline_pieces c) = lits (baseline_pieces c').
Proof using Hs.
  unfold baseline_pieces. replace (above_rate c') with (above_rate c) by (injection Hs; done).
  by replace (above_entropy c') with (above_entropy c) by (injection Hs; done).
Qed.

Lemma template_shape : lits (template c label colors) = lits (template c' label' colors).
Proof using Hs.
  unfold template. by rewrite !lits_app, head_shape, tile_shape, chart_shape, phase_shape, mix_shape, victim_shape,
    source_shape, block_shape, detail_shape, timeline_shape, baseline_shape.
Qed.
End same_shape.

(** C37: Whatever a source, a playbook, a capture interface or a stored record
    contributes to a report, its markup is that of any report of the same shape:
    the same number of columns, rows and phases, with the same marks. *)
Theorem report_markup_fixed text escape c c' :
  (∀ v, markup (escape v) = []) → shape c = shape c' →
  markup (report_html text escape c) = markup (report_html text escape c').
Proof.
  intros He Hs. unfold report_html. rewrite !markup_html by done. f_equal. f_equal. by apply template_shape.
Qed.

(** ** A report about a hostile name *)

(** Escaping as markupsafe documents it. *)
Definition escape_char (c : ascii) : string :=
  match nat_of_ascii c with
  | 38%nat => "&amp;" | 60%nat => "&lt;" | 62%nat => "&gt;" | 39%nat => "&#39;" | 34%nat => "&#34;"
  | _ => String c EmptyString
  end.
Definition html_escape (s : string) : string := foldr (λ c t, escape_char c ^^ t) EmptyString (list_ascii_of_string s).

Lemma markup_escape_char c : markup (escape_char c) = [].
Proof. destruct c as [[] [] [] [] [] [] [] []]; vm_compute; reflexivity. Qed.

Lemma html_escape_inert s : markup (html_escape s) = [].
Proof.
  unfold html_escape. induction (list_ascii_of_string s) as [|c l IH]; [done|].
  change (foldr _ _ (c :: l)) with (escape_char c ^^ foldr (λ c t, escape_char c ^^ t) EmptyString l).
  by rewrite markup_app, markup_escape_char, IH.
Qed.

Definition named_report (playbook : string) : ReportText := mkReportText
  "FLOD-0123456789AB" "2026-03-01 12:00:00 UTC" "no traffic in the selected window" "1.0" "eth0" "eth1" "Normal" "0"
  0 0 0 0 "0" (flt 0 1) [] [] ["1"; "1"; "0"; "0"] "1" (flt 0 1) "0%" (flt 0 1) "0%" [] [] [] [] None [] 
  [mkTimelineText "12:00" "notify" "10.0.0.5" "n/a" playbook ""] [] (flt 1 1) (flt 1 2) (flt 2 1) (flt 1 4)
  "50.00%" "50.00%" "25.00%" 0 (flt 0 1) 0 "0.00%" "0.00%".

(** A template whose every piece of text opens a cell. *)
Definition cells (line place : nat) : string := "<td>".

Lemma report_markup_fixed_witness :
  shape (named_report "<script>alert(1)</script>") = shape (named_report "night watch") ∧
  markup (report_html cells html_escape (named_report "<script>alert(1)</script>")) =
    markup (report_html cells html_escape (named_report "night watch")).
Proof.
  assert (Hs : shape (named_report "<script>alert(1)</script>") = shape (named_report "night watch"))
    by (vm_compute; reflexivity).
  split; [exact Hs|]. exact (report_markup_fixed cells html_escape _ _ html_escape_inert Hs).
Defined.

(** ** Grouped integers read back *)

Definition no_commas (l : list ascii) : list ascii := List.filter (λ c, negb (bool_decide (c = ","%char))) l.

Lemma group3_no_commas l : no_commas (group3 l) = no_commas l.
Proof.
  remember (length l) as n eqn:Hn. revert l Hn. induction n as [n IH] using lt_wf_ind. intros l ->.
  destruct l as [|a [|b [|c [|d l]]]]; try done.
  change (group3 (a :: b :: c :: d :: l)) with (a :: b :: c :: ","%char :: group3 (d :: l)).
  assert (H : no_commas (group3 (d :: l)) = no_commas (d :: l)) by (eapply IH; [|reflexivity]; cbn [length]; lia).
  unfold no_commas in *. cbn [List.filter]. rewrite H. reflexivity.
Qed.

Lemma filter_rev {A} (p : A → bool) l : List.filter p (rev l) = rev (List.filter p l).
Proof.
  induction l as [|x l IH]; [done|]. cbn [rev]. rewrite List.filter_app, IH. cbn [List.filter].
  destruct (p x); cbn [rev]; [done|by rewrite app_nil_r].
Qed.

Lemma with_commas_read_back s :
  no_commas (list_ascii_of_string (with_commas s)) = no_commas (list_ascii_of_string s).
Proof.
  unfold with_commas. rewrite list_ascii_of_string_of_list_ascii. unfold no_commas.
  rewrite filter_rev. fold (no_commas (group3 (rev (list_ascii_of_string s)))). rewrite group3_no_commas.
  unfold no_commas. by rewrite filter_rev, rev_involutive.
Qed.
