(* ===== verification/BenchTime.v ===== *)
(** * scripts/analyze_live_benchmark.py: phases and journal lines

    The phases of a run, the time of a journal line, and the slices of a run's
    events by phase. A file is its text, [None] when it is absent. The script
    orders timestamps as strings; [stamps_in_order] shows that this is the
    order of time. *)

From stdpp Require Import pretty.
From S2P Require Import Prelude PyNum PyStat PyStr Regex PyTime Csv.

(** ** Names *)

Definition MONTHS : list (string * string) :=
  [("Jan", "01"); ("Feb", "02"); ("Mar", "03"); ("Apr", "04"); ("May", "05"); ("Jun", "06");
   ("Jul", "07"); ("Aug", "08"); ("Sep", "09"); ("Oct", "10"); ("Nov", "11"); ("Dec", "12")]%string.

Definition PHASE_ORDER : list string :=
  ["normal"; "flash_crowd"; "attacker"; "normal_flashcrowd"; "normal_attacker"; "flashcrowd_attacker"; "all_three"].
Definition ATTACK_PHASES : list string := ["attacker"; "normal_attacker"; "flashcrowd_attacker"; "all_three"].
Definition FRESH_ATTACK_PHASES : list string := ["attacker"; "normal_attacker"].

Definition sweep_char (c : ascii) : bool := c_lower c || c_digit c || c_one ["_"%char] c.
Definition sweep_of (base name : string) : option (string * string) :=
  match match_toks [TLit base; TLit "_"; TRep sweep_char 1 (Some 20) true true] name with
  | Some ([attack], rest) => if bool_decide (rest ∈ [""; String newline ""]) then Some (base, attack) else None
  | _ => None
  end.
(** [SWEEP_RE.match(name)]; [$] also matches before a final newline. *)
Definition SWEEP_RE (name : string) : option (string * string) :=
  match sweep_of "attacker" name with Some r => Some r | None => sweep_of "normal_attacker" name end.

(** Known, an attack phase, an attack that starts from off, attack type. *)
Definition phase_info (name : string) : bool * bool * bool * option string :=
  if bool_decide (name ∈ PHASE_ORDER) then
    (true, bool_decide (name ∈ ATTACK_PHASES), bool_decide (name ∈ FRESH_ATTACK_PHASES), None)
  else
    match SWEEP_RE name with
    | Some (base, attack) => (true, true, bool_decide (base = "attacker"%string), Some attack)
    | None => (false, false, false, None)
    end.

(** ** Time *)

Definition to_dt (ts : string) : res Z :=
  match strptime_micros ts with
  | Exn ValueError =>
      match strptime_secs ts with
      | Exn ValueError => Exn ValueError
      | r => r
      end
  | r => r
  end.

Definition seconds_between (start_ts end_ts : string) : res num :=
  e ← to_dt end_ts; s ← to_dt start_ts; total_seconds (e - s).

Definition TS_RE : list tok :=
  [group c_word; plus c_space; group c_digit; TLit " ";
   TRep c_digit 2 (Some 2) true true; TLit ":"; TRep c_digit 2 (Some 2) true true; TLit ":";
   TRep c_digit 2 (Some 2) true true].
Definition TS_FRACTION : list tok := [TLit "."; group c_digit].

(** [f"{n:02d}"] of a number that is not negative. *)
Definition two_digits (n : Z) : string := pad_left 2 (pretty n).

(** A journal line carries no year. *)
Definition line_time (line year_hint : string) : res (option string) :=
  match match_toks TS_RE line with
  | Some ([month_name; day; hh; mm; ss], rest) =>
      match dict_get month_name MONTHS with
      | None => Ok None
      | Some month =>
          let fraction := match match_toks TS_FRACTION rest with
                          | Some ([f], _) => "." ^^ f
                          | _ => EmptyString
                          end in
          d ← int_of_string day;
          Ok (Some (year_hint ^^ "-" ^^ month ^^ "-" ^^ two_digits d ^^ " " ^^
                    hh ^^ ":" ^^ mm ^^ ":" ^^ ss ^^ fraction))
      end
  | _ => Ok None
  end.

Definition event : Type := string * string.

Fixpoint events_of_lines (lines : list string) (year_hint : string) : res (list event) :=
  match lines with
  | [] => Ok []
  | line :: ls =>
      ts ← line_time line year_hint; rest ← events_of_lines ls year_hint;
      Ok (match ts with Some t => (t, line) :: rest | None => rest end)
  end.
Definition load_events (text year_hint : string) : res (list event) := events_of_lines (file_lines text) year_hint.

(** [start_ts <= ts < end_ts]. *)
Definition in_window (start_ts end_ts ts : string) : bool := String.leb start_ts ts && String.ltb ts end_ts.

Definition events_in (events : list event) (start_ts end_ts : string) : list event :=
  List.filter (λ e, in_window start_ts end_ts e.1) events.

Fixpoint first_time_after (events : list event) (start_ts end_ts : string) (predicate : string → bool)
    : res (option num) :=
  match events with
  | [] => Ok None
  | (ts, line) :: es =>
      if in_window start_ts end_ts ts && predicate line then (t ← seconds_between start_ts ts; Ok (Some t))
      else first_time_after es start_ts end_ts predicate
  end.

(** ** The phases of a run *)

Fixpoint boundaries_of (lines : list string) : res (list (string * string)) :=
  match lines with
  | [] => Ok []
  | line :: ls =>
      if bool_decide (line = EmptyString) then boundaries_of ls
      else match str_split "009" line with
           | [name; ts] => rest ← boundaries_of ls; Ok ((name, ts) :: rest)
           | _ => Exn ValueError
           end
  end.

(** Each phase with the start of the one after it. *)
Definition windows_of (phases : list (string * string)) : list (string * (string * string)) :=
  zip_with (λ a b, (a.1, (a.2, b.2))) phases (tail phases).

Definition load_phases (text : string) : res (list (string * (string * string))) :=
  phases ← boundaries_of (file_lines text); mret (windows_of phases).

(** Phase, then traffic class, to variant and description. *)
Definition load_variants (text : option string) : list (string * list (string * (string * string))) :=
  foldl (λ result line,
    match str_split "009" line with
    | phase :: cls :: variant :: more =>
        dict_set phase (dict_set cls (variant, default EmptyString (head more)) (default [] (dict_get phase result)))
                 result
    | _ => result
    end) [] (file_lines (default EmptyString text)).

Example phase_info_sweep : phase_info "normal_attacker_syn" = (true, true, false, Some "syn"%string).
Proof. reflexivity. Qed.
Example line_time_example :
  line_time "Mar  7 09:05:01.250 gw flod[7]: ANOMALY" "2026" = Ok (Some "2026-03-07 09:05:01.250"%string).
Proof. vm_compute. reflexivity. Qed.

(** ** The order of timestamps *)

(** The script reads such a timestamp as the moment it spells, if there is one. *)
Lemma to_dt_stamp s f : is_stamp s f → to_dt s = datetime_of (Some f).
Proof.
  intros [y m d hh mm ss tail us Hy Hm Hd Hh Hmm Hs Hfr]. unfold to_dt, strptime_micros, strptime_secs.
  rewrite match_date_time_stamp by done. destruct Hfr as [|fr Hf Hl].
  - change (match_toks FRACTION "") with (@None (list string * string)). cbv beta iota.
    unfold fields_of. cbn [fmap list_fmap]. by destruct (datetime_of_cases (Some (mkFields (digits_value y)
      (digits_value m) (digits_value d) (digits_value hh) (digits_value mm) (digits_value ss) 0))) as [-> | [v ->]].
  - rewrite match_fraction by done. unfold fields_of. cbn [fmap list_fmap]. cbv beta iota.
    match goal with |- context [datetime_of ?g] => destruct (datetime_of_cases g) as [-> | [v ->]] end; done.
Qed.

Lemma compare_char c s s' : String.compare (String c s) (String c s') = String.compare s s'.
Proof. simpl. unfold Ascii.compare. by rewrite N.compare_refl. Qed.

Lemma fraction_order t t' us us' :
  is_fraction t us → is_fraction t' us' → String.compare t t' = Lt → (us <= us')%Z.
Proof.
  intros [|f Hf Lf] [|f' Hf' Lf']; simpl; try done.
  - intros _. unfold microsecond_of. pose proof (digits_value_bound _ Hf') as B.
    apply Z.mul_nonneg_nonneg; [lia|]. apply Z.pow_nonneg; lia.
  - intros Hc. apply (fraction_order_at 6); try done; lia.
Qed.

Lemma stamp_compare s s' f f' :
  is_stamp s f → is_stamp s' f' → String.compare s s' = Lt → lex_le (field_list f) (field_list f').
Proof.
  intros [y m d hh mm ss t us [Hy Ly] [Hm Lm] [Hd Ld] [Hh Lh] [Hmm Lmm] [Hs Ls] Ht]
         [y' m' d' hh' mm' ss' t' us' [Hy' Ly'] [Hm' Lm'] [Hd' Ld'] [Hh' Lh'] [Hmm' Lmm'] [Hs' Ls'] Ht'].
  unfold stamp_text, field_list. cbn [f_y f_m f_d f_hh f_mm f_ss f_us lex_le].
  assert (Hcase : ∀ (a b : Z) c P, (match Z.compare a b with Eq => c | o => o end = Lt) → (c = Lt → P) →
                  (a < b ∨ a = b ∧ P)%Z).
  { intros a b c P. destruct (Z.compare_spec a b) as [->|?|?]; [|intros; by left|done]. intros; right; auto. }
  assert (Hsep : ∀ sep a b, String.compare (sep ^^ a) (sep ^^ b) = String.compare a b).
  { induction sep as [|c sep IH]; intros a b; [done|]. rewrite <-(IH a b). apply compare_char. }
  rewrite compare_digits by (done || lia). intros H. eapply Hcase; [exact H|]. clear H. rewrite Hsep.
  rewrite compare_digits by (done || lia). intros H. eapply Hcase; [exact H|]. clear H. rewrite Hsep.
  rewrite compare_digits by (done || lia). intros H. eapply Hcase; [exact H|]. clear H. rewrite Hsep.
  rewrite compare_digits by (done || lia). intros H. eapply Hcase; [exact H|]. clear H. rewrite Hsep.
  rewrite compare_digits by (done || lia). intros H. eapply Hcase; [exact H|]. clear H. rewrite Hsep.
  rewrite compare_digits by (done || lia). intros H. eapply Hcase; [exact H|]. clear H. intros H.
  pose proof (fraction_order _ _ _ _ Ht Ht' H). lia.
Qed.

(** Slicing by string comparison is slicing by time: of two timestamps as the
    benchmark and the journal write them, with or without a fraction of any
    length up to six digits, one that is an earlier moment is a smaller string,
    and a smaller string is never a later moment. *)
Theorem stamps_in_order s s' f f' x x' :
  is_stamp s f → is_stamp s' f' → to_dt s = Ok x → to_dt s' = Ok x' →
  ((x < x')%Z → String.ltb s s' = true) ∧ (String.ltb s s' = true → (x <= x')%Z).
Proof.
  intros Hs Hs' Hx Hx'.
  assert (Hle : ∀ a b f g u v, is_stamp a f → is_stamp b g → to_dt a = Ok u → to_dt b = Ok v →
                String.compare a b = Lt → (u <= v)%Z).
  { intros a b g h u v Ha Hb Hu Hv Hlt. rewrite (to_dt_stamp a g) in Hu by done. rewrite (to_dt_stamp b h) in Hv by done.
    unfold datetime_of in Hu, Hv. destruct (fields_ok g) eqn:Hg, (fields_ok h) eqn:Hh; try done.
    injection Hu as <-. injection Hv as <-. apply lexicographic_time; try done. by apply (stamp_compare a b). }
  unfold String.ltb. destruct (String.compare s s') eqn:Hc; (split; [intros Hlt|intros Hlt; try done]).
  - apply String.compare_eq_iff in Hc as ->. rewrite Hx in Hx'. injection Hx' as ->. lia.
  - done.
  - by apply (Hle s s' f f').
  - rewrite String.compare_antisym in Hc. destruct (String.compare s' s) eqn:Hc'; try done.
    pose proof (Hle _ _ _ _ _ _ Hs' Hs Hx' Hx Hc'). lia.
Qed.

Lemma stamps_in_order_witness :
  let s := "2026-02-28 23:59:59.25"%string in let s' := "2026-03-01 00:00:00"%string in
  let x := (UNIX_EPOCH + 1772323199250000)%Z in let x' := (UNIX_EPOCH + 1772323200000000)%Z in
  ((x < x')%Z → String.ltb s s' = true) ∧ (String.ltb s s' = true → (x <= x')%Z).
Proof.
  intros s s' x x'.
  assert (Hd : ∀ n t, String.length t = n → forallb c_digit (list_ascii_of_string t) = true → digits_of n t).
  { intros n t Hl Hf. split; [|done]. apply Forall_forall. intros c Hc.
    apply (proj1 (forallb_forall _ _) Hf). by apply list_elem_of_In. }
  assert (H25 : is_fraction ".25" (microsecond_of "25")).
  { apply (some_fraction "25"); [apply (Hd 2%nat); done|simpl; lia]. }
  eapply (stamps_in_order s s' _ _ x x').
  - apply (stamp "2026" "02" "28" "23" "59" "59" ".25" (microsecond_of "25")); try (by apply Hd). exact H25.
  - apply (stamp "2026" "03" "01" "00" "00" "00" "" 0); try (by apply Hd). constructor.
  - vm_compute. reflexivity.
  - vm_compute. reflexivity.
Defined.
