(* ===== verification/BenchData.v ===== *)
(** * scripts/analyze_live_benchmark.py: what the captures of a run hold

    The status lines of the two capture backends, the system samples, the
    firewall counters, the anomaly and latency lines and the calibration log,
    and the figures the report takes from them. The builtin [sum] of floats,
    which adds in order up to Python 3.11 and with compensation since 3.12, is
    the parameter [py_sum]. *)

From S2P Require Import Prelude PyNum PyStat PyStr Regex PyTime Csv BenchTime.

(** ** Capture status lines *)

Inductive Backend : Type := Pcap | Kernel.
#[global] Instance backend_eq_dec : EqDecision Backend.
Proof. solve_decision. Defined.

Abbreviation counters := (list (string * Z)).

Definition CAPTURE_STATUS_RE : list tok :=
  [TLit "Capture: status | interface="; group c_nonspace; TLit " | raw_captured="; group c_digit;
   TLit " | timeouts="; group c_digit; TLit " | parse_failed="; group c_digit; TLit " | non_ip="; group c_digit;
   TLit " | truncated="; group c_digit; TLit " | forwarded="; group c_digit].
Definition KERNEL_STATUS_RE : list tok :=
  [TLit "Kernel: status | interface="; group c_nonspace; TLit " | ingress="; group c_digit;
   TLit " | egress="; group c_digit; TLit " | sources="; plus c_digit; TLit " ("; plus c_decimal;
   TLit "% of map) | flows="; group c_digit; TLit " | ports="; group c_digit; TLit " | ttls="; group c_digit;
   TLit " | fingerprints="; group c_digit; TLit " | drains="; group c_digit; TLit " | errors="; group c_digit].

Definition CAPTURE_KEYS : list string :=
  ["raw_captured"; "timeouts"; "parse_failed"; "non_ip"; "truncated"; "forwarded"].
Definition KERNEL_KEYS : list string :=
  ["ingress"; "egress"; "flows"; "ports"; "ttls"; "fingerprints"; "drains"; "errors"].

Fixpoint first_capture_interface (stage1_events : list event) : option string :=
  match stage1_events with
  | [] => None
  | (_, line) :: es =>
      match re_search CAPTURE_STATUS_RE line with
      | Some g => head g
      | None => match re_search KERNEL_STATUS_RE line with
                | Some g => head g
                | None => first_capture_interface es
                end
      end
  end.

Fixpoint ints (l : list string) : res (list Z) :=
  match l with [] => Ok [] | s :: l' => z ← int_of_string s; r ← ints l'; Ok (z :: r) end.

Definition sample : Type := string * Backend * counters.

(** The sample a status line of the wanted interface gives. *)
Definition status_sample (interface : option string) (ts : string) (backend : Backend) (keys groups : list string)
    : res (option sample) :=
  match groups with
  | iface :: values =>
      if match interface with Some i => bool_decide (iface ≠ i) | None => false end then Ok None
      else zs ← ints values; Ok (Some (ts, backend, zip keys zs))
  | [] => Ok None
  end.

Definition line_sample (interface : option string) (e : event) : res (option sample) :=
  match re_search CAPTURE_STATUS_RE e.2 with
  | Some g => status_sample interface e.1 Pcap CAPTURE_KEYS g
  | None => match re_search KERNEL_STATUS_RE e.2 with
            | Some g => status_sample interface e.1 Kernel KERNEL_KEYS g
            | None => Ok None
            end
  end.

Fixpoint parse_traffic_samples (stage1_events : list event) (interface : option string) : res (list sample) :=
  match stage1_events with
  | [] => Ok []
  | e :: es =>
      s ← line_sample interface e; rest ← parse_traffic_samples es interface;
      Ok (match s with Some s => s :: rest | None => rest end)
  end.

(** The last sample not after [target_ts]; the scan stops at the first later one. *)
Fixpoint at_or_before (samples : list sample) (target_ts : string) (result : option sample) : option sample :=
  match samples with
  | [] => result
  | s :: ss => if String.ltb target_ts s.1.1 then result else at_or_before ss target_ts (Some s)
  end.
Definition counters_at_or_before (samples : list sample) (target_ts : string) : option sample :=
  at_or_before samples target_ts None.

Definition MAX_SAMPLE_AGE_SECS : Z := 30.

(** [total[k] += v] for every counter. *)
Fixpoint add_counters (total c : counters) : res counters :=
  match c with
  | [] => Ok total
  | (k, v) :: c' =>
      match dict_get k total with
      | Some t => add_counters (dict_set k (t + v)%Z total) c'
      | None => Exn KeyError
      end
  end.
Fixpoint sum_counters (total : counters) (l : list counters) : res counters :=
  match l with [] => Ok total | c :: l' => t ← add_counters total c; sum_counters t l' end.

(** [{k: after[k] - before[k] for k in before}]. *)
Fixpoint sub_counters (after before : counters) : res counters :=
  match before with
  | [] => Ok []
  | (k, b) :: rest =>
      match dict_get k after with
      | Some a => r ← sub_counters after rest; Ok ((k, (a - b)%Z) :: r)
      | None => Exn KeyError
      end
  end.

Definition too_old (ts boundary : string) : res bool :=
  s ← seconds_between ts boundary; Ok (nlt (NInt MAX_SAMPLE_AGE_SECS) s).

(** A phase's share of two running totals, when neither is missing, of another
    backend or too old. *)
Definition cumulative_traffic (samples : list sample) (start_ts end_ts : string)
    : res (option (Backend * counters)) :=
  match counters_at_or_before samples start_ts, counters_at_or_before samples end_ts with
  | Some (bts, bb, bc), Some (ats, ab, ac) =>
      if bool_decide (bb ≠ ab) then Ok None
      else
        old ← too_old bts start_ts;
        if (old : bool) then Ok None
        else
          old ← too_old ats end_ts;
          if (old : bool) then Ok None
          else d ← sub_counters ac bc; Ok (Some (bb, d))
  | _, _ => Ok None
  end.

Definition traffic_delta (samples : list sample) (start_ts end_ts : string) : res (option (Backend * counters)) :=
  match List.filter (λ s, in_window start_ts end_ts s.1.1) samples with
  | (_, Kernel, c) :: _ as in_phase =>
      total ← sum_counters ((λ kv, (kv.1, 0%Z)) <$> c) (snd <$> in_phase);
      Ok (Some (Kernel, total))
  | _ => cumulative_traffic samples start_ts end_ts
  end.

(** ** Small files *)

Definition nonempty (o : option string) : bool :=
  match o with Some (String _ _) => true | _ => false end.

Definition load_system_samples (text : option string) : list drow :=
  match text with
  | None => []
  | Some t => List.filter (λ row, nonempty (mjoin (dict_get "timestamp" row))) (dict_reader t).2
  end.

Definition load_clk_tck (text : option string) : Z :=
  match text with
  | None => 100
  | Some t => match int_of_string (str_strip t) with Ok z => z | Exn _ => 100 end
  end.

(** [s.partition("=")]: what is before and after the first one. *)
Fixpoint partition_eq (s : string) : string * string :=
  match s with
  | EmptyString => (EmptyString, EmptyString)
  | String c s' =>
      if bool_decide (c = "="%char) then (EmptyString, s')
      else let '(k, v) := partition_eq s' in (String c k, v)
  end.

Definition load_key_values (text : option string) : list (string * string) :=
  foldl (λ result line,
    if str_contains "=" line && negb (str_prefix "check=" line)
    then let '(k, v) := partition_eq line in dict_set k v result else result)
    [] (file_lines (default EmptyString text)).

Definition CHECK_RE : list tok :=
  [TLit "check="; group c_nonspace; TLit " result="; group c_nonspace; TLit " detail="; group_star c_any].
Definition load_checks (text : option string) : list (list string) :=
  omap (λ line, re_match CHECK_RE (str_strip line)) (file_lines (default EmptyString text)).

(** ** System samples *)

(** [s.get(field)]. *)
Definition s_get (field : string) (s : drow) : option string := mjoin (dict_get field s).
(** [s["timestamp"]]; every sample that was loaded has one. *)
Definition s_ts (s : drow) : string := default EmptyString (s_get "timestamp" s).

Definition window_samples (samples : list drow) (start_ts end_ts field : string) : list drow :=
  List.filter (λ s, in_window start_ts end_ts (s_ts s) && nonempty (s_get field s)) samples.

Definition field_text (field : string) (s : drow) : string := default EmptyString (s_get field s).

(** The increase of a counter and the seconds it took. *)
Definition cumulative_delta (samples : list drow) (start_ts end_ts field : string) : res (option (num * num)) :=
  match window_samples samples start_ts end_ts field with
  | first :: (_ :: _) as rows =>
      let last := List.last rows first in
      span ← seconds_between (s_ts first) (s_ts last);
      if nle span (NInt 0) then Ok None
      else
        match (a ← parse_float (field_text field last); b ← parse_float (field_text field first); Ok (nsub a b)) with
        | Ok increase => if nlt increase (NInt 0) then Ok None else Ok (Some (increase, span))
        | Exn ValueError => Ok None
        | Exn e => Exn e
        end
  | _ => Ok None
  end.

Definition rate (samples : list drow) (start_ts end_ts field : string) : res (option num) :=
  r ← cumulative_delta samples start_ts end_ts field;
  match r with None => Ok None | Some (d, span) => q ← ndiv d span; Ok (Some q) end.

(** The figures of one service in one phase. *)
Inductive ProcessMetrics : Type :=
  | Restarted (pids : list string)
  | Steady (cpu_pct : option num) (rss_avg_max_mb : option (num * num)) (ctxt_nonvol_per_sec : option (num * num)).

Fixpoint py_set (l : list string) : list string :=
  match l with [] => [] | x :: l' => x :: List.filter (λ y, negb (bool_decide (y = x))) (py_set l') end.

Definition sum_Z (l : list Z) : Z := foldl Z.add 0%Z l.
Definition max_Z (x : Z) (l : list Z) : Z := foldl Z.max x l.

Definition rss_of (prefix : string) (window : list drow) : res (option (num * num)) :=
  rss ← ints (field_text (prefix ^^ "_rss_kb") <$> List.filter (λ s, nonempty (s_get (prefix ^^ "_rss_kb") s)) window);
  match rss with
  | [] => Ok None
  | x :: l =>
      avg ← ndiv (NInt (sum_Z rss)) (NInt (Z.of_nat (length rss)));
      avg_mb ← ndiv avg (NInt 1024); max_mb ← ndiv (NInt (max_Z x l)) (NInt 1024);
      Ok (Some (avg_mb, max_mb))
  end.

Definition process_metrics (samples : list drow) (start_ts end_ts : string) (clk_tck : Z) (prefix : string)
    : res (option ProcessMetrics) :=
  let pid_field := prefix ^^ "_pid" in
  let window := window_samples samples start_ts end_ts pid_field in
  let pids := py_set (field_text pid_field <$> window) in
  if (length window <? 2)%nat then Ok None
  else if (1 <? length pids)%nat then Ok (Some (Restarted (py_sort String.ltb pids)))
  else
    ticks ← cumulative_delta samples start_ts end_ts (prefix ^^ "_cpu_ticks");
    cpu ← match ticks with
          | None => Ok None
          | Some (n, span) => q ← ndiv (nmul (flt 100 1) n) (nmul (NInt clk_tck) span); Ok (Some q)
          end;
    rss ← rss_of prefix window;
    vol ← rate samples start_ts end_ts (prefix ^^ "_vol_ctxt");
    nonvol ← rate samples start_ts end_ts (prefix ^^ "_nonvol_ctxt");
    let ctxt := match vol, nonvol with Some v, Some n => Some (nadd v n, n) | _, _ => None end in
    Ok (Some (Steady cpu rss ctxt)).

(** Share of the sample intervals with incoming traffic and none leaving. *)
Definition rx_field : string := "ingress_rx_packets".
Definition tx_field : string := "egress_tx_packets".

Definition interval (previous current : drow) : res (Z * Z) :=
  rc ← int_of_string (field_text rx_field current); rp ← int_of_string (field_text rx_field previous);
  tc ← int_of_string (field_text tx_field current); tp ← int_of_string (field_text tx_field previous);
  Ok ((rc - rp)%Z, (tc - tp)%Z).

Fixpoint count_stalls (min_rx : Z) (rows : list (drow * drow)) (stalled total : Z) : Z * Z :=
  match rows with
  | [] => (stalled, total)
  | (previous, current) :: rest =>
      match interval previous current with
      | Exn _ => count_stalls min_rx rest stalled total
      | Ok (rx, tx) =>
          if (rx <? 0)%Z || (tx <? 0)%Z then count_stalls min_rx rest stalled total
          else if (min_rx <? rx)%Z
               then count_stalls min_rx rest (stalled + if (tx =? 0)%Z then 1 else 0)%Z (total + 1)%Z
               else count_stalls min_rx rest stalled total
      end
  end.

Definition percent_of (k n : Z) : res num := ndiv (nmul (flt 100 1) (NInt k)) (NInt n).

Definition egress_stall_share (samples : list drow) (start_ts end_ts : string) (min_rx : Z) : res (option num) :=
  let rows := List.filter (λ s, in_window start_ts end_ts (s_ts s) && nonempty (s_get rx_field s)
                                && nonempty (s_get tx_field s)) samples in
  let '(stalled, total) := count_stalls min_rx (zip rows (tail rows)) 0 0 in
  if (total =? 0)%Z then Ok None else q ← percent_of stalled total; Ok (Some q).

Record NetworkMetrics := mkNetwork {
  nw_ingress_pps : option num; nw_ingress_mbps : option num; nw_rx_dropped : option num; nw_rx_errors : option num;
  nw_egress_stall_pct : option num; nw_egress_pps : option num; nw_egress_mbps : option num }.

Definition per_second (d : option (num * num)) : res (option num) :=
  match d with None => Ok None | Some (n, span) => q ← ndiv n span; Ok (Some q) end.
Definition mbit_per_second (d : option (num * num)) : res (option num) :=
  match d with
  | None => Ok None
  | Some (n, span) => q ← ndiv (nmul n (NInt 8)) span; m ← ndiv q (flt 1000000 1); Ok (Some m)
  end.

Definition network_metrics (samples : list drow) (start_ts end_ts : string) : res NetworkMetrics :=
  let delta := cumulative_delta samples start_ts end_ts in
  rx ← delta "ingress_rx_packets"; ingress_pps ← per_second rx;
  rx_bytes ← delta "ingress_rx_bytes"; ingress_mbps ← mbit_per_second rx_bytes;
  dropped ← delta "ingress_rx_dropped";
  errors ← delta "ingress_rx_errors";
  stall ← egress_stall_share samples start_ts end_ts 50;
  tx ← delta "egress_tx_packets"; egress_pps ← per_second tx;
  tx_bytes ← delta "egress_tx_bytes"; egress_mbps ← mbit_per_second tx_bytes;
  Ok (mkNetwork ingress_pps ingress_mbps (fst <$> dropped) (fst <$> errors) stall egress_pps egress_mbps).

Definition SYS_CPU_FIELDS : list string :=
  ["sys_user"; "sys_nice"; "sys_system"; "sys_idle"; "sys_iowait"; "sys_irq"; "sys_softirq"; "sys_steal"].

(** The increase of every field, or nothing when one is missing. *)
Fixpoint cpu_deltas (samples : list drow) (start_ts end_ts : string) (fields : list string)
    : res (option (list (string * num))) :=
  match fields with
  | [] => Ok (Some [])
  | field :: rest =>
      d ← cumulative_delta samples start_ts end_ts field;
      match d with
      | None => Ok None
      | Some (x, _) =>
          ds ← cpu_deltas samples start_ts end_ts rest;
          Ok (match ds with Some l => Some ((field, x) :: l) | None => None end)
      end
  end.

Record CpuMetrics := mkCpu { cpu_busy : num; cpu_kernel : num; cpu_softirq : num }.

Section sums.
Context (py_sum : list num → num).

Definition system_cpu_metrics (samples : list drow) (start_ts end_ts : string) : res (option CpuMetrics) :=
  deltas ← cpu_deltas samples start_ts end_ts SYS_CPU_FIELDS;
  match deltas with
  | None => Ok None
  | Some ds =>
      let inc field := default (NInt 0) (dict_get field ds) in
      let total := py_sum ds.*2 in
      if nle total (NInt 0) then Ok None
      else
        let idle := nadd (inc "sys_idle") (inc "sys_iowait") in
        busy ← ndiv (nmul (flt 100 1) (nsub total idle)) total;
        kern ← ndiv (nmul (flt 100 1) (nadd (nadd (inc "sys_system") (inc "sys_irq")) (inc "sys_softirq"))) total;
        soft ← ndiv (nmul (flt 100 1) (inc "sys_softirq")) total;
        Ok (Some (mkCpu busy kern soft))
  end.

(** ** Anomaly windows *)

Definition ANOMALY_RE : list tok :=
  [TLit "ANOMALY window "; plus c_digit; TLit " [victim="; lazy c_nonspace; TLit "] | flags=0x"; group c_hex;
   TLit " | r="; group c_decimal; TLit " (boundary="; plus c_decimal; TLit ") | h="; group c_decimal;
   TLit " (boundary="; plus c_decimal; TLit ") | proto_ratio="; group c_decimal; TLit " | dom_ratio=";
   group c_decimal].

Definition hex_digit_value (c : ascii) : Z :=
  let n := Z.of_nat (nat_of_ascii (lower c)) in if (n <=? 57)%Z then (n - 48)%Z else (n - 87)%Z.
(** [int(s, 16)] of hexadecimal digits. *)
Definition hex_value (s : string) : Z :=
  foldl (λ a c, a * 16 + hex_digit_value c)%Z 0%Z (list_ascii_of_string s).

(** The flags, entropy and dominance of an anomaly line. *)
Definition anomaly_of (line : string) : res (option (Z * num * num)) :=
  match re_search ANOMALY_RE line with
  | Some [flags; _; h; _; dom] =>
      hv ← parse_float h; dv ← parse_float dom; Ok (Some (hex_value flags, hv, dv))
  | _ => Ok None
  end.

Fixpoint anomalies_of (events : list event) : res (list (Z * num * num)) :=
  match events with
  | [] => Ok []
  | (_, line) :: es =>
      a ← anomaly_of line; rest ← anomalies_of es;
      Ok (match a with Some a => a :: rest | None => rest end)
  end.

Definition has_rate (flags : Z) : bool := negb (Z.land flags 1 =? 0)%Z.
Definition has_entropy (flags : Z) : bool := negb (Z.land flags 2 =? 0)%Z.

Record AnomalyStats := mkAnomaly {
  an_rate_only : Z; an_entropy_only : Z; an_both : Z;
  an_entropy_pct : num; an_mean_entropy : num; an_mean_dominance : num }.

Definition count_flags (p : Z → bool) (l : list (Z * num * num)) : Z :=
  Z.of_nat (length (List.filter (λ a, p a.1.1) l)).

Definition anomaly_signal_stats (events : list event) : res (option AnomalyStats) :=
  l ← anomalies_of events;
  let both := count_flags (λ f, has_rate f && has_entropy f) l in
  let entropy_only := count_flags (λ f, negb (has_rate f) && has_entropy f) l in
  let rate_only := count_flags (λ f, has_rate f && negb (has_entropy f)) l in
  let total := (rate_only + entropy_only + both)%Z in
  if (total =? 0)%Z then Ok None
  else
    pct ← percent_of (entropy_only + both) total;
    me ← ndiv (py_sum ((λ a, a.1.2) <$> l)) (NInt (Z.of_nat (length l)));
    md ← ndiv (py_sum (snd <$> l)) (NInt (Z.of_nat (length l)));
    Ok (Some (mkAnomaly rate_only entropy_only both pct me md)).
End sums.

(** ** Latency *)

Definition LATENCY_KINDS : list string := ["handoff"; "inference"; "enforcement"; "window_to_rule"].

Definition LATENCY_COUNT_RE (kind : string) : list tok := [TLit (kind ^^ "_n="); group c_digit].
Definition LATENCY_FIGURES_RE (kind : string) : list tok :=
  [TLit (" " ^^ kind ^^ "_mean_ms="); group c_decimal; TLit (" " ^^ kind ^^ "_p95_ms="); group c_decimal;
   TLit (" " ^^ kind ^^ "_max_ms="); group c_decimal].

(** [re.search] with the text behind the match. *)
Fixpoint re_search_rest (ts : list tok) (s : string) : option (list string * string) :=
  match match_toks ts s with
  | Some r => Some r
  | None => match s with EmptyString => None | String _ s' => re_search_rest ts s' end
  end.

(** The count of a summary line, and its mean, p95 and maximum if it has them:
    the figures are an optional group at the end of the pattern. *)
Definition latency_line (kind line : string) : option (string * option (string * string * string)) :=
  match re_search_rest (LATENCY_COUNT_RE kind) line with
  | Some ([n], rest) =>
      Some (n, match re_match (LATENCY_FIGURES_RE kind) rest with
               | Some [mean; p95; top] => Some (mean, p95, top)
               | _ => None
               end)
  | _ => None
  end.

Record LatencyMerge := mkLatency { lm_n : Z; lm_weighted : num; lm_p95 : num; lm_max : num }.

Definition merge_line (kind : string) (acc : LatencyMerge) (line : string) : res LatencyMerge :=
  if negb (str_contains "Latency: summary" line) then Ok acc
  else
    match latency_line kind line with
    | Some (n, Some (mean, p95, top)) =>
        z ← int_of_string n; m ← parse_float mean; p ← parse_float p95; t ← parse_float top;
        Ok (mkLatency (lm_n acc + z) (nadd (lm_weighted acc) (nmul (NInt z) m))
                      (py_max (lm_p95 acc) p) (py_max (lm_max acc) t))
    | _ => Ok acc
    end.

Fixpoint merge_lines (kind : string) (acc : LatencyMerge) (events : list event) : res LatencyMerge :=
  match events with
  | [] => Ok acc
  | (_, line) :: es => acc' ← merge_line kind acc line; merge_lines kind acc' es
  end.

(** n, mean, p95, max *)
Definition LatencySummary : Type := Z * num * num * num.

Definition latency_of (kind : string) (events : list event) : res (option LatencySummary) :=
  a ← merge_lines kind (mkLatency 0 (flt 0 1) (flt 0 1) (flt 0 1)) events;
  if (lm_n a =? 0)%Z then Ok None
  else mean ← ndiv (lm_weighted a) (NInt (lm_n a)); Ok (Some (lm_n a, mean, lm_p95 a, lm_max a)).

Fixpoint latency_kinds (kinds : list string) (events : list event) : res (list (string * LatencySummary)) :=
  match kinds with
  | [] => Ok []
  | kind :: ks =>
      s ← latency_of kind events; rest ← latency_kinds ks events;
      Ok (match s with Some s => (kind, s) :: rest | None => rest end)
  end.
Definition latency_metrics (stage2_events : list event) : res (list (string * LatencySummary)) :=
  latency_kinds LATENCY_KINDS stage2_events.

(** ** Consistency of the verdicts *)

Definition BIN_SECS : Z := 10.

Fixpoint hit_bins (class2_times : list string) (start_ts : string) (bins : Z) (hit : gset Z) : res (gset Z) :=
  match class2_times with
  | [] => Ok hit
  | ts :: l =>
      s ← seconds_between start_ts ts; index ← nfloordiv s BIN_SECS;
      hit_bins l start_ts bins (if (0 <=? index)%Z && (index <? bins)%Z then {[index]} ∪ hit else hit)
  end.

Definition set_min (x : Z) (l : list Z) : Z := foldl Z.min x l.

Definition bin_consistency (class2_times : list string) (start_ts end_ts : string) (expect_attack : bool)
    : res (option num) :=
  span ← seconds_between start_ts end_ts; bins ← nfloordiv span BIN_SECS;
  if (bins <? 1)%Z then Ok None
  else
    hit ← hit_bins class2_times start_ts bins ∅;
    if negb expect_attack then q ← percent_of (bins - Z.of_nat (size hit)) bins; Ok (Some q)
    else
      match elements hit with
      | [] => Ok (Some (flt 0 1))
      | x :: l =>
          let first := set_min x l in
          q ← percent_of (Z.of_nat (length (List.filter (λ i, first <=? i)%Z (x :: l)))) (bins - first);
          Ok (Some q)
      end.

(** ** Firewall counters *)

(** name, time, chain, set, target, packets, bytes *)
Definition fw_row : Type := list string.

Definition load_firewall_rows (text : option string) : list fw_row :=
  List.filter (λ parts, (length parts =? 7)%nat) (str_split "009" <$> file_lines (default EmptyString text)).

Fixpoint drop_totals (totals : gmap string (gmap string Z)) (rows : list fw_row)
    : res (gmap string (gmap string Z)) :=
  match rows with
  | [] => Ok totals
  | [name; _; _; set_name; target; packets; _] :: rest =>
      if bool_decide (target ≠ "DROP"%string) then drop_totals totals rest
      else
        n ← int_of_string packets;
        let of_name := default ∅ (totals !! name) in
        drop_totals (<[name := <[set_name := (default 0 (of_name !! set_name) + n)%Z]> of_name]> totals) rest
  | _ :: _ => Exn ValueError
  end.

Definition total_of (totals : gmap string (gmap string Z)) (name set_name : string) : Z :=
  default 0%Z (default ∅ (totals !! name) !! set_name).

Definition sets_in (totals : gmap string (gmap string Z)) (name : string) : gset string :=
  dom (default ∅ (totals !! name)).

(** What was dropped between the snapshots named [here] and [following]. *)
Definition drops_between (totals : gmap string (gmap string Z)) (here following : string) : gmap string Z :=
  set_to_map (λ set_name, (set_name, Z.max 0 (total_of totals following set_name - total_of totals here set_name)))
    (sets_in totals here ∪ sets_in totals following).

Definition firewall_drops (firewall_rows : list fw_row) (phase_names_in_order : list string)
    : res (list (string * gmap string Z)) :=
  totals ← drop_totals ∅ firewall_rows;
  Ok (foldl (λ result hf,
        if bool_decide (totals !! hf.1 = None ∧ totals !! hf.2 = None) then result
        else dict_set hf.1 (drops_between totals hf.1 hf.2) result)
      [] (zip phase_names_in_order (tail phase_names_in_order))).

(** ** The calibration log *)

Definition CALIBRATION_ROW_RE : list tok :=
  [group c_nonspace; plus c_space; group c_digit; plus c_space; group c_decimal; TLit "%"; plus c_space;
   group c_decimal; plus c_space; group c_decimal; plus c_space; group c_decimal; plus c_space; group c_decimal;
   star c_space].

Record CalTarget := mkCalTarget {
  ct_target : string; ct_windows : Z; ct_flagged_pct : num; ct_mean_pps : num; ct_peak_pps : num;
  ct_rate_floor : num; ct_entropy_floor : num }.

Definition cal_target (groups : list string) : res CalTarget :=
  match groups with
  | [target; windows; flagged; mean; peak; rf; ef] =>
      w ← int_of_string windows; f ← parse_float flagged; m ← parse_float mean; p ← parse_float peak;
      r ← parse_float rf; e ← parse_float ef; Ok (mkCalTarget target w f m p r e)
  | _ => Exn IndexError
  end.

Record CalLog := mkCalLog { cl_targets : list CalTarget; cl_notes : list string; cl_flags : string }.

Fixpoint parse_calibration_lines (lines : list string) (acc : CalLog) : res CalLog :=
  match lines with
  | [] => Ok acc
  | line :: rest =>
      match re_fullmatch CALIBRATION_ROW_RE line with
      | Some g =>
          t ← cal_target g;
          parse_calibration_lines rest (mkCalLog (cl_targets acc ++ [t]) (cl_notes acc) (cl_flags acc))
      | None =>
          if str_prefix "warning:" line || str_prefix "note:" line then
            parse_calibration_lines rest (mkCalLog (cl_targets acc) (cl_notes acc ++ [line]) (cl_flags acc))
          else
            match rest with
            | next :: _ =>
                parse_calibration_lines rest
                  (if str_prefix "Recommended, covering every target:" line
                   then mkCalLog (cl_targets acc) (cl_notes acc) next else acc)
            | [] => Ok acc
            end
      end
  end.

Definition carriage_to_newline (s : string) : string :=
  str_replace (String (ascii_of_nat 13) EmptyString) (String newline EmptyString) s.

Definition parse_calibration_log (text : string) : res CalLog :=
  parse_calibration_lines (str_strip <$> str_split newline (carriage_to_newline text)) (mkCalLog [] [] EmptyString).

Definition floor_from_flags (flags name : string) : res (option num) :=
  match re_search [TLit ("--" ^^ name ^^ " "); group c_decimal] flags with
  | Some [v] => x ← parse_float v; Ok (Some x)
  | _ => Ok None
  end.
