(* ===== verification/BenchRun.v ===== *)
(** * scripts/analyze_live_benchmark.py: one run, and the comparison of runs

    [analyze_run] puts the figures of [BenchData] together phase by phase; the
    comparison averages them over runs. What is printed of them, and
    results.json, is in [BenchReport]. *)

From S2P Require Import Prelude PyNum PyStat PyStr Regex PyTime Csv BenchTime BenchData.

(** The files of a run directory, by their text. *)
Record RunFiles := mkRunFiles {
  rf_boundaries : option string; rf_stage1 : option string; rf_stage2 : option string;
  rf_run_info : option string; rf_system : option string; rf_clk_tck : option string;
  rf_firewall : option string; rf_switch : option string; rf_variants : option string; rf_verify : option string;
  rf_calibration : option string; rf_calibration_log : option string; rf_calibration_apply : option string }.

Definition open_text (t : option string) : res string :=
  match t with Some s => Ok s | None => Exn FileNotFoundError end.

(** ** One phase *)

Definition CLASS2_PATTERNS : list string :=
  ["Class-2 window"; "Class-2 verdict but no active flow data"; "Aggregate cap fallback: class-2 verdict"].

Definition is_class2 (line : string) : bool := existsb (λ p, str_contains p line) CLASS2_PATTERNS.
Definition is_anomaly (line : string) : bool := str_contains "ANOMALY" line.
Definition is_action (line : string) : bool := str_contains "MITIGATION TRIGGERED" line.
Definition is_block (line : string) : bool := str_contains "MITIGATION TRIGGERED: Blocked" line.
Definition is_ratelimit (line : string) : bool := str_contains "MITIGATION TRIGGERED: Rate-limited" line.

Definition VICTIM_RE : list tok := [TLit "victim="; lazy_group c_nonspace; TLit "]"].

Definition victim_of (line : string) : option string :=
  if is_anomaly line then g ← re_search VICTIM_RE line; head g else None.

(** Anomaly windows by victim, in the order the victims were seen. *)
Definition anomalies_by_victim (events : list event) : list (string * Z) :=
  foldl (λ d e, match victim_of e.2 with
                | Some v => dict_set v (default 0 (dict_get v d) + 1)%Z d
                | None => d
                end) [] events.

Definition count_lines (p : string → bool) (events : list event) : Z :=
  Z.of_nat (length (List.filter (λ e, p e.2) events)).

Inductive Traffic : Type :=
  | PcapTraffic (captured forwarded dropped unparseable non_ip truncated timeouts : Z) (pps : option num)
                (egress_captured : option Z)
  | KernelTraffic (captured egress drain_errors drains : Z) (pps : option num).

Definition item (c : counters) (k : string) : res Z := match dict_get k c with Some v => Ok v | None => Exn KeyError end.

Definition over_duration (n : Z) (duration : num) : res (option num) :=
  if nlt (NInt 0) duration then q ← ndiv (NInt n) duration; Ok (Some q) else Ok None.

(** What the capture threads of the egress interface add. *)
Definition egress_captured (egress_samples : list sample) (start_ts end_ts : string) : res (option Z) :=
  match egress_samples with
  | [] => Ok None
  | _ =>
      d ← traffic_delta egress_samples start_ts end_ts;
      match d with
      | Some (Pcap, c) => n ← item c "raw_captured"; Ok (Some n)
      | _ => Ok None
      end
  end.

Definition traffic_of (samples egress_samples : list sample) (start_ts end_ts : string) (duration : num)
    : res (option Traffic) :=
  delta ← traffic_delta samples start_ts end_ts;
  match delta with
  | None => Ok None
  | Some (Pcap, c) =>
      captured ← item c "raw_captured"; forwarded ← item c "forwarded"; parse_failed ← item c "parse_failed";
      non_ip ← item c "non_ip"; truncated ← item c "truncated"; timeouts ← item c "timeouts";
      pps ← over_duration captured duration;
      egress ← egress_captured egress_samples start_ts end_ts;
      Ok (Some (PcapTraffic captured forwarded (parse_failed + non_ip + truncated) parse_failed non_ip truncated
                            timeouts pps egress))
  | Some (Kernel, c) =>
      captured ← item c "ingress"; egress ← item c "egress"; errors ← item c "errors"; drains ← item c "drains";
      pps ← over_duration captured duration;
      Ok (Some (KernelTraffic captured egress errors drains pps))
  end.

(** Seconds to the first anomaly flag, DDoS verdict, block and rate limit. *)
Record FirstTimes := mkFirst {
  ft_anomaly : option num; ft_class2 : option num; ft_block : option num; ft_ratelimit : option num }.

Definition first_times (stage1_events stage2_events : list event) (start_ts end_ts : string) : res FirstTimes :=
  a ← first_time_after stage1_events start_ts end_ts is_anomaly;
  c ← first_time_after stage2_events start_ts end_ts is_class2;
  b ← first_time_after stage2_events start_ts end_ts is_block;
  r ← first_time_after stage2_events start_ts end_ts is_ratelimit;
  Ok (mkFirst a c b r).

Record SystemMetrics := mkSystem {
  sy_stage1 : option ProcessMetrics; sy_stage2 : option ProcessMetrics; sy_cpu : option CpuMetrics;
  sy_ctxt_per_sec : option num; sy_network : NetworkMetrics }.

Record FirewallDrops := mkDrops { fd_total : Z; fd_by_set : gmap string Z; fd_pps : option num }.

Definition map_sum (m : gmap string Z) : Z := map_fold (λ _ v acc, (v + acc)%Z) 0%Z m.

Definition firewall_of (firewall : list (string * gmap string Z)) (name : string) (duration : num)
    : res (option FirewallDrops) :=
  match dict_get name firewall with
  | None => Ok None
  | Some by_set =>
      pps ← over_duration (map_sum by_set) duration;
      Ok (Some (mkDrops (map_sum by_set) by_set pps))
  end.

Record PhaseReport := mkPhaseReport {
  pr_start : string; pr_end : string; pr_duration : num; pr_is_attack : bool; pr_is_fresh : bool;
  pr_attack_type : option string; pr_variants : list (string * (string * string));
  pr_signals : option AnomalyStats; pr_by_victim : list (string * Z); pr_anomaly_windows : Z;
  pr_class2 : Z; pr_actions : Z; pr_blocks : Z; pr_ratelimits : Z; pr_class2_rate : option num;
  pr_consistency : option num; pr_first : option FirstTimes; pr_traffic : option Traffic;
  pr_system : option SystemMetrics; pr_firewall : option FirewallDrops;
  pr_latency : list (string * LatencySummary) }.

(** What the phases of a run share. *)
Record RunData := mkRunData {
  rd_stage1 : list event; rd_stage2 : list event; rd_traffic : list sample; rd_egress : list sample;
  rd_system : list drow; rd_clk_tck : Z; rd_firewall : list (string * gmap string Z);
  rd_variants : list (string * list (string * (string * string))) }.

Record CalReport := mkCalReport {
  cr_info : list (string * string); cr_apply : list (string * string); cr_targets : list CalTarget;
  cr_notes : list string; cr_rate_floor : option num; cr_entropy_floor : option num; cr_mean_pps : option num }.

Record RunReport := mkRunReport {
  rr_mode : string; rr_run : string; rr_info : list (string * string); rr_switch : list (string * string);
  rr_verify : list (list string); rr_calibration : option CalReport; rr_phases : list (string * PhaseReport);
  rr_variants : list (string * list (string * (string * string))); rr_system_samples : list drow }.

Section run.
Context (py_sum : list num → num).

Definition system_of (rd : RunData) (start_ts end_ts : string) : res (option SystemMetrics) :=
  match rd_system rd with
  | [] => Ok None
  | samples =>
      s1 ← process_metrics samples start_ts end_ts (rd_clk_tck rd) "stage1";
      s2 ← process_metrics samples start_ts end_ts (rd_clk_tck rd) "stage2";
      cpu ← system_cpu_metrics py_sum samples start_ts end_ts;
      ctxt ← rate samples start_ts end_ts "sys_ctxt";
      net ← network_metrics samples start_ts end_ts;
      Ok (Some (mkSystem s1 s2 cpu ctxt net))
  end.

(** The body of the loop over the phases. *)
Definition phase_report (rd : RunData) (name start_ts end_ts : string) : res PhaseReport :=
  let '(_, is_attack, is_fresh, attack_type) := phase_info name in
  let s1 := events_in (rd_stage1 rd) start_ts end_ts in
  let s2 := events_in (rd_stage2 rd) start_ts end_ts in
  duration ← seconds_between start_ts end_ts;
  signals ← anomaly_signal_stats py_sum s1;
  let by_victim := anomalies_by_victim s1 in
  let class2_times := fst <$> List.filter (λ e, is_class2 e.2) s2 in
  let anomaly_windows := sum_Z (snd <$> by_victim) in
  let class2 := Z.of_nat (length class2_times) in
  class2_rate ← (if (0 <? anomaly_windows)%Z then q ← percent_of class2 anomaly_windows; Ok (Some q) else Ok None);
  consistency ← bin_consistency class2_times start_ts end_ts is_attack;
  first ← (if (is_fresh : bool) then t ← first_times (rd_stage1 rd) (rd_stage2 rd) start_ts end_ts; Ok (Some t)
           else Ok None);
  traffic ← traffic_of (rd_traffic rd) (rd_egress rd) start_ts end_ts duration;
  system ← system_of rd start_ts end_ts;
  firewall ← firewall_of (rd_firewall rd) name duration;
  latency ← latency_metrics s2;
  Ok (mkPhaseReport start_ts end_ts duration is_attack is_fresh attack_type
        (default [] (dict_get name (rd_variants rd))) signals by_victim anomaly_windows class2
        (count_lines is_action s2) (count_lines is_block s2) (count_lines is_ratelimit s2) class2_rate consistency
        first traffic system firewall latency).

Fixpoint phase_reports (rd : RunData) (windows : list (string * (string * string)))
    (phases : list (string * PhaseReport)) : res (list (string * PhaseReport)) :=
  match windows with
  | [] => Ok phases
  | (name, (start_ts, end_ts)) :: ws =>
      if (phase_info name).1.1.1 then
        m ← phase_report rd name start_ts end_ts; phase_reports rd ws (dict_set name m phases)
      else phase_reports rd ws phases
  end.

(** [dict.get(k) or d]. *)
Definition get_or (k : string) (d : list (string * string)) : option string :=
  match dict_get k d with Some (String _ _ as s) => Some s | _ => None end.

Definition load_calibration (files : RunFiles) : res (option CalReport) :=
  match load_key_values (rf_calibration files) with
  | [] => Ok None
  | info =>
      log ← parse_calibration_log (default EmptyString (rf_calibration_log files));
      let flags := match cl_flags log with
                   | EmptyString => default EmptyString (dict_get "recommended_flags" info)
                   | f => f
                   end in
      rate_floor ← floor_from_flags flags "rate-sigma-floor";
      entropy_floor ← floor_from_flags flags "entropy-sigma-floor";
      mean ← match cl_targets log with
             | [] => Ok None
             | ts => q ← ndiv (py_sum (ct_mean_pps <$> ts)) (NInt (Z.of_nat (length ts))); Ok (Some q)
             end;
      Ok (Some (mkCalReport info (load_key_values (rf_calibration_apply files)) (cl_targets log) (cl_notes log)
                            rate_floor entropy_floor mean))
  end.

Definition is_kernel (m : PhaseReport) : bool :=
  match pr_traffic m with Some (KernelTraffic _ _ _ _ _) => true | _ => false end.

Definition analyze_run (files : RunFiles) : res RunReport :=
  text ← open_text (rf_boundaries files);
  windows ← load_phases text;
  match windows with
  | [] => Exn (SystemExit 1)
  | (_, (first_ts, _)) :: _ =>
      let year_hint := default EmptyString (head (str_split "-" first_ts)) in
      stage1_text ← open_text (rf_stage1 files); stage1 ← load_events stage1_text year_hint;
      stage2_text ← open_text (rf_stage2 files); stage2 ← load_events stage2_text year_hint;
      let info := load_key_values (rf_run_info files) in
      let ingress := match get_or "ingress_iface" info with Some i => Some i | None => first_capture_interface stage1 end in
      let egress := get_or "egress_iface" info in
      traffic ← parse_traffic_samples stage1 ingress;
      egress_samples ← (match egress with
                        | Some _ => if bool_decide (egress = ingress) then Ok []
                                    else parse_traffic_samples stage1 egress
                        | None => Ok []
                        end);
      firewall ← firewall_drops (load_firewall_rows (rf_firewall files)) (windows.*1 ++ ["session_end"%string]);
      let rd := mkRunData stage1 stage2 traffic egress_samples (load_system_samples (rf_system files))
                  (load_clk_tck (rf_clk_tck files)) firewall (load_variants (rf_variants files)) in
      phases ← phase_reports rd windows [];
      calibration ← load_calibration files;
      let mode := match get_or "mode" info with
                  | Some m => m
                  | None => if existsb (λ p, is_kernel p.2) phases then "kernel" else "pcap"
                  end%string in
      Ok (mkRunReport mode (default "1"%string (dict_get "run" info)) info (load_key_values (rf_switch files))
            (load_checks (rf_verify files)) calibration phases (rd_variants rd) (rd_system rd))
  end.

(** ** Several runs *)

(** The standard phases in their order, then the others in the order they ran. *)
Definition add_new {A} `{EqDecision A} (seen : list A) (x : A) : list A :=
  if decide (x ∈ seen) then seen else seen ++ [x].

Definition all_phases (results : list RunReport) : list string :=
  let seen := foldl (λ seen r, foldl add_new seen (rr_phases r).*1) [] results in
  List.filter (λ n, bool_decide (n ∈ seen)) PHASE_ORDER ++
  List.filter (λ n, negb (bool_decide (n ∈ PHASE_ORDER))) seen.

(** The values a getter finds; the mean takes an [AttributeError] or
    [TypeError] of the getter for none. *)
Fixpoint values_over (catching : bool) (runs : list RunReport) (phase : string) (getter : PhaseReport → res (option num))
    : res (list num) :=
  match runs with
  | [] => Ok []
  | r :: rs =>
      v ← match dict_get phase (rr_phases r) with
          | None => Ok None
          | Some m => match getter m with
                      | Exn AttributeError => if catching then Ok None else Exn AttributeError
                      | Exn TypeError => if catching then Ok None else Exn TypeError
                      | v => v
                      end
          end;
      rest ← values_over catching rs phase getter;
      Ok (match v with Some x => x :: rest | None => rest end)
  end.

Definition mean_over_runs (runs : list RunReport) (phase : string) (getter : PhaseReport → res (option num))
    : res (option num) :=
  values ← values_over true runs phase getter;
  match values with
  | [] => Ok None
  | _ => q ← ndiv (py_sum values) (NInt (Z.of_nat (length values))); Ok (Some q)
  end.

Definition spread_over_runs (runs : list RunReport) (phase : string) (getter : PhaseReport → res (option num))
    : res (option num) :=
  values ← values_over false runs phase getter;
  match values with
  | _ :: _ :: _ => s ← pstdev values; Ok (Some s)
  | _ => Ok None
  end.

(** type -> description, from the variants each run recorded. *)
Definition attack_type_descriptions (results : list RunReport) : list (string * string) :=
  foldl (λ found r,
    foldl (λ found pv,
      match dict_get "attack" pv.2 with
      | Some (variant, String _ _ as description) =>
          match dict_get variant found with
          | None => dict_set variant description found
          | Some _ => found
          end
      | _ => found
      end) found (rr_variants r)) [] results.

(** The figures that are compared, by their label. *)
Definition network_of (m : PhaseReport) (f : NetworkMetrics → option num) : option num :=
  s ← pr_system m; f (sy_network s).
Definition stage_of (p : option ProcessMetrics) : option (option num * option (num * num) * option (num * num)) :=
  match p with Some (Steady cpu rss ctxt) => Some (cpu, rss, ctxt) | _ => None end.
Definition stage1_of (m : PhaseReport) := s ← pr_system m; stage_of (sy_stage1 s).
Definition stage2_of (m : PhaseReport) := s ← pr_system m; stage_of (sy_stage2 s).
Definition cpu_of (m : PhaseReport) (f : CpuMetrics → num) : option num :=
  s ← pr_system m; c ← sy_cpu s; Some (f c).
Definition mean_latency (m : PhaseReport) (kind : string) : option num :=
  l ← dict_get kind (pr_latency m); Some l.1.1.2.
Definition traffic_pps (t : Traffic) : option num :=
  match t with PcapTraffic _ _ _ _ _ _ _ p _ => p | KernelTraffic _ _ _ _ p => p end.
Definition capture_dropped (t : Traffic) : option num :=
  match t with PcapTraffic _ _ d _ _ _ _ _ _ => Some (NInt d) | KernelTraffic _ _ _ _ _ => None end.

Definition COMPARISON_METRICS : list (string * (PhaseReport → option num)) :=
  [("Ingress throughput, interface (packets/s)", λ m, network_of m nw_ingress_pps);
   ("Ingress throughput, interface (Mbit/s)", λ m, network_of m nw_ingress_mbps);
   ("Packets/s seen by the capture backend", λ m, t ← pr_traffic m; traffic_pps t);
   ("Egress throughput, interface (packets/s)", λ m, network_of m nw_egress_pps);
   ("Dropped at capture (packets)", λ m, t ← pr_traffic m; capture_dropped t);
   ("Firewall drops (packets/s)", λ m, f ← pr_firewall m; fd_pps f);
   ("Stage 1 CPU (%)", λ m, s ← stage1_of m; s.1.1);
   ("Stage 2 CPU (%)", λ m, s ← stage2_of m; s.1.1);
   ("System CPU busy (%)", λ m, cpu_of m cpu_busy);
   ("System CPU in softirq (%)", λ m, cpu_of m cpu_softirq);
   ("Stage 1 context switches/s", λ m, s ← stage1_of m; c ← s.2; Some c.1);
   ("Stage 2 context switches/s", λ m, s ← stage2_of m; c ← s.2; Some c.1);
   ("System context switches/s", λ m, s ← pr_system m; sy_ctxt_per_sec s);
   ("Stage 1 memory, average RSS (MB)", λ m, s ← stage1_of m; r ← s.1.2; Some r.1);
   ("Stage 2 memory, average RSS (MB)", λ m, s ← stage2_of m; r ← s.1.2; Some r.1);
   ("Window handoff latency, mean (ms)", λ m, mean_latency m "handoff");
   ("Inference latency, mean (ms)", λ m, mean_latency m "inference");
   ("Enforcement call latency, mean (ms)", λ m, mean_latency m "enforcement");
   ("Window close to rule applied, mean (ms)", λ m, mean_latency m "window_to_rule");
   ("Time to first anomaly flag (s)", λ m, f ← pr_first m; ft_anomaly f);
   ("Time to first DDoS verdict (s)", λ m, f ← pr_first m; ft_class2 f);
   ("Time to first block, attack to drop (s)", λ m, f ← pr_first m; ft_block f);
   ("Detection consistency (%)", pr_consistency);
   ("Anomaly windows involving entropy (%)", λ m, s ← pr_signals m; Some (an_entropy_pct s));
   ("Mean entropy of anomaly windows", λ m, s ← pr_signals m; Some (an_mean_entropy s));
   ("Mean dominant source share of anomaly windows", λ m, s ← pr_signals m; Some (an_mean_dominance s));
   ("DDoS verdict share of anomaly windows (%)", pr_class2_rate)]%string.

Definition by_mode (results : list RunReport) : list (string * list RunReport) :=
  foldl (λ d r, dict_set (rr_mode r) (default [] (dict_get (rr_mode r) d) ++ [r]) d) [] results.

Fixpoint means_of (groups : list (list RunReport)) (phase : string) (getter : PhaseReport → option num)
    : res (list (option num)) :=
  match groups with
  | [] => Ok []
  | runs :: gs =>
      v ← mean_over_runs runs phase (λ m, Ok (getter m)); rest ← means_of gs phase getter; Ok (v :: rest)
  end.

(** One table: the phases some backend has a figure for. *)
Fixpoint comparison_rows (groups : list (list RunReport)) (phases : list string) (getter : PhaseReport → option num)
    : res (list (string * list (option num))) :=
  match phases with
  | [] => Ok []
  | phase :: ps =>
      values ← means_of groups phase getter; rest ← comparison_rows groups ps getter;
      Ok (if forallb (λ v, bool_decide (v = None)) values then rest else (phase, values) :: rest)
  end.

(** The last column, with two backends. *)
Definition delta_pct (values : list (option num)) : res (option num) :=
  match values with
  | [Some a; Some b] =>
      if is_zero a then Ok None else q ← ndiv (nmul (flt 100 1) (nsub b a)) a; Ok (Some q)
  | _ => Ok None
  end.

(** Phases both backends ran; in how many they agree, and in how many each has
    the expected outcome. *)
Record Agreement := mkAgreement { ag_total : Z; ag_verdict : Z * Z * Z; ag_action : Z * Z * Z }.

Definition tally (hit1 hit2 expected : bool) (t : Z * Z * Z) : Z * Z * Z :=
  let one (b : bool) := if b then 1%Z else 0%Z in
  (t.1.1 + one (Bool.eqb hit1 hit2), t.1.2 + one (Bool.eqb hit1 expected), t.2 + one (Bool.eqb hit2 expected))%Z.

Definition float_count (n : Z) : num := NFlt (float_of_Z n).
Definition acted (v : option num) : bool := nlt (NInt 0) (default (flt 0 1) v).

Fixpoint agreement (first second : list RunReport) (phases : list string) (a : Agreement) : res Agreement :=
  match phases with
  | [] => Ok a
  | phase :: ps =>
      v1 ← mean_over_runs first phase (λ m, Ok (Some (float_count (pr_class2 m))));
      v2 ← mean_over_runs second phase (λ m, Ok (Some (float_count (pr_class2 m))));
      a1 ← mean_over_runs first phase (λ m, Ok (Some (float_count (pr_actions m))));
      a2 ← mean_over_runs second phase (λ m, Ok (Some (float_count (pr_actions m))));
      match v1, v2 with
      | Some _, Some _ =>
          let expected := (phase_info phase).1.1.2 in
          agreement first second ps
            (mkAgreement (ag_total a + 1) (tally (acted v1) (acted v2) expected (ag_verdict a))
                         (tally (acted a1) (acted a2) expected (ag_action a)))
      | _, _ => agreement first second ps a
      end
  end.

Definition phase_verdict (m : option PhaseReport) : option bool := (λ m, (0 <? pr_class2 m)%Z) <$> m.
End run.
