(* ===== verification/BenchFacts.v ===== *)
(** * scripts/analyze_live_benchmark.py: theorems

    The phases slice the events without loss or overlap, running totals and
    firewall counters add up over phases, and the consistency figure is a
    share. *)

From S2P Require Import Prelude PyNum PyStat PyStr Regex PyTime Csv BenchTime BenchData BenchRun.

(** ** Order of strings *)

Lemma compare_trans_lt a b c : String.compare a b = Lt → String.compare b c = Lt → String.compare a c = Lt.
Proof.
  revert b c. induction a as [|x a IH]; intros [|y b] [|z c]; simpl; try done. unfold Ascii.compare.
  destruct (N.compare_spec (N_of_ascii x) (N_of_ascii y)) as [Hxy|Hxy|Hxy],
    (N.compare_spec (N_of_ascii y) (N_of_ascii z)) as [Hyz|Hyz|Hyz]; try done; intros H1 H2.
  - rewrite Hxy, Hyz, N.compare_refl. eauto.
  - rewrite Hxy. by rewrite (proj2 (N.compare_lt_iff _ _) Hyz).
  - rewrite <-Hyz. by rewrite (proj2 (N.compare_lt_iff _ _) Hxy).
  - rewrite (proj2 (N.compare_lt_iff _ _)); [done|]. by etransitivity.
Qed.

Lemma leb_not_ltb a b : String.leb a b = negb (String.ltb b a).
Proof. unfold String.leb, String.ltb. rewrite (String.compare_antisym a b). by destruct (String.compare b a). Qed.

Lemma leb_ltb_trans a b c : String.leb a b = true → String.ltb b c = true → String.ltb a c = true.
Proof.
  unfold String.leb, String.ltb. destruct (String.compare a b) eqn:Hab; try done; intros _.
  - by apply String.compare_eq_iff in Hab as ->.
  - destruct (String.compare b c) eqn:Hbc; try done. by rewrite (compare_trans_lt a b c).
Qed.

Lemma ltb_leb a b : String.ltb a b = true → String.leb a b = true.
Proof. unfold String.leb, String.ltb. by destruct (String.compare a b). Qed.

Lemma leb_refl a : String.leb a a = true.
Proof. unfold String.leb. destruct (String.compare a a) eqn:H; try done.
  pose proof (String.compare_antisym a a) as Ha. rewrite H in Ha. done. Qed.

Lemma leb_trans a b c : String.leb a b = true → String.leb b c = true → String.leb a c = true.
Proof.
  intros Hab Hbc. rewrite leb_not_ltb. apply negb_true_iff, not_true_iff_false. intros Hca.
  pose proof (leb_ltb_trans b c a Hbc Hca) as Hba. rewrite leb_not_ltb, Hba in Hab. done.
Qed.

Lemma last_cons {A} (x d : A) l : List.last (x :: l) d = List.last l x.
Proof. destruct l as [|y l]; [done|]. revert y. induction l as [|z l IH]; intros y; [done|]. exact (IH z). Qed.

(** ** Slices *)

(** Boundaries in the order they were written. *)
Fixpoint ascending (l : list string) : Prop :=
  match l with
  | a :: (b :: _) as l' => String.leb a b = true ∧ ascending l'
  | _ => True
  end.

Lemma in_window_split a b c ts :
  String.leb a b = true → String.leb b c = true →
  in_window a c ts = in_window a b ts || in_window b c ts ∧
  in_window a b ts && in_window b c ts = false.
Proof.
  intros Hab Hbc. unfold in_window. rewrite (leb_not_ltb b ts).
  destruct (String.ltb ts b) eqn:Htb; simpl; rewrite ?andb_true_r, ?andb_false_r, ?orb_false_r, ?orb_false_l.
  - split; [|done]. destruct (String.leb a ts); [|done]. simpl. unfold String.ltb.
    pose proof (ltb_leb _ _ Htb) as Hle. destruct (String.compare ts c) eqn:Hc; try done; exfalso.
    + apply String.compare_eq_iff in Hc as ->. rewrite leb_not_ltb, Htb in Hbc. done.
    + assert (String.leb ts c = true) as Hts by (by apply leb_trans with b). unfold String.leb in Hts. by rewrite Hc in Hts.
  - assert (Hat : String.leb a ts = true).
    { apply leb_trans with b; [done|]. by rewrite leb_not_ltb, Htb. }
    by rewrite Hat.
Qed.

Lemma filter_or_perm {A} (p q r : A → bool) (l : list A) :
  (∀ x, r x = p x || q x ∧ p x && q x = false) → List.filter r l ≡ₚ List.filter p l ++ List.filter q l.
Proof.
  intros H. induction l as [|x l IH]; [done|]. simpl. destruct (H x) as [-> Hd].
  destruct (p x), (q x); simpl in *; try discriminate; rewrite IH; try reflexivity.
  by rewrite Permutation_middle.
Qed.

Lemma events_in_split events a b c :
  String.leb a b = true → String.leb b c = true →
  events_in events a c ≡ₚ events_in events a b ++ events_in events b c.
Proof. intros Hab Hbc. apply filter_or_perm. intros x. by apply in_window_split. Qed.

Lemma events_in_empty events a : events_in events a a = [].
Proof.
  unfold events_in. induction events as [|e es IH]; simpl; [done|]. unfold in_window.
  destruct (String.leb a e.1) eqn:H; simpl; [|done]. rewrite leb_not_ltb in H. by apply negb_true_iff in H as ->.
Qed.

(** The phases of a run cut its events without loss or overlap: an event between
    the first and the last boundary is in the slice of exactly one phase. *)
Theorem phases_partition events name ts phases :
  ascending (ts :: phases.*2) →
  concat ((λ w, events_in events w.2.1 w.2.2) <$> windows_of ((name, ts) :: phases)) ≡ₚ
  events_in events ts (List.last phases.*2 ts).
Proof.
  assert (Hmono : ∀ l t, ascending (t :: l) → String.leb t (List.last l t) = true).
  { induction l as [|u l IH]; intros t; [intros _; apply leb_refl|]. intros [Htu Hl].
    rewrite last_cons. apply leb_trans with u; [done|]. by apply IH. }
  revert name ts. induction phases as [|[name' ts'] phases IH]; intros name ts Hasc.
  - simpl. by rewrite events_in_empty.
  - destruct Hasc as [Hle Hasc].
    change (events_in events ts ts' ++
            concat ((λ w, events_in events w.2.1 w.2.2) <$> windows_of ((name', ts') :: phases)) ≡ₚ
            events_in events ts (List.last (ts' :: phases.*2) ts)).
    rewrite (IH name' ts' Hasc).
    rewrite last_cons. symmetry. apply events_in_split; [done|]. by apply Hmono.
Qed.

(** ** Running totals *)

Lemma sub_counters_spec after before d :
  sub_counters after before = Ok d →
  d.*1 = before.*1 ∧
  ∀ k b, dict_get k before = Some b → ∃ a, dict_get k after = Some a ∧ dict_get k d = Some (a - b)%Z.
Proof.
  revert d. induction before as [|[k b] before IH]; intros d; simpl; [intros [= <-]; done|].
  destruct (dict_get k after) as [a|] eqn:Ha; [|done].
  destruct (sub_counters after before) as [r|] eqn:Hr; [|done]. intros [= <-].
  destruct (IH r eq_refl) as [Hk Hv]. split; [exact (f_equal (cons k) Hk)|].
  intros k' b'. simpl. destruct (decide (k' = k)) as [->|]; [|apply Hv]. intros [= <-]. eauto.
Qed.

Lemma sub_counters_total after before :
  (∀ k, is_Some (dict_get k before) → is_Some (dict_get k after)) → ∃ d, sub_counters after before = Ok d.
Proof.
  induction before as [|[k b] before IH]; intros H; [by eexists|]. cbn [sub_counters].
  destruct (H k) as [a Ha]; [simpl; rewrite decide_True by done; eauto|]. rewrite Ha.
  assert (Hrest : ∀ k', is_Some (dict_get k' before) → is_Some (dict_get k' after)).
  { intros k' Hk'. apply H. simpl. destruct (decide (k' = k)); [by eexists|done]. }
  destruct (IH Hrest) as [d Hd]. rewrite Hd. by eexists.
Qed.

Lemma get_same_keys (d d' : list (string * Z)) k : d.*1 = d'.*1 → is_Some (dict_get k d) ↔ is_Some (dict_get k d').
Proof.
  revert d'. induction d as [|[x v] d IH]; intros [|[x' v'] d']; simpl; try done. intros [= -> Hd].
  destruct (decide (k = x')); [split; by eexists|by apply IH].
Qed.

Lemma cumulative_iff samples a b k d :
  cumulative_traffic samples a b = Ok (Some (k, d)) ↔
  ∃ ta ca tb cb, counters_at_or_before samples a = Some (ta, k, ca) ∧
    counters_at_or_before samples b = Some (tb, k, cb) ∧
    too_old ta a = Ok false ∧ too_old tb b = Ok false ∧ sub_counters cb ca = Ok d.
Proof.
  unfold cumulative_traffic. split.
  - destruct (counters_at_or_before samples a) as [[[ta ka] ca]|]; [|done].
    destruct (counters_at_or_before samples b) as [[[tb kb] cb]|]; [|done].
    case_bool_decide as Hk; [done|]. subst kb.
    destruct (too_old ta a) as [[]|] eqn:Ha; try done. cbn.
    destruct (too_old tb b) as [[]|] eqn:Hb; try done. cbn.
    destruct (sub_counters cb ca) as [d'|] eqn:Hd; [|done]. cbn. intros [= <- <-]. eauto 10.
  - intros (ta & ca & tb & cb & -> & -> & Ha & Hb & Hd). rewrite bool_decide_eq_false_2 by auto.
    rewrite Ha. cbn. rewrite Hb. cbn. rewrite Hd. done.
Qed.

(** The packets of two adjacent spans add up: when the running totals of the
    capture give a figure for each span, they give the sum for both together,
    for every counter, from the same backend. *)
Theorem totals_add_up samples a b c k k' d d' :
  cumulative_traffic samples a b = Ok (Some (k, d)) →
  cumulative_traffic samples b c = Ok (Some (k', d')) →
  k' = k ∧ ∃ total, cumulative_traffic samples a c = Ok (Some (k, total)) ∧ total.*1 = d.*1 ∧
    ∀ key x, dict_get key d = Some x →
      ∃ y, dict_get key d' = Some y ∧ dict_get key total = Some (x + y)%Z.
Proof.
  intros (ta & ca & tb & cb & Ha & Hb & Oa & Ob & Hd)%cumulative_iff (tb' & cb' & tc & cc & Hb' & Hc & _ & Oc & Hd')%cumulative_iff.
  rewrite Hb in Hb'. injection Hb' as <- <- <-. split; [done|].
  destruct (sub_counters_spec _ _ _ Hd) as [Hk Hv], (sub_counters_spec _ _ _ Hd') as [Hk' Hv'].
  destruct (sub_counters_total cc ca) as [total Ht].
  { intros key [x Hx]. destruct (Hv key x Hx) as (y & Hy & _). destruct (Hv' key y Hy) as (z & Hz & _). eauto. }
  destruct (sub_counters_spec _ _ _ Ht) as [Hkt Hvt].
  exists total. split; [apply cumulative_iff; eauto 10|]. split; [by rewrite Hkt, Hk|].
  intros key x Hx. destruct (proj1 (get_same_keys d ca key Hk)) as [xa Hxa]; [by eexists|].
  destruct (Hv key xa Hxa) as (xb & Hxb & Hdx). destruct (Hv' key xb Hxb) as (xc & Hxc & Hdy).
  destruct (Hvt key xa Hxa) as (xc' & Hxc' & Htx). exists (xc - xb)%Z. split; [done|]. rewrite Htx. f_equal.
  rewrite Hx in Hdx. injection Hdx as ->. rewrite Hxc in Hxc'. injection Hxc' as <-. lia.
Qed.

(** ** Consistency of the verdicts *)

Definition bin_of (start_ts ts : string) : res Z := s ← seconds_between start_ts ts; nfloordiv s BIN_SECS.

Lemma hit_bins_spec times start_ts bins hit h i :
  hit_bins times start_ts bins hit = Ok h →
  i ∈ h ↔ i ∈ hit ∨ (0 <= i < bins)%Z ∧ ∃ ts, ts ∈ times ∧ bin_of start_ts ts = Ok i.
Proof.
  revert hit. induction times as [|ts times IH]; intros hit; cbn [hit_bins].
  { intros [= <-]. split; [auto|]. intros [|(_ & ts & Hts & _)]; [done|]. by apply elem_of_nil in Hts. }
  unfold mbind, res_bind. destruct (seconds_between start_ts ts) as [s|] eqn:Hs; [|done].
  destruct (nfloordiv s BIN_SECS) as [index|] eqn:Hi; [|done]. intros Hh. rewrite (IH _ Hh).
  assert (Hbin : bin_of start_ts ts = Ok index) by (unfold bin_of, mbind, res_bind; by rewrite Hs).
  destruct ((0 <=? index)%Z && (index <? bins)%Z) eqn:Hr.
  - apply andb_true_iff in Hr as [H0%Z.leb_le H1%Z.ltb_lt]. rewrite elem_of_union, elem_of_singleton. split.
    + intros [[->|?]|(? & ts' & ? & ?)]; [right|by left|right]; (split; [lia|]).
      * exists ts. split; [left|done].
      * exists ts'. split; [by right|done].
    + intros [?|(? & ts' & [->|?]%elem_of_cons & Hts')]; [by left; right|left; left|by right; eauto]. congruence.
  - split; [intros [?|(? & ts' & ? & ?)]; [by left|right]|].
    + split; [done|]. exists ts'. split; [by right|done].
    + intros [?|(? & ts' & [->|?]%elem_of_cons & Hts')]; [by left| |by right; eauto].
      assert (index = i) as -> by congruence. apply andb_false_iff in Hr as [?%Z.leb_gt|?%Z.ltb_ge]; lia.
Qed.

Lemma bins_fit (hit : gset Z) lo hi :
  (∀ i, i ∈ hit → lo <= i < hi)%Z → (Z.of_nat (size hit) <= Z.max 0 (hi - lo))%Z.
Proof.
  intros H. change (size hit) with (length (elements hit)).
  assert (length (elements hit) ≤ Z.to_nat (hi - lo))%nat; [|lia].
  apply (NoDup_Z_interval _ (lo - 1)); [apply NoDup_elements|].
  apply Forall_forall. intros i Hi%elem_of_elements%H. lia.
Qed.

Lemma set_min_in x l : set_min x l ∈ x :: l.
Proof.
  unfold set_min. revert x. induction l as [|y l IH]; intros x; simpl; [left|].
  destruct (Z.min_spec x y) as [[_ ->]|[_ ->]]; specialize (IH x) as Hx; specialize (IH y) as Hy; set_solver.
Qed.

(** The consistency of a phase is a share. There is none for a phase shorter
    than one bin. A benign phase counts the bins without a DDoS verdict out of
    all of its bins; an attack phase counts the bins with one out of those from
    its first verdict on, and is at zero when there is no verdict. The part
    never exceeds the whole. *)
Theorem consistency_is_share times start_ts end_ts attack r bins :
  bin_consistency times start_ts end_ts attack = Ok r → bin_of start_ts end_ts = Ok bins →
  (r = None ∧ (bins < 1)%Z) ∨
  ∃ (hit : gset Z) q, r = Some q ∧ (1 <= bins)%Z ∧
    (∀ i, i ∈ hit ↔ (0 <= i < bins)%Z ∧ ∃ ts, ts ∈ times ∧ bin_of start_ts ts = Ok i) ∧
    (Z.of_nat (size hit) <= bins)%Z ∧
    (attack = false → percent_of (bins - Z.of_nat (size hit)) bins = Ok q) ∧
    (attack = true → hit = ∅ ∧ q = flt 0 1 ∨
       ∃ first, first ∈ hit ∧ (∀ i, i ∈ hit → first <= i)%Z ∧ (Z.of_nat (size hit) <= bins - first)%Z ∧
                percent_of (Z.of_nat (size hit)) (bins - first) = Ok q).
Proof.
  unfold bin_consistency, bin_of, mbind, res_bind. destruct (seconds_between start_ts end_ts) as [span|] eqn:Hs; [|done].
  intros Hr Hb. rewrite Hb in Hr. destruct (Z.ltb_spec bins 1) as [|Hbins]; [injection Hr as <-; by left|].
  destruct (hit_bins times start_ts bins ∅) as [hit|] eqn:Hhit; [|done]. right. exists hit.
  assert (Hspec : ∀ i, i ∈ hit ↔ (0 <= i < bins)%Z ∧ ∃ ts, ts ∈ times ∧ bin_of start_ts ts = Ok i).
  { intros i. rewrite (hit_bins_spec _ _ _ _ _ i Hhit). set_solver. }
  assert (Hsize : (Z.of_nat (size hit) <= bins)%Z).
  { pose proof (bins_fit hit 0 bins). rewrite Z.max_r in H by lia. rewrite Z.sub_0_r in H. apply H. intros i Hi%Hspec. tauto. }
  destruct attack; cbn [negb] in Hr.
  - destruct (elements hit) as [|x l] eqn:Hel.
    + injection Hr as <-. exists (flt 0 1). do 4 (split; [done|]). split; [done|]. intros _. left. split; [|done].
      by apply elements_empty_iff, leibniz_equiv in Hel.
    + set (first := set_min x l) in *. destruct (percent_of _ _) as [q|] eqn:Hq in Hr; [|done]. injection Hr as <-.
      assert (Hmin : ∀ i, i ∈ hit → (first <= i)%Z).
      { intros i Hi. apply foldl_min_le. rewrite <-Hel. by apply elem_of_elements. }
      assert (Hfirst : first ∈ hit).
      { apply elem_of_elements. rewrite Hel. subst first. apply set_min_in. }
      rewrite filter_all in Hq.
      2:{ apply Forall_forall. intros i Hi. rewrite <-Hel in Hi. apply elem_of_elements in Hi. by apply Z.leb_le, Hmin. }
      rewrite <-Hel in Hq. exists q. do 4 (split; [done|]). split; [done|]. intros _. right. exists first.
      do 2 (split; [done|]). split; [|exact Hq].
      assert (first < bins)%Z by (apply Hspec in Hfirst; lia).
      pose proof (bins_fit hit first bins) as Hfit. rewrite Z.max_r in Hfit by lia. apply Hfit.
      intros i Hi. split; [by apply Hmin|]. apply Hspec in Hi. lia.
  - destruct (percent_of _ _) as [q|] eqn:Hq in Hr; [|done]. injection Hr as <-. exists q.
    do 4 (split; [done|]). split; done.
Qed.

(** ** Firewall counters *)

Definition drop_sum (set_name : string) (result : list (string * gmap string Z)) : Z :=
  sum_Z ((λ nm, default 0%Z (nm.2 !! set_name)) <$> result).

Lemma sum_Z_app l l' : sum_Z (l ++ l') = (sum_Z l + sum_Z l')%Z.
Proof.
  unfold sum_Z. rewrite foldl_app. generalize (foldl Z.add 0%Z l). intros a.
  revert a. induction l' as [|x l' IH]; intros a; cbn [foldl]; [lia|]. rewrite (IH (a + x)%Z), (IH (0 + x)%Z). lia.
Qed.

Lemma drops_between_get totals here following set_name :
  default 0%Z (drops_between totals here following !! set_name) =
  Z.max 0 (total_of totals following set_name - total_of totals here set_name).
Proof.
  unfold drops_between. destruct (set_to_map _ _ !! set_name) as [v|] eqn:Hv.
  - apply lookup_set_to_map in Hv as (x & _ & [= -> <-]); done.
  - simpl. destruct (decide (set_name ∈ sets_in totals here ∪ sets_in totals following)) as [Hin|Hout].
    + exfalso. apply eq_None_not_Some in Hv. apply Hv. eexists. apply lookup_set_to_map; [done|]. eauto.
    + unfold total_of. unfold sets_in in Hout. apply not_elem_of_union in Hout as [H1%not_elem_of_dom H2%not_elem_of_dom].
      rewrite H1, H2. done.
Qed.

(** The snapshots of one set along the phases. *)
Fixpoint nondecreasing (l : list Z) : Prop :=
  match l with
  | a :: (b :: _) as l' => (a <= b)%Z ∧ nondecreasing l'
  | _ => True
  end.

Definition drop_step (totals : gmap string (gmap string Z)) (result : list (string * gmap string Z)) (hf : string * string) :=
  if bool_decide (totals !! hf.1 = None ∧ totals !! hf.2 = None) then result
  else dict_set hf.1 (drops_between totals hf.1 hf.2) result.

Lemma drop_step_sum totals set_name result here following :
  here ∉ result.*1 →
  drop_sum set_name (drop_step totals result (here, following)) =
    (drop_sum set_name result + Z.max 0 (total_of totals following set_name - total_of totals here set_name))%Z ∧
  (drop_step totals result (here, following)).*1 ⊆ result.*1 ++ [here].
Proof.
  intros Hnew. unfold drop_step. case_bool_decide as Habs; simpl in *.
  - destruct Habs as [Hh Hf]. unfold total_of. rewrite Hh, Hf. simpl. rewrite lookup_empty. simpl.
    split; [lia|set_solver].
  - rewrite dict_set_app_new by done. unfold drop_sum. rewrite !fmap_app, sum_Z_app. simpl.
    rewrite drops_between_get. split; [unfold sum_Z at 2; simpl; lia|done].
Qed.

(** While the counters are not reset, the phases account for every packet: the
    drops of a set over all phases are its last snapshot minus its first. *)
Theorem firewall_adds_up rows name names totals result set_name :
  drop_totals ∅ rows = Ok totals → NoDup (name :: names) → firewall_drops rows (name :: names) = Ok result →
  nondecreasing ((λ n, total_of totals n set_name) <$> name :: names) →
  drop_sum set_name result = (total_of totals (List.last names name) set_name - total_of totals name set_name)%Z.
Proof.
  intros Ht Hnd Hr Hmono. unfold firewall_drops, mbind, res_bind in Hr. rewrite Ht in Hr. injection Hr as <-.
  change (drop_sum set_name (foldl (drop_step totals) [] (zip (name :: names) names)) =
          (total_of totals (List.last names name) set_name - total_of totals name set_name)%Z).
  assert (Hgen : ∀ names name result, NoDup (name :: names) → (∀ n, n ∈ name :: names → n ∉ result.*1) →
            nondecreasing ((λ n, total_of totals n set_name) <$> name :: names) →
            drop_sum set_name (foldl (drop_step totals) result (zip (name :: names) names)) =
            (drop_sum set_name result + total_of totals (List.last names name) set_name
             - total_of totals name set_name)%Z).
  { clear. induction names as [|n names IH]; intros name result Hnd Hnew Hmono; [simpl; lia|].
    destruct Hmono as [Hle Hmono].
    change (zip (name :: n :: names) (n :: names)) with ((name, n) :: zip (n :: names) names). cbn [foldl].
    apply NoDup_cons in Hnd as [Hnotin Hnd].
    destruct (drop_step_sum totals set_name result name n) as [Hsum Hkeys]; [apply Hnew; left|].
    rewrite IH, Hsum, last_cons; [lia|done| |done].
    intros n' Hn' [Hin|Heq%list_elem_of_singleton]%Hkeys%elem_of_app; [|congruence].
    by apply (Hnew n'); [right|]. }
  rewrite (Hgen names name []); [|done| |done]; [change (drop_sum set_name []) with 0%Z; lia|]. intros n _. apply not_elem_of_nil.
Qed.

(** ** A session across New Year *)

(** Every line of a run is dated in the year of its first phase: after New
    Year the lines are a year early, and no phase has them. *)
Lemma new_year_lines_lost :
  let line := "Jan  1 00:30:00 gw flod[7]: ANOMALY window 3 [victim=10.0.0.5]"%string in
  let boundaries := file_lines ("attacker" ^^ String "009" "2026-12-31 23:50:00" ^^ String newline
                                ("session_end" ^^ String "009" "2027-01-01 00:50:00")) in
  boundaries_of boundaries = Ok [("attacker", "2026-12-31 23:50:00"); ("session_end", "2027-01-01 00:50:00")]%string ∧
  (events ← events_of_lines [line] "2026";
   Ok (length events, events_in events "2026-12-31 23:50:00" "2027-01-01 00:50:00")) = Ok (1, []).
Proof. split; vm_compute; reflexivity. Qed.

(** ** Witnesses *)

Definition demo_events : list event :=
  [("2026-02-28 10:00:05", "a"); ("2026-02-28 10:01:00", "b"); ("2026-02-28 10:02:30.5", "c")]%string.

Lemma phases_partition_witness :
  concat ((λ w, events_in demo_events w.2.1 w.2.2) <$>
    windows_of [("normal", "2026-02-28 10:00:00"); ("attacker", "2026-02-28 10:01:00");
                ("session_end", "2026-02-28 10:03:00")]%string) ≡ₚ
  events_in demo_events "2026-02-28 10:00:00" "2026-02-28 10:03:00".
Proof.
  apply (phases_partition demo_events "normal" "2026-02-28 10:00:00"
           [("attacker", "2026-02-28 10:01:00"); ("session_end", "2026-02-28 10:03:00")]%string).
  repeat split; reflexivity.
Defined.

Definition demo_samples : list sample :=
  [("2026-02-28 10:00:00", Pcap, [("raw_captured", 100%Z)]); ("2026-02-28 10:01:00", Pcap, [("raw_captured", 130%Z)]);
   ("2026-02-28 10:02:00", Pcap, [("raw_captured", 190%Z)])]%string.

Lemma totals_add_up_witness :
  Pcap = Pcap ∧ ∃ total,
    cumulative_traffic demo_samples "2026-02-28 10:00:10" "2026-02-28 10:02:10" = Ok (Some (Pcap, total)) ∧
    total.*1 = ["raw_captured"%string] ∧
    ∀ key x, dict_get key [("raw_captured"%string, 30%Z)] = Some x →
      ∃ y, dict_get key [("raw_captured"%string, 60%Z)] = Some y ∧ dict_get key total = Some (x + y)%Z.
Proof.
  apply (totals_add_up demo_samples "2026-02-28 10:00:10" "2026-02-28 10:01:10" "2026-02-28 10:02:10"
           Pcap Pcap [("raw_captured"%string, 30%Z)] [("raw_captured"%string, 60%Z)]); vm_compute; reflexivity.
Defined.

Lemma consistency_is_share_witness :
  let times := ["2026-02-28 10:00:25"; "2026-02-28 10:00:42"]%string in
  let start_ts := "2026-02-28 10:00:00"%string in let end_ts := "2026-02-28 10:01:00"%string in
  let r := Some (flt 50 1) in
  (r = None ∧ (6 < 1)%Z) ∨
  ∃ (hit : gset Z) q, r = Some q ∧ (1 <= 6)%Z ∧
    (∀ i, i ∈ hit ↔ (0 <= i < 6)%Z ∧ ∃ ts, ts ∈ times ∧ bin_of start_ts ts = Ok i) ∧
    (Z.of_nat (size hit) <= 6)%Z ∧
    (true = false → percent_of (6 - Z.of_nat (size hit)) 6 = Ok q) ∧
    (true = true → hit = ∅ ∧ q = flt 0 1 ∨
       ∃ first, first ∈ hit ∧ (∀ i, i ∈ hit → first <= i)%Z ∧ (Z.of_nat (size hit) <= 6 - first)%Z ∧
                percent_of (Z.of_nat (size hit)) (6 - first) = Ok q).
Proof.
  intros times start_ts end_ts r.
  apply (consistency_is_share times start_ts end_ts true r 6); vm_compute; reflexivity.
Defined.

Definition demo_counters : list fw_row :=
  [["attacker"; "t0"; "INPUT"; "ddos_blocklist"; "DROP"; "5"; "300"];
   ["session_end"; "t1"; "INPUT"; "ddos_blocklist"; "DROP"; "9"; "540"]]%string.

Lemma firewall_adds_up_witness :
  ∃ totals result, drop_totals ∅ demo_counters = Ok totals ∧
    firewall_drops demo_counters ["attacker"; "session_end"]%string = Ok result ∧
    drop_sum "ddos_blocklist" result =
      (total_of totals "session_end" "ddos_blocklist" - total_of totals "attacker" "ddos_blocklist")%Z.
Proof.
  eexists _, _. split; [reflexivity|]. split; [reflexivity|].
  eapply (firewall_adds_up demo_counters "attacker" ["session_end"%string]); [reflexivity| |reflexivity|].
  - apply NoDup_cons. split; [|apply NoDup_singleton]. intros H%list_elem_of_singleton. discriminate.
  - vm_compute. split; [discriminate|done].
Defined.
