(* ===== verification/BenchReport.v ===== *)
(** * scripts/analyze_live_benchmark.py: the printed report

    Each function that prints is the list of its lines. Widths count bytes,
    which are characters for ASCII text. *)

From stdpp Require Import pretty.
From S2P Require Import Prelude PyNum PyStat PyStr Regex PyTime PyPrint Csv BenchTime BenchData BenchRun ReportText.

#[local] Open Scope string_scope.
#[local] Open Scope list_scope.

Definition line : Type := string.

(** ** Cells *)

Fixpoint join (sep : string) (l : list string) : string :=
  match l with [] => EmptyString | [x] => x | x :: l' => x ^^ sep ^^ join sep l' end.
Fixpoint concat_cells (l : list string) : string := match l with [] => EmptyString | x :: l' => x ^^ concat_cells l' end.

(** A format: [".1f"] and [",.0f"] among others. *)
Definition spec : Type := num → string.
Definition dot (d : nat) : spec := λ n, fmt_fixed n d.
Definition comma (d : nat) : spec := λ n, fmt_comma n d.

Definition fmt (f : spec) (value : option num) : string := match value with Some x => f x | None => "n/a" end.
Definition fmt_secs (value : option num) : string := match value with Some x => dot 1 x ^^ "s" | None => "n/a" end.

Definition get (k : string) (info : list (string * string)) (missing : string) : string :=
  default missing (dict_get k info).
Definition is_one (k : string) (info : list (string * string)) : bool :=
  bool_decide (dict_get k info = Some "1"%string).
Definition note_if (b : bool) (s : string) : string := if b then s else EmptyString.
Definition line_if (b : bool) (l : list line) : list line := if b then l else [].

(** ** Calibration and the switch of backends *)

Definition target_line (t : CalTarget) : line :=
  "    " ^^ ct_target t ^^ ": " ^^ pretty (ct_windows t) ^^ " clean windows, " ^^ dot 1 (ct_flagged_pct t) ^^ "% flagged, mean " ^^
  dot 1 (ct_mean_pps t) ^^ " pps, peak " ^^ dot 1 (ct_peak_pps t) ^^ " pps, floors rate " ^^ dot 1 (ct_rate_floor t) ^^
  " entropy " ^^ dot 4 (ct_entropy_floor t).

Definition applied_lines (info applied : list (string * string)) : list line :=
  ["  Floors in force before: " ^^ get "tuning_before" applied "n/a";
   "  Floors in force after:  " ^^ get "tuning_after" applied "n/a";
   "  Restart to apply them: first capture status line after " ^^ get "downtime_to_first_status_secs" applied "n/a" ^^ "s" ^^
   note_if (is_one "timed_out" applied) " (timed out)" ^^ "; baseline back after ~" ^^ get "rewarm_secs" info "?" ^^ "s" ^^
   note_if (negb (is_one "rewarm_ok" info)) " (not confirmed)"].

Definition print_calibration (r : RunReport) : list line :=
  match rr_calibration r with
  | None => []
  | Some cal =>
      let info := cr_info cal in
      ["--- Calibration (" ^^ get "mode" info "?" ^^ ") during the warm-up stage, " ^^ rr_mode r ^^ " backend ---";
       "  Outcome: " ^^ get "status" info "?" ^^ ", took " ^^ get "duration_secs" info "?" ^^ "s, asked for " ^^
       get "windows_requested" info "?" ^^ " clean windows per target (exit " ^^ get "exit_code" info "?" ^^ ")"] ++
      (target_line <$> cr_targets cal) ++
      (match get_or "recommended_flags" info with Some f => ["  Recommended for all targets: " ^^ f] | None => [] end) ++
      (if bool_decide (dict_get "status" info = Some "applied"%string) then applied_lines info (cr_apply cal)
       else line_if (bool_decide (dict_get "status" info = Some "failed"%string))
              ["  Calibration produced no usable floors, so this run used the floors already in force."]) ++
      ((λ note, "  " ^^ note) <$> cr_notes cal) ++ [""]
  end.

Definition check_line (c : list string) : list line :=
  match c with [name; outcome; detail] => ["  Check " ^^ name ^^ ": " ^^ outcome ^^ " (" ^^ detail ^^ ")"] | _ => [] end%string.

Definition first_status_line (before : string) (d : list (string * string)) : line :=
  before ^^ get "downtime_to_first_status_secs" d "n/a" ^^ "s" ^^ note_if (is_one "timed_out" d) " (timed out)".

Definition print_switch (r : RunReport) : list line :=
  match rr_switch r with
  | [] => []
  | switch =>
      ["--- Switch to the " ^^ rr_mode r ^^ " backend ---"; "  Sensor stop took " ^^ get "stop_secs" switch "n/a" ^^ "s";
       "  Downtime until capture attached: " ^^ get "downtime_to_attach_secs" switch "n/a" ^^ "s";
       first_status_line "  Downtime until the first capture status line: " switch] ++
      mjoin (check_line <$> rr_verify r) ++ [""]
  end.

(** ** One phase *)

Definition variant_text (v : string * (string * string)) : string :=
  v.1 ^^ " '" ^^ v.2.1 ^^ "'" ^^ note_if (negb (bool_decide (v.2.2 = EmptyString))) (" (" ^^ v.2.2 ^^ ")").

Definition signals_line (s : AnomalyStats) : line :=
  "  Signals on anomaly windows: " ^^ pretty (an_rate_only s) ^^ " rate only, " ^^ pretty (an_entropy_only s) ^^
  " entropy only, " ^^ pretty (an_both s) ^^ " both (" ^^ dot 1 (an_entropy_pct s) ^^ "% involve entropy); mean entropy " ^^
  dot 3 (an_mean_entropy s) ^^ ", mean dominant source share " ^^ dot 3 (an_mean_dominance s).

Definition victim_lt (a b : string * Z) : bool := String.ltb a.1 b.1.
Definition detection_lines (m : PhaseReport) : list line :=
  let n := length (pr_by_victim m) in
  ["  Anomaly-flagged windows (Stage 1): " ^^ pretty (pr_anomaly_windows m) ^^
   note_if (negb (n =? 0)%nat) (" across " ^^ pretty (Z.of_nat n) ^^ " targets")] ++
  ((λ v, "    " ^^ v.1 ^^ ": " ^^ pretty v.2) <$> py_sort victim_lt (pr_by_victim m)) ++
  ["  Class-2 (DDoS) verdicts (Stage 2): " ^^ pretty (pr_class2 m);
   "  Enforcement actions triggered: " ^^ pretty (pr_actions m) ^^ " (" ^^ pretty (pr_blocks m) ^^ " blocks, " ^^
   pretty (pr_ratelimits m) ^^ " rate limits)"] ++
  match pr_class2_rate m with
  | Some q => ["  " ^^ (if pr_is_attack m then "escalation rate" else "false-positive rate (of anomaly-flagged windows)") ^^
               ": " ^^ dot 1 q ^^ "%"]
  | None => []
  end ++
  match pr_consistency m with
  | Some q => ["  Detection consistency (" ^^ pretty BIN_SECS ^^ "s bins, " ^^
               (if pr_is_attack m then "attack verdicts in the bins after the first detection"
                else "bins with no DDoS verdict") ^^ "): " ^^ dot 1 q ^^ "%"]
  | None => []
  end ++
  match pr_first m with
  | Some t => ["  Time from phase start to: first anomaly flag " ^^ fmt_secs (ft_anomaly t) ^^ ", first DDoS verdict " ^^
               fmt_secs (ft_class2 t) ^^ ", first block " ^^ fmt_secs (ft_block t) ^^ ", first rate limit " ^^
               fmt_secs (ft_ratelimit t)]
  | None => []
  end.

Definition traffic_line (t : option Traffic) : line :=
  match t with
  | None => "  Traffic: no capture status samples in this phase window"
  | Some (PcapTraffic captured forwarded dropped unparseable non_ip truncated timeouts pps egress) =>
      "  Traffic (pcap): " ^^ pretty captured ^^ " captured (" ^^ fmt (comma 0) pps ^^ " pps)" ^^
      (match egress with Some n => " (" ^^ pretty n ^^ " more on the egress interface)" | None => EmptyString end) ^^ ", " ^^
      pretty forwarded ^^ " forwarded, " ^^ pretty dropped ^^ " dropped (" ^^ pretty unparseable ^^ " unparseable, " ^^
      pretty non_ip ^^ " non-IP, " ^^ pretty truncated ^^ " truncated), " ^^ pretty timeouts ^^ " read timeouts"
  | Some (KernelTraffic captured egress errors drains pps) =>
      "  Traffic (kernel): " ^^ pretty captured ^^ " ingress packets (" ^^ fmt (comma 0) pps ^^ " pps), " ^^ pretty egress ^^
      " egress packets, " ^^ pretty errors ^^ " map drain errors across " ^^ pretty drains ^^ " drains"
  end.

(** An empty dictionary: no counter had two samples. *)
Definition no_network (n : NetworkMetrics) : bool :=
  forallb (λ v, bool_decide (v = None))
    [nw_ingress_pps n; nw_ingress_mbps n; nw_rx_dropped n; nw_rx_errors n; nw_egress_stall_pct n; nw_egress_pps n;
     nw_egress_mbps n].

Definition network_lines (m : PhaseReport) : list line :=
  match pr_system m with
  | None => []
  | Some s =>
      let n := sy_network s in
      line_if (negb (no_network n))
        ["  Interface: ingress " ^^ fmt (comma 0) (nw_ingress_pps n) ^^ " pps / " ^^ fmt (dot 1) (nw_ingress_mbps n) ^^
         " Mbit/s, egress " ^^ fmt (comma 0) (nw_egress_pps n) ^^ " pps / " ^^ fmt (dot 1) (nw_egress_mbps n) ^^
         " Mbit/s, NIC rx drops " ^^ fmt (dot 0) (nw_rx_dropped n) ^^ ", rx errors " ^^ fmt (dot 0) (nw_rx_errors n)]
  end.

Definition stall_of (m : PhaseReport) : num := default (NInt 0) (s ← pr_system m; nw_egress_stall_pct (sy_network s)).
Definition has_legitimate (m : PhaseReport) : bool :=
  existsb (λ cls, bool_decide (cls ∈ (pr_variants m).*1)) ["normal"; "flashcrowd"].
Definition stall_warning (m : PhaseReport) : list line :=
  line_if (has_legitimate m && nlt (NInt 20) (stall_of m))
    ["  WARNING: " ^^ dot 0 (stall_of m) ^^ "% of the sample intervals had incoming traffic and no egress traffic. " ^^
     "The gateway was probably not forwarding, so this phase may not reflect the system."].

Definition firewall_lines (m : PhaseReport) : list line :=
  match pr_firewall m with
  | Some f => ["  Firewall drops (DROP rules on the ddos ipsets): " ^^ pretty (fd_total f) ^^ " packets (" ^^
               fmt (comma 1) (fd_pps f) ^^ " pps)"]
  | None => []
  end.

Definition health_line (label : string) (summary : option ProcessMetrics) : line :=
  match summary with
  | None => "  " ^^ label ^^ " system health: no samples in this phase window"
  | Some (Restarted pids) =>
      "  " ^^ label ^^ " system health: process restarted during this phase (pids " ^^ join ", " pids ^^ "), figures skipped"
  | Some (Steady cpu rss ctxt) =>
      "  " ^^ label ^^ " system health: " ^^ fmt (dot 1) cpu ^^ "% CPU, RSS avg " ^^ fmt (dot 1) (fst <$> rss) ^^ " MB / peak " ^^
      fmt (dot 1) (snd <$> rss) ^^ " MB, " ^^ fmt (comma 0) (fst <$> ctxt) ^^ " context switches/s (" ^^
      fmt (comma 0) (snd <$> ctxt) ^^ " involuntary)"
  end.

Definition health_lines (m : PhaseReport) : list line :=
  match pr_system m with
  | None => []
  | Some s =>
      [health_line "Stage 1" (sy_stage1 s); health_line "Stage 2" (sy_stage2 s)] ++
      match sy_cpu s with
      | Some c => ["  System CPU: " ^^ dot 1 (cpu_busy c) ^^ "% busy, " ^^ dot 1 (cpu_kernel c) ^^ "% in the kernel, " ^^
                   dot 1 (cpu_softirq c) ^^ "% in softirq, " ^^ fmt (comma 0) (sy_ctxt_per_sec s) ^^ " context switches/s"]
      | None => []
      end
  end.

Definition latency_part (l : string * LatencySummary) : string :=
  let '(n, mean, p95, top) := l.2 in
  l.1 ^^ " " ^^ dot 2 mean ^^ " ms mean / " ^^ dot 2 p95 ^^ " p95 / " ^^ dot 2 top ^^ " max (n=" ^^ pretty n ^^ ")".
Definition latency_report (m : PhaseReport) : line :=
  match pr_latency m with
  | [] => "  Stage 2 latency: no Latency summary lines (Stage 2 predates the latency log, or no windows arrived)"
  | l => "  Stage 2 latency: " ^^ join "; " (latency_part <$> l)
  end.

Definition phase_lines (p : string * PhaseReport) : list line :=
  let m := p.2 in
  ["--- Phase: " ^^ p.1 ^^ " (" ^^ pr_start m ^^ " to " ^^ pr_end m ^^ ", " ^^ dot 0 (pr_duration m) ^^ "s) ---"] ++
  (match pr_variants m with [] => [] | vs => ["  Traffic: " ^^ join ", " (variant_text <$> vs)] end) ++
  (match pr_signals m with Some s => [signals_line s] | None => [] end) ++
  detection_lines m ++ [traffic_line (pr_traffic m)] ++ network_lines m ++ stall_warning m ++ firewall_lines m ++
  health_lines m ++ [latency_report m; EmptyString].

(** ** One run *)

Definition source_parts (info : list (string * string)) : list string :=
  omap (λ lk, (λ v, lk.1 ^^ " " ^^ v) <$> get_or lk.2 info)
    [("attack", "attack_sources"); ("normal", "normal_sources"); ("flash crowd", "flashcrowd_sources")].

Definition info_lines (info : list (string * string)) : list line :=
  match info with
  | [] => []
  | _ =>
      ["Warm-up: " ^^ (if is_one "warmed" info then "complete" else "not confirmed") ^^ " after ~" ^^
       get "warmup_secs" info "?" ^^ "s"] ++
      (match source_parts info with [] => [] | ps => ["Source addresses: " ^^ join ", " ps] end) ++
      omap (λ lk, (λ v, lk.1 ^^ " variants in rotation: " ^^ v) <$> get_or lk.2 info)
        [("Normal", "normal_variants"); ("Flash Crowd", "flashcrowd_variants"); ("Attack", "attack_variants")]
  end.

Definition print_run_report (r : RunReport) : list line :=
  ["=== Run report: " ^^ rr_mode r ^^ " backend, run " ^^ rr_run r ^^ " ==="] ++
  (match rr_phases r with p :: _ => ["Session start: " ^^ pr_start p.2 ^^ " (UTC)"] | [] => [] end) ++
  info_lines (rr_info r) ++ [EmptyString] ++ mjoin (phase_lines <$> rr_phases r) ++ print_switch r.

(** [max(rss) / 1024] over the samples that have one; a field that is no
    integer raises. *)
Definition stage_health (samples : list drow) (label prefix : string) : res (list line) :=
  let values field := List.filter (λ v, negb (bool_decide (v = EmptyString))) (field_text (prefix ^^ field) <$> samples) in
  let pids := py_set (values "_pid") in
  match pids with
  | [] => Ok ["  " ^^ label ^^ ": never sampled (service not running, or unit name mismatch)"]
  | _ =>
      rss ← ints (values "_rss_kb");
      peak ← match rss with
             | [] => Ok []
             | x :: l => mb ← ndiv (NInt (max_Z x l)) (NInt 1024);
                         Ok ["  " ^^ label ^^ ": peak RSS " ^^ dot 1 mb ^^ " MB, " ^^ pretty (Z.of_nat (length samples)) ^^
                             " samples over the run"]
             end;
      Ok (line_if (1 <? length pids)%nat
            ["  " ^^ label ^^ ": restarted during the run (pids " ^^ join ", " (py_sort String.ltb pids) ^^ ")"] ++ peak)
  end.

Definition system_health_whole_run (r : RunReport) : res (list line) :=
  let head := "--- System health, whole run (" ^^ rr_mode r ^^ ") ---" in
  match rr_system_samples r with
  | [] => Ok [head; "  No system_samples.csv found; the sampler was not reached."]
  | samples =>
      s1 ← stage_health samples "Stage 1" "stage1"; s2 ← stage_health samples "Stage 2" "stage2";
      Ok (head :: s1 ++ s2)
  end.

(** [re.findall("Number of entries: (\d+)")] *)
Definition ENTRIES_RE : list tok := [TLit "Number of entries: "; group c_digit].
Fixpoint entries_in (fuel : nat) (s : string) : list string :=
  match fuel with
  | O => []
  | S fuel' =>
      match re_search_rest ENTRIES_RE s with
      | Some ([n], rest) => n :: entries_in fuel' rest
      | _ => []
      end
  end.

Definition print_firewall_state (run_name : string) (firewall : option string) : list line :=
  match firewall with
  | None => []
  | Some text =>
      ["--- Final firewall state (" ^^ run_name ^^ ") ---"] ++
      match entries_in (S (String.length text)) text with
      | blocked :: limited :: _ => ["  Blocked (hard): " ^^ blocked; "  Rate-limited:   " ^^ limited]
      | _ => [text]
      end
  end.

(** ** The comparison of backends *)

(** The formats of the comparison table, in its order. *)
Definition COMPARISON_SPECS : list spec :=
  [comma 0; dot 1; comma 0; comma 0; comma 0; comma 1; dot 1; dot 1; dot 1; dot 1; comma 0; comma 0; comma 0; dot 1; dot 1;
   dot 2; dot 2; dot 2; dot 1; dot 1; dot 1; dot 1; dot 1; dot 1; dot 3; dot 3; dot 1].

Definition header (modes : list string) : string := concat_cells (right 14 <$> modes).

(** The Greek letter takes two bytes. *)
Definition delta_header (modes : list string) : string :=
  match modes with [a; b] => right 27 ("Δ " ^^ b ^^ " vs " ^^ a) | _ => EmptyString end.
Definition delta_cell (two : bool) (d : option num) : string :=
  match d with
  | Some q => right 25 (fmt_signed q 1) ^^ "%"
  | None => note_if two (right 26 "n/a")
  end.

Fixpoint map_lines {A} (f : A → res (list line)) (l : list A) : res (list line) :=
  match l with [] => Ok [] | x :: l' => a ← f x; b ← map_lines f l'; Ok (a ++ b) end.

Section comparison.
Context (py_sum : list num → num) (modes : list string) (groups : list (list RunReport)).

Definition two_modes : bool := match modes with [_; _] => true | _ => false end.

Definition comparison_line (f : spec) (row : string * list (option num)) : res line :=
  d ← (if two_modes then delta_pct row.2 else Ok None);
  Ok ("  " ^^ left 22 row.1 ^^ concat_cells ((λ v, right 14 (fmt f v)) <$> row.2) ^^ delta_cell two_modes d).

Definition metric_table (phases : list string) (m : (string * (PhaseReport → option num)) * spec) : res (list line) :=
  rows ← comparison_rows py_sum groups phases m.1.2;
  match rows with
  | [] => Ok []
  | _ =>
      lines ← map_res (comparison_line m.2) rows;
      Ok ([m.1.1; "  " ^^ left 22 "phase" ^^ header modes ^^ delta_header modes] ++ lines ++ [EmptyString])
  end.

(** *** Calibrations *)

Definition calibrated (runs : list RunReport) : list CalReport := omap rr_calibration runs.

Definition avg (values : list (option num)) : res (option num) :=
  match omap (λ v, v) values with
  | [] => Ok None
  | vs => q ← ndiv (py_sum vs) (NInt (Z.of_nat (length vs))); Ok (Some q)
  end.

Inductive cal_cell := Text (s : option string) | Figure (f : spec) (v : option num).
Definition shown_cell (c : cal_cell) : string :=
  match c with Text s => default "n/a" s | Figure f v => fmt f v end.

(** [float(d[k])] *)
Definition float_of (s : string) : res (option num) := x ← parse_float s; Ok (Some x).

Definition CALIBRATION_ROWS : list (string * (list CalReport → res cal_cell)) :=
  [("Outcome (last run)", λ cals, Ok (Text (c ← last cals; dict_get "status" (cr_info c))));
   ("Recommended rate floor (pps)", λ cals, v ← avg (cr_rate_floor <$> cals); Ok (Figure (dot 1) v));
   ("Recommended entropy floor", λ cals, v ← avg (cr_entropy_floor <$> cals); Ok (Figure (dot 4) v));
   ("Mean rate per target (pps)", λ cals, v ← avg (cr_mean_pps <$> cals); Ok (Figure (dot 1) v));
   ("Calibration time (s)", λ cals,
      vs ← map_res (λ c, float_of (get "duration_secs" (cr_info c) "nan")) cals; v ← avg vs; Ok (Figure (dot 0) v));
   ("Restart to apply floors (s)", λ cals,
      vs ← map_res float_of (omap (λ c, get_or "downtime_to_first_status_secs" (cr_apply c)) cals);
      v ← avg vs; Ok (Figure (dot 1) v))].

Definition calibration_row (row : string * (list CalReport → res cal_cell)) : res (list line) :=
  cells ← map_res (λ runs, match calibrated runs with [] => Ok "n/a" | cals => c ← row.2 cals; Ok (shown_cell c) end) groups;
  Ok ["  " ^^ left 40 row.1 ^^ concat_cells (right 14 <$> cells)].

Definition num_abs (n : num) : num := if nlt n (NInt 0) then nsub (NInt 0) n else n.
(** By how many percent the rate floors of two backends differ, when by more
    than ten. *)
Definition floors_differ (a b : option num) : res (option num) :=
  match a, b with
  | Some a, Some b =>
      if is_zero a || is_zero b then Ok None
      else
        q ← ndiv (num_abs (nsub b a)) a;
        if nlt (flt 1 10) q then p ← ndiv (nmul (flt 100 1) (nsub b a)) a; Ok (Some p) else Ok None
  | _, _ => Ok None
  end.

Definition floor_note : res (list line) :=
  match groups with
  | [first; second] =>
      a ← avg (cr_rate_floor <$> calibrated first); b ← avg (cr_rate_floor <$> calibrated second);
      d ← floors_differ a b;
      match d with
      | Some p =>
          Ok ["  The rate floors differ by " ^^ fmt_signed p 0 ^^ "% between the backends. With CALIBRATE=apply each";
              "  backend then ran its phases under its own thresholds, which is part of any difference in the";
              "  detection figures below."]
      | None => Ok []
      end
  | _ => Ok []
  end.

Definition print_calibration_comparison : res (list line) :=
  if forallb (λ runs, match calibrated runs with [] => true | _ => false end) groups then Ok []
  else
    rows ← map_lines calibration_row CALIBRATION_ROWS;
    note ← floor_note;
    Ok (["--- Calibration by backend ---"; "  " ^^ left 40 "" ^^ header modes] ++ rows ++ note ++ [EmptyString]).

(** *** Attack types *)

Definition attack_types (phases : list string) : list string :=
  foldl (λ types phase, match (phase_info phase).2 with
                        | Some (String _ _ as t) => add_new types t
                        | _ => types
                        end) [] phases.

Definition first_block (m : PhaseReport) : option num := f ← pr_first m; ft_block f.
Definition entropy_pct (m : PhaseReport) : option num := an_entropy_pct <$> pr_signals m.
Definition entropy_mean (m : PhaseReport) : option num := an_mean_entropy <$> pr_signals m.
Definition verdicts (m : PhaseReport) : option num := Some (float_count (pr_class2 m)).

Definition ATTACK_ROWS : list (string * string * (PhaseReport → option num) * spec) :=
  [("alone: DDoS verdicts", "attacker_", verdicts, comma 0);
   ("alone: time to first block (s)", "attacker_", first_block, dot 1);
   ("alone: entropy involved (%)", "attacker_", entropy_pct, dot 1);
   ("alone: mean entropy", "attacker_", entropy_mean, dot 3);
   ("with Normal: DDoS verdicts", "normal_attacker_", verdicts, comma 0);
   ("with Normal: detection consistency (%)", "normal_attacker_", pr_consistency, dot 1);
   ("with Normal: entropy involved (%)", "normal_attacker_", entropy_pct, dot 1);
   ("with Normal: mean entropy", "normal_attacker_", entropy_mean, dot 3)].

Definition attack_row (attack_type : string) (row : string * string * (PhaseReport → option num) * spec) : res (list line) :=
  let '(label, prefix, getter, f) := row in
  values ← means_of py_sum groups (prefix ^^ attack_type) getter;
  Ok (line_if (negb (forallb (λ v, bool_decide (v = None)) values))
        ["    " ^^ left 42 label ^^ concat_cells ((λ v, right 14 (fmt f v)) <$> values)]).

Definition attack_block (attack_type : string) : res (list line) :=
  rows ← map_lines (attack_row attack_type) ATTACK_ROWS;
  Ok (["  " ^^ attack_type ^^ (match get_or attack_type (attack_type_descriptions (mjoin groups)) with
                               | Some d => ": " ^^ d
                               | None => EmptyString
                               end);
       "    " ^^ left 42 "" ^^ header modes] ++ rows).

Definition print_attack_types (phases : list string) : res (list line) :=
  match attack_types phases with
  | [] => Ok []
  | types =>
      blocks ← map_lines attack_block types;
      Ok (["--- Attack types ---";
           "  Each type runs alone, then with Normal traffic added. Entropy figures cover the anomaly";
           "  windows Stage 1 forwarded. The share of source addresses an attack uses decides how far its";
           "  entropy sits from Normal and Flash Crowd traffic."] ++ blocks ++ [EmptyString])
  end.

(** *** Agreement *)

Definition agreement_row (first second : list RunReport) (phase : string) : res (list line) :=
  v1 ← mean_over_runs py_sum first phase (λ m, Ok (Some (float_count (pr_class2 m))));
  v2 ← mean_over_runs py_sum second phase (λ m, Ok (Some (float_count (pr_class2 m))));
  a1 ← mean_over_runs py_sum first phase (λ m, Ok (Some (float_count (pr_actions m))));
  a2 ← mean_over_runs py_sum second phase (λ m, Ok (Some (float_count (pr_actions m))));
  match v1, v2 with
  | Some _, Some _ =>
      let word yes b := right 9 (if (b : bool) then yes else "quiet") in
      let differ := negb (Bool.eqb (acted a1) (acted a2)) || negb (Bool.eqb (acted v1) (acted v2)) in
      Ok ["  " ^^ left 28 phase ^^ right 9 (if (phase_info phase).1.1.2 then "attack" else "clean") ^^ "  " ^^
          word "verdict" (acted v1) ^^ word "verdict" (acted v2) ^^ "  " ^^
          word "acted" (acted a1) ^^ word "acted" (acted a2) ^^ note_if differ " NO"]
  | _, _ => Ok []
  end.

Definition totals_line (first second label : string) (total : Z) (t : Z * Z * Z) : line :=
  "  " ^^ label ^^ ": the backends agree on " ^^ pretty t.1.1 ^^ " of " ^^ pretty total ^^ " phases; " ^^ first ^^
  " matches the expected outcome in " ^^ pretty t.1.2 ^^ ", " ^^ second ^^ " in " ^^ pretty t.2 ^^ ".".

Definition print_agreement (phases : list string) : res (list line) :=
  match modes, groups with
  | first :: second :: _, g1 :: g2 :: _ =>
      rows ← map_lines (agreement_row g1 g2) phases;
      a ← agreement py_sum g1 g2 phases (mkAgreement 0 (0, 0, 0)%Z (0, 0, 0)%Z);
      Ok (["--- Detection agreement between " ^^ first ^^ " and " ^^ second ^^ " ---";
           "  " ^^ left 28 "phase" ^^ right 9 "expected" ^^ "  " ^^ left 20 "DDoS verdict" ^^ left 22 "enforcement action";
           "  " ^^ left 28 "" ^^ right 9 "" ^^ "  " ^^ right 9 first ^^ right 9 second ^^ "  " ^^ right 9 first ^^ right 9 second] ++
          rows ++
          line_if (negb (ag_total a =? 0)%Z)
            [totals_line first second "DDoS verdict" (ag_total a) (ag_verdict a);
             totals_line first second "enforcement action" (ag_total a) (ag_action a)] ++
          ["  A phase is expected to act only when it holds an attack. A DDoS verdict in a clean phase is a";
           "  false positive. An action there needs reading: rate limits on the sources of a concentrated Flash";
           "  Crowd are a designed, reversible precaution, and a phase with no traffic at all (a generator that";
           "  failed) counts as a miss."; EmptyString])
  | _, _ => Ok []
  end.

(** *** Spread and switches *)

Definition SPREAD_CHECKS : list (string * (PhaseReport → option num) * spec) :=
  [("DDoS verdicts", verdicts, dot 1); ("time to first block (s)", first_block, dot 2);
   ("captured packets/s", (λ m, t ← pr_traffic m; traffic_pps t), comma 0); ("consistency (%)", pr_consistency, dot 1)].

Definition spread_cells (runs : list RunReport) (phases : list string) (getter : PhaseReport → option num) (f : spec)
    : res (list string) :=
  cells ← map_res (λ phase, res_map (fmap (λ x, phase ^^ " " ^^ f x)) (spread_over_runs runs phase (λ m, Ok (getter m)))) phases;
  Ok (omap (λ c : option string, c) (cells : list (option string)) : list string).

Definition spread_lines (runs : list RunReport) (phases : list string) (c : string * (PhaseReport → option num) * spec)
    : res (list line) :=
  cells ← spread_cells runs phases c.1.2 c.2;
  Ok (match cells with [] => [] | _ => ["    " ^^ c.1.1 ^^ ": " ^^ join ", " cells] end).

Definition repeated : list (string * list RunReport) :=
  List.filter (λ mr, (1 <? length mr.2)%nat) (zip modes groups).

Definition print_run_to_run (phases : list string) : res (list line) :=
  match repeated with
  | [] => Ok []
  | rep =>
      blocks ← map_lines (λ mr, ls ← map_lines (spread_lines mr.2 phases) SPREAD_CHECKS; Ok (("  " ^^ mr.1 ^^ ":") :: ls)) rep;
      Ok (["--- Run-to-run spread (standard deviation across repeated runs) ---";
           "  Traffic variants rotate between runs by design, so this spread includes the effect of the";
           "  different variants as well as ordinary variation between identical runs."] ++ blocks ++ [EmptyString])
  end.

Definition switch_line (r : RunReport) : list line :=
  match rr_switch r with
  | [] => []
  | switch =>
      ["  Switch to " ^^ rr_mode r ^^ " (run " ^^ rr_run r ^^ "): capture attached after " ^^
       get "downtime_to_attach_secs" switch "n/a" ^^ "s, first status line after " ^^
       get "downtime_to_first_status_secs" switch "n/a" ^^ "s; warm-up to a working baseline " ^^
       get "warmup_secs" (rr_info r) "n/a" ^^ "s (" ^^ (if is_one "warmed" (rr_info r) then "confirmed" else "not confirmed") ^^
       ")"]
  end.
Definition print_switching (results : list RunReport) : list line :=
  ["--- Downtime, warm-up, and rollback ---"] ++ mjoin (switch_line <$> results) ++ [EmptyString].
End comparison.

Definition backends_line (d : list (string * list RunReport)) : line :=
  "Backends: " ^^ join ", " ((λ mr, mr.1 ^^ " (" ^^ pretty (Z.of_nat (length mr.2)) ^^ " run(s))") <$> d) ^^
  ". Figures are per phase, averaged over runs of the same backend.".

Definition print_comparison (py_sum : list num → num) (results : list RunReport) : res (list line) :=
  let d := by_mode results in
  let modes := d.*1 in let groups := d.*2 in let phases := all_phases results in
  tables ← map_lines (metric_table py_sum modes groups phases) (zip COMPARISON_METRICS COMPARISON_SPECS);
  calibration ← print_calibration_comparison py_sum modes groups;
  attacks ← print_attack_types py_sum modes groups phases;
  agree ← print_agreement py_sum modes groups phases;
  spread ← print_run_to_run modes groups phases;
  Ok (["=== Backend comparison ==="; backends_line d] ++
      line_if (length modes <? 2)%nat ["Only one backend ran, so there is nothing to compare."; EmptyString] ++ [EmptyString] ++
      tables ++ calibration ++ attacks ++ agree ++ spread ++ print_switching results).

(** ** A session *)

(** What is read of a run directory: its files and its firewall.log. *)
Definition RunDir : Type := RunFiles * option string.

(** A directory: its own files, its entries (with their files when they are
    directories), and the files a rollback leaves. *)
Record SessionDir := mkSession {
  dr_name : string; dr_files : RunDir; dr_entries : list (string * option RunDir);
  dr_rollback : option string; dr_rollback_verify : option string;
  dr_emergency : option string; dr_emergency_verify : option string }.

Definition has_boundaries (f : RunDir) : bool := match rf_boundaries f.1 with Some _ => true | None => false end.
Definition entry_lt (a b : string * option RunDir) : bool := String.ltb a.1 b.1.

Definition find_runs (d : SessionDir) : list (string * RunDir) :=
  if has_boundaries (dr_files d) then [(dr_name d, dr_files d)]
  else omap (λ e, match e.2 with
                  | Some f => if has_boundaries f then Some (e.1, f) else None
                  | None => None
                  end) (py_sort entry_lt (dr_entries d)).

Definition rollback_lines (emergency : bool) (switch verify : option string) : list line :=
  let values := load_key_values switch in
  ["--- Rollback to the original configuration ---"] ++
  line_if emergency ["  The benchmark was interrupted; this is the emergency rollback."] ++
  ["  tuning.env restore: " ^^ get "tuning_restore" values "n/a";
   "  Rollback time until capture attached: " ^^ get "downtime_to_attach_secs" values "n/a" ^^ "s";
   first_status_line "  Rollback time until the first capture status line: " values;
   "  Baselines restored from the production file: " ^^ get "baselines_restored" values "n/a"] ++
  mjoin (check_line <$> load_checks verify) ++ [EmptyString].

Definition print_rollback (d : SessionDir) : list line :=
  match dr_rollback d, dr_emergency d with
  | Some s, _ => rollback_lines false (Some s) (dr_rollback_verify d)
  | None, Some s => rollback_lines true (Some s) (dr_emergency_verify d)
  | None, None => []
  end.

(** What goes into results.json: everything but the samples. *)
Definition json_safe (r : RunReport) : RunReport :=
  mkRunReport (rr_mode r) (rr_run r) (rr_info r) (rr_switch r) (rr_verify r) (rr_calibration r) (rr_phases r)
    (rr_variants r) [].

Definition NOTE : list line :=
  ["Note: these counts are not a like-for-like comparison against";
   "scripts/benchmark_fixed_threshold.py's own numbers. That script scores";
   "every post-warmup CSV row; this report only sees windows Stage 1 chose";
   "to forward to Stage 2 (anomaly-or-heartbeat), a narrower view of the";
   "same system with a different denominator.";
   "Attack phases after the first inherit blocks from the earlier ones, since a";
   "block lasts an hour, so their time to first block reads shorter than a cold start.";
   "Process CPU excludes work the kernel does on the process's behalf in softirq";
   "context, which is why the system-wide figures are listed beside it."].

Section analyze.
Context (py_sum : list num → num).

Definition run_lines (run : string * RunDir) (r : RunReport) : res (list line) :=
  health ← system_health_whole_run r;
  Ok (print_run_report r ++ print_calibration r ++ health ++ print_firewall_state run.1 run.2.2 ++ [EmptyString]).

Record Analysis := mkAnalysis { an_lines : list line; an_results : option (list RunReport) }.

Definition analyze (d : SessionDir) : res Analysis :=
  match find_runs d with
  | [] => Exn (SystemExit 1)
  | runs =>
      results ← map_res (λ run, analyze_run py_sum run.2.1) runs;
      reports ← map_res (λ p, run_lines p.1 p.2) (zip runs results);
      comparison ← (if (1 <? length results)%nat || match dr_rollback d with Some _ => true | None => false end
                    then print_comparison py_sum results else Ok []);
      let session := negb (has_boundaries (dr_files d)) in
      Ok (mkAnalysis (["=== FLOD Live Benchmark Report ==="; EmptyString] ++ mjoin reports ++ comparison ++
                      line_if session (print_rollback d) ++ NOTE)
                     (if session then Some (json_safe <$> results) else None))
  end.
End analyze.
