(* ===== verification/BenchReportFacts.v ===== *)
(** * Properties of the benchmark report

    Every run is compared once, under its own backend; the figures below the
    agreement table are those of its rows; a session reports every run
    directory, in the order of their names. *)

From S2P Require Import Prelude PyNum PyStat PyStr BenchTime BenchData BenchRun BenchFacts BenchReport.

(** ** Grouping by backend *)

Definition of_mode (m : string) (runs : list RunReport) : Prop := runs ≠ [] ∧ Forall (λ r, rr_mode r = m) runs.
Definition grouped (d : list (string * list RunReport)) (results : list RunReport) : Prop :=
  NoDup d.*1 ∧ Forall (λ mr, of_mode mr.1 mr.2) d ∧ mjoin d.*2 ≡ₚ results.

Lemma dict_set_join {V} k (v : list V) (d : list (string * list V)) :
  NoDup d.*1 → mjoin (dict_set k v d).*2 ++ default [] (dict_get k d) ≡ₚ v ++ mjoin d.*2.
Proof.
  induction d as [|[k' v'] d IH]; simpl; [by rewrite !app_nil_r|].
  intros [Hk Hd]%NoDup_cons. case_decide as Hkk; simpl.
  - subst. rewrite <-app_assoc. apply Permutation_app_head, Permutation_app_comm.
  - rewrite <-app_assoc, (IH Hd), !app_assoc. apply Permutation_app_tail, Permutation_app_comm.
Qed.

Lemma grouped_add d results r :
  grouped d results →
  grouped (dict_set (rr_mode r) (default [] (dict_get (rr_mode r) d) ++ [r]) d) (results ++ [r]).
Proof.
  intros (Hk & Hm & Hp). split; [by apply dict_set_NoDup|]. split.
  - assert (Ho : of_mode (rr_mode r) (default [] (dict_get (rr_mode r) d) ++ [r])).
    { split; [by intros [_ [=]]%app_nil|]. apply Forall_app. split; [|by apply Forall_singleton].
      destruct (dict_get (rr_mode r) d) as [l|] eqn:E; [|by apply Forall_nil].
      apply dict_get_elem in E. by destruct (proj1 (Forall_forall _ _) Hm _ E). }
    revert Hm Ho. clear. generalize (default [] (dict_get (rr_mode r) d) ++ [r]). intros v Hm Ho.
    induction d as [|[k' v'] d IH]; cbn [dict_set]; [by apply Forall_singleton|]. apply Forall_cons in Hm as [Hx Hm].
    case_decide; [subst; by apply Forall_cons|]. apply Forall_cons. split; [done|by apply IH].
  - pose proof (dict_set_join (rr_mode r) (default [] (dict_get (rr_mode r) d) ++ [r]) d Hk) as Hj.
    apply (Permutation_app_inv_r (default [] (dict_get (rr_mode r) d))). rewrite Hj, Hp.
    rewrite <-(app_assoc _ [r] results). etransitivity; [apply Permutation_app_comm|].
    apply Permutation_app_tail, Permutation_app_comm.
Qed.

Theorem runs_compared_once results : grouped (by_mode results) results.
Proof.
  unfold by_mode.
  assert (H : ∀ l d done, grouped d done →
    grouped (foldl (λ d r, dict_set (rr_mode r) (default [] (dict_get (rr_mode r) d) ++ [r]) d) d l) (done ++ l)).
  { induction l as [|r l IH]; intros d done Hg; cbn [foldl]; [by rewrite app_nil_r|].
    replace (done ++ r :: l) with ((done ++ [r]) ++ l) by by rewrite <-app_assoc. by apply IH, grouped_add. }
  apply (H results [] []). split; [by apply NoDup_nil|]. split; [by apply Forall_nil|done].
Qed.

(** ** Agreement *)

(** What a column of the totals is made of: the phases both backends got as
    expected, and the rest. *)
Definition consistent (total : Z) (t : Z * Z * Z) : Prop :=
  ∃ both, (0 <= both <= t.1.2)%Z ∧ (both <= t.2)%Z ∧ (t.1.2 + t.2 - both <= total)%Z ∧
          t.1.1 = (total - t.1.2 - t.2 + 2 * both)%Z.

Lemma consistent_tally total t hit1 hit2 expected :
  consistent total t → consistent (total + 1) (tally hit1 hit2 expected t).
Proof.
  intros (both & H1 & H2 & H3 & H4). destruct t as [[agree ok1] ok2]. cbn [fst snd] in *.
  exists (if Bool.eqb hit1 expected && Bool.eqb hit2 expected then both + 1 else both)%Z.
  unfold tally. cbn [fst snd]. destruct hit1, hit2, expected; cbn; lia.
Qed.

Section agreement.
Context (py_sum : list num → num) (first second : list RunReport).

Lemma agreement_from phases a b rows :
  agreement py_sum first second phases a = Ok b →
  map_lines (agreement_row py_sum first second) phases = Ok rows →
  consistent (ag_total a) (ag_verdict a) → consistent (ag_total a) (ag_action a) →
  ag_total b = (ag_total a + Z.of_nat (length rows))%Z ∧
  consistent (ag_total b) (ag_verdict b) ∧ consistent (ag_total b) (ag_action b).
Proof.
  revert a rows. induction phases as [|phase phases IH]; intros a rows; cbn [agreement map_lines].
  { intros [= <-] [= <-] Hv Ha. cbn. split_and!; [lia|done|done]. }
  destruct (map_lines _ phases) as [rest|] eqn:Hrest; [|by intros _; destruct (agreement_row _ _ _ _)].
  unfold agreement_row.
  destruct (mean_over_runs py_sum first phase (λ m, Ok (Some (float_count (pr_class2 m))))) as [v1|]; [|done].
  destruct (mean_over_runs py_sum second phase (λ m, Ok (Some (float_count (pr_class2 m))))) as [v2|]; [|done].
  destruct (mean_over_runs py_sum first phase (λ m, Ok (Some (float_count (pr_actions m))))) as [a1|]; [|done].
  destruct (mean_over_runs py_sum second phase (λ m, Ok (Some (float_count (pr_actions m))))) as [a2|]; [|done].
  cbn [mbind res_bind].
  destruct v1 as [v1|], v2 as [v2|]; cbn [mbind res_bind]; intros Hb [= <-] Hv Ha;
    try exact (IH _ _ Hb eq_refl Hv Ha).
  destruct (IH _ _ Hb eq_refl) as (Ht & Hv' & Ha'); [by apply consistent_tally|by apply consistent_tally|].
  split; [|done]. rewrite Ht. cbn [ag_total app length]. lia.
Qed.

(** The totals under the table count its rows, and agree with each other: the
    backends agree on the phases that both or neither got as expected. *)
Theorem agreement_consistent phases a rows :
  agreement py_sum first second phases (mkAgreement 0 (0, 0, 0)%Z (0, 0, 0)%Z) = Ok a →
  map_lines (agreement_row py_sum first second) phases = Ok rows →
  ag_total a = Z.of_nat (length rows) ∧ consistent (ag_total a) (ag_verdict a) ∧ consistent (ag_total a) (ag_action a).
Proof. intros Ha Hr. apply (agreement_from phases _ _ _ Ha Hr); by exists 0%Z. Qed.
End agreement.

(** ** A session *)

Section session.
Context (py_sum : list num → num).

Lemma map_res_ok {A B} (f : A → res B) l l' : map_res f l = Ok l' → Forall2 (λ x y, f x = Ok y) l l'.
Proof.
  revert l'. induction l as [|x l IH]; intros l'; cbn [map_res]; [by intros [= <-]|].
  destruct (f x) as [y|] eqn:Hx; [|done]. cbn [mbind res_bind]. destruct (map_res f l) as [ys|]; [|done].
  intros [= <-]. constructor; [done|by apply IH].
Qed.

(** The directories of a session that hold a run. *)
Lemma elem_of_find_runs d name f :
  has_boundaries (dr_files d) = false →
  (name, f) ∈ find_runs d ↔ (name, Some f) ∈ dr_entries d ∧ has_boundaries f = true.
Proof.
  intros Hd. unfold find_runs. rewrite Hd, list_elem_of_omap. split.
  - intros ([n o] & Hin & H). rewrite py_sort_perm in Hin. cbn [fst snd] in H. destruct o as [g|]; [|done].
    destruct (has_boundaries g) eqn:Hg; [|done]. by injection H as <- <-.
  - intros [Hin Hf]. exists (name, Some f). rewrite py_sort_perm. cbn [fst snd]. by rewrite Hf.
Qed.

(** Run directories come in the order of their names. *)
Lemma not_ltb_leb a b : String.ltb b a = false ↔ String.leb a b = true.
Proof. rewrite leb_not_ltb. by destruct (String.ltb b a). Qed.

Lemma StronglySorted_omap {A B} (R : A → A → Prop) (S : B → B → Prop) (f : A → option B) l :
  (∀ x y a b, f x = Some a → f y = Some b → R x y → S a b) → StronglySorted R l → StronglySorted S (omap f l).
Proof.
  intros HS. induction 1 as [|x l Hs IH Hx]; simpl; [constructor|]. destruct (f x) as [a|] eqn:Ha; [|done].
  constructor; [done|]. apply Forall_forall. intros b (y & Hy & Hb)%list_elem_of_omap.
  eapply HS; [done..|]. by eapply Forall_forall in Hx.
Qed.

Lemma find_runs_sorted d :
  has_boundaries (dr_files d) = false →
  StronglySorted (λ a b, String.ltb b.1 a.1 = false) (find_runs d).
Proof.
  intros Hd. unfold find_runs. rewrite Hd.
  assert (Hs : StronglySorted (py_le entry_lt) (py_sort entry_lt (dr_entries d))).
  { apply (py_sort_sorted entry_lt (λ _, True)); [..|by apply Forall_true].
    - intros x y _ _ H. by apply not_ltb_leb, ltb_leb.
    - intros x y z _ _ _ Hx%not_ltb_leb Hy%not_ltb_leb. apply not_ltb_leb. by eapply leb_trans. }
  refine (StronglySorted_omap _ _ _ _ _ Hs). intros [n o] [n' o'] a b. cbn [fst snd].
  destruct o as [f|], o' as [f'|]; try done. destruct (has_boundaries f), (has_boundaries f'); try done.
  by intros [= <-] [= <-].
Qed.

(** The report of a session is made from every run directory in it, in the
    order of their names, and results.json has their figures; without a run the
    script exits, and a directory that is a run itself gets no results.json. *)
Theorem session_covers_runs d a :
  analyze py_sum d = Ok a →
  find_runs d ≠ [] ∧
  if has_boundaries (dr_files d) then an_results a = None
  else ∃ results, an_results a = Some (json_safe <$> results) ∧
                  Forall2 (λ run r, analyze_run py_sum run.2.1 = Ok r) (find_runs d) results ∧
                  StronglySorted (λ a b, String.ltb b.1 a.1 = false) (find_runs d) ∧
                  ∀ name f, (name, Some f) ∈ dr_entries d → has_boundaries f = true →
                            ∃ r, analyze_run py_sum f.1 = Ok r ∧ json_safe r ∈ json_safe <$> results.
Proof.
  unfold analyze. destruct (find_runs d) as [|run runs] eqn:Hf; [done|]. cbv zeta.
  destruct (map_res (λ run, analyze_run py_sum run.2.1) (run :: runs)) as [results|] eqn:Hr; [|done]. cbn [mbind res_bind].
  destruct (map_res _ (zip _ results)); [|done]. cbn [mbind res_bind].
  match goal with |- context [if ?c then print_comparison _ _ else _] => destruct (if c then print_comparison py_sum results else Ok []) end;
    [|done]. cbn [mbind res_bind].
  intros [= <-]. split; [done|]. apply map_res_ok in Hr. cbn [an_results].
  destruct (has_boundaries (dr_files d)) eqn:Hd; [done|]. cbn [negb]. exists results. split; [done|]. split; [done|].
  split; [rewrite <- Hf; by apply find_runs_sorted|].
  intros name f Hin Hb. pose proof (proj2 (elem_of_find_runs d name f Hd) (conj Hin Hb)) as Hx.
  apply list_elem_of_lookup in Hx as [i Hi].
  rewrite Hf in Hi. destruct (Forall2_lookup_l _ _ _ _ _ Hr Hi) as (r & Hri & Ha). exists r. split; [exact Ha|].
  apply list_elem_of_fmap. exists r. split; [done|]. by eapply list_elem_of_lookup_2.
Qed.
End session.

(** ** A session of two backends *)

Definition tsv (l : list (list string)) : string :=
  foldr (λ r s, join (String (ascii_of_nat 9) EmptyString) r ^^ String newline s) EmptyString l.
Definition text_of (l : list string) : string := foldr (λ r s, r ^^ String newline s) EmptyString l.
Definition plain_sum (l : list num) : num := foldl nadd (NInt 0) l.

Definition demo_boundaries : string :=
  tsv [["normal"; "2026-02-28 10:00:00"]; ["attacker_syn"; "2026-02-28 10:01:00"]; ["session_end"; "2026-02-28 10:02:00"]]%string.
Definition no_files : RunFiles := mkRunFiles None None None None None None None None None None None None None.
Definition demo_run (mode : string) (log : list string) : RunDir :=
  (mkRunFiles (Some demo_boundaries) (Some "") (Some (text_of log)) (Some (text_of ["mode=" ^^ mode; "warmed=1"]))
     None None None None None None None None None, None)%string.
Definition detecting : RunDir := demo_run "pcap" ["Feb 28 10:01:07 gw stage2[1]: Class-2 window from 10.0.0.1"%string].
Definition blind : RunDir := demo_run "kernel" [].
Definition demo_session : SessionDir :=
  mkSession "session" (no_files, None) [("run_2", Some blind); ("run_1", Some detecting); ("notes", None)]%string
    None None None None.

Definition demo_analysis : Analysis :=
  match analyze plain_sum demo_session with Ok a => a | Exn _ => mkAnalysis [] None end.

Lemma session_covers_runs_witness :
  analyze plain_sum demo_session = Ok demo_analysis ∧
  find_runs demo_session ≠ [] ∧
  if has_boundaries (dr_files demo_session) then an_results demo_analysis = None
  else ∃ results, an_results demo_analysis = Some (json_safe <$> results) ∧
                  Forall2 (λ run r, analyze_run plain_sum run.2.1 = Ok r) (find_runs demo_session) results ∧
                  StronglySorted (λ a b, String.ltb b.1 a.1 = false) (find_runs demo_session) ∧
                  ∀ name f, (name, Some f) ∈ dr_entries demo_session → has_boundaries f = true →
                            ∃ r, analyze_run plain_sum f.1 = Ok r ∧ json_safe r ∈ json_safe <$> results.
Proof.
  assert (H : analyze plain_sum demo_session = Ok demo_analysis) by (vm_compute; reflexivity).
  split; [exact H|]. exact (session_covers_runs plain_sum demo_session demo_analysis H).
Defined.

(** The backends are compared in the order of the runs, and disagree on the
    attack only the first one named. *)
Example demo_disagreement :
  List.filter (str_contains "attacker_syn") (an_lines demo_analysis) =
  ["--- Phase: attacker_syn (2026-02-28 10:01:00 to 2026-02-28 10:02:00, 60s) ---";
   "--- Phase: attacker_syn (2026-02-28 10:01:00 to 2026-02-28 10:02:00, 60s) ---";
   "  attacker_syn                     7.0           n/a                       n/a";
   "  attacker_syn                    16.7           0.0                   -100.0%";
   "  attacker_syn                   attack    verdict    quiet      quiet    quiet NO"]%string.
Proof. vm_compute. reflexivity. Qed.

Lemma agreement_consistent_witness :
  match analyze_run plain_sum detecting.1, analyze_run plain_sum blind.1 with
  | Ok r1, Ok r2 =>
      match agreement plain_sum [r1] [r2] ["normal"; "attacker_syn"]%string (mkAgreement 0 (0, 0, 0)%Z (0, 0, 0)%Z),
            map_lines (agreement_row plain_sum [r1] [r2]) ["normal"; "attacker_syn"]%string with
      | Ok a, Ok rows => ag_total a = Z.of_nat (length rows) ∧ consistent (ag_total a) (ag_verdict a) ∧
                         consistent (ag_total a) (ag_action a)
      | _, _ => False
      end
  | _, _ => False
  end.
Proof.
  destruct (analyze_run plain_sum detecting.1) as [r1|] eqn:H1; [|vm_compute in H1; discriminate].
  destruct (analyze_run plain_sum blind.1) as [r2|] eqn:H2; [|vm_compute in H2; discriminate].
  destruct (agreement _ _ _ _ _) as [a|] eqn:Ha.
  2: { exfalso. vm_compute in H1, H2. injection H1 as <-. injection H2 as <-. vm_compute in Ha. discriminate. }
  destruct (map_lines _ _) as [rows|] eqn:Hr.
  2: { exfalso. vm_compute in H1, H2. injection H1 as <-. injection H2 as <-. vm_compute in Hr. discriminate. }
  exact (agreement_consistent plain_sum [r1] [r2] _ a rows Ha Hr).
Defined.
