(* ===== verification/CalibrateReport.v ===== *)
(** * scripts/calibrate.py: the printed report

    One line per target and the warnings below them. The benchmark reads these
    lines back, which [CalibrateReportFacts] proves. *)

From stdpp Require Import pretty.
From S2P Require Import Prelude PyNum PyStat PyStr Regex PyTime PyPrint Calibrate.

#[local] Open Scope string_scope.
#[local] Open Scope list_scope.

(** ["%<w>.<d>f"] *)
Definition float_cell (w d : nat) (x : num) : string := right w (fmt_fixed x d).

Definition row_line (r : string * Floors) : string :=
  let '(ip, d) := r in
  left 18 ip ^^ " " ^^ right 8 (pretty (Z.of_nat (fl_windows_clean d))) ^^ " " ^^
  float_cell 7 1 (nmul (fl_flagged_share d) (flt 100 1)) ^^ "%" ^^ " " ^^ float_cell 10 1 (fl_mu_r d) ^^ " " ^^
  float_cell 10 1 (fl_peak_r d) ^^ " " ^^ float_cell 10 1 (fl_rate_floor d) ^^ " " ^^ float_cell 10 4 (fl_entropy_floor d).

Definition header_line : string :=
  left 18 "target" ^^ " " ^^ right 8 "windows" ^^ " " ^^ right 8 "flagged" ^^ " " ^^ right 10 "mean pps" ^^ " " ^^
  right 10 "peak pps" ^^ " " ^^ right 10 "rate flr" ^^ " " ^^ right 10 "entr flr".
Fixpoint dashes (s : string) : string := match s with EmptyString => EmptyString | String _ s' => String "-" (dashes s') end.

Definition flagged_warning (r : string * Floors) : list string :=
  let '(ip, d) := r in
  if nlt (flt 25 100) (fl_flagged_share d) then
    ["warning: " ^^ ip ^^ " spent " ^^ fmt_fixed (nmul (fl_flagged_share d) (flt 100 1)) 0 ^^
     "% of the sample flagged or in cooldown. That is not peacetime traffic, and floors derived from it will be " ^^
     "biased. Investigate the flags before trusting these numbers."]
  else [].
Definition stale_warning (r : string * Floors) : list string :=
  let '(ip, d) := r in
  if nlt (NInt 0) (fl_learned_mean_r d) && nlt (nmul (fl_learned_mean_r d) (flt 13 10)) (fl_mu_r d) then
    ["warning: " ^^ ip ^^ " is running at " ^^ fmt_fixed (fl_mu_r d) 0 ^^ " pps while the sensor's learned mean is " ^^
     fmt_fixed (fl_learned_mean_r d) 0 ^^ " pps. The baseline is behind the traffic and, because every flagged window " ^^
     "freezes it, cannot catch up on its own. Apply with --clear-baseline so it relearns."]
  else [].
Definition tail_note (r : string * Floors) : list string :=
  let '(ip, d) := r in
  if nlt (nmul (fl_spread_r d) (flt 4 1)) (fl_rate_floor d) && nlt (NInt 0) (fl_spread_r d) then
    ["note: " ^^ ip ^^ " has a long rate tail. Its typical spread is " ^^ fmt_fixed (fl_spread_r d) 1 ^^
     " pps but ordinary peaks reach " ^^ fmt_fixed (fl_peak_r d) 1 ^^ " pps, so the floor is set by the peak, not the spread."]
  else [].
Definition notes (r : string * Floors) : list string := flagged_warning r ++ stale_warning r ++ tail_note r.

Definition target_lt (a b : string * Floors) : bool := String.ltb a.1 b.1.

(** [%d] of a float truncates it. *)
Definition report (results : list (string * Floors)) (k margin : num) : res (list string) :=
  percent ← py_int (nmul margin (NInt 100));
  let sorted := py_sort target_lt results in
  Ok ([EmptyString; "Per target, from clean windows only (k=" ^^ fmt_fixed k 2 ^^ ", margin=" ^^ pretty percent ^^ "%)";
       EmptyString; header_line; dashes header_line] ++
      (row_line <$> sorted) ++ [EmptyString] ++ mjoin (notes <$> sorted)).

(** The file [print] writes the lines to. *)
Definition printed (lines : list string) : string := foldr (λ l s, l ^^ String newline s) EmptyString lines.

(** ** Progress of the sampling loop *)

(** The four hosts least advanced, in the order of the windows they have seen. *)
Definition _warmup_summary (progress : list (string * (Z * Z))) : string :=
  String.concat ", "
    ((λ '(ip, (n, total)), ip ^^ " " ^^ pretty n ^^ "/" ^^ pretty total) <$>
       take 4 (py_sort (λ a b, (a.2.1 <? b.2.1)%Z) progress)).

(** What is printed over the previous status line; the note is the next one's
    previous. *)
Definition _status (note previous : string) : string :=
  String (ascii_of_nat 13) (note ^^ spaces (String.length previous - String.length note)).

Definition waiting_note (warm : list (string * (Z * Z))) : string :=
  match warm with
  | [] => "waiting: no debug samples in the journal. Re-run with " ^^
          "--auto-debug if the sensor is still at the default " ^^ "log level"
  | _ => "warming up, no usable window yet: " ^^ _warmup_summary warm
  end.

Definition count_lt (a b : string * nat) : bool :=
  String.ltb a.1 b.1 || (bool_decide (a.1 = b.1) && (a.2 <? b.2)%nat).
Definition collecting_note (counts : list (string * nat)) (windows : Z) : string :=
  "collecting: " ^^ String.concat "  "
    ((λ '(ip, n), ip ^^ " " ^^ pretty (Z.of_nat n) ^^ "/" ^^ pretty windows) <$> py_sort count_lt counts).

(** What [_warn_if_debug_not_live] prints, from what systemctl answered. *)
Definition _warn_if_debug_not_live (stdout : option string) : list string :=
  let env := str_strip (default EmptyString stdout) in
  if str_contains "RUST_LOG=info,ddos_stage1::analysis=debug" env then []
  else ["warning: the service environment still reads " ^^ (match env with EmptyString => "<empty>" | _ => env end);
        "warning: per window samples are logged at debug level and will not " ^^
        "appear. Check for another drop-in in /etc/systemd/system/ddos-stage1.service.d that sets RUST_LOG."].

(** A status line covers the one before it: nothing of that is left to be seen. *)
Lemma status_covers note previous :
  String.length (_status note previous) = S (Nat.max (String.length note) (String.length previous)).
Proof.
  unfold _status. cbn [String.length]. rewrite length_app_str, length_spaces. lia.
Qed.

Example demo_warmup :
  _warmup_summary [("10.0.0.5", (90, 100)); ("10.0.0.6", (3, 100)); ("10.0.0.7", (40, 100))]%Z =
  "10.0.0.6 3/100, 10.0.0.7 40/100, 10.0.0.5 90/100".
Proof. vm_compute. reflexivity. Qed.
