(* ===== verification/CalibrateReportFacts.v ===== *)
(** * The benchmark reads the calibration report

    calibrate.py prints a table and notes; analyze_live_benchmark.py finds them
    in the log with a regular expression. Every row comes back as its target,
    its number of windows and its figures to the digits printed, every warning
    and note comes back word for word, and nothing else is taken for one. *)

From stdpp Require Import pretty.
From Stdlib Require Import SpecFloat.
From S2P Require Import Prelude PyNum PyStat PyStr Regex PyTime PyPrint IpText Calibrate CalibrateReport BenchData.

(** ** Lines *)

Definition CR : ascii := ascii_of_nat 13.
Definition line_char (c : ascii) : bool := negb (bool_decide (c = newline)) && negb (bool_decide (c = CR)).
Definition one_line (s : string) : Prop := class_run line_char s.

Lemma one_line_app a b : one_line a → one_line b → one_line (a ^^ b).
Proof. unfold one_line, class_run. intros Ha Hb. rewrite list_ascii_app. by apply Forall_app. Qed.

Lemma one_line_class cls s : (∀ c, cls c = true → line_char c = true) → class_run cls s → one_line s.
Proof. intros H Hs. eapply Forall_impl; [exact Hs|]. exact H. Qed.

Lemma nonspace_line c : c_nonspace c = true → line_char c = true.
Proof. destruct c as [[] [] [] [] [] [] [] []]; vm_compute; done. Qed.
Lemma decimal_line c : c_decimal c = true → line_char c = true.
Proof. destruct c as [[] [] [] [] [] [] [] []]; vm_compute; done. Qed.
Lemma digit_line c : c_digit c = true → line_char c = true.
Proof. destruct c as [[] [] [] [] [] [] [] []]; vm_compute; done. Qed.

Lemma one_line_lit s : forallb line_char (list_ascii_of_string s) = true → one_line s.
Proof. intros H. apply Forall_forall. rewrite forallb_forall in H. intros c Hc. apply H. by apply list_elem_of_In. Qed.

Lemma one_line_pretty (z : Z) : one_line (pretty z).
Proof.
  destruct (Z.le_gt_cases 0 z) as [Hz|Hz].
  - destruct (digits_pretty z Hz) as [Hd _]. by eapply one_line_class, Hd; apply digit_line.
  - destruct z as [|p|p]; try lia. change (pretty (Zneg p)) with ("-" ^^ pretty (Zpos p)).
    apply one_line_app; [by apply one_line_lit|]. destruct (digits_pretty (Zpos p)) as [Hd _]; [done|].
    by eapply one_line_class, Hd; apply digit_line.
Qed.

Lemma one_line_fixed_digits n d : (0 <= n)%Z → one_line (fixed_digits n d).
Proof.
  intros Hn. destruct (fixed_digits_shape n d Hn) as (a & b & Ha & Hb & _ & _ & _ & ->).
  assert (H : ∀ s, digits s → one_line s) by (intros s Hs; by eapply one_line_class, Hs; apply digit_line).
  destruct d; [by apply H|]. apply one_line_app; [by apply H|]. apply one_line_app; [by apply one_line_lit|by apply H].
Qed.

Lemma one_line_fmt x d : one_line (fmt_fixed x d).
Proof.
  unfold fmt_fixed, fmt_float. destruct (to_float x) as [[]|[]| |[] m e]; try (by apply one_line_lit).
  all: apply one_line_app; [by apply one_line_lit|]. all: apply one_line_fixed_digits; try done. all: by apply round_dec_nonneg.
Qed.

Lemma one_line_spaces n : one_line (spaces n).
Proof. induction n; [constructor|]. by constructor. Qed.

(** Splitting what was printed gives the lines and an empty one. *)
Lemma printed_split ls : Forall one_line ls → str_split newline (printed ls) = ls ++ [EmptyString].
Proof.
  unfold str_split. induction 1 as [|l ls Hl _ IH]; [done|]. cbn [printed foldr app]. fold (printed ls).
  rewrite list_ascii_app. cbn [list_ascii_of_string]. rewrite split_on_part.
  - rewrite IH. cbn [rev app]. by rewrite string_of_list_ascii_of_string.
  - intros H. apply (proj1 (Forall_forall _ _) Hl) in H. by vm_compute in H.
Qed.

Lemma no_return_same ls : Forall one_line ls → carriage_to_newline (printed ls) = printed ls.
Proof.
  intros H. unfold carriage_to_newline, str_replace, re_sub.
  assert (Hs : ∀ s, Forall (λ c, c ≠ CR) (list_ascii_of_string s) →
    sub_from (match_len [TLit (String (ascii_of_nat 13) EmptyString)]) (String newline EmptyString) 0 s = s).
  { induction s as [|c s IH]; [done|]. cbn [list_ascii_of_string]. intros [Hc Hs]%Forall_cons. cbn [sub_from].
    unfold match_len at 1. cbn [match_toks str_prefix]. rewrite bool_decide_eq_false_2 by (intros Heq; exact (Hc (eq_sym Heq))).
    cbn [andb fmap option_fmap option_map]. by rewrite IH. }
  apply Hs. induction H as [|l ls Hl _ IH]; [constructor|]. cbn [printed foldr]. rewrite list_ascii_app. apply Forall_app.
  split; [|by constructor]. eapply Forall_impl; [exact Hl|]. intros c Hc ->. by vm_compute in Hc.
Qed.

(** ** Rows match *)

Section fields.
Context (ts : list tok).

(** A word, the blanks behind it, and the rest of the pattern on a visible
    character. *)
Lemma match_spaces n c t caps rest :
  is_space c = false → match_toks ts (String c t) = Some (caps, rest) →
  match_toks (plus c_space :: ts) (spaces (S n) ^^ String c t) = Some (caps, rest).
Proof.
  intros Hc Hm. apply (match_rep_greedy c_space 1 None false ts (spaces (S n)) (String c t) caps rest).
  - apply spaces_run.
  - simpl. lia.
  - done.
  - right. apply span_stops; [apply spaces_run|done].
  - done.
Qed.

Lemma match_word cls r c t caps rest :
  class_run cls r → r ≠ EmptyString → cls c = false → match_toks ts (String c t) = Some (caps, rest) →
  match_toks (group cls :: ts) (r ^^ String c t) = Some (r :: caps, rest).
Proof.
  intros Hr Hne Hc Hm. apply (match_rep_greedy cls 1 None true ts r (String c t) caps rest); try done.
  - destruct r; [done|]. simpl. lia.
  - right. by apply span_stops.
Qed.
End fields.

Lemma match_last cls r :
  class_run cls r → r ≠ EmptyString → match_toks [group cls; star c_space] r = Some ([r], EmptyString).
Proof.
  intros Hr Hne. rewrite <-(str_app_nil r) at 1.
  apply (match_rep_greedy cls 1 None true [star c_space] r EmptyString [] EmptyString); try done.
  - destruct r; [done|]. simpl. lia.
  - right. rewrite str_app_nil. by apply span_all.
Qed.

(** A word and the column after it. *)
Lemma match_field ts cls r n c t caps rest :
  class_run cls r → r ≠ EmptyString → cls " "%char = false → is_space c = false →
  match_toks ts (String c t) = Some (caps, rest) →
  match_toks (group cls :: plus c_space :: ts) (r ^^ spaces (S n) ^^ String c t) = Some (r :: caps, rest).
Proof.
  intros Hr Hne Hsp Hc Hm. change (spaces (S n) ^^ String c t) with (String " " (spaces n ^^ String c t)).
  apply match_word; try done. change (String " " (spaces n ^^ String c t)) with (spaces (S n) ^^ String c t).
  by apply match_spaces.
Qed.

Lemma decimal_nonspace c : c_decimal c = true → is_space c = false.
Proof. destruct c as [[] [] [] [] [] [] [] []]; vm_compute; done. Qed.

(** A text of one class with a first character. *)
Lemma run_head cls r : class_run cls r → r ≠ EmptyString → ∃ c t, r = String c t ∧ cls c = true.
Proof. destruct r as [|c t]; [done|]. intros H _. exists c, t. split; [done|]. by inversion H. Qed.

Lemma row_matches ip n f1 f2 f3 f4 f5 a b c d e g :
  class_run c_nonspace ip → ip ≠ EmptyString → digits n → n ≠ EmptyString →
  Forall (λ f, class_run c_decimal f ∧ f ≠ EmptyString) [f1; f2; f3; f4; f5] →
  re_fullmatch CALIBRATION_ROW_RE
    (ip ^^ spaces (S a) ^^ n ^^ spaces (S b) ^^ f1 ^^ "%" ^^ spaces (S c) ^^ f2 ^^ spaces (S d) ^^ f3 ^^ spaces (S e) ^^
     f4 ^^ spaces (S g) ^^ f5) = Some [ip; n; f1; f2; f3; f4; f5].
Proof.
  intros Hip Hipne Hn Hnne Hf.
  apply Forall_cons in Hf as [[H1 H1n] Hf]. apply Forall_cons in Hf as [[H2 H2n] Hf]. apply Forall_cons in Hf as [[H3 H3n] Hf].
  apply Forall_cons in Hf as [[H4 H4n] Hf]. apply Forall_cons in Hf as [[H5 H5n] _].
  unfold re_fullmatch, CALIBRATION_ROW_RE.
  pose proof (match_last c_decimal f5 H5 H5n) as M.
  assert (Hnext : ∀ ts f k r caps rest, class_run c_decimal f → f ≠ EmptyString → match_toks ts r = Some (caps, rest) →
            (∃ x t, r = String x t ∧ is_space x = false) →
            match_toks (group c_decimal :: plus c_space :: ts) (f ^^ spaces (S k) ^^ r) = Some (f :: caps, rest)).
  { intros ts f k r caps rest Hf Hfn Hr (x & t & -> & Hx). by apply match_field. }
  assert (Hvis : ∀ f s, class_run c_decimal f → f ≠ EmptyString → ∃ x t, f ^^ s = String x t ∧ is_space x = false).
  { intros f s Hf Hfn. destruct (run_head _ _ Hf Hfn) as (x & t & -> & Hx). exists x, (t ^^ s). split; [done|].
    by apply decimal_nonspace. }
  rewrite <-(str_app_nil f5) in M. pose proof (Hnext _ f4 g _ _ _ H4 H4n M (Hvis f5 EmptyString H5 H5n)) as M4. rewrite str_app_nil in M4.
  pose proof (Hnext _ f3 e _ _ _ H3 H3n M4 (Hvis f4 _ H4 H4n)) as M3.
  pose proof (Hnext _ f2 d _ _ _ H2 H2n M3 (Hvis f3 _ H3 H3n)) as M2.
  destruct (Hvis f2 (spaces (S d) ^^ f3 ^^ spaces (S e) ^^ f4 ^^ spaces (S g) ^^ f5) H2 H2n) as (x2 & t2 & E2 & Hx2).
  rewrite E2 in M2. pose proof (match_spaces _ c _ _ _ _ Hx2 M2) as M1. rewrite <-E2 in M1.
  pose proof (match_lit "%" _ _ _ _ M1) as M0.
  pose proof (match_word _ c_decimal f1 "%" _ _ _ H1 H1n eq_refl M0) as Mf.
  destruct (Hvis f1 ("%" ^^ spaces (S c) ^^ f2 ^^ spaces (S d) ^^ f3 ^^ spaces (S e) ^^ f4 ^^ spaces (S g) ^^ f5) H1 H1n)
    as (x1 & t1 & E1 & Hx1).
  change (f1 ^^ String "%" (spaces (S c) ^^ f2 ^^ spaces (S d) ^^ f3 ^^ spaces (S e) ^^ f4 ^^ spaces (S g) ^^ f5))
    with (f1 ^^ "%" ^^ spaces (S c) ^^ f2 ^^ spaces (S d) ^^ f3 ^^ spaces (S e) ^^ f4 ^^ spaces (S g) ^^ f5) in Mf.
  rewrite E1 in Mf. pose proof (match_field _ c_digit n b _ _ _ _ Hn Hnne eq_refl Hx1 Mf) as Mn. rewrite <-E1 in Mn.
  set (tail := spaces (S b) ^^ f1 ^^ "%" ^^ spaces (S c) ^^ f2 ^^ spaces (S d) ^^ f3 ^^ spaces (S e) ^^ f4 ^^ spaces (S g) ^^ f5) in *.
  assert (En : ∃ x t, n ^^ tail = String x t ∧ is_space x = false).
  { destruct (run_head _ _ Hn Hnne) as (x & t & -> & Hx). exists x, (t ^^ tail). split; [done|].
    apply decimal_nonspace. unfold c_decimal. by rewrite Hx. }
  destruct En as (xn & tn & En & Hxs). rewrite En in Mn.
  pose proof (match_field _ c_nonspace ip a _ _ _ _ Hip Hipne eq_refl Hxs Mn) as Mi. rewrite <-En in Mi. by rewrite Mi.
Qed.

(** ** Nothing else matches *)

Lemma fullmatch_lang ts s caps : re_fullmatch ts s = Some caps → in_lang ts s caps.
Proof.
  unfold re_fullmatch. destruct (match_toks ts s) as [[c []]|] eqn:Hm; try done. intros [= <-].
  destruct (match_sound _ _ _ _ Hm) as (m & -> & Hl). by rewrite str_app_nil.
Qed.

Lemma same_word r r2 s2 w u :
  class_run c_nonspace r → class_run c_nonspace w → class_run c_space r2 → r2 ≠ EmptyString →
  r ^^ r2 ^^ s2 = w ^^ String " " u → r = w ∧ r2 ^^ s2 = String " " u.
Proof.
  intros Hr Hw H2 Hne. revert w Hw. induction r as [|x r IH]; intros w Hw.
  - destruct w as [|y w]; [by split|]. destruct r2 as [|z r2]; [done|]. intros [= -> _].
    inversion Hw as [|? ? Hy]; subst. inversion H2 as [|? ? Hz]; subst. unfold c_nonspace, c_space in *. by rewrite Hz in Hy.
  - inversion Hr as [|? ? Hx Hr']; subst. destruct w as [|y w].
    + intros [= -> _]. by vm_compute in Hx.
    + intros [= -> E]. inversion Hw as [|? ? _ Hw']; subst. by destruct (IH Hr' w Hw' E) as [-> ?].
Qed.

Lemma lang_word cls cap ts w c t caps :
  (∀ x, cls x = true → c_nonspace x = true) → class_run c_nonspace w → is_space c = false →
  in_lang (TRep cls 1 None true cap :: plus c_space :: ts) (w ^^ String " " (String c t)) caps →
  class_run cls w ∧ ∃ caps', in_lang ts (String c t) caps'.
Proof.
  intros Hcls Hw Hc H. inversion H as [| |? ? ? ? ? ? r s ? Hr _ _ Hs]; subst.
  inversion Hs as [| |? ? ? ? ? ? r2 s2 ? Hr2 Hlo2 _ Hs2]; subst.
  destruct (same_word r r2 s2 w (String c t)) as [-> E]; try done.
  { eapply Forall_impl; [exact Hr|exact Hcls]. }
  { intros ->. simpl in Hlo2. lia. }
  split; [done|]. destruct r2 as [|x r2]; [simpl in Hlo2; lia|]. injection E as -> E.
  destruct r2 as [|y r2]; [|injection E as -> _; inversion Hr2 as [|? ? _ Hr2']; subst; inversion Hr2' as [|? ? Hy]; subst; unfold c_space in Hy; congruence].
  eexists. by rewrite <-E.
Qed.

Lemma digit_is_nonspace c : c_digit c = true → c_nonspace c = true.
Proof. destruct c as [[] [] [] [] [] [] [] []]; vm_compute; done. Qed.

(** A line whose third word begins with a letter is no row. *)
Lemma third_word_no_row w1 w2 c t :
  class_run c_nonspace w1 → class_run c_nonspace w2 → w2 ≠ EmptyString → is_space c = false → c_decimal c = false →
  re_fullmatch CALIBRATION_ROW_RE (w1 ^^ " " ^^ w2 ^^ " " ^^ String c t) = None.
Proof.
  intros H1 H2 Hne Hc Hd. destruct (re_fullmatch _ _) as [caps|] eqn:Hm; [exfalso|done]. apply fullmatch_lang in Hm.
  destruct w2 as [|x w2]; [done|].
  assert (Hx : is_space x = false) by (inversion H2; subst; unfold c_nonspace in *; by destruct (is_space x)).
  destruct (lang_word c_nonspace true _ w1 x (w2 ^^ " " ^^ String c t) caps (λ _ H, H) H1 Hx Hm) as (_ & caps' & Hm2).
  destruct (lang_word c_digit true _ (String x w2) c t caps' digit_is_nonspace H2 Hc Hm2) as (_ & caps'' & Hm3).
  remember (String c t) as u eqn:Hu. inversion Hm3 as [| |? ? ? ? ? ? r s ? Hr Hlo _ _]; subst.
  destruct r as [|y r]; [simpl in Hlo; lia|].
  match goal with H : String y r ^^ s = _ |- _ => injection H as -> _ end. inversion Hr; subst. congruence.
Qed.

Lemma no_row_by l w1 w2 c t :
  l = w1 ^^ " " ^^ w2 ^^ " " ^^ String c t → class_run c_nonspace w1 → visible w2 → is_space c = false → c_decimal c = false →
  re_fullmatch CALIBRATION_ROW_RE l = None.
Proof. intros -> H1 [Hne H2]. by apply third_word_no_row. Qed.

(** What the reader makes of a line. *)
Definition is_note (l : string) : bool := str_prefix "warning:" l || str_prefix "note:" l.
Definition no_row (l : string) : Prop := re_fullmatch CALIBRATION_ROW_RE l = None.
Definition other (l : string) : Prop :=
  no_row l ∧ is_note l = false ∧ str_prefix "Recommended, covering every target:" l = false.

Definition reads (l : string) (t : CalTarget) : Prop :=
  ∃ g, re_fullmatch CALIBRATION_ROW_RE l = Some g ∧ cal_target g = Ok t.

Lemma parse_others ls rest acc :
  Forall other ls → parse_calibration_lines (ls ++ rest) acc = parse_calibration_lines rest acc.
Proof.
  induction 1 as [|l ls (Hr & Hn & Hp) _ IH]; [done|]. cbn [app parse_calibration_lines]. unfold no_row in Hr. rewrite Hr.
  unfold is_note in Hn. rewrite Hn, Hp. destruct (ls ++ rest) as [|next more] eqn:E; [|done].
  destruct ls; [|done]. cbn [app] in E. by subst.
Qed.

Lemma parse_rows ls ts rest acc :
  Forall2 reads ls ts →
  parse_calibration_lines (ls ++ rest) acc =
  parse_calibration_lines rest (mkCalLog (cl_targets acc ++ ts) (cl_notes acc) (cl_flags acc)).
Proof.
  intros H. revert acc. induction H as [|l t ls ts (g & Hg & Ht) _ IH]; intros acc; cbn [app].
  { rewrite app_nil_r. by destruct acc. }
  cbn [parse_calibration_lines]. rewrite Hg, Ht. cbn [mbind res_bind]. rewrite IH. cbn [cl_targets cl_notes cl_flags].
  by rewrite <-app_assoc.
Qed.

Lemma parse_notes ls rest acc :
  Forall (λ l, no_row l ∧ is_note l = true) ls →
  parse_calibration_lines (ls ++ rest) acc =
  parse_calibration_lines rest (mkCalLog (cl_targets acc) (cl_notes acc ++ ls) (cl_flags acc)).
Proof.
  intros H. revert acc. induction H as [|l ls (Hr & Hn) _ IH]; intros acc; cbn [app].
  { rewrite app_nil_r. by destruct acc. }
  cbn [parse_calibration_lines]. unfold no_row in Hr. rewrite Hr. unfold is_note in Hn. rewrite Hn, IH.
  cbn [cl_targets cl_notes cl_flags]. by rewrite <-app_assoc.
Qed.

(** ** The report *)

(** A target with a name of its own and figures that print as decimals. *)
Definition described (r : string * Floors) : Prop :=
  visible r.1 ∧
  Forall printable [nmul (fl_flagged_share r.2) (flt 100 1); fl_mu_r r.2; fl_peak_r r.2; fl_rate_floor r.2; fl_entropy_floor r.2].

(** The target to the digits printed. *)
Definition target_of (r : string * Floors) : CalTarget :=
  mkCalTarget r.1 (Z.of_nat (fl_windows_clean r.2)) (rounded (nmul (fl_flagged_share r.2) (flt 100 1)) 1)
    (rounded (fl_mu_r r.2) 1) (rounded (fl_peak_r r.2) 1) (rounded (fl_rate_floor r.2) 1) (rounded (fl_entropy_floor r.2) 4).

Lemma row_shape ip d : ∃ a b c e f g,
  row_line (ip, d) =
  ip ^^ spaces (S a) ^^ pretty (Z.of_nat (fl_windows_clean d)) ^^ spaces (S b) ^^
  fmt_fixed (nmul (fl_flagged_share d) (flt 100 1)) 1 ^^ "%" ^^ spaces (S c) ^^ fmt_fixed (fl_mu_r d) 1 ^^ spaces (S e) ^^
  fmt_fixed (fl_peak_r d) 1 ^^ spaces (S f) ^^ fmt_fixed (fl_rate_floor d) 1 ^^ spaces (S g) ^^ fmt_fixed (fl_entropy_floor d) 4.
Proof.
  unfold row_line, float_cell. rewrite <-(str_app_nil (right 10 (fmt_fixed (fl_entropy_floor d) 4))).
  rewrite !column, first_column, str_app_nil. by repeat eexists.
Qed.

Lemma row_reads r : described r → reads (row_line r) (target_of r).
Proof.
  destruct r as [ip d]. intros [[Hne Hip] Hp]. cbn [fst snd] in *.
  destruct (digits_pretty (Z.of_nat (fl_windows_clean d)) ltac:(lia)) as (Hn & Hnn & _).
  assert (Hf : Forall (λ f, class_run c_decimal f ∧ f ≠ EmptyString)
    [fmt_fixed (nmul (fl_flagged_share d) (flt 100 1)) 1; fmt_fixed (fl_mu_r d) 1; fmt_fixed (fl_peak_r d) 1;
     fmt_fixed (fl_rate_floor d) 1; fmt_fixed (fl_entropy_floor d) 4]).
  { repeat (apply Forall_cons in Hp as [? Hp]; apply Forall_cons; split; [by apply decimal_printed|]). constructor. }
  destruct (row_shape ip d) as (a & b & c & e & f & g & E). eexists. rewrite E. split; [by apply row_matches|].
  repeat (apply Forall_cons in Hp as [? Hp]). cbn [cal_target]. rewrite int_pretty by lia. rewrite !float_printed by done. done.
Qed.

(** First and last characters, for stripping. *)
Definition begins (s : string) : Prop := ∃ a, head (list_ascii_of_string s) = Some a ∧ is_space a = false.
Definition finishes (s : string) : Prop := ∃ a, last (list_ascii_of_string s) = Some a ∧ is_space a = false.
Definition own_strip (s : string) : Prop := str_strip s = s.

Lemma ends_strip s : begins s → finishes s → own_strip s.
Proof.
  intros (a & Ha & Hsa) (b & Hb & Hsb). unfold own_strip, str_strip. rewrite (strip_list_ends _ a b) by done.
  by rewrite string_of_list_ascii_of_string.
Qed.

Lemma begins_app a b : begins a → begins (a ^^ b).
Proof. intros (x & Hx & Hs). exists x. rewrite list_ascii_app. split; [|done]. by destruct (list_ascii_of_string a). Qed.

Lemma finishes_app a b : finishes b → finishes (a ^^ b).
Proof. intros (x & Hx & Hs). exists x. rewrite list_ascii_app, last_app, Hx. done. Qed.

Lemma visible_ends s : visible s → begins s ∧ finishes s.
Proof.
  intros [Hne Hs]. destruct (nonempty_list s Hne) as (x & l & Hl). unfold class_run in Hs.
  assert (Hv : ∀ c, c ∈ list_ascii_of_string s → is_space c = false).
  { intros c Hc%(proj1 (Forall_forall _ _) Hs). unfold c_nonspace in Hc. by destruct (is_space c). }
  split.
  - exists x. rewrite Hl in *. split; [done|]. apply Hv. left.
  - destruct (last (list_ascii_of_string s)) as [y|] eqn:Hy; [|apply last_None in Hy; congruence].
    exists y. split; [done|]. by apply Hv, last_Some_elem_of.
Qed.

Lemma visible_decimal f : class_run c_decimal f → f ≠ EmptyString → visible f.
Proof.
  intros Hf Hne. split; [done|]. eapply Forall_impl; [exact Hf|]. intros c Hc. unfold c_nonspace.
  by rewrite decimal_nonspace.
Qed.

Lemma row_own_strip r : described r → own_strip (row_line r).
Proof.
  destruct r as [ip d]. intros [Hip Hp]. cbn [fst snd] in *. destruct (row_shape ip d) as (a & b & c & e & f & g & ->).
  destruct (visible_ends ip Hip) as [Hb _]. apply ends_strip; [by apply begins_app|].
  do 13 apply finishes_app. repeat (apply Forall_cons in Hp as [? Hp]).
  destruct (decimal_printed (fl_entropy_floor d) 4) as [Hd Hne]; [done|]. by apply (visible_ends _ (visible_decimal _ Hd Hne)).
Qed.

(** Every piece of a line is on one line. *)
Ltac pieces := repeat match goal with |- one_line (_ ^^ _) => apply one_line_app end;
  first [apply one_line_fmt | apply one_line_pretty | apply one_line_spaces | by apply one_line_lit | idtac].

Lemma one_line_visible s : visible s → one_line s.
Proof. intros [_ H]. by eapply one_line_class, H; apply nonspace_line. Qed.

Lemma row_one_line r : described r → one_line (row_line r).
Proof.
  destruct r as [ip d]. intros [Hip _]. destruct (row_shape ip d) as (a & b & c & e & f & g & ->).
  pieces. by apply one_line_visible.
Qed.

(** A line the reader keeps as a note. *)
Definition kept (l : string) : Prop := one_line l ∧ own_strip l ∧ no_row l ∧ is_note l = true.

Ltac finish_line := repeat match goal with |- finishes (_ ^^ _) => apply finishes_app end; eexists; split; reflexivity.

Lemma notes_kept r : visible r.1 → Forall kept (notes r).
Proof.
  destruct r as [ip d]. cbn [fst]. intros Hip. unfold notes.
  assert (Hl : one_line ip) by by apply one_line_visible.
  repeat apply Forall_app_2; unfold flagged_warning, stale_warning, tail_note.
  - destruct (nlt _ _); [|constructor]. apply Forall_singleton. split; [by pieces|]. split; [|split; [|reflexivity]].
    + apply ends_strip; [by eexists; split; [reflexivity|]|finish_line].
    + eapply (no_row_by _ "warning:" ip "s"); [reflexivity|by repeat constructor|done|done|done].
  - destruct (nlt _ _ && _); [|constructor]. apply Forall_singleton. split; [by pieces|]. split; [|split; [|reflexivity]].
    + apply ends_strip; [by eexists; split; [reflexivity|]|finish_line].
    + eapply (no_row_by _ "warning:" ip "i"); [reflexivity|by repeat constructor|done|done|done].
  - destruct (nlt _ _ && _); [|constructor]. apply Forall_singleton. split; [by pieces|]. split; [|split; [|reflexivity]].
    + apply ends_strip; [by eexists; split; [reflexivity|]|finish_line].
    + eapply (no_row_by _ "note:" ip "h"); [reflexivity|by repeat constructor|done|done|done].
Qed.

(** The headings: four lines of no interest to the reader, whatever the
    multiplier and the margin. *)
Definition heading (k : num) (percent : Z) : list string :=
  [EmptyString; "Per target, from clean windows only (k=" ^^ fmt_fixed k 2 ^^ ", margin=" ^^ pretty percent ^^ "%)"; EmptyString;
   header_line; dashes header_line]%string.

Lemma heading_plain k percent :
  Forall (λ l, one_line l ∧ own_strip l ∧ other l) (heading k percent).
Proof.
  unfold heading. repeat (apply Forall_cons; split; [|]); [..|constructor].
  - split_and!; [constructor|reflexivity|by split_and!].
  - split; [by pieces|]. split; [apply ends_strip; [by eexists; split; [reflexivity|]|finish_line]|]. by split_and!.
  - split_and!; [constructor|reflexivity|by split_and!].
  - split; [by apply one_line_lit|]. split; [by vm_compute|]. by split_and!.
  - split; [by apply one_line_lit|]. split; [by vm_compute|]. by split_and!.
Qed.

Lemma strip_own ls : Forall own_strip ls → str_strip <$> ls = ls.
Proof. induction 1 as [|l ls Hl _ IH]; [done|]. rewrite fmap_cons, IH. by rewrite Hl. Qed.

Lemma Forall_join {A B} (P : B → Prop) (f : A → list B) l : Forall (λ x, Forall P (f x)) l → Forall P (mjoin (f <$> l)).
Proof. induction 1 as [|x l Hx _ IH]; [constructor|]. rewrite fmap_cons. by apply Forall_app. Qed.

(** C34: The benchmark reads back what calibrate.py prints: each target once, in
    the order of the table, with its windows and its figures to the digits
    printed, and each warning and note word for word; headings and notes are
    not taken for targets, whatever the targets are called. *)
Theorem report_read_back results k margin lines :
  report results k margin = Ok lines → Forall described results →
  parse_calibration_log (printed lines) =
  Ok (mkCalLog (target_of <$> py_sort target_lt results) (mjoin (notes <$> py_sort target_lt results)) EmptyString).
Proof.
  unfold report. destruct (py_int _) as [percent|]; [|done]. intros [= <-] Hd. fold (heading k percent).
  set (sorted := py_sort target_lt results). assert (Hs : Forall described sorted) by (unfold sorted; by rewrite (py_sort_perm target_lt results)).
  set (rows := row_line <$> sorted). set (ns := mjoin (notes <$> sorted)).
  assert (Hk : Forall kept ns) by (apply Forall_join; eapply Forall_impl; [exact Hs|intros r [Hv _]; by apply notes_kept]).
  pose proof (heading_plain k percent) as Hh.
  assert (Hone : Forall one_line (heading k percent ++ rows ++ [EmptyString] ++ ns)).
  { repeat (apply Forall_app; split).
    - eapply Forall_impl; [exact Hh|]. by intros l (? & _).
    - apply Forall_fmap. eapply Forall_impl; [exact Hs|]. apply row_one_line.
    - by repeat constructor.
    - eapply Forall_impl; [exact Hk|]. by intros l (? & _). }
  assert (Hstrip : Forall own_strip ((heading k percent ++ rows ++ [EmptyString] ++ ns) ++ [EmptyString])).
  { apply Forall_app. split; [|by repeat constructor]. repeat (apply Forall_app; split).
    - eapply Forall_impl; [exact Hh|]. by intros l (_ & ? & _).
    - apply Forall_fmap. eapply Forall_impl; [exact Hs|]. apply row_own_strip.
    - by repeat constructor.
    - eapply Forall_impl; [exact Hk|]. by intros l (_ & ? & _). }
  assert (Hblank : Forall other [EmptyString]) by by repeat constructor.
  unfold parse_calibration_log. rewrite no_return_same, printed_split, strip_own by done.
  change (parse_calibration_lines ((heading k percent ++ rows ++ [EmptyString] ++ ns) ++ [EmptyString]) (mkCalLog [] [] EmptyString) =
    Ok (mkCalLog (target_of <$> sorted) ns EmptyString)).
  rewrite <-!app_assoc.
  rewrite parse_others by (eapply Forall_impl; [exact Hh|]; by intros l (_ & _ & ?)).
  rewrite (parse_rows rows (target_of <$> sorted)).
  2: { unfold rows. apply Forall2_fmap_2, Forall_Forall2_diag. eapply Forall_impl; [exact Hs|]. apply row_reads. }
  rewrite (parse_others [EmptyString]) by done.
  rewrite parse_notes by (eapply Forall_impl; [exact Hk|]; by intros l (_ & _ & ? & ?)).
  by rewrite <-(app_nil_r [EmptyString]), parse_others by done.
Qed.

(** ** A report *)

Definition demo_floor : Floors :=
  mkFloors 1200 1000 (flt 1 6) (flt 4567 10) (flt 9123 10) (flt 20 1) (flt 1 1) (flt 21053 100) (flt 9 10) (flt 8 10) (flt 1 100)
    (flt 1 100) (flt 23 1000) (flt 300 1) (flt 10 1) (flt 1 100).
Definition demo_report : list (string * Floors) := [("warning:", demo_floor); ("2001:db8::15", demo_floor)]%string.
Definition demo_lines : list string := match report demo_report (flt 3 1) (flt 1 10) with Ok l => l | Exn _ => [] end.

Lemma report_read_back_witness :
  report demo_report (flt 3 1) (flt 1 10) = Ok demo_lines ∧
  parse_calibration_log (printed demo_lines) =
  Ok (mkCalLog (target_of <$> py_sort target_lt demo_report) (mjoin (notes <$> py_sort target_lt demo_report)) EmptyString).
Proof.
  assert (H : report demo_report (flt 3 1) (flt 1 10) = Ok demo_lines) by (vm_compute; reflexivity).
  split; [exact H|]. apply (report_read_back demo_report (flt 3 1) (flt 1 10) demo_lines H).
  repeat (constructor; [split; [by split; [discriminate|repeat constructor]|repeat constructor]|]). constructor.
Defined.

Example demo_row :
  row_line ("2001:db8::15"%string, demo_floor) =
  "2001:db8::15           1000    16.7%      456.7      912.3      210.5     0.0230"%string.
Proof. vm_compute. reflexivity. Qed.
