(* ===== verification/TrainData.v ===== *)
(** * Training data: train.py and the scripts that prepare data as it does

    A data frame is its column names and its rows; a row maps column names to
    numbers. [pandas.read_csv], [sort_values] (which does not promise the order
    of equal timestamps) and sklearn's [resample] are parameters. Selection by a
    mask, arithmetic on columns, [diff], [shift], [cumsum] and [groupby] are
    written out row by row, as pandas documents them. A training file has
    numbers only: a column of text, on which [diff] raises, is not modelled. *)

From stdpp Require Import gmap sets.
From Stdlib Require Import SpecFloat.
From S2P Require Import Prelude PyNum PyStat.

#[local] Open Scope Z_scope.

(** The values of a list, each at its first occurrence. *)
Section distinct.
Context {A : Type} (eqb : A → A → bool).

Fixpoint distinct_from (seen l : list A) : list A :=
  match l with
  | [] => []
  | x :: l' =>
      if existsb (eqb x) seen then distinct_from seen l'
      else x :: distinct_from (x :: seen) l'
  end.
Definition distinct (l : list A) : list A := distinct_from [] l.
End distinct.


Definition frow : Type := gmap string num.
Record frame := mkFrame { columns : list string; df_rows : list frow }.

(** A missing cell is NaN. *)
Definition cell (c : string) (r : frow) : num := default (NFlt S754_nan) (r !! c).

Definition FEATURE_COLS : list string :=
  ["entropy"; "ewma_rate"; "mean_h"; "mean_r"; "sigma_h"; "sigma_r"; "proto_ratio";
   "dominant_ip_ratio"; "delta_rate"; "delta_entropy"; "dominant_rate"; "source_port_entropy";
   "ttl_variance"; "fingerprint_diversity"]%string.
Definition LABEL_COL : string := "label".

Definition derived_cols : list string := ["delta_rate"; "delta_entropy"; "dominant_rate"]%string.
Definition required_raw_cols : list string :=
  List.filter (λ c, negb (bool_decide (c ∈ derived_cols))) FEATURE_COLS ++ [LABEL_COL; "timestamp"%string].
Definition missing_cols (df : frame) : list string :=
  List.filter (λ c, negb (bool_decide (c ∈ columns df))) required_raw_cols.

Definition label (r : frow) : num := cell LABEL_COL r.
Definition stamp (r : frow) : num := cell "timestamp" r.
Definition is_label (n : Z) (r : frow) : bool := neq (label r) (NInt n).

(** ** Cleaning *)

(** No cell is NaN or infinite. *)
Definition row_finite (cols : list string) (r : frow) : bool := forallb (λ c, is_finite (cell c r)) cols.
Definition same_row (cols : list string) (r r' : frow) : bool :=
  forallb (λ c, neq (cell c r) (cell c r')) cols.

Definition drop_duplicates (cols : list string) (rows : list frow) : list frow :=
  distinct (same_row cols) rows.

Definition clean (df : frame) : list frow :=
  drop_duplicates (columns df) (List.filter (row_finite (columns df)) (df_rows df)).

(** ** Sessions *)

Definition SESSION_GAP : num := flt 30 1.

(** [(time_diff > 30.0) | time_diff.isna() | label_changed]; the first row has no
    predecessor. *)
Definition new_session (prev : option frow) (r : frow) : bool :=
  match prev with
  | None => true
  | Some p =>
      nlt SESSION_GAP (nsub (stamp r) (stamp p)) || is_nan (nsub (stamp r) (stamp p))
      || negb (neq (label r) (label p))
  end.

(** The running count of session starts. *)
Fixpoint number_sessions (prev : option frow) (sid : Z) (rows : list frow) : list (frow * Z) :=
  match rows with
  | [] => []
  | r :: rows' =>
      let sid' := if new_session prev r then sid + 1 else sid in
      (r, sid') :: number_sessions (Some r) sid' rows'
  end.

Definition in_session (sid : Z) (x : frow * Z) : bool := x.2 =? sid.
Definition session_rows (sid : Z) (l : list (frow * Z)) : list frow := (List.filter (in_session sid) l).*1.

Definition col_min (l : list num) : num :=
  match l with [] => NFlt S754_nan | x :: l' => py_min_list x l' end.
Definition col_max (l : list num) : num :=
  match l with [] => NFlt S754_nan | x :: l' => py_max_list x l' end.

(** [groupby("session_id")["timestamp"].transform("min")] *)
Definition session_start (l : list (frow * Z)) (sid : Z) : num := col_min (stamp <$> session_rows sid l).

Definition sessions_of (l : list (frow * Z)) : list Z := py_sort Z.ltb (distinct Z.eqb l.*2).

(** Sessions short enough to be worth a warning: id, label, duration, rows. *)
Definition session_label (l : list (frow * Z)) (sid : Z) : num :=
  match session_rows sid l with r :: _ => label r | [] => NFlt S754_nan end.
Definition session_duration (l : list (frow * Z)) (sid : Z) : num :=
  nsub (col_max (stamp <$> session_rows sid l)) (col_min (stamp <$> session_rows sid l)).
Definition short_sessions (l : list (frow * Z)) : list (Z * num * num * nat) :=
  (λ sid, (sid, session_label l sid, session_duration l sid, length (session_rows sid l))) <$>
    List.filter (λ sid, nlt (session_duration l sid) (flt 60 1)) (sessions_of l).

(** ** Filters and derived features *)

Definition in_warmup (warmup : num) (l : list (frow * Z)) (x : frow * Z) : bool :=
  is_label 1 x.1 && nlt (nsub (stamp x.1) (session_start l x.2)) warmup.
Definition drop_warmup (warmup : num) (l : list (frow * Z)) : list (frow * Z) :=
  List.filter (λ x, negb (in_warmup warmup l x)) l.

Definition is_idle_ddos (r : frow) : bool := is_label 2 r && nlt (cell "ewma_rate" r) (flt 1 1).
Definition drop_idle (l : list (frow * Z)) : list (frow * Z) :=
  List.filter (λ x, negb (is_idle_ddos x.1)) l.

Definition derive (r : frow) : frow :=
  let r1 := <["delta_rate" := nsub (cell "ewma_rate" r) (cell "mean_r" r)]> r in
  let r2 := <["delta_entropy" := nsub (cell "entropy" r1) (cell "mean_h" r1)]> r1 in
  <["dominant_rate" := nmul (cell "ewma_rate" r2) (cell "dominant_ip_ratio" r2)]> r2.

(** FLOD_FLASHCROWD_WARMUP_SECONDS, unless the environment sets it. *)
Definition FLASHCROWD_WARMUP_SECONDS : num := flt 15 1.

Section prepare.
Context (sort_values : list frow → list frow) (warmup : num).

Definition detect (df : frame) : list (frow * Z) := number_sessions None 0 (sort_values (clean df)).

(** From the loaded frame to the rows that are trained on. *)
Definition prepare (df : frame) : list (frow * Z) :=
  prod_map derive id <$> drop_idle (drop_warmup warmup (detect df)).
End prepare.

(** ** Samples and folds *)

Definition train_sample : Type := list num * num.
Definition sample_of (r : frow) : train_sample := ((λ c, cell c r) <$> FEATURE_COLS, label r).
Definition samples (l : list (frow * Z)) : list train_sample := sample_of <$> l.*1.

Definition has_label (n : Z) (s : train_sample) : bool := neq s.2 (NInt n).

(** [groupby(LABEL_COL)["session_id"].nunique()] *)
Definition sessions_per_label (l : list (frow * Z)) (lab : num) : nat :=
  length (distinct Z.eqb (List.filter (λ x, neq (label x.1) lab) l).*2).
Definition eligible_sessions (l : list (frow * Z)) : list Z :=
  List.filter (λ sid, negb (sessions_per_label l (session_label l sid) <? 2)%nat) (sessions_of l).

Section balance.
(** [resample(d, replace=True, n_samples=n, random_state=42)] *)
Context (resample : list train_sample → nat → list train_sample).

Definition per_class (d : list train_sample) : list (list train_sample) :=
  List.filter (λ c, (0 <? length c)%nat) ((λ lbl, List.filter (has_label lbl) d) <$> [0; 1; 2]).
Definition max_size (cs : list (list train_sample)) : nat := foldr Nat.max 0%nat (length <$> cs).
Definition balance_classes (d : list train_sample) : list train_sample :=
  let cs := per_class d in
  if (length cs <? 2)%nat then d
  else mjoin ((λ c, resample c (max_size cs)) <$> cs).

(** The held-out session and the data of every other one. *)
Definition fold_test (l : list (frow * Z)) (sid : Z) : list train_sample := sample_of <$> session_rows sid l.
Definition fold_train (l : list (frow * Z)) (sid : Z) : list train_sample :=
  balance_classes (samples (List.filter (λ x, negb (in_session sid x)) l)).
End balance.

