(* ===== verification/TrainRun.v ===== *)
(** * train.py, train_second_model.py and train_isolation_forest.py

    The three training programs from their arguments to the model they save.
    The learners of scikit-learn are parameters: fitting may raise, and a
    fitted model is known by its classes and its answers only. What is printed
    is left out. *)

From stdpp Require Import gmap sets.
From Stdlib Require Import SpecFloat.
From S2P Require Import Prelude PyNum PyStat AutoLabel TrainData.

#[local] Open Scope Z_scope.

(** ** numpy *)

(** [np.mean] of booleans; the mean of nothing is NaN. *)
Definition count_true (l : list bool) : nat := length (List.filter id l).
Definition mean_bool (l : list bool) : num :=
  match l with
  | [] => NFlt S754_nan
  | _ => flt (Z.of_nat (count_true l)) (Z.of_nat (length l))
  end.

Definition np_max (l : list num) : num := if existsb is_nan l then NFlt S754_nan else col_max l.

(** [np.vstack]: the blocks have one width. *)
Definition vstack (blocks : list (list (list num))) : res (list (list num)) :=
  match mjoin blocks with
  | [] => Ok []
  | r :: rs =>
      if forallb (λ r', (length r' =? length r)%nat) rs then Ok (r :: rs) else Exn ValueError
  end.

(** [classes[np.argmax(probas, axis=1)]] *)
Definition top_classes (classes : list num) (probas : list (list num)) : res (list num) :=
  map_res (λ p, i ← argmax p; list_at classes i) probas.

(** ** Picking among candidates *)

Section pick.
Context {A : Type}.

(** The candidates within a tolerance of the best score. *)
Definition near_best (score : A → num) (tol : num) (l : list A) : res (list A) :=
  match l with
  | [] => Exn ValueError
  | x :: l' =>
      let best := py_max_list (score x) (score <$> l') in
      Ok (List.filter (λ c, nle (nsub best tol) (score c)) l)
  end.

(** [None] is unlimited: the most complex. *)
Definition param_lt (p q : option Z) : bool :=
  match p, q with
  | Some a, Some b => a <? b
  | Some _, None => true
  | None, _ => false
  end.

(** [min(l, key=..)]: the first of the least. *)
Definition simplest (param : A → option Z) (l : list A) : res A :=
  match l with
  | [] => Exn ValueError
  | x :: l' => Ok (foldl (λ b c, if param_lt (param c) (param b) then c else b) x l')
  end.
End pick.

Record Candidate := mkCandidate {
  cd_param : option Z; cd_acc : num; cd_share : num; cd_true : list num; cd_pred : list num }.

Definition pick_depth (candidates : list Candidate) (accuracy_tolerance share_tolerance : num) : res Candidate :=
  near_peak ← near_best cd_acc accuracy_tolerance candidates;
  confident ← near_best cd_share share_tolerance near_peak;
  simplest cd_param confident.

Definition pick_leaves (candidates : list Candidate) (accuracy_tolerance : num) : res Candidate :=
  within_tolerance ← near_best cd_acc accuracy_tolerance candidates;
  simplest cd_param within_tolerance.

(** ** Program arguments and loading, shared by the three programs *)

Section loading.
Context (exists_file : string → bool) (read_csv : string → res frame) (CSV_PATH : string).

(** [args] is [sys.argv[1:]]. *)
Definition csv_argument (args : list string) : res string :=
  match args with
  | f :: _ => if exists_file f then Ok f else Exn (SystemExit 1)
  | [] =>
      if exists_file CSV_PATH then Ok CSV_PATH
      else if exists_file "training_data.csv" then Ok "training_data.csv"%string
      else Exn (SystemExit 1)
  end.
Definition model_argument (MODEL_PATH : string) (args : list string) : string :=
  match args with _ :: m :: _ => m | _ => MODEL_PATH end.

Definition load_frame (args : list string) : res frame :=
  f ← csv_argument args;
  df ← read_csv f;
  match missing_cols df with [] => Ok df | _ => Exn (SystemExit 1) end.
End loading.

(** ** The supervised programs *)

Record Learner := mkLearner {
  ln_model : Type;
  ln_fit : option Z → list train_sample → res ln_model;
  ln_classes : ln_model → list num;
  ln_proba : ln_model → list (list num) → list (list num);
  ln_predict : ln_model → list (list num) → list num }.

Record FoldResult := mkFoldResult {
  fr_true : list num; fr_pred : list num; fr_proba : list (list num); fr_classes : list num }.

(** [predicted == y]. *)
Definition hits (pred truth : list num) : list bool := zip_with neq pred truth.

(** np.float64 comparisons of the top probability with the threshold. *)
Definition confident_share (y_true : list num) (probas : list (list num)) (classes : list num)
    (threshold : num) : res num :=
  predicted ← top_classes classes probas;
  Ok (mean_bool (zip_with andb (hits predicted y_true) ((λ p, nle threshold (np_max p)) <$> probas))).

Definition CANDIDATE_MAX_DEPTHS : list (option Z) := (Some <$> [1; 2; 3; 4; 5; 6; 7; 8; 9; 10]) ++ [None].
Definition CANDIDATE_MAX_LEAF_NODES : list (option Z) := (Some <$> [3; 7; 15; 31; 63; 127]) ++ [None].
Definition ACCURACY_TOLERANCE : num := flt 5 1000.
Definition CONFIDENT_SHARE_TOLERANCE : num := flt 2 100.
Definition AUTO_LABEL_CONFIDENCE_THRESHOLD : num := flt 90 100.
Definition target_names : list string := ["Normal (0)"; "Flash Crowd (1)"; "DDoS (2)"]%string.

Section supervised.
(** [classification_report(y_true, y_pred, target_names=.., zero_division=0)]:
    whether it raises is all that matters. *)
Context (L : Learner) (resample : list train_sample → nat → list train_sample).
Context (classification_report : list num → list num → list string → res unit).

(** One fold of train.py: the class of the highest probability. *)
Definition run_fold (param : option Z) (l : list (frow * Z)) (sid : Z) : res FoldResult :=
  m ← ln_fit L param (fold_train resample l sid);
  let probas := ln_proba L m (fold_test l sid).*1 in
  pred ← top_classes (ln_classes L m) probas;
  Ok (mkFoldResult (fold_test l sid).*2 pred probas (ln_classes L m)).

(** One fold of train_second_model.py: the model's own prediction. *)
Definition run_fold_predict (param : option Z) (l : list (frow * Z)) (sid : Z) : res FoldResult :=
  m ← ln_fit L param (fold_train resample l sid);
  Ok (mkFoldResult (fold_test l sid).*2 (ln_predict L m (fold_test l sid).*1) [] (ln_classes L m)).

Definition folds_true (fs : list FoldResult) : list num := mjoin (fr_true <$> fs).
Definition folds_pred (fs : list FoldResult) : list num := mjoin (fr_pred <$> fs).
Definition overall_acc (fs : list FoldResult) : num := mean_bool (hits (folds_true fs) (folds_pred fs)).
(** [fold_clf.classes_] after the loop is the last fold's. *)
Definition last_classes (fs : list FoldResult) : list num :=
  match last fs with Some f => fr_classes f | None => [] end.

Definition evaluate_depth (threshold : num) (l : list (frow * Z)) (param : option Z) : res Candidate :=
  fs ← map_res (run_fold param l) (eligible_sessions l);
  probas ← vstack (fr_proba <$> fs);
  share ← confident_share (folds_true fs) probas (last_classes fs) threshold;
  Ok (mkCandidate param (overall_acc fs) share (folds_true fs) (folds_pred fs)).

Definition evaluate_leaves (l : list (frow * Z)) (param : option Z) : res Candidate :=
  fs ← map_res (run_fold_predict param l) (eligible_sessions l);
  Ok (mkCandidate param (overall_acc fs) (flt 0 1) (folds_true fs) (folds_pred fs)).

(** Without an eligible session the defaults 5 and 31 are used unvalidated. *)
Definition select_depth (threshold : num) (l : list (frow * Z)) : res (option Z) :=
  match eligible_sessions l with
  | [] => Ok (Some 5)
  | _ =>
      candidates ← map_res (evaluate_depth threshold l) CANDIDATE_MAX_DEPTHS;
      c ← pick_depth candidates ACCURACY_TOLERANCE CONFIDENT_SHARE_TOLERANCE;
      _ ← classification_report (cd_true c) (cd_pred c) target_names;
      Ok (cd_param c)
  end.
Definition select_leaves (l : list (frow * Z)) : res (option Z) :=
  match eligible_sessions l with
  | [] => Ok (Some 31)
  | _ =>
      candidates ← map_res (evaluate_leaves l) CANDIDATE_MAX_LEAF_NODES;
      c ← pick_leaves candidates ACCURACY_TOLERANCE;
      _ ← classification_report (cd_true c) (cd_pred c) target_names;
      Ok (cd_param c)
  end.

(** The production model is fitted to every session. *)
Definition fit_all (param : option Z) (l : list (frow * Z)) : res (ln_model L) :=
  ln_fit L param (balance_classes resample (samples l)).

Section programs.
Context (exists_file : string → bool) (read_csv : string → res frame) (CSV_PATH MODEL_PATH : string).
Context (sort_values : list frow → list frow) (warmup threshold : num).

(** What is saved, and where. *)
Definition train_main (args : list string) : res (string * ln_model L) :=
  df ← load_frame exists_file read_csv CSV_PATH args;
  let l := prepare sort_values warmup df in
  depth ← select_depth threshold l;
  clf ← fit_all depth l;
  Ok (model_argument MODEL_PATH args, clf).

Definition second_model_main (args : list string) : res (string * ln_model L) :=
  df ← load_frame exists_file read_csv CSV_PATH args;
  let l := prepare sort_values warmup df in
  leaves ← select_leaves l;
  clf ← fit_all leaves l;
  Ok (model_argument MODEL_PATH args, clf).
End programs.
End supervised.

(** ** The Isolation Forest *)

(** [fl_outlier]: [predict(X) == -1]. *)
Record Forest := mkForest {
  fo_model : Type;
  fo_fit : num → list (list num) → res fo_model;
  fo_outlier : fo_model → list (list num) → list bool }.

Definition BENIGN_OUTLIER_RATE_CAP : num := flt 5 100.
Definition FALLBACK_CONTAMINATION : num := flt 5 100.
Definition CANDIDATE_CONTAMINATIONS : list num :=
  [flt 1 100; flt 2 100; flt 5 100; flt 75 1000; flt 1 10; flt 15 100; flt 2 10; flt 25 100].

Definition features (rows : list frow) : list (list num) := (λ r, (λ c, cell c r) <$> FEATURE_COLS) <$> rows.
Definition is_ddos_label : frow → bool := is_label 2.

(** Rows per label other than DDoS, for the labels there are. *)
Definition benign_counts (rows : list frow) : list nat :=
  (λ lab, length (List.filter (λ r, neq (label r) lab) rows)) <$>
    distinct neq (label <$> List.filter (λ r, negb (is_ddos_label r)) rows).

Section iforest.
(** [sample(n=n, random_state=42)] of rows with their index. *)
Context (F : Forest) (sample_rows : list (nat * frow) → nat → list (nat * frow)).

Definition cap_ddos (rows : list frow) : list frow :=
  match benign_counts rows with
  | [] => rows
  | c :: cs =>
      let ddos_cap := foldl Nat.min c cs in
      if (ddos_cap <? length (List.filter is_ddos_label rows))%nat then
        let indexed := imap pair rows in
        let ddos_rows := sample_rows (List.filter (λ x, is_ddos_label x.2) indexed) ddos_cap in
        (py_sort (λ a b, a.1 <? b.1)%nat (List.filter (λ x, negb (is_ddos_label x.2)) indexed ++ ddos_rows)).*2
      else rows
  end.

(** [outlier[mask].mean()] *)
Definition masked_mean (mask outlier : list bool) : num :=
  mean_bool (List.filter fst (zip mask outlier)).*2.

Record Tried := mkTried { td_contamination : num; td_ddos_rate : num; td_benign_rate : num }.
Definition separation (t : Tried) : num := nsub (td_ddos_rate t) (td_benign_rate t).
Definition within_cap (t : Tried) : bool := nle (td_benign_rate t) BENIGN_OUTLIER_RATE_CAP.

(** [best_sep is None or separation > best_sep], and the least noisy one. *)
Definition better {M} (best : option (Tried * M)) (t : Tried) : bool :=
  match best with None => true | Some (b, _) => nlt (separation b) (separation t) end.
Definition quieter {M} (noisy : option (Tried * M)) (t : Tried) : bool :=
  match noisy with None => true | Some (b, _) => nlt (td_benign_rate t) (td_benign_rate b) end.

Definition try_contamination (rows : list frow) (contamination : num) : res (Tried * fo_model F) :=
  clf ← fo_fit F contamination (features rows);
  let outlier := fo_outlier F clf (features rows) in
  let ddos := is_ddos_label <$> rows in
  Ok (mkTried contamination (masked_mean ddos outlier) (masked_mean (negb <$> ddos) outlier), clf).

Definition sweep_state : Type := option (Tried * fo_model F) * option (Tried * fo_model F).
Definition sweep_step (s : sweep_state) (t : Tried * fo_model F) : sweep_state :=
  (if within_cap t.1 && better s.1 t.1 then Some t else s.1,
   if quieter s.2 t.1 then Some t else s.2).

Fixpoint sweep (rows : list frow) (s : sweep_state) (cs : list num) : res sweep_state :=
  match cs with
  | [] => Ok s
  | c :: cs' => t ← try_contamination rows c; sweep rows (sweep_step s t) cs'
  end.

Definition fit_forest (rows : list frow) : res (num * fo_model F) :=
  if negb (existsb is_ddos_label rows) then
    clf ← fo_fit F FALLBACK_CONTAMINATION (features rows);
    Ok (FALLBACK_CONTAMINATION, clf)
  else
    s ← sweep rows (None, None) CANDIDATE_CONTAMINATIONS;
    match s with
    | (Some (t, clf), _) | (None, Some (t, clf)) => Ok (td_contamination t, clf)
    | (None, None) => Exn ValueError
    end.

Section program.
Context (exists_file : string → bool) (read_csv : string → res frame) (CSV_PATH IF_MODEL_PATH : string).
Context (sort_values : list frow → list frow) (warmup : num).

Definition isolation_forest_main (args : list string) : res (string * (num * fo_model F)) :=
  df ← load_frame exists_file read_csv CSV_PATH args;
  m ← fit_forest (cap_ddos (prepare sort_values warmup df).*1);
  Ok (model_argument IF_MODEL_PATH args, m).
End program.
End iforest.
