(* ===== verification/ThresholdBench.v ===== *)
(** * benchmark_fixed_threshold.py

    Both trained models and a fixed rate threshold, scored on rows held out by
    session. The learners, [resample], the mean of a column, the clock and the
    size of a pickled model are parameters. Tables are the values printed; their
    text is in [ThresholdReport]. *)

From stdpp Require Import gmap sets.
From Stdlib Require Import SpecFloat.
From S2P Require Import Prelude PyNum PyStat AutoLabel TrainData TrainRun.

#[local] Open Scope Z_scope.

Definition ATTACK_LABEL : Z := 2.

(** ** PhaseTracker *)

(** One reading of the clock and of [getrusage]. *)
Record Usage := mkUsage { us_wall : num; us_utime : num; us_stime : num; us_maxrss : num }.
Record PhaseMark := mkPhaseMark { pm_name : string; pm_wall : num; pm_cpu : num; pm_rss_mb : num }.

Definition mark_of (name : string) (wall0 : num) (u : Usage) : PhaseMark :=
  mkPhaseMark name (nsub (us_wall u) wall0) (nadd (us_utime u) (us_stime u))
    (NFlt (SFdiv prec64 emax64 (to_float (us_maxrss u)) (float_of_Z 1024))).
Definition last_mark (phases : list PhaseMark) : num * num :=
  match last phases with Some p => (pm_wall p, pm_cpu p) | None => (flt 0 1, flt 0 1) end.
(** The phases with the new one, and the wall and CPU seconds since the last. *)
Definition tracker_mark (wall0 : num) (name : string) (u : Usage) (phases : list PhaseMark)
    : list PhaseMark * (num * num * num) :=
  let p := mark_of name wall0 u in
  (phases ++ [p],
   (nsub (pm_wall p) (last_mark phases).1, nsub (pm_cpu p) (last_mark phases).2, pm_rss_mb p)).

(** A line of the resource table: name, wall, CPU, cores when the phase is long
    enough to tell, memory. *)
Definition report_row (prev : num * num) (p : PhaseMark) : string * num * num * option num * num :=
  let wall := nsub (pm_wall p) prev.1 in
  let cpu := nsub (pm_cpu p) prev.2 in
  let cores := if nlt (flt 5 10) wall
               then Some (NFlt (SFdiv prec64 emax64 (to_float cpu) (to_float wall))) else None in
  (pm_name p, wall, cpu, cores, pm_rss_mb p).
Fixpoint report_rows (prev : num * num) (phases : list PhaseMark) : list (string * num * num * option num * num) :=
  match phases with
  | [] => []
  | p :: ps => report_row prev p :: report_rows (pm_wall p, pm_cpu p) ps
  end.
Definition tracker_report (phases : list PhaseMark) : list (string * num * num * option num * num) :=
  report_rows (flt 0 1, flt 0 1) phases.

(** ** Loading *)

Definition is_slow_flash (r : frow) : bool := is_label 1 r && nlt (cell "ewma_rate" r) (NInt 100).

Section loading.
Context (exists_file : string → bool) (read_csv : string → res frame).
Context (sort_values : list frow → list frow).

Definition bench_rows (df : frame) : list (frow * Z) :=
  let l := detect sort_values df in
  let l := List.filter (λ x, negb (is_slow_flash x.1)) l in
  prod_map derive id <$> drop_idle l.

Definition load_and_prepare (path : string) : res (list (frow * Z)) :=
  if negb (exists_file path) then Exn (SystemExit 1)
  else
    df ← read_csv path;
    match missing_cols df with [] => Ok (bench_rows df) | _ => Exn (SystemExit 1) end.
End loading.

Definition bench_eligible_sessions (l : list (frow * Z)) : list Z :=
  List.filter (λ sid, (2 <=? sessions_per_label l (session_label l sid))%nat) (sessions_of l).

(** ** Leave one session out *)

(** [series.loc[mask] = values] *)
Fixpoint assign_mask {A} (mask : list bool) (values : list A) (l : list (option A)) : res (list (option A)) :=
  match mask, l with
  | true :: mask', _ :: l' =>
      match values with
      | v :: vs => rest ← assign_mask mask' vs l'; Ok (Some v :: rest)
      | [] => Exn ValueError
      end
  | false :: mask', x :: l' => rest ← assign_mask mask' values l'; Ok (x :: rest)
  | _, _ => match values with [] => Ok [] | _ => Exn ValueError end
  end.

Definition held_out (eligible : list Z) (x : frow * Z) : bool := bool_decide (x.2 ∈ eligible).

(** The held-out rows that hold a prediction equal to the label. *)
Definition loso_hits (eligible : list Z) (l : list (frow * Z)) (pred : list (option num)) : list bool :=
  (λ xp, match xp.2 with Some v => neq v (label xp.1.1) | None => false end) <$>
    List.filter (λ xp, held_out eligible xp.1) (zip l pred).

Section evaluation.
Context (L : Learner) (F : Forest) (resample : list train_sample → nat → list train_sample).
Context (l : list (frow * Z)) (eligible : list Z).

Definition no_series {A} : list (option A) := (λ _, None) <$> l.

Fixpoint rf_folds (depth : option Z) (sids : list Z) (pred : list (option num)) : res (list (option num)) :=
  match sids with
  | [] => Ok pred
  | sid :: sids' =>
      clf ← ln_fit L depth (fold_train resample l sid);
      pred' ← assign_mask (in_session sid <$> l) (ln_predict L clf (fold_test l sid).*1) pred;
      rf_folds depth sids' pred'
  end.

Record Best := mkBest { be_depth : option Z; be_acc : num; be_pred : option (list (option num)) }.
Definition keep_better (b : Best) (depth : option Z) (pred : list (option num)) : Best :=
  let acc := mean_bool (loso_hits eligible l pred) in
  if nlt (be_acc b) acc then mkBest depth acc (Some pred) else b.

Fixpoint rf_sweep (depths : list (option Z)) (b : Best) : res Best :=
  match depths with
  | [] => Ok b
  | d :: ds => pred ← rf_folds d eligible no_series; rf_sweep ds (keep_better b d pred)
  end.
Definition rf_loso : res Best := rf_sweep CANDIDATE_MAX_DEPTHS (mkBest None (flt (-1) 1) None).

(** The contamination, and the separation it was chosen for. *)
Definition if_pick_contamination : res (num * option num) :=
  s ← sweep F l.*1 (None, None) CANDIDATE_CONTAMINATIONS;
  match s with
  | (Some (t, _), _) => Ok (td_contamination t, Some (separation t))
  | (None, Some (t, _)) => Ok (td_contamination t, None)
  | (None, None) => Exn ValueError
  end.

Fixpoint if_folds (contamination : num) (sids : list Z) (flags : list (option bool)) : res (list (option bool)) :=
  match sids with
  | [] => Ok flags
  | sid :: sids' =>
      clf ← fo_fit F contamination (features (List.filter (λ x, negb (in_session sid x)) l).*1);
      flags' ← assign_mask (in_session sid <$> l) (fo_outlier F clf (features (session_rows sid l))) flags;
      if_folds contamination sids' flags'
  end.
Definition if_loso (contamination : num) : res (list (option bool)) :=
  if_folds contamination eligible no_series.
End evaluation.

(** ** Scores *)

Record Confusion := mkConfusion {
  cf_tp : nat; cf_fp : nat; cf_fn : nat; cf_tn : nat;
  cf_precision : num; cf_recall : num; cf_f1 : num; cf_fpr : num; cf_fnr : num }.

Definition nan : num := NFlt S754_nan.
Definition ratio (a b : nat) : num := if (b =? 0)%nat then nan else flt (Z.of_nat a) (Z.of_nat b).
Definition f1_score (precision recall : num) : num :=
  if neq precision precision && neq recall recall && negb (is_zero (nadd precision recall)) then
    NFlt (SFdiv prec64 emax64 (to_float (nmul (nmul (NInt 2) precision) recall))
                (to_float (nadd precision recall)))
  else nan.

Definition count_cells (f a : bool) (flags is_attack : list bool) : nat :=
  length (List.filter (λ x, eqb x.1 f && eqb x.2 a) (zip flags is_attack)).

Definition confusion (flags is_attack : list bool) : Confusion :=
  let tp := count_cells true true flags is_attack in
  let fp := count_cells true false flags is_attack in
  let fn := count_cells false true flags is_attack in
  let tn := count_cells false false flags is_attack in
  let precision := ratio tp (tp + fp) in
  let recall := ratio tp (tp + fn) in
  mkConfusion tp fp fn tn precision recall (f1_score precision recall)
    (ratio fp (fp + tn)) (ratio fn (fn + tp)).

Definition fmt_pct (x : num) : string :=
  if negb (neq x x) then "n/a" else fmt_fixed (nmul (NInt 100) x) 1 ^^ "%".

(** A held-out row with the three verdicts on it. *)
Record Scored := mkScored { sc_row : frow; sc_rf : bool; sc_if : bool; sc_fixed : bool }.

(** A line of the scenario table: label, rows, the share each method flags. *)
Definition scenario_row (rows : list Scored) (lbl : Z) : option (Z * nat * list num) :=
  match List.filter (λ s, is_label lbl (sc_row s)) rows with
  | [] => None
  | sub => Some (lbl, length sub, [mean_bool (sc_rf <$> sub); mean_bool (sc_if <$> sub); mean_bool (sc_fixed <$> sub)])
  end.
Definition scenario_table (rows : list Scored) : list (Z * nat * list num) :=
  omap (scenario_row rows) [0; 1; 2].

Section threshold.
(** [Series.mean()] *)
Context (col_mean : list num → num).

Definition pick_fixed_threshold (rows : list frow) (multiplier : num) : num * num :=
  let normal_mean_rate := col_mean (cell "ewma_rate" <$> List.filter (is_label 0) rows) in
  (nmul normal_mean_rate multiplier, normal_mean_rate).
End threshold.

(** ** Cost *)

Record Perf := mkPerf {
  pf_fit_seconds : num; pf_fit_rows : nat; pf_predict_seconds : num; pf_predict_rows : nat;
  pf_rows_per_second : num; pf_size_kb : num }.

Definition perf_of (t0 t1 t2 t3 : num) (fit_rows predict_rows : nat) (size : Z) : Perf :=
  let predict := nsub t3 t2 in
  mkPerf (nsub t1 t0) fit_rows predict predict_rows
    (if nlt (NInt 0) predict
     then NFlt (SFdiv prec64 emax64 (float_of_Z (Z.of_nat predict_rows)) (to_float predict))
     else NFlt (S754_infinity false))
    (flt size 1024).

Section performance.
Context (L : Learner) (F : Forest) (resample : list train_sample → nat → list train_sample).
(** [perf_counter] at its i-th reading, and the size of a pickled model. *)
Context (tick : nat → num) (rf_size : ln_model L → Z) (if_size : fo_model F → Z).

Definition measure_performance (l : list (frow * Z)) (rf_depth : option Z) (if_contamination : num)
    : res (Perf * Perf) :=
  let d := balance_classes resample (samples l) in
  rf ← ln_fit L rf_depth d;
  isof ← fo_fit F if_contamination (features l.*1);
  Ok (perf_of (tick 0%nat) (tick 1%nat) (tick 2%nat) (tick 3%nat) (length d) (length l) (rf_size rf),
      perf_of (tick 4%nat) (tick 5%nat) (tick 6%nat) (tick 7%nat) (length l) (length l) (if_size isof)).
End performance.

(** ** The program *)

Record BenchReport := mkBenchReport {
  br_depth : option Z; br_acc : num; br_contamination : num; br_separation : option num;
  br_threshold : num; br_scenarios : list (Z * nat * list num);
  br_rf : Confusion; br_if : Confusion; br_fixed : Confusion;
  br_left_alone : option (string * string * string); br_perf : Perf * Perf }.

Definition score_row (fixed_threshold : num) (x : (frow * Z) * (option num * option bool)) : Scored :=
  mkScored x.1.1
    (match x.2.1 with Some v => neq v (NInt ATTACK_LABEL) | None => false end)
    (match x.2.2 with Some b => b | None => true end)
    (nlt fixed_threshold (cell "ewma_rate" x.1.1)).

(** Flash Crowd rows left alone: [1 - share flagged] by each method. *)
Definition left_alone (rows : list Scored) : option (string * string * string) :=
  match List.filter (λ s, is_label 1 (sc_row s)) rows with
  | [] => None
  | fc =>
      let alone f := fmt_pct (nsub (NInt 1) (mean_bool (f <$> fc))) in
      Some (alone sc_rf, alone sc_if, alone sc_fixed)
  end.

Section program.
Context (L : Learner) (F : Forest) (resample : list train_sample → nat → list train_sample).
Context (exists_file : string → bool) (read_csv : string → res frame) (sort_values : list frow → list frow).
Context (classification_report : list num → list num → list string → res unit).
Context (col_mean : list num → num) (DEFAULT_CSV_PATH : string).
Context (tick : nat → num) (rf_size : ln_model L → Z) (if_size : fo_model F → Z).

Definition bench_path (csv_path : option string) : string :=
  match csv_path with
  | Some p => p
  | None => if exists_file DEFAULT_CSV_PATH then DEFAULT_CSV_PATH else "training_data.csv"
  end.

Definition bench_main (csv_path : option string) (multiplier : num) : res BenchReport :=
  l ← load_and_prepare exists_file read_csv sort_values (bench_path csv_path);
  let eligible := bench_eligible_sessions l in
  match eligible with
  | [] => Exn (SystemExit 1)
  | _ =>
      b ← rf_loso L resample l eligible;
      picked ← if_pick_contamination F l;
      flags ← if_loso F l eligible picked.1;
      let pred := default (no_series l) (be_pred b) in
      let held := List.filter (λ x, held_out eligible x.1) (zip l (zip pred flags)) in
      _ ← classification_report (label <$> held.*1.*1) (default nan <$> held.*2.*1) target_names;
      let '(fixed_threshold, _) := pick_fixed_threshold col_mean held.*1.*1 multiplier in
      let rows := score_row fixed_threshold <$> held in
      let is_attack := (λ s, is_label ATTACK_LABEL (sc_row s)) <$> rows in
      perf ← measure_performance L F resample tick rf_size if_size held.*1 (be_depth b) picked.1;
      Ok (mkBenchReport (be_depth b) (be_acc b) picked.1 picked.2 fixed_threshold (scenario_table rows)
            (confusion (sc_rf <$> rows) is_attack) (confusion (sc_if <$> rows) is_attack)
            (confusion (sc_fixed <$> rows) is_attack) (left_alone rows) perf)
  end.
End program.
