(* ===== verification/TrainFacts.v ===== *)
(** * What makes the training data and the evaluation trustworthy *)

From stdpp Require Import gmap sets.
From Stdlib Require Import SpecFloat.
From S2P Require Import Prelude PyNum PyStat AutoLabel AutoLabelFacts TrainData TrainRun.

#[local] Open Scope Z_scope.

(** ** Distinct values *)

Section distinct_facts.
Context {A : Type} (eqb : A → A → bool).

Lemma distinct_from_sub seen l x : x ∈ distinct_from eqb seen l → x ∈ l.
Proof.
  revert seen. induction l as [|y l IH]; intros seen; cbn [distinct_from]; [done|].
  destruct (existsb _ _); [|rewrite elem_of_cons; intros [->|H]; [left|]]; intros; right; eauto.
Qed.

(** Every value is there, or one equal to it is. *)
Lemma distinct_from_cover seen l x :
  (∀ y, y ∈ l → eqb y y = true) → x ∈ l →
  ∃ y, eqb x y = true ∧ (y ∈ seen ∨ y ∈ distinct_from eqb seen l).
Proof.
  intros Hr. revert seen. induction l as [|z l IH]; intros seen; [by intros ?%not_elem_of_nil|].
  cbn [distinct_from]. destruct (existsb (eqb z) seen) eqn:He; rewrite elem_of_cons; intros [->|Hx].
  - apply existsb_exists in He as (y & Hy & Hzy). exists y. rewrite list_elem_of_In. auto.
  - destruct (IH (λ y Hy, Hr y (list_elem_of_further _ _ _ Hy)) seen Hx) as (y & ? & ?). eauto.
  - exists z. split; [apply Hr; left|]. right. left.
  - destruct (IH (λ y Hy, Hr y (list_elem_of_further _ _ _ Hy)) (z :: seen) Hx) as (y & Hxy & [Hs|Hd]).
    + apply elem_of_cons in Hs as [->|Hs]; [exists z; split; [done|right; left]|eauto].
    + exists y. split; [done|]. right. by right.
Qed.
End distinct_facts.

Lemma distinct_Z l x : x ∈ distinct Z.eqb l ↔ x ∈ l.
Proof.
  split; [apply distinct_from_sub|]. intros Hx.
  destruct (distinct_from_cover Z.eqb [] l x) as (y & Hy & [Hn|Hd]); [intros; apply Z.eqb_refl|done| |].
  - by apply not_elem_of_nil in Hn.
  - by apply Z.eqb_eq in Hy as ->.
Qed.

Lemma distinct_Z_NoDup l : NoDup (distinct Z.eqb l).
Proof.
  unfold distinct. generalize (@nil Z). induction l as [|x l IH]; intros seen; cbn [distinct_from]; [constructor|].
  destruct (existsb _ _) eqn:He; [done|]. constructor; [|done].
  assert (Hg : ∀ s y, y ∈ s → y ∉ distinct_from Z.eqb s l).
  { clear. induction l as [|z l IH]; intros s y Hy; cbn [distinct_from]; [apply not_elem_of_nil|].
    destruct (existsb (Z.eqb z) s) eqn:He; [by apply IH|]. apply not_elem_of_cons. split.
    - intros ->. apply Bool.not_true_iff_false in He. apply He, existsb_exists.
      exists z. rewrite <-list_elem_of_In, Z.eqb_refl. done.
    - apply IH. by right. }
  apply Hg. left.
Qed.

(** Two distinct values: one of them is not the given one. *)
Lemma distinct_Z_other l x : (2 ≤ length (distinct Z.eqb l))%nat → ∃ y, y ∈ l ∧ y ≠ x.
Proof.
  pose proof (distinct_Z_NoDup l) as Hn. pose proof (λ y, proj1 (distinct_Z l y)) as Hs.
  destruct (distinct Z.eqb l) as [|a [|b d]]; cbn [length]; [lia|lia|]. intros _.
  destruct (decide (a = x)) as [->|Ha]; [exists b|exists a]; (split; [apply Hs|]); [set_solver| |set_solver|done].
  apply NoDup_cons in Hn as [Hn _]. set_solver.
Qed.

(** ** Sessions *)

Lemma number_sessions_fst prev sid rows : (number_sessions prev sid rows).*1 = rows.
Proof. revert prev sid. induction rows as [|r rows IH]; intros; cbn; [done|]. by rewrite IH. Qed.

Definition labeled (x : frow * Z) : Prop := is_nan (label x.1) = false.
(** Two rows of one session have one label. *)
Definition one_label (l : list (frow * Z)) : Prop :=
  ∀ x y, x ∈ l → y ∈ l → x.2 = y.2 → neq (label x.1) (label y.1) = true.

Lemma number_sessions_from p sid rows :
  is_nan (label p) = false → Forall (λ r, is_nan (label r) = false) rows →
  Forall (λ x, sid <= x.2 ∧ (x.2 = sid → neq (label p) (label x.1) = true)) (number_sessions (Some p) sid rows).
Proof.
  intros Hp HF. revert p sid Hp. induction HF as [|r rows Hr HF IH]; intros p sid Hp; cbn [number_sessions]; [done|].
  destruct (new_session (Some p) r) eqn:Hn.
  - constructor; [cbn; lia|]. eapply Forall_impl; [by apply IH|]. cbn. intros x [? ?]. lia.
  - cbn [new_session] in Hn. rewrite !orb_false_iff, negb_false_iff in Hn. destruct Hn as [_ Hl].
    rewrite neq_sym in Hl.
    constructor; [by cbn|]. eapply Forall_impl; [by apply IH|]. cbn. intros x [? Hx]. split; [done|].
    intros Hs. eapply neq_trans; [exact Hl|auto].
Qed.

Lemma number_sessions_one_label prev sid rows :
  Forall (λ r, is_nan (label r) = false) rows → one_label (number_sessions prev sid rows).
Proof.
  intros HF. revert prev sid. induction HF as [|r rows Hr HF IH]; intros prev sid x y; cbn [number_sessions].
  { by intros ?%not_elem_of_nil. }
  set (sid' := if new_session prev r then sid + 1 else sid).
  pose proof (number_sessions_from r sid' rows Hr HF) as Hf. rewrite Forall_forall in Hf.
  rewrite !elem_of_cons. intros [->|Hx] [->|Hy]; cbn [fst snd].
  - intros _. by apply neq_refl.
  - intros Hs. by apply Hf.
  - intros Hs. rewrite neq_sym. by apply Hf.
  - by apply (IH (Some r) sid').
Qed.

Lemma sessions_of_spec l sid : sid ∈ sessions_of l ↔ ∃ x, x ∈ l ∧ x.2 = sid.
Proof.
  unfold sessions_of. rewrite (py_sort_perm Z.ltb), distinct_Z, list_elem_of_fmap. naive_solver.
Qed.

Lemma session_rows_spec l sid r : r ∈ session_rows sid l ↔ (r, sid) ∈ l.
Proof.
  unfold session_rows, in_session. rewrite list_elem_of_fmap. split.
  - intros ([r' s] & -> & [H Hs]%elem_of_List_filter). cbn in *. by apply Z.eqb_eq in Hs as <-.
  - intros H. exists (r, sid). split; [done|]. apply elem_of_List_filter. split; [done|]. apply Z.eqb_refl.
Qed.

Lemma session_label_spec l sid :
  sid ∈ sessions_of l → ∃ r, (r, sid) ∈ l ∧ session_label l sid = label r.
Proof.
  intros ([r s] & Hx & Hs)%sessions_of_spec. cbn in Hs. subst s. unfold session_label.
  apply session_rows_spec in Hx. pose proof (session_rows_spec l sid) as Hspec.
  destruct (session_rows sid l) as [|r' rs]; [by apply not_elem_of_nil in Hx|].
  exists r'. split; [apply Hspec; left|done].
Qed.

(** Holding an eligible session out leaves another session with its label. *)
Lemma eligible_other l sid :
  sid ∈ eligible_sessions l →
  sid ∈ sessions_of l ∧ ∃ x, x ∈ l ∧ x.2 ≠ sid ∧ neq (label x.1) (session_label l sid) = true.
Proof.
  intros [Hs Hn]%elem_of_List_filter. split; [done|].
  rewrite negb_true_iff, Nat.ltb_ge in Hn. apply (distinct_Z_other _ sid) in Hn as (y & Hy & Hne).
  apply list_elem_of_fmap in Hy as (x & -> & [Hx Hl]%elem_of_List_filter). eauto.
Qed.

(** ** Balancing *)

Lemma has_label_inj n m s : has_label n s = true → has_label m s = true → n = m.
Proof.
  unfold has_label. intros Hn Hm. rewrite neq_sym in Hn. pose proof (neq_trans _ _ _ Hn Hm) as H.
  rewrite neq_int in H. by apply Z.eqb_eq.
Qed.

Definition count_label_n (n : Z) (d : list train_sample) : nat := length (List.filter (has_label n) d).

Lemma foldr_max_ge {A} (f : A → nat) l x : x ∈ l → (f x <= foldr Nat.max 0 (f <$> l))%nat.
Proof.
  induction l as [|y l IH]; [by intros ?%not_elem_of_nil|]. rewrite elem_of_cons. cbn. intros [->|H]; [lia|].
  specialize (IH H). lia.
Qed.

Section balance_facts.
Context (resample : list train_sample → nat → list train_sample).
(** Drawing with replacement gives as many samples as asked for, of those there are. *)
Hypothesis resample_draws : ∀ d n, d ≠ [] → length (resample d n) = n ∧ ∀ s, s ∈ resample d n → s ∈ d.

Definition class_of (n : Z) (d : list train_sample) : list train_sample := List.filter (has_label n) d.
Definition drawn (m : nat) (d : list train_sample) (n : Z) : list train_sample :=
  match class_of n d with [] => [] | c => resample c m end.

Lemma per_class_drawn m d :
  mjoin ((λ c, resample c m) <$> per_class d) = mjoin (drawn m d <$> [0; 1; 2]).
Proof.
  unfold per_class. fold (class_of). generalize [0; 1; 2] as ns. induction ns as [|n ns IH]; [done|].
  rewrite !fmap_cons. cbn [List.filter]. unfold drawn at 1. fold (class_of n d).
  destruct (class_of n d) eqn:Hc; cbn [length Nat.ltb Nat.leb]; [done|].
  rewrite fmap_cons. apply (f_equal (app (resample (t :: l) m)) IH).
Qed.

Lemma drawn_class m d n s : s ∈ drawn m d n → s ∈ d ∧ has_label n s = true.
Proof using resample_draws.
  unfold drawn. destruct (class_of n d) as [|s' c] eqn:Hc; [by intros ?%not_elem_of_nil|].
  intros Hs. apply resample_draws in Hs; [|done]. rewrite <-Hc in Hs. by apply elem_of_List_filter.
Qed.

Lemma drawn_count m d n k :
  count_label_n k (drawn m d n) =
    if n =? k then match class_of n d with [] => 0%nat | _ => m end else 0%nat.
Proof using resample_draws.
  unfold count_label_n. destruct (n =? k) eqn:Hnk.
  - apply Z.eqb_eq in Hnk as ->. rewrite filter_all.
    + unfold drawn. destruct (class_of k d) as [|s c]; [done|]. by apply (resample_draws (s :: c)).
    + apply Forall_forall. intros s Hs. by apply drawn_class in Hs as [_ ?].
  - destruct (List.filter _ _) as [|s f] eqn:Hf; [done|].
    assert (Hs : s ∈ List.filter (has_label k) (drawn m d n)) by (rewrite Hf; left).
    apply elem_of_List_filter in Hs as [Hs Hk]. apply drawn_class in Hs as [_ Hn].
    rewrite (has_label_inj n k s Hn Hk), Z.eqb_refl in Hnk. done.
Qed.

Lemma balance_sub d s : s ∈ balance_classes resample d → s ∈ d.
Proof using resample_draws.
  unfold balance_classes. destruct (_ <? _)%nat; [done|]. rewrite per_class_drawn.
  intros (c & Hs & (n & -> & _)%list_elem_of_fmap)%list_elem_of_join. by apply drawn_class in Hs as [? _].
Qed.

Lemma class_nonempty n d : class_of n d ≠ [] ↔ ∃ s, s ∈ d ∧ has_label n s = true.
Proof.
  unfold class_of. split.
  - intros H. destruct (List.filter _ d) as [|s f] eqn:Hf; [done|]. exists s. apply elem_of_List_filter. rewrite Hf. left.
  - intros (s & Hs) Hf. apply elem_of_List_filter in Hs. rewrite Hf in Hs. by apply not_elem_of_nil in Hs.
Qed.

Lemma count_drawn m d n :
  n ∈ [0; 1; 2] → count_label_n n (mjoin (drawn m d <$> [0; 1; 2])) =
    match class_of n d with [] => 0%nat | _ => m end.
Proof using resample_draws.
  intros Hn. cbn [fmap list_fmap mjoin list_join]. unfold count_label_n.
  rewrite !List.filter_app, !length_app. fold (count_label_n n (drawn m d 0)).
  fold (count_label_n n (drawn m d 1)). fold (count_label_n n (drawn m d 2)).
  rewrite !drawn_count. rewrite !elem_of_cons in Hn.
  destruct Hn as [->|[->|[->|Hn%not_elem_of_nil]]]; [..|done]; cbn; destruct (class_of _ d); lia.
Qed.

(** At least one sample of a class that is there is drawn. *)
Lemma max_size_pos d n : n ∈ [0; 1; 2] → class_of n d ≠ [] → (0 < max_size (per_class d))%nat.
Proof.
  intros Hn Hc. assert (Hin : class_of n d ∈ per_class d).
  { apply elem_of_List_filter. split; [by apply list_elem_of_fmap; exists n|].
    by destruct (class_of n d). }
  apply (foldr_max_ge length) in Hin. fold (max_size (per_class d)) in Hin.
  destruct (class_of n d); [done|]. cbn [length] in Hin. lia.
Qed.

Lemma balance_labels d n :
  n ∈ [0; 1; 2] →
  (∃ s, s ∈ balance_classes resample d ∧ has_label n s = true) ↔ ∃ s, s ∈ d ∧ has_label n s = true.
Proof using resample_draws.
  intros Hn. rewrite <-!class_nonempty. unfold balance_classes. destruct (_ <? _)%nat; [done|].
  rewrite per_class_drawn. pose proof (count_drawn (max_size (per_class d)) d n Hn) as Hc.
  pose proof (max_size_pos d n Hn) as Hp. unfold count_label_n in Hc. fold (class_of n (mjoin (drawn (max_size (per_class d)) d <$> [0; 1; 2]))) in Hc.
  destruct (class_of n (mjoin _)) as [|s f], (class_of n d) as [|s' c]; cbn [length] in Hc; try done.
  specialize (Hp ltac:(done)). lia.
Qed.

Lemma per_class_single d n m :
  n ∈ [0; 1; 2] → m ∈ [0; 1; 2] → n ≠ m → class_of n d ≠ [] → class_of m d ≠ [] →
  (2 ≤ length (per_class d))%nat.
Proof.
  intros Hn Hm Hne Hcn Hcm. unfold per_class.
  change (λ lbl, List.filter (has_label lbl) d) with (λ lbl, class_of lbl d).
  rewrite !elem_of_cons in Hn, Hm.
  destruct Hn as [->|[->|[->|Hn%not_elem_of_nil]]], Hm as [->|[->|[->|Hm%not_elem_of_nil]]]; try done; cbn;
    destruct (class_of 0 d), (class_of 1 d), (class_of 2 d); cbn; try done; lia.
Qed.

(** The classes that are there are equally large afterwards. *)
Lemma balance_even d n m :
  n ∈ [0; 1; 2] → m ∈ [0; 1; 2] → class_of n d ≠ [] → class_of m d ≠ [] →
  count_label_n n (balance_classes resample d) = count_label_n m (balance_classes resample d).
Proof using resample_draws.
  intros Hn Hm Hcn Hcm. destruct (decide (n = m)) as [->|Hne]; [done|].
  pose proof (per_class_single d n m Hn Hm Hne Hcn Hcm) as H2. unfold balance_classes.
  destruct (Nat.ltb_spec (length (per_class d)) 2); [lia|].
  rewrite per_class_drawn, !count_drawn by done.
  by destruct (class_of n d), (class_of m d).
Qed.
End balance_facts.

(** ** The prepared rows *)

Lemma finite_not_nan n : is_finite n = true → is_nan n = false.
Proof. unfold is_finite. by destruct n as [z|[]]. Qed.

Lemma cell_insert_ne c c' v r : c' ≠ c → cell c (<[c' := v]> r) = cell c r.
Proof. intros H. unfold cell, frow in *. f_equal. by apply (lookup_insert_ne (M:=gmap string)). Qed.

Lemma label_derive r : label (derive r) = label r.
Proof. unfold label, derive. by rewrite !cell_insert_ne. Qed.

Lemma clean_finite df c r : c ∈ columns df → r ∈ clean df → is_finite (cell c r) = true.
Proof.
  intros Hc [_ Hr]%distinct_from_sub%elem_of_List_filter. unfold row_finite in Hr. rewrite forallb_forall in Hr.
  by apply Hr, list_elem_of_In.
Qed.

Lemma required_present df c : missing_cols df = [] → c ∈ required_raw_cols → c ∈ columns df.
Proof.
  intros Hm Hc. destruct (decide (c ∈ columns df)) as [|Hn]; [done|].
  assert (Hin : c ∈ missing_cols df).
  { apply elem_of_List_filter. split; [done|]. by rewrite bool_decide_eq_false_2. }
  rewrite Hm in Hin. by apply not_elem_of_nil in Hin.
Qed.

Section prepared.
Context (sort_values : list frow → list frow) (warmup : num) (df : frame).
Hypothesis sorts : ∀ rows, sort_values rows ≡ₚ rows.
Hypothesis complete : missing_cols df = [].

Lemma detect_cell c r :
  c ∈ required_raw_cols → r ∈ (detect sort_values df).*1 → is_finite (cell c r) = true.
Proof using sorts complete.
  unfold detect. rewrite number_sessions_fst, sorts. intros Hc. apply clean_finite.
  by apply required_present.
Qed.

Lemma prepare_spec x :
  x ∈ prepare sort_values warmup df ↔
  ∃ y, x = (derive y.1, y.2) ∧ y ∈ detect sort_values df ∧
       in_warmup warmup (detect sort_values df) y = false ∧ is_idle_ddos y.1 = false.
Proof using.
  unfold prepare, drop_idle, drop_warmup. rewrite list_elem_of_fmap. unfold prod_map, id.
  split.
  - intros (y & -> & [[Hy Hw]%elem_of_List_filter Hi]%elem_of_List_filter).
    rewrite negb_true_iff in Hw, Hi. eauto.
  - intros (y & -> & Hy & Hw & Hi). exists y. split; [done|].
    rewrite !elem_of_List_filter, Hw, Hi. done.
Qed.

Lemma prepare_labeled : Forall labeled (prepare sort_values warmup df).
Proof using sorts complete.
  apply Forall_forall. intros x (y & -> & Hy & _)%prepare_spec. unfold labeled. cbn [fst].
  rewrite label_derive. apply finite_not_nan. apply detect_cell; [by vm_compute; repeat (left || right)|].
  by apply list_elem_of_fmap_2.
Qed.

Lemma prepare_one_label : one_label (prepare sort_values warmup df).
Proof using sorts complete.
  intros x x' (y & -> & Hy & _)%prepare_spec (y' & -> & Hy' & _)%prepare_spec. cbn [fst snd].
  rewrite !label_derive. revert Hy Hy'. generalize y y'. clear y y'. apply number_sessions_one_label.
  apply Forall_forall. intros r Hr. apply finite_not_nan, detect_cell; [by vm_compute; repeat (left || right)|].
  unfold detect. by rewrite number_sessions_fst.
Qed.
End prepared.

Lemma samples_spec l s : s ∈ samples l ↔ ∃ x, x ∈ l ∧ s = sample_of x.1.
Proof.
  unfold samples. rewrite list_elem_of_fmap. setoid_rewrite list_elem_of_fmap. naive_solver.
Qed.

Lemma others_spec sid l x : x ∈ List.filter (λ x, negb (in_session sid x)) l ↔ x ∈ l ∧ x.2 ≠ sid.
Proof. rewrite elem_of_List_filter. unfold in_session. by rewrite negb_true_iff, Z.eqb_neq. Qed.

(** Whatever class is in the data is in the training part of an eligible fold. *)
Lemma fold_keeps_label l sid n :
  one_label l → Forall labeled l → sid ∈ eligible_sessions l →
  (∃ s, s ∈ samples (List.filter (λ x, negb (in_session sid x)) l) ∧ has_label n s = true) ↔
  (∃ x, x ∈ l ∧ is_label n x.1 = true).
Proof.
  intros Hone Hlab [Hs (y & Hy & Hne & Hl)]%eligible_other. split.
  - intros (s & (x & [Hx _]%others_spec & ->)%samples_spec & Hn). by exists x.
  - intros (x & Hx & Hn). destruct (decide (x.2 = sid)) as [Hxs|Hxs].
    + exists (sample_of y.1). split.
      { apply samples_spec. exists y. split; [by apply others_spec|done]. }
      apply session_label_spec in Hs as (r & Hr & Hsl). rewrite Hsl in Hl.
      pose proof (Hone (r, sid) x Hr Hx (eq_sym Hxs)) as Hrx. cbn [fst] in Hrx.
      unfold has_label, is_label in *. cbn [sample_of snd].
      eapply neq_trans; [|exact Hn]. by eapply neq_trans.
    + exists (sample_of x.1). split; [|done]. apply samples_spec. exists x. split; [by apply others_spec|done].
Qed.

(** C19: a held-out session is never trained on, and holding it out never costs
    the training part a class: every fold trains on the classes of the whole
    data, each equally often, and is tested on rows of one label. *)
Theorem folds_fair sort_values resample warmup df sid :
  (∀ rows, sort_values rows ≡ₚ rows) →
  (∀ d n, d ≠ [] → length (resample d n) = n ∧ ∀ s, s ∈ resample d n → s ∈ d) →
  missing_cols df = [] →
  let l := prepare sort_values warmup df in
  sid ∈ eligible_sessions l →
  fold_test l sid ≠ [] ∧
  (∀ s, s ∈ fold_test l sid → neq s.2 (session_label l sid) = true) ∧
  (∀ s, s ∈ fold_train resample l sid → ∃ x, x ∈ l ∧ x.2 ≠ sid ∧ s = sample_of x.1) ∧
  (∀ n, n ∈ [0; 1; 2] →
     (∃ s, s ∈ fold_train resample l sid ∧ has_label n s = true) ↔ ∃ x, x ∈ l ∧ is_label n x.1 = true) ∧
  (∀ n m x y, n ∈ [0; 1; 2] → m ∈ [0; 1; 2] → x ∈ l → y ∈ l → is_label n x.1 = true → is_label m y.1 = true →
     count_label_n n (fold_train resample l sid) = count_label_n m (fold_train resample l sid)).
Proof.
  intros Hsort Hres Hm l Hsid.
  pose proof (prepare_one_label sort_values warmup df Hsort Hm) as Hone. fold l in Hone.
  pose proof (prepare_labeled sort_values warmup df Hsort Hm) as Hlab. fold l in Hlab.
  pose proof (λ n, fold_keeps_label l sid n Hone Hlab Hsid) as Hkeep.
  destruct (eligible_other l sid Hsid) as [Hs _]. apply session_label_spec in Hs as (r & Hr & Hsl).
  split_and!.
  - unfold fold_test. apply session_rows_spec in Hr. by destruct (session_rows sid l); [apply not_elem_of_nil in Hr|].
  - intros s (r' & -> & Hr'%session_rows_spec)%list_elem_of_fmap. rewrite Hsl. by apply (Hone (r', sid) (r, sid)).
  - intros s Hin%(balance_sub resample Hres). apply samples_spec in Hin as (x & [Hx Hne]%others_spec & ->). eauto.
  - intros n Hn. unfold fold_train. by rewrite (balance_labels resample Hres _ n Hn).
  - intros n k x y Hn Hk Hx Hy Hlx Hly. unfold fold_train. apply balance_even; try done;
      apply class_nonempty, Hkeep; eauto.
Qed.

(** ** The leave-one-session-out sweep *)

Lemma map_res_Forall2 {A B} (f : A → res B) (P : A → B → Prop) l :
  (∀ x, x ∈ l → ∃ y, f x = Ok y ∧ P x y) → ∃ ys, map_res f l = Ok ys ∧ Forall2 P l ys.
Proof.
  induction l as [|x l IH]; intros H; [by exists []|].
  destruct (H x) as (y & Hy & HP); [left|]. destruct IH as (ys & Hys & HF); [intros; apply H; by right|].
  exists (y :: ys). cbn [map_res]. rewrite Hy. cbn [mbind res_bind]. rewrite Hys. by auto.
Qed.

Lemma map_res_app {A B} (f : A → res B) l1 l2 ys1 ys2 :
  map_res f l1 = Ok ys1 → map_res f l2 = Ok ys2 → map_res f (l1 ++ l2) = Ok (ys1 ++ ys2).
Proof.
  revert ys1. induction l1 as [|x l1 IH]; intros ys1; cbn [map_res app].
  { by intros [= <-]. }
  destruct (f x) as [y|]; cbn [mbind res_bind]; [|done].
  destruct (map_res f l1) as [ys|]; cbn [mbind res_bind]; [|done]. intros [= <-] H2.
  by rewrite (IH ys eq_refl H2).
Qed.

Lemma argmax_from_lt i best bv l : (best < i)%nat → (argmax_from i best bv l < i + length l)%nat.
Proof.
  revert i best bv. induction l as [|x l IH]; intros i best bv Hb; cbn [argmax_from length]; [lia|].
  destruct (is_nan bv); [lia|]. destruct (_ || _); (eapply Nat.lt_le_trans; [apply IH; lia|lia]).
Qed.

(** The columns of the probabilities are the classes. *)
Lemma top_classes_total classes probas :
  classes ≠ [] → Forall (λ p, length p = length classes) probas →
  ∃ pred, top_classes classes probas = Ok pred ∧ length pred = length probas.
Proof.
  intros Hc HF. destruct (map_res_Forall2 (λ p, i ← argmax p; list_at classes i) (λ _ _, True) probas) as (ys & H & H2).
  { intros p Hp. rewrite Forall_forall in HF. specialize (HF p Hp).
    destruct p as [|x p]; [by destruct classes|]. cbn [argmax mbind res_bind].
    pose proof (argmax_from_lt 1 0 x p ltac:(lia)) as Hlt.
    destruct (lookup_lt_is_Some_2 classes (argmax_from 1 0 x p)) as [y Hy]; [cbn [length] in HF; lia|].
    exists y. unfold list_at. by rewrite Hy. }
  exists ys. split; [done|]. symmetry. by eapply Forall2_length.
Qed.

Lemma sorted_same (l1 l2 : list num) :
  StronglySorted (λ a b, nlt a b = true) l1 → StronglySorted (λ a b, nlt a b = true) l2 →
  (∀ c, c ∈ l1 ↔ c ∈ l2) → l1 = l2.
Proof.
  intros H1 H2 H.
  assert (Hnd : ∀ l, StronglySorted (λ a b, nlt a b = true) l → NoDup l).
  { induction 1 as [|x l Hs IH HF]; constructor; [|done]. intros Hx. rewrite Forall_forall in HF.
    specialize (HF x Hx). by rewrite nlt_irrefl in HF. }
  apply (StronglySorted_unique_strong (λ a b, nlt a b = true)); [|done|done|].
  - intros x y _ _ Hxy Hyx. apply nlt_asym in Hxy. congruence.
  - apply NoDup_Permutation; auto.
Qed.

(** What documentation promises of a fitted classifier: its classes are the
    sorted labels it was fitted to, and a probability for each. *)
Record LearnerLaws (L : Learner) : Prop := {
  fit_classes p d m : ln_fit L p d = Ok m →
    StronglySorted (λ a b, nlt a b = true) (ln_classes L m) ∧ ∀ c, c ∈ ln_classes L m ↔ c ∈ d.*2;
  proba_shape m xs : length (ln_proba L m xs) = length xs ∧
    Forall (λ p, length p = length (ln_classes L m)) (ln_proba L m xs) }.

(** Blocks with one set of classes are stacked and judged as one. *)
Record fold_ok (cs : list num) (truth : list num) (f : FoldResult) : Prop := {
  fo_classes : fr_classes f = cs;
  fo_top : top_classes cs (fr_proba f) = Ok (fr_pred f);
  fo_len : length (fr_pred f) = length (fr_true f);
  fo_width : Forall (λ p, length p = length cs) (fr_proba f);
  fo_truth : fr_true f = truth }.

Lemma folds_stack cs truths fs :
  Forall2 (fold_ok cs) truths fs →
  vstack (fr_proba <$> fs) = Ok (mjoin (fr_proba <$> fs)) ∧
  top_classes cs (mjoin (fr_proba <$> fs)) = Ok (folds_pred fs) ∧
  length (folds_pred fs) = length (folds_true fs) ∧ folds_true fs = mjoin truths.
Proof.
  intros HF.
  assert (Hw : Forall (λ p, length p = length cs) (mjoin (fr_proba <$> fs))).
  { apply Forall_join. induction HF as [|t f ts fs' Hf _ IH]; cbn; constructor; [apply Hf|done]. }
  split.
  { unfold vstack. destruct (mjoin (fr_proba <$> fs)) as [|r rs]; [done|].
    apply Forall_cons in Hw as [Hr Hrs]. replace (forallb _ rs) with true; [done|]. symmetry.
    apply forallb_forall. intros r' Hr'%list_elem_of_In. rewrite Forall_forall in Hrs. rewrite (Hrs r' Hr'), Hr.
    apply Nat.eqb_refl. }
  clear Hw. unfold folds_pred, folds_true.
  induction HF as [|t f ts fs' Hf HF IH]; [done|]. destruct IH as (IH1 & IH2 & IH3). rewrite !fmap_cons.
  split_and!.
  - by apply (map_res_app _ (fr_proba f) (mjoin (fr_proba <$> fs')) (fr_pred f)); [apply Hf|].
  - cbn [mjoin list_join]. rewrite !length_app, (fo_len _ _ _ Hf). f_equal. exact IH2.
  - cbn [mjoin list_join]. rewrite (fo_truth _ _ _ Hf). f_equal. exact IH3.
Qed.

Section sweep.
Context (L : Learner) (resample : list train_sample → nat → list train_sample).
Context (sort_values : list frow → list frow) (warmup : num) (df : frame).
Hypothesis laws : LearnerLaws L.
Hypothesis draws : ∀ d n, d ≠ [] → length (resample d n) = n ∧ ∀ s, s ∈ resample d n → s ∈ d.
Hypothesis sorts : ∀ rows, sort_values rows ≡ₚ rows.
Hypothesis complete : missing_cols df = [].
Hypothesis three_labels : ∀ r, r ∈ df_rows df → ∃ n, n ∈ [0; 1; 2] ∧ label r = NInt n.

Local Abbreviation l := (prepare sort_values warmup df).

Lemma prepare_label_of x : x ∈ l → ∃ n, n ∈ [0; 1; 2] ∧ label x.1 = NInt n.
Proof using sorts three_labels.
  intros (y & -> & Hy & _)%prepare_spec. cbn [fst]. rewrite label_derive. apply three_labels.
  assert (Hc : y.1 ∈ clean df).
  { rewrite <-(sorts (clean df)), <-(number_sessions_fst None 0). apply list_elem_of_fmap. eauto. }
  apply distinct_from_sub in Hc. by apply elem_of_List_filter in Hc as [? _].
Qed.

(** Every eligible fold is trained on the labels of the data. *)
Lemma fold_labels sid c :
  sid ∈ eligible_sessions l → c ∈ (fold_train resample l sid).*2 ↔ ∃ x, x ∈ l ∧ label x.1 = c.
Proof using sorts three_labels draws complete.
  intros Hsid. pose proof (prepare_one_label sort_values warmup df sorts complete) as Hone.
  pose proof (prepare_labeled sort_values warmup df sorts complete) as Hlab.
  assert (Hsub : ∀ s, s ∈ fold_train resample l sid → ∃ x, x ∈ l ∧ s = sample_of x.1).
  { intros s Hs%(balance_sub resample draws). apply samples_spec in Hs as (x & [Hx _]%others_spec & ->). eauto. }
  rewrite list_elem_of_fmap. split.
  - intros (s & -> & (x & Hx & ->)%Hsub). eauto.
  - intros (x & Hx & <-). destruct (prepare_label_of x Hx) as (n & Hn & Hxn).
    assert (Hin : is_label n x.1 = true) by (unfold is_label; rewrite Hxn, neq_int; apply Z.eqb_refl).
    destruct (proj2 (balance_labels resample draws _ n Hn)
                (proj2 (fold_keeps_label l sid n Hone Hlab Hsid) (ex_intro _ x (conj Hx Hin)))) as (s & Hs & Hsn).
    exists s. split; [|done]. destruct (Hsub s Hs) as (x' & Hx' & ->).
    destruct (prepare_label_of x' Hx') as (n' & _ & Hxn'). unfold has_label in Hsn. cbn [sample_of snd] in *.
    rewrite Hxn', neq_int in Hsn. apply Z.eqb_eq in Hsn. congruence.
Qed.

Lemma sweep_folds param :
  eligible_sessions l ≠ [] →
  (∀ sid, sid ∈ eligible_sessions l → ∃ m, ln_fit L param (fold_train resample l sid) = Ok m) →
  ∃ cs fs, map_res (run_fold L resample param l) (eligible_sessions l) = Ok fs ∧
    Forall2 (λ sid f, fold_ok cs (label <$> session_rows sid l) f) (eligible_sessions l) fs.
Proof using laws draws sorts complete three_labels.
  intros Hne Hfit. destruct (eligible_sessions l) as [|sid0 sids] eqn:He; [done|]. rewrite <-He in *.
  assert (Hs0 : sid0 ∈ eligible_sessions l) by (rewrite He; left).
  destruct (Hfit sid0 Hs0) as [m0 Hm0]. exists (ln_classes L m0).
  apply map_res_Forall2. intros sid Hsid. destruct (Hfit sid Hsid) as [m Hm].
  destruct (fit_classes L laws _ _ _ Hm0) as [Hsort0 Hc0]. destruct (fit_classes L laws _ _ _ Hm) as [Hsort Hc].
  assert (Hcs : ln_classes L m = ln_classes L m0).
  { apply sorted_same; [done..|]. intros c. by rewrite Hc, Hc0, !fold_labels. }
  destruct (proba_shape L laws m (fold_test l sid).*1) as [Hlen Hw].
  destruct (top_classes_total (ln_classes L m) (ln_proba L m (fold_test l sid).*1)) as (pred & Hp & Hpl); [|done|].
  { intros Hnil. pose proof (eligible_other l sid Hsid) as [_ (x & Hx & _)].
    assert (Hin : label x.1 ∈ ln_classes L m) by (rewrite Hc, fold_labels by done; eauto).
    rewrite Hnil in Hin. by apply not_elem_of_nil in Hin. }
  exists (mkFoldResult (fold_test l sid).*2 pred (ln_proba L m (fold_test l sid).*1) (ln_classes L m)).
  split.
  - unfold run_fold. rewrite Hm. cbn [mbind res_bind]. by rewrite Hp.
  - rewrite <-Hcs. constructor; cbn; try done.
    + rewrite Hpl, Hlen, !length_fmap. done.
    + unfold fold_test. by rewrite <-list_fmap_compose.
Qed.

Lemma last_classes_ok cs truths fs :
  Forall2 (fold_ok cs) truths fs → fs ≠ [] → last_classes fs = cs.
Proof.
  unfold last_classes. intros HF Hne. destruct (last fs) as [f|] eqn:Hl; [|by apply last_None in Hl].
  apply last_Some in Hl as [fs' ->]. apply Forall2_app_inv_r in HF as (t1 & t2 & _ & HF & _).
  apply Forall2_cons_inv_r in HF as (t & ? & Hf & _). apply Hf.
Qed.
End sweep.

(** C20: The sweep raises only what fitting raises, although it stacks the
    probabilities of all folds and reads them with the classes of the last one:
    the true labels are the held-out rows in order, there is one prediction for
    each, and the confident share counts exactly the rows predicted right with a
    top probability at or above the threshold. *)
Theorem loso_evaluates L resample sort_values warmup threshold df param :
  LearnerLaws L →
  (∀ d n, d ≠ [] → length (resample d n) = n ∧ ∀ s, s ∈ resample d n → s ∈ d) →
  (∀ rows, sort_values rows ≡ₚ rows) →
  missing_cols df = [] →
  (∀ r, r ∈ df_rows df → ∃ n, n ∈ [0; 1; 2] ∧ label r = NInt n) →
  let l := prepare sort_values warmup df in
  eligible_sessions l ≠ [] →
  (∀ sid, sid ∈ eligible_sessions l → ∃ m, ln_fit L param (fold_train resample l sid) = Ok m) →
  ∃ fs c,
    map_res (run_fold L resample param l) (eligible_sessions l) = Ok fs ∧
    evaluate_depth L resample threshold l param = Ok c ∧ cd_param c = param ∧
    cd_true c = mjoin ((λ sid, label <$> session_rows sid l) <$> eligible_sessions l) ∧
    length (cd_pred c) = length (cd_true c) ∧
    cd_acc c = mean_bool (hits (cd_true c) (cd_pred c)) ∧
    cd_share c = mean_bool (zip_with andb (hits (cd_pred c) (cd_true c))
                              ((λ p, nle threshold (np_max p)) <$> mjoin (fr_proba <$> fs))).
Proof.
  intros Hlaws Hdraws Hsorts Hm Hlab l Hne Hfit.
  destruct (sweep_folds L resample sort_values warmup df Hlaws Hdraws Hsorts Hm Hlab param Hne Hfit) as (cs & fs & Hfs & HF).
  fold l in Hfs, HF.
  assert (HF' : Forall2 (fold_ok cs) ((λ sid, label <$> session_rows sid l) <$> eligible_sessions l) fs) by by apply Forall2_fmap_l.
  destruct (folds_stack cs _ fs HF') as (Hv & Ht & Hlen & Htrue).
  exists fs, (mkCandidate param (overall_acc fs)
    (mean_bool (zip_with andb (hits (folds_pred fs) (folds_true fs)) ((λ p, nle threshold (np_max p)) <$> mjoin (fr_proba <$> fs))))
    (folds_true fs) (folds_pred fs)).
  split_and!; try done. unfold evaluate_depth. rewrite Hfs. cbn [mbind res_bind]. rewrite Hv. cbn [mbind res_bind].
  unfold confident_share. rewrite (last_classes_ok cs _ fs HF').
  - by rewrite Ht.
  - intros ->. apply Forall2_length in HF. by destruct (eligible_sessions l).
Qed.
