(* ===== verification/TrainPick.v ===== *)
(** * What the training programs select *)

From stdpp Require Import gmap sets.
From Stdlib Require Import SpecFloat.
From S2P Require Import Prelude PyNum PyStat AutoLabel TrainData TrainRun TrainFacts.

#[local] Open Scope Z_scope.

(** ** Shares *)

Lemma count_true_le l : (count_true l <= length l)%nat.
Proof. apply sublist_length, List_filter_sublist. Qed.

(** The mean of at least one boolean is a finite number. *)
Lemma mean_bool_finite l : l ≠ [] → ∃ f, mean_bool l = NFlt f ∧ is_finite (NFlt f) = true.
Proof.
  intros Hl. unfold mean_bool. destruct l as [|b l]; [done|]. eexists. split; [done|].
  apply flt_ratio_finite; pose proof (count_true_le (b :: l)); cbn [length] in *; lia.
Qed.

Lemma mean_bool_not_nan l : l ≠ [] → is_nan (mean_bool l) = false.
Proof. intros (f & -> & Hf)%mean_bool_finite. by apply finite_not_nan. Qed.

(** ** Picking *)

Section pick_facts.
Context {A : Type}.

Lemma near_best_spec (score : A → num) tol l :
  l ≠ [] → (∀ c, c ∈ l → is_nan (score c) = false) →
  ∃ best r, best ∈ l ∧ (∀ c, c ∈ l → nle (score c) (score best) = true) ∧ near_best score tol l = Ok r ∧
    ∀ c, c ∈ r ↔ c ∈ l ∧ nle (nsub (score best) tol) (score c) = true.
Proof.
  intros Hne Hnan. destruct l as [|x l]; [done|]. cbn [near_best].
  pose proof (py_max_list_in (score x) (score <$> l)) as Hin. change (score x :: (score <$> l)) with (score <$> x :: l) in Hin.
  apply list_elem_of_fmap in Hin as (best & Hb & Hbl). exists best.
  eexists. split; [done|]. rewrite Hb. split_and!; [|done|intros c; by rewrite elem_of_List_filter].
  intros c Hc. rewrite <-Hb. apply py_max_list_ge.
  - change (score x :: (score <$> l)) with (score <$> x :: l). apply Forall_fmap, Forall_forall. auto.
  - change (score x :: (score <$> l)) with (score <$> x :: l). apply list_elem_of_fmap; eauto.
Qed.

Lemma param_lt_trans p q r : param_lt p q = false → param_lt q r = false → param_lt p r = false.
Proof. destruct p, q, r; cbn; try done. rewrite !Z.ltb_ge. lia. Qed.
Lemma param_lt_irrefl p : param_lt p p = false.
Proof. destruct p; cbn; [apply Z.ltb_irrefl|done]. Qed.
Lemma param_lt_asym p q : param_lt p q = true → param_lt q p = false.
Proof. destruct p, q; cbn; try done. rewrite Z.ltb_lt, Z.ltb_ge. lia. Qed.

Lemma simplest_spec (param : A → option Z) l :
  l ≠ [] → ∃ c, simplest param l = Ok c ∧ c ∈ l ∧ ∀ c', c' ∈ l → param_lt (param c') (param c) = false.
Proof.
  destruct l as [|x l]; [done|]. intros _. cbn [simplest]. eexists. split; [done|]. revert x.
  induction l as [|y l IH]; intros x; cbn [foldl].
  { split; [left|]. intros c' ->%list_elem_of_singleton. apply param_lt_irrefl. }
  destruct (param_lt (param y) (param x)) eqn:Hlt.
  - destruct (IH y) as [Hin Hmin]. split; [set_solver|]. intros c' [->|Hc]%elem_of_cons; [|auto].
    eapply param_lt_trans; [by apply param_lt_asym|]. apply Hmin. left.
  - destruct (IH x) as [Hin Hmin]. split; [set_solver|].
    intros c' [->|[->|Hc]%elem_of_cons]%elem_of_cons; [apply Hmin; left| |apply Hmin; by right].
    eapply param_lt_trans; [done|]. apply Hmin. left.
Qed.
End pick_facts.

(** Taking the tolerance off a score does not raise it. *)
Definition tolerates (tol score : num) : Prop := is_nan score = false ∧ nle (nsub score tol) score = true.

(** C21: Among depths scored by numbers one is always picked: its accuracy is
    within the tolerance of the best, its confident share within the tolerance
    of the best share of those, and no simpler depth qualifies. *)
Theorem pick_depth_spec candidates accuracy_tolerance share_tolerance :
  candidates ≠ [] →
  (∀ c, c ∈ candidates → tolerates accuracy_tolerance (cd_acc c) ∧ tolerates share_tolerance (cd_share c)) →
  ∃ c peak top,
    let near c' := nle (nsub (cd_acc peak) accuracy_tolerance) (cd_acc c') in
    let confident c' := nle (nsub (cd_share top) share_tolerance) (cd_share c') in
    pick_depth candidates accuracy_tolerance share_tolerance = Ok c ∧
    peak ∈ candidates ∧ (∀ c', c' ∈ candidates → nle (cd_acc c') (cd_acc peak) = true) ∧
    top ∈ candidates ∧ near top = true ∧
    (∀ c', c' ∈ candidates → near c' = true → nle (cd_share c') (cd_share top) = true) ∧
    c ∈ candidates ∧ near c = true ∧ confident c = true ∧
    ∀ c', c' ∈ candidates → near c' = true → confident c' = true → param_lt (cd_param c') (cd_param c) = false.
Proof.
  intros Hne Htol. unfold pick_depth.
  destruct (near_best_spec cd_acc accuracy_tolerance candidates) as (peak & r & Hpeak & Hmax & -> & Hr); [done|apply Htol|].
  assert (Hpr : peak ∈ r) by (apply Hr; split; [done|apply Htol; done]).
  destruct (near_best_spec cd_share share_tolerance r) as (top & r' & Htop & Hmax' & Hn & Hr').
  { intros ->. by apply not_elem_of_nil in Hpr. }
  { intros c Hc. apply Htol. by apply Hr in Hc as [Hc _]. }
  cbn [mbind res_bind]. rewrite Hn. cbn [mbind res_bind].
  assert (Htr : top ∈ r') by (apply Hr'; split; [done|]; apply Htol; by apply Hr in Htop as [? _]).
  destruct (simplest_spec cd_param r') as (c & Hs & Hc & Hmin); [by intros ->; apply not_elem_of_nil in Htr|].
  exists c, peak, top. cbv zeta. apply Hr' in Hc as [Hc Hcs]. apply Hr in Hc as [Hc Hca]. apply Hr in Htop as [Htop Hta].
  split_and!; try done.
  - intros c' Hc' Hnear. apply Hmax', Hr. done.
  - intros c' Hc' Hnear Hconf. apply Hmin, Hr'. split; [|done]. by apply Hr.
Qed.

(** ** The Isolation Forest's contamination *)

Section forest.
Context (F : Forest).

Lemma sweep_foldl rows s cs :
  sweep F rows s cs = (ts ← map_res (try_contamination F rows) cs; Ok (foldl (sweep_step F) s ts)).
Proof.
  revert s. induction cs as [|c cs IH]; intros s; cbn [sweep map_res]; [done|].
  destruct (try_contamination F rows c); cbn [mbind res_bind]; [|done]. rewrite IH.
  by destruct (map_res _ cs).
Qed.

Definition rates_known (t : Tried) : Prop := is_nan (separation t) = false ∧ is_nan (td_benign_rate t) = false.

(** What the two running choices are worth after some candidates. *)
Definition sweep_inv (ts : list (Tried * fo_model F)) (s : sweep_state F) : Prop :=
  match s.1 with
  | Some t => t ∈ ts ∧ within_cap t.1 = true ∧
              ∀ t', t' ∈ ts → within_cap t'.1 = true → nle (separation t'.1) (separation t.1) = true
  | None => ∀ t', t' ∈ ts → within_cap t'.1 = false
  end ∧
  match s.2 with
  | Some t => t ∈ ts ∧ ∀ t', t' ∈ ts → nle (td_benign_rate t.1) (td_benign_rate t'.1) = true
  | None => ts = []
  end.

Lemma sweep_step_inv ts s t :
  Forall (λ t, rates_known t.1) ts → rates_known t.1 →
  sweep_inv ts s → sweep_inv (ts ++ [t]) (sweep_step F s t).
Proof.
  rewrite Forall_forall. intros Hts [Hsep Hben] [Hb Hq]. split; cbn [sweep_step fst snd].
  - destruct (within_cap t.1) eqn:Hw; cbn [andb].
    2: { destruct s.1 as [b|]; [destruct Hb as (? & ? & Hb); split_and!; [set_solver|done|]|];
           intros t' [Ht'| ->%list_elem_of_singleton]%elem_of_app; auto; congruence. }
    destruct s.1 as [b|]; cbn [better].
    + destruct Hb as (Hin & Hbw & Hb). destruct (Hts b Hin) as [Hbs _].
      destruct b as [b mb]. cbn [fst] in *. destruct (nlt (separation b) (separation t.1)) eqn:Hlt.
      * split_and!; [set_solver|done|]. intros t' [Ht'| ->%list_elem_of_singleton]%elem_of_app Hw'; [|by apply nle_refl].
        eapply nle_trans; [by apply Hb|]. by apply nlt_nle.
      * split_and!; [set_solver|done|]. intros t' [Ht'| ->%list_elem_of_singleton]%elem_of_app Hw'; [by apply Hb|].
        rewrite nlt_nge in Hlt by done. by apply negb_false_iff in Hlt.
    + split_and!; [set_solver|done|]. intros t' [Ht'| ->%list_elem_of_singleton]%elem_of_app Hw'; [|by apply nle_refl].
      rewrite Hb in Hw' by done. done.
  - destruct s.2 as [q|]; cbn [quieter].
    + destruct Hq as (Hin & Hq). destruct (Hts q Hin) as [_ Hqs]. destruct q as [q mq]. cbn [fst] in *.
      destruct (nlt (td_benign_rate t.1) (td_benign_rate q)) eqn:Hlt.
      * split; [set_solver|]. intros t' [Ht'| ->%list_elem_of_singleton]%elem_of_app; [|by apply nle_refl].
        eapply nle_trans; [by apply nlt_nle|by apply Hq].
      * split; [set_solver|]. intros t' [Ht'| ->%list_elem_of_singleton]%elem_of_app; [by apply Hq|].
        rewrite nlt_nge in Hlt by done. by apply negb_false_iff in Hlt.
    + subst ts. split; [set_solver|]. intros t' [Ht'| ->%list_elem_of_singleton]%elem_of_app; [set_solver|by apply nle_refl].
Qed.

Lemma sweep_foldl_inv ts :
  Forall (λ t, rates_known t.1) ts → sweep_inv ts (foldl (sweep_step F) (None, None) ts).
Proof.
  induction ts as [|t ts IH] using rev_ind; intros HF.
  { split; [|done]. intros t H. by apply not_elem_of_nil in H. }
  apply Forall_app in HF as [HF Ht]. rewrite foldl_snoc. apply Forall_inv in Ht. apply sweep_step_inv; auto.
Qed.

(** Rates of both kinds of rows are known when there are rows of both kinds. *)
Lemma masked_nonempty (mask outlier : list bool) :
  length outlier = length mask → true ∈ mask → (List.filter fst (zip mask outlier)).*2 ≠ [].
Proof.
  revert outlier. induction mask as [|b mask IH]; intros [|o outlier]; cbn [length]; [set_solver|lia|lia|].
  intros [= Hl] Hin. cbn [zip zip_with List.filter fst]. destruct b; [done|]. apply IH; [done|set_solver].
Qed.

Lemma try_known rows c t :
  (∀ m xs, length (fo_outlier F m xs) = length xs) →
  existsb is_ddos_label rows = true → existsb (λ r, negb (is_ddos_label r)) rows = true →
  try_contamination F rows c = Ok t → rates_known t.1.
Proof.
  intros Hlen Hd Hb. unfold try_contamination. destruct (fo_fit F c (features rows)) as [m|]; cbn [mbind res_bind]; [|done].
  intros [= <-]. unfold rates_known, separation, masked_mean. cbn [fst td_ddos_rate td_benign_rate].
  apply existsb_exists in Hd as (d & Hd%list_elem_of_In & Hdl). apply existsb_exists in Hb as (b & Hb%list_elem_of_In & Hbl).
  destruct (mean_bool_finite (List.filter fst (zip (is_ddos_label <$> rows) (fo_outlier F m (features rows)))).*2) as (f & -> & Hf).
  { apply masked_nonempty; [by unfold features; rewrite Hlen, !length_fmap|]. apply list_elem_of_fmap. by exists d. }
  destruct (mean_bool_finite (List.filter fst (zip (negb <$> (is_ddos_label <$> rows)) (fo_outlier F m (features rows)))).*2) as (g & -> & Hg).
  { apply masked_nonempty; [by unfold features; rewrite Hlen, !length_fmap|]. apply list_elem_of_fmap. exists false. split; [done|].
    apply list_elem_of_fmap. exists b. split; [|done]. by apply negb_true_iff in Hbl. }
  split; [by apply nsub_not_nan|by apply finite_not_nan].
Qed.
End forest.

(** With rows of both kinds and fits that succeed, the contamination saved
    separates DDoS rows best among those that keep the benign outlier rate at or
    below the cap; when none does, it is the least noisy of all. *)
Theorem contamination_spec F rows :
  (∀ m xs, length (fo_outlier F m xs) = length xs) →
  existsb is_ddos_label rows = true → existsb (λ r, negb (is_ddos_label r)) rows = true →
  (∀ c, c ∈ CANDIDATE_CONTAMINATIONS → ∃ m, fo_fit F c (features rows) = Ok m) →
  ∃ ts t clf,
    map_res (try_contamination F rows) CANDIDATE_CONTAMINATIONS = Ok ts ∧
    fit_forest F rows = Ok (td_contamination t, clf) ∧ (t, clf) ∈ ts ∧
    ((∃ t', t' ∈ ts ∧ within_cap t'.1 = true) → within_cap t = true ∧
       ∀ t', t' ∈ ts → within_cap t'.1 = true → nle (separation t'.1) (separation t) = true) ∧
    ((∀ t', t' ∈ ts → within_cap t'.1 = false) →
       ∀ t', t' ∈ ts → nle (td_benign_rate t) (td_benign_rate t'.1) = true).
Proof.
  intros Hlen Hd Hb Hfit.
  destruct (map_res_Forall2 (try_contamination F rows) (λ _ t, rates_known t.1) CANDIDATE_CONTAMINATIONS) as (ts & Hts & HF).
  { intros c Hc. destruct (Hfit c Hc) as [m Hm].
    assert (Hex : ∃ t, try_contamination F rows c = Ok t).
    { unfold try_contamination. rewrite Hm. by eexists. }
    destruct Hex as [t Ht]. exists t. split; [done|]. by eapply try_known. }
  assert (Hk : Forall (λ t, rates_known t.1) ts) by (eapply (Forall2_Forall_r _ (λ t, rates_known t.1)); [exact HF|]; by apply Forall_forall).
  pose proof (sweep_foldl_inv F ts Hk) as [Hbest Hquiet]. exists ts.
  unfold fit_forest. rewrite Hd. cbn [negb]. rewrite sweep_foldl, Hts. cbn [mbind res_bind].
  destruct (foldl (sweep_step F) (None, None) ts) as [[[t clf]|] [[q qlf]|]]; cbn [fst snd] in *.
  - destruct Hbest as (Hin & Hw & Hmax). exists t, clf. split_and!; auto.
    intros Hno. specialize (Hno _ Hin). cbn in Hno. congruence.
  - destruct Hbest as (Hin & Hw & Hmax). exists t, clf. split_and!; auto.
    intros Hno. specialize (Hno _ Hin). cbn in Hno. congruence.
  - destruct Hquiet as (Hin & Hmin). exists q, qlf. split_and!; auto.
    intros (t' & Ht' & Hw). rewrite Hbest in Hw; done.
  - subst ts. apply Forall2_length in HF. done.
Qed.

(** ** Capping the DDoS rows *)

Definition index_le (a b : nat * frow) : Prop := (a.1 <= b.1)%nat.

Lemma indexed_sorted k (rows : list frow) : StronglySorted index_le (imap (λ i r, (k + i, r)%nat) rows).
Proof.
  revert k. induction rows as [|r rows IH]; intros k; cbn [imap]; constructor.
  - erewrite imap_ext; [apply (IH (S k))|]. intros i x _. cbn. f_equal. lia.
  - apply Forall_forall. intros x Hx. apply elem_of_lookup_imap in Hx as (i & r' & -> & _). unfold index_le. cbn. lia.
Qed.

Lemma StronglySorted_filter {A} (R : A → A → Prop) (p : A → bool) l :
  StronglySorted R l → StronglySorted R (List.filter p l).
Proof.
  induction 1 as [|x l Hs IH HF]; cbn [List.filter]; [constructor|]. destruct (p x); [|done]. constructor; [done|].
  apply Forall_forall. intros y Hy. apply elem_of_List_filter in Hy as [Hy _]. by eapply Forall_forall in HF.
Qed.

Lemma StronglySorted_impl {A} (R S : A → A → Prop) l :
  (∀ x y, R x y → S x y) → StronglySorted R l → StronglySorted S l.
Proof. intros H. induction 1 as [|x l Hs IH HF]; constructor; [done|]. eapply Forall_impl; eauto. Qed.

Section kept.
Local Abbreviation benign := (λ x : nat * frow, negb (is_ddos_label x.2)).
Local Abbreviation ddos := (λ x : nat * frow, is_ddos_label x.2).

Lemma filter_split {A} (p : A → bool) l : List.filter (λ x, negb (p x)) l ++ List.filter p l ≡ₚ l.
Proof.
  induction l as [|x l IH]; [done|]. cbn [List.filter]. destruct (p x); cbn [negb app]; [|by rewrite IH].
  by rewrite <-Permutation_middle, IH.
Qed.

(** Sorting what is kept by index puts it back in the order of the frame. *)
Lemma sort_kept l chosen :
  StronglySorted index_le l → NoDup l → (∀ a b, a ∈ l → b ∈ l → a.1 = b.1 → a = b) →
  chosen ⊆+ List.filter ddos l →
  py_sort (λ a b, a.1 <? b.1)%nat (List.filter benign l ++ chosen) =
    List.filter (λ x, benign x || bool_decide (x ∈ chosen)) l.
Proof.
  intros Hs Hnd Hinj Hch.
  assert (Hperm : List.filter (λ x, benign x || bool_decide (x ∈ chosen)) l ≡ₚ List.filter benign l ++ chosen).
  { apply NoDup_Permutation.
    - by eapply sublist_NoDup, List_filter_sublist.
    - rewrite <-(filter_split ddos l) in Hnd. apply submseteq_Permutation in Hch as [k Hk]. rewrite Hk, app_assoc in Hnd.
      by apply NoDup_app in Hnd as [Hnd _].
    - intros x. rewrite elem_of_app, !elem_of_List_filter, orb_true_iff, bool_decide_eq_true. split; [naive_solver|].
      intros [[Hx Hb]|Hx]; [by auto|]. split; [|by right].
      apply (elem_of_submseteq _ _ _ Hx) in Hch. by apply elem_of_List_filter in Hch as [? _]. }
  assert (Hin : ∀ x, x ∈ py_sort (λ a b, a.1 <? b.1)%nat (List.filter benign l ++ chosen) → x ∈ l).
  { intros x. rewrite (py_sort_perm (λ a b, a.1 <? b.1)%nat), <-Hperm. intros Hx. by apply elem_of_List_filter in Hx as [? _]. }
  apply (StronglySorted_unique_strong index_le).
  - intros x y Hx Hy Hxy Hyx. apply elem_of_List_filter in Hy as [Hy _]. apply Hinj; auto. unfold index_le in *. lia.
  - pose proof (py_sort_sorted (λ a b : nat * frow, a.1 <? b.1)%nat (λ _, True)) as Hps.
    eapply StronglySorted_impl; [|apply Hps]; unfold py_le, index_le.
    + intros x y Hxy. by apply Nat.ltb_ge in Hxy.
    + intros x y _ _. rewrite Nat.ltb_lt, Nat.ltb_ge. lia.
    + intros x y z _ _ _. rewrite !Nat.ltb_ge. lia.
    + by apply Forall_true.
  - by apply StronglySorted_filter.
  - rewrite (py_sort_perm (λ a b, a.1 <? b.1)%nat). by rewrite Hperm.
Qed.

Lemma imap_pair_sorted rows : StronglySorted index_le (imap pair rows).
Proof. apply (indexed_sorted 0). Qed.

Lemma imap_pair_inj (rows : list frow) a b : a ∈ imap pair rows → b ∈ imap pair rows → a.1 = b.1 → a = b.
Proof.
  intros (i & r & -> & Hi)%elem_of_lookup_imap (j & r' & -> & Hj)%elem_of_lookup_imap. cbn. intros ->. congruence.
Qed.

Lemma imap_pair_snd (rows : list frow) : (imap pair rows).*2 = rows.
Proof.
  apply list_eq. intros i. rewrite list_lookup_fmap, list_lookup_imap. by destruct (rows !! i).
Qed.

Lemma imap_pair_NoDup (rows : list frow) : NoDup (imap pair rows).
Proof.
  apply NoDup_alt. intros i j x. rewrite !list_lookup_imap.
  destruct (rows !! i), (rows !! j); cbn; congruence.
Qed.

Lemma filter_snd (p : frow → bool) (l : list (nat * frow)) :
  (List.filter (λ x, p x.2) l).*2 = List.filter p l.*2.
Proof. induction l as [|x l IH]; [done|]. cbn [List.filter]. rewrite !fmap_cons. cbn [List.filter]. destruct (p x.2); [by rewrite fmap_cons, IH|done]. Qed.
End kept.

(** The cap never touches a benign row or the order of the frame: what it
    drops are DDoS rows only, and it leaves as many as the smallest benign class
    has, or all of them if they are fewer or there is no benign class. *)
Theorem cap_ddos_spec sample_rows rows :
  (∀ d n, (n <= length d)%nat → length (sample_rows d n) = n ∧ sample_rows d n ⊆+ d) →
  let rows' := cap_ddos sample_rows rows in
  rows' `sublist_of` rows ∧
  List.filter (λ r, negb (is_ddos_label r)) rows' = List.filter (λ r, negb (is_ddos_label r)) rows ∧
  length (List.filter is_ddos_label rows') =
    match benign_counts rows with
    | [] => length (List.filter is_ddos_label rows)
    | c :: cs => Nat.min (length (List.filter is_ddos_label rows)) (foldl Nat.min c cs)
    end.
Proof.
  intros Hdraw rows'. unfold rows', cap_ddos. destruct (benign_counts rows) as [|c cs]; [done|].
  destruct (Nat.ltb_spec (foldl Nat.min c cs) (length (List.filter is_ddos_label rows))) as [Hlt|Hge].
  2: { split_and!; [done|done|lia]. }
  set (cap := foldl Nat.min c cs) in *.
  set (ddos := List.filter (λ x : nat * frow, is_ddos_label x.2) (imap pair rows)).
  assert (Hlen : length ddos = length (List.filter is_ddos_label rows)).
  { rewrite <-(imap_pair_snd rows), <-filter_snd, length_fmap. done. }
  destruct (Hdraw ddos cap ltac:(lia)) as [Hcap Hsub].
  rewrite (sort_kept _ _ (imap_pair_sorted rows) (imap_pair_NoDup rows) (imap_pair_inj rows) Hsub).
  set (chosen := sample_rows ddos cap) in *.
  set (kept := List.filter _ (imap pair rows)).
  assert (Hk : kept.*2 `sublist_of` rows).
  { rewrite <-(imap_pair_snd rows). apply fmap_sublist, List_filter_sublist. }
  assert (Hb : List.filter (λ x : nat * frow, negb (is_ddos_label x.2)) kept =
               List.filter (λ x : nat * frow, negb (is_ddos_label x.2)) (imap pair rows)).
  { unfold kept. generalize (imap pair rows). induction l as [|x l IH]; [done|]. cbn [List.filter].
    destruct (negb (is_ddos_label x.2)) eqn:Hx; cbn [orb List.filter]; [rewrite Hx; by f_equal|].
    destruct (bool_decide _); [|done]. cbn [List.filter]. by rewrite Hx. }
  split_and!; [done| |].
  - rewrite <-(filter_snd (λ r, negb (is_ddos_label r))), Hb.
    by rewrite (filter_snd (λ r, negb (is_ddos_label r))), imap_pair_snd.
  - assert (Hperm : kept ≡ₚ List.filter (λ x : nat * frow, negb (is_ddos_label x.2)) (imap pair rows) ++ chosen).
    { unfold kept. rewrite <-(sort_kept _ _ (imap_pair_sorted rows) (imap_pair_NoDup rows) (imap_pair_inj rows) Hsub).
      apply py_sort_perm. }
    apply Permutation_length in Hperm. rewrite <-Hb, length_app, Hcap in Hperm.
    pose proof (Permutation_length (filter_split (λ x : nat * frow, is_ddos_label x.2) kept)) as Hs.
    rewrite length_app in Hs. rewrite <-filter_snd, length_fmap. lia.
Qed.
