(* ===== verification/TrainChecks.v ===== *)
(** * The training programs side by side

    The sessions of training_balance.py are those of train.py; the benchmark
    scores rows by models that never saw them; and where programs that say they
    do the same differ. The small data set at the end shows each of them. *)

From stdpp Require Import gmap sets.
From Stdlib Require Import SpecFloat.
From S2P Require Import Prelude PyNum PyStat AutoLabel TrainData TrainRun TrainFacts TrainPick ThresholdBench.

#[local] Open Scope Z_scope.

(** ** training_balance.py and train.py *)

Definition label_texts : list (string * Z) := [(NORMAL, 0); (FLASH_CROWD, 1); (DDOS, 2)].

(** A line of the CSV, with its time read, and the row pandas makes of it. *)
Definition parsed (st : num * list string) (r : frow) : Prop :=
  (∃ f, stamp r = NFlt f ∧ st.1 = NFlt f ∧ is_finite (NFlt f) = true) ∧
  ∃ p, p ∈ label_texts ∧ st.2 !! AutoLabel.LABEL_COL = Some p.1 ∧ label r = NInt p.2.

Lemma parsed_label r r' p q :
  p ∈ label_texts → q ∈ label_texts → label r = NInt p.2 → label r' = NInt q.2 →
  negb (bool_decide (p.1 = q.1)) = negb (neq (label r) (label r')).
Proof.
  intros Hp Hq -> ->. rewrite neq_int. f_equal. unfold label_texts in *. rewrite !elem_of_cons in Hp, Hq.
  destruct Hp as [->|[->|[->|Hp%not_elem_of_nil]]], Hq as [->|[->|[->|Hq%not_elem_of_nil]]]; done.
Qed.

Lemma tag_sessions_number prev_st prev_r sid sts rs :
  match prev_st, prev_r with
  | None, None => True
  | Some (t, lab), Some p => ∃ c, parsed (t, c) p ∧ c !! AutoLabel.LABEL_COL = Some lab
  | _, _ => False
  end →
  Forall2 parsed sts rs →
  ∃ tagged, tag_sessions prev_st sid sts = Ok tagged ∧ tagged.*2 = (number_sessions prev_r sid rs).*2.
Proof.
  intros Hprev HF. revert prev_st prev_r sid Hprev.
  induction HF as [|[ts c] r sts rs Hp HF IH]; intros prev_st prev_r sid Hprev; [by exists []|].
  pose proof Hp as [(f & Hf & Hts & Hfin) (lp & Hlp & Hc & Hl)]. cbn [fst snd] in *.
  cbn [tag_sessions number_sessions]. unfold list_at. rewrite Hc. cbn [mbind res_bind].
  assert (Hnew : match prev_st with
                 | None => true
                 | Some (pt, pl) => nlt SESSION_GAP_SECONDS (nsub ts pt) || negb (bool_decide (lp.1 = pl))
                 end = new_session prev_r r).
  { destruct prev_st as [[pt pl]|], prev_r as [p|]; try done. unfold new_session.
    destruct Hprev as (c' & [(g & Hg & Hpt & Hgin) (lq & Hlq & Hc' & Hl')] & Hpl). cbn [fst snd] in *.
    rewrite Hf, Hg, Hts, Hpt, (nsub_not_nan f g), orb_false_r by done. f_equal.
    assert (pl = lq.1) as -> by congruence. by apply (parsed_label r p lp lq). }
  rewrite Hnew. set (sid' := if new_session prev_r r then sid + 1 else sid).
  destruct (IH (Some (ts, lp.1)) (Some r) sid') as (tagged & Ht & Hs); [by exists c|].
  exists ((c, sid') :: tagged). rewrite Ht. split; [done|]. rewrite !fmap_cons, Hs. done.
Qed.

(** C39: On rows that pandas keeps, and with equal timestamps ordered alike, the
    balance step finds the sessions that training finds. *)
Theorem sessions_agree sort_values df rows stamped :
  stamp_rows rows = Ok stamped →
  Forall2 parsed (py_sort (λ a b, nlt a.1 b.1) stamped) (sort_values (clean df)) →
  ∃ tagged, _assign_sessions rows = Ok tagged ∧ tagged.*2 = (detect sort_values df).*2.
Proof.
  intros Hs HF. unfold _assign_sessions. rewrite Hs. cbn [mbind res_bind].
  by apply (tag_sessions_number None None 0).
Qed.

(** ** One list of features

    The three training programs and the benchmark each have the list as a
    literal of their own. *)

Definition IF_FEATURE_COLS : list string :=
  ["entropy"; "ewma_rate"; "mean_h"; "mean_r"; "sigma_h"; "sigma_r"; "proto_ratio"; "dominant_ip_ratio";
   "delta_rate"; "delta_entropy"; "dominant_rate"; "source_port_entropy"; "ttl_variance"; "fingerprint_diversity"]%string.
Definition GB_FEATURE_COLS : list string :=
  ["entropy"; "ewma_rate"; "mean_h"; "mean_r"; "sigma_h"; "sigma_r"; "proto_ratio"; "dominant_ip_ratio";
   "delta_rate"; "delta_entropy"; "dominant_rate"; "source_port_entropy"; "ttl_variance"; "fingerprint_diversity"]%string.
Definition BENCH_FEATURE_COLS : list string :=
  ["entropy"; "ewma_rate"; "mean_h"; "mean_r"; "sigma_h"; "sigma_r";
   "proto_ratio"; "dominant_ip_ratio"; "delta_rate"; "delta_entropy";
   "dominant_rate"; "source_port_entropy"; "ttl_variance"; "fingerprint_diversity"]%string.

(** So what is written of one program's columns holds of the others'. *)
Lemma feature_cols_agree :
  IF_FEATURE_COLS = FEATURE_COLS ∧ GB_FEATURE_COLS = FEATURE_COLS ∧ BENCH_FEATURE_COLS = FEATURE_COLS.
Proof. done. Qed.

(** ** The benchmark *)

Section assign.
Context {A : Type}.

Lemma assign_mask_spec mask (values : list A) l l' :
  length mask = length l → assign_mask mask values l = Ok l' →
  length l' = length l ∧
  ∀ i x, l !! i = Some x →
    match mask !! i with
    | Some true => ∃ v, v ∈ values ∧ l' !! i = Some (Some v)
    | _ => l' !! i = Some x
    end.
Proof.
  revert values l l'. induction mask as [|b mask IH]; intros values [|y l] l'; cbn [length]; try done.
  { intros _. cbn. destruct values; [|done]. intros [= <-]. done. }
  intros [= Hlen]. cbn [assign_mask]. destruct b.
  - destruct values as [|v vs]; [done|]. destruct (assign_mask mask vs l) as [rest|] eqn:Hr; cbn [mbind res_bind]; [|done].
    intros [= <-]. destruct (IH vs l rest Hlen Hr) as [Hl Hi]. split; [cbn; by f_equal|].
    intros [|i] x; cbn [lookup list_lookup]; [intros _; exists v; split; [left|done]|].
    intros Hx. specialize (Hi i x Hx). destruct (mask !! i) as [[]|]; [|done..].
    destruct Hi as (u & Hu & Hi). exists u. split; [by right|done].
  - destruct (assign_mask mask values l) as [rest|] eqn:Hr; cbn [mbind res_bind]; [|done].
    intros [= <-]. destruct (IH values l rest Hlen Hr) as [Hl Hi]. split; [cbn; by f_equal|].
    intros [|i] x; cbn [lookup list_lookup]; [by intros [= ->]|apply Hi].
Qed.
End assign.

Section held_out.
Context (L : Learner) (resample : list train_sample → nat → list train_sample) (l : list (frow * Z)).

Lemma rf_folds_spec depth sids pred pred' :
  NoDup sids → length pred = length l → rf_folds L resample l depth sids pred = Ok pred' →
  length pred' = length l ∧
  ∀ i x, l !! i = Some x →
    (x.2 ∉ sids → pred' !! i = pred !! i) ∧
    (x.2 ∈ sids → ∃ m v, ln_fit L depth (fold_train resample l x.2) = Ok m ∧
                         v ∈ ln_predict L m (fold_test l x.2).*1 ∧ pred' !! i = Some (Some v)).
Proof.
  intros Hnd. revert pred. induction Hnd as [|sid sids Hni Hnd IH]; intros pred Hlen; cbn [rf_folds].
  { intros [= <-]. split; [done|]. intros i x _. split; [done|]. by intros ?%not_elem_of_nil. }
  destruct (ln_fit L depth (fold_train resample l sid)) as [m|] eqn:Hm; cbn [mbind res_bind]; [|done].
  destruct (assign_mask _ _ pred) as [pred1|] eqn:Ha; cbn [mbind res_bind]; [|done]. intros Hf.
  apply assign_mask_spec in Ha as [Hl1 H1]; [|by rewrite length_fmap].
  apply IH in Hf as [Hl' H']; [|congruence]. split; [done|]. intros i x Hx.
  destruct (H' i x Hx) as [Hout Hin].
  destruct (lookup_lt_is_Some_2 pred i) as [y Hy]; [rewrite Hlen; by eapply lookup_lt_Some|].
  specialize (H1 i y Hy). rewrite list_lookup_fmap, Hx in H1. cbn [fmap option_fmap option_map] in H1.
  unfold in_session in H1. split.
  - intros [Hne Hns]%not_elem_of_cons. rewrite Hout by done.
    apply Z.eqb_neq in Hne. rewrite Hne in H1. by rewrite H1, Hy.
  - intros [Hsid|Hs]%elem_of_cons; [|by apply Hin]. rewrite Hsid. rewrite Hsid, Z.eqb_refl in H1.
    destruct H1 as (v & Hv & Hp). exists m, v. split_and!; [done|done|]. rewrite Hout, Hp; [done|by rewrite Hsid].
Qed.

Lemma bench_eligible_NoDup : NoDup (bench_eligible_sessions l).
Proof.
  eapply sublist_NoDup; [|apply List_filter_sublist]. unfold sessions_of.
  rewrite (py_sort_perm Z.ltb). apply distinct_Z_NoDup.
Qed.

(** The sweep keeps the predictions of one depth. *)
Lemma rf_sweep_from eligible depths b b' :
  rf_sweep L resample l eligible depths b = Ok b' →
  b' = b ∨ ∃ d acc pred, b' = mkBest d acc (Some pred) ∧ rf_folds L resample l d eligible (no_series l) = Ok pred.
Proof.
  revert b. induction depths as [|d ds IH]; intros b; cbn [rf_sweep]; [intros [= <-]; by left|].
  destruct (rf_folds L resample l d eligible (no_series l)) as [pred|] eqn:Hp; cbn [mbind res_bind]; [|done].
  intros [->|H]%IH; [|by right]. unfold keep_better. destruct (nlt _ _); [|by left].
  right. by exists d, (mean_bool (loso_hits eligible l pred)), pred.
Qed.
End held_out.

(** C40: Every prediction the benchmark scores is a model's answer for the row's
    own session, and that model was fitted without the session; rows of sessions
    that cannot be held out are not scored. *)
Theorem bench_predictions_held_out L resample l b pred :
  rf_loso L resample l (bench_eligible_sessions l) = Ok b → be_pred b = Some pred →
  length pred = length l ∧
  ∀ i x, l !! i = Some x →
    if held_out (bench_eligible_sessions l) x then
      ∃ m v, ln_fit L (be_depth b) (fold_train resample l x.2) = Ok m ∧
             v ∈ ln_predict L m (fold_test l x.2).*1 ∧ pred !! i = Some (Some v)
    else pred !! i = Some None.
Proof.
  intros [->|(d & acc & p & -> & Hf)]%rf_sweep_from; [done|]. cbn [be_pred be_depth]. intros [= ->].
  apply rf_folds_spec in Hf as [Hlen Hf]; [|apply bench_eligible_NoDup|by unfold no_series; rewrite length_fmap].
  split; [done|]. intros i x Hx. destruct (Hf i x Hx) as [Hout Hin]. unfold held_out.
  destruct (bool_decide_reflect (x.2 ∈ bench_eligible_sessions l)) as [He|He]; [by apply Hin|].
  rewrite Hout by done. unfold no_series. by rewrite list_lookup_fmap, Hx.
Qed.

(** Every row is in exactly one cell of a confusion table. *)
Lemma confusion_partition flags is_attack :
  length flags = length is_attack →
  let c := confusion flags is_attack in
  (cf_tp c + cf_fp c + cf_fn c + cf_tn c)%nat = length flags ∧
  (cf_tp c + cf_fn c)%nat = count_true is_attack ∧ (cf_tp c + cf_fp c)%nat = count_true flags.
Proof.
  cbv zeta. cbn [confusion cf_tp cf_fp cf_fn cf_tn]. unfold count_cells, count_true. revert is_attack.
  induction flags as [|f flags IH]; intros [|a attack]; cbn [length]; try done.
  intros [= Hl]. destruct (IH attack Hl) as (H1 & H2 & H3).
  cbn [zip zip_with List.filter fst snd id]. destruct f, a; cbn [eqb andb length]; lia.
Qed.
