(* ===== verification/TrainDemo.v ===== *)
(** * A small training set

    Two sessions of ordinary traffic, two of DDoS and one of Flash Crowd, with
    a classifier that knows the classes by their rate and an anomaly detector
    that flags the fastest rows. The theorems about training are applied to
    them, and the places where programs that say they do the same differ are
    shown on them. *)

From stdpp Require Import gmap sets.
From Stdlib Require Import SpecFloat.
From S2P Require Import Prelude PyNum PyStat AutoLabel TrainData TrainRun TrainFacts TrainPick ThresholdBench TrainChecks.

#[local] Open Scope Z_scope.

Definition demo_columns : list string :=
  ["entropy"; "ewma_rate"; "mean_h"; "mean_r"; "sigma_h"; "sigma_r"; "proto_ratio"; "dominant_ip_ratio";
   "source_port_entropy"; "ttl_variance"; "fingerprint_diversity"; "timestamp"; "label"]%string.
Definition demo_row (t rate lab : Z) : frow :=
  list_to_map (zip demo_columns [flt 2 1; flt rate 1; flt 2 1; flt 9 1; flt 1 1; flt 1 1; flt 1 2; flt 1 4;
                                 flt 3 1; flt 4 1; flt 5 1; flt t 1; NInt lab]).

Definition demo_rows : list frow :=
  [demo_row 0 10 0; demo_row 10 11 0; demo_row 100 12 0; demo_row 110 13 0;
   demo_row 200 1000 2; demo_row 210 1001 2; demo_row 300 1002 2; demo_row 310 1003 2;
   demo_row 400 500 1; demo_row 420 501 1].
Definition demo_frame : frame := mkFrame demo_columns demo_rows.

Definition demo_resample (d : list train_sample) (n : nat) : list train_sample := take n (mjoin (replicate n d)).

Lemma demo_resample_draws d n :
  d ≠ [] → length (demo_resample d n) = n ∧ ∀ s, s ∈ demo_resample d n → s ∈ d.
Proof.
  intros Hd. unfold demo_resample. split.
  - rewrite length_take. assert (n <= length (mjoin (replicate n d)))%nat; [|lia].
    induction n as [|n IH]; [lia|]. change (mjoin (replicate (S n) d)) with (d ++ mjoin (replicate n d)).
    rewrite length_app. destruct d; [done|]. cbn [length] in *. lia.
  - intros s Hs%elem_of_take. destruct Hs as (i & Hi & _). apply list_elem_of_lookup_2 in Hi.
    apply list_elem_of_join in Hi as (c & Hs & Hc). by apply elem_of_replicate in Hc as [-> _].
Qed.

(** The class a rate stands for. *)
Definition class_of_rate (x : list num) : num :=
  match x !! 1%nat with
  | Some r => if nlt r (flt 100 1) then NInt 0 else if nlt r (flt 700 1) then NInt 1 else NInt 2
  | None => NInt 0
  end.
Definition three : list num := [NInt 0; NInt 1; NInt 2].

Definition labels_known (d : list train_sample) : bool := forallb (λ s, bool_decide (s.2 ∈ three)) d.
Definition labels_seen (d : list train_sample) : list num := List.filter (λ c, bool_decide (c ∈ d.*2)) three.

(** A shallow tree is less sure of itself. *)
Definition demo_learner : Learner := mkLearner (list num * num)
  (λ p d, if labels_known d then Ok (labels_seen d, if bool_decide (p = Some 1) then flt 6 10 else flt 1 1)
          else Exn ValueError)
  fst
  (λ m xs, (λ x, (λ c, if neq c (class_of_rate x) then m.2 else flt 0 1) <$> m.1) <$> xs)
  (λ m xs, class_of_rate <$> xs).

Lemma demo_laws : LearnerLaws demo_learner.
Proof.
  constructor.
  - intros p d m. cbn [ln_fit demo_learner]. destruct (labels_known d) eqn:Hf; [|done]. intros [= <-].
    cbn [ln_classes demo_learner fst]. unfold labels_known in Hf. rewrite forallb_forall in Hf. unfold labels_seen. split.
    + apply StronglySorted_filter. repeat constructor.
    + intros c. rewrite elem_of_List_filter, bool_decide_eq_true. split; [by intros [_ ?]|]. intros Hc. split; [|done].
      apply list_elem_of_fmap in Hc as (s & -> & Hs%list_elem_of_In). by apply Hf, bool_decide_eq_true in Hs.
  - intros m xs. cbn [ln_proba ln_classes demo_learner]. split; [by rewrite length_fmap|].
    apply Forall_forall. intros p (x & -> & _)%list_elem_of_fmap. by rewrite length_fmap.
Qed.

Lemma demo_eligible : eligible_sessions (prepare id FLASHCROWD_WARMUP_SECONDS demo_frame) = [1; 2; 3; 4].
Proof. vm_compute. reflexivity. Qed.

Lemma folds_fair_witness :
  missing_cols demo_frame = [] ∧ 3 ∈ eligible_sessions (prepare id FLASHCROWD_WARMUP_SECONDS demo_frame) ∧
  fold_test (prepare id FLASHCROWD_WARMUP_SECONDS demo_frame) 3 ≠ [].
Proof.
  assert (Hm : missing_cols demo_frame = []) by (vm_compute; reflexivity).
  assert (He : 3 ∈ eligible_sessions (prepare id FLASHCROWD_WARMUP_SECONDS demo_frame)).
  { rewrite demo_eligible. set_solver. }
  split; [exact Hm|]. split; [exact He|].
  exact (proj1 (folds_fair id demo_resample FLASHCROWD_WARMUP_SECONDS demo_frame 3 (λ rows, Permutation_refl _)
                  demo_resample_draws Hm He)).
Defined.

Lemma demo_fits param sid :
  sid ∈ eligible_sessions (prepare id FLASHCROWD_WARMUP_SECONDS demo_frame) →
  ∃ m, ln_fit demo_learner param (fold_train demo_resample (prepare id FLASHCROWD_WARMUP_SECONDS demo_frame) sid) = Ok m.
Proof.
  rewrite demo_eligible, !elem_of_cons. intros Hs. cbn [ln_fit demo_learner].
  destruct Hs as [->|[->|[->|[->|Hs%not_elem_of_nil]]]]; [..|done];
    (match goal with |- context [labels_known ?d] => replace (labels_known d) with true by (vm_compute; reflexivity) end); by eexists.
Qed.

Lemma loso_evaluates_witness :
  ∃ c, evaluate_depth demo_learner demo_resample AUTO_LABEL_CONFIDENCE_THRESHOLD
         (prepare id FLASHCROWD_WARMUP_SECONDS demo_frame) (Some 1) = Ok c.
Proof.
  destruct (loso_evaluates demo_learner demo_resample id FLASHCROWD_WARMUP_SECONDS AUTO_LABEL_CONFIDENCE_THRESHOLD
              demo_frame (Some 1) demo_laws demo_resample_draws (λ rows, Permutation_refl _)) as (fs & c & _ & Hc & _).
  - vm_compute. reflexivity.
  - intros r Hr. cbn [df_rows demo_frame] in Hr.
    assert (HF : Forall (λ r, bool_decide (label r ∈ three) = true) demo_rows) by (repeat constructor; vm_compute; reflexivity).
    rewrite Forall_forall in HF. specialize (HF r Hr). apply bool_decide_eq_true in HF. unfold three in HF.
    rewrite !elem_of_cons in HF. destruct HF as [->|[->|[->|HF%not_elem_of_nil]]]; [exists 0|exists 1|exists 2|done];
      (split; [set_solver|reflexivity]).
  - by rewrite demo_eligible.
  - apply demo_fits.
  - exists c. exact Hc.
Defined.

Definition demo_candidates : list Candidate :=
  [mkCandidate (Some 1) (flt 98 100) (flt 1 10) [] []; mkCandidate (Some 2) (flt 97 100) (flt 9 10) [] [];
   mkCandidate (Some 5) (flt 979 1000) (flt 9 10) [] []; mkCandidate None (flt 98 100) (flt 91 100) [] []].

Lemma demo_scores :
  forallb (λ c, negb (is_nan (cd_acc c)) && nle (nsub (cd_acc c) ACCURACY_TOLERANCE) (cd_acc c) &&
                (negb (is_nan (cd_share c)) && nle (nsub (cd_share c) CONFIDENT_SHARE_TOLERANCE) (cd_share c)))
    demo_candidates = true.
Proof. vm_compute. reflexivity. Qed.

Lemma pick_depth_spec_witness :
  ∃ c, pick_depth demo_candidates ACCURACY_TOLERANCE CONFIDENT_SHARE_TOLERANCE = Ok c ∧ cd_param c = Some 5.
Proof.
  destruct (pick_depth_spec demo_candidates ACCURACY_TOLERANCE CONFIDENT_SHARE_TOLERANCE) as (c & _ & _ & Hc & _).
  - done.
  - intros c Hc. pose proof demo_scores as HF. rewrite forallb_forall in HF. apply list_elem_of_In, HF in Hc.
    rewrite !andb_true_iff, !negb_true_iff in Hc. unfold tolerates. tauto.
  - exists c. split; [exact Hc|]. revert Hc. vm_compute. by intros [= <-].
Defined.

(** A detector that flags rows faster than a bar that falls as the
    contamination grows. *)
Definition demo_forest : Forest := mkForest num
  (λ c _, Ok c)
  (λ c xs, (λ x, nlt (nsub (flt 1 1) c) (match x !! 1%nat with Some r => nmul r (flt 9 10000) | None => flt 0 1 end)) <$> xs).

Definition demo_trained : list frow := (prepare id FLASHCROWD_WARMUP_SECONDS demo_frame).*1.

Lemma contamination_spec_witness :
  ∃ t clf, fit_forest demo_forest demo_trained = Ok (td_contamination t, clf) ∧ within_cap t = true.
Proof.
  destruct (contamination_spec demo_forest demo_trained) as (ts & t & clf & Hts & Hf & Hin & Hcap & _).
  - intros m xs. cbn. by rewrite length_fmap.
  - vm_compute. reflexivity.
  - vm_compute. reflexivity.
  - intros c _. by exists c.
  - exists t, clf. split; [exact Hf|]. apply Hcap.
    destruct ts as [|[t' m'] ts']; [exfalso; exact (not_elem_of_nil _ Hin)|]. exists (t', m'). split; [left|].
    clear Hf Hin Hcap. revert Hts. vm_compute. intros [= <- _ _]. reflexivity.
Defined.

Definition demo_sample (d : list (nat * frow)) (n : nat) : list (nat * frow) := take n d.

Lemma cap_ddos_spec_witness :
  length (cap_ddos demo_sample demo_rows) = 8%nat ∧ cap_ddos demo_sample demo_rows `sublist_of` demo_rows.
Proof.
  split; [vm_compute; reflexivity|].
  apply (cap_ddos_spec demo_sample demo_rows). intros d n Hn. unfold demo_sample. split.
  - rewrite length_take. lia.
  - apply sublist_submseteq, sublist_take.
Defined.

(** ** The rows as text *)

Definition demo_line (entropy t lab : string) : list string :=
  [entropy; "10"; "2"; "9"; "1"; "1"; "0.5"; "0.25"; "3"; "4"; "5"; t; lab]%string.

Definition text_rows : list (list string) :=
  [demo_line "2" "0" "0"; demo_line "2" "10" "0"; demo_line "2" "100" "0"; demo_line "2" "110" "2"].
Definition text_frame : frame :=
  mkFrame demo_columns [demo_row 0 10 0; demo_row 10 10 0; demo_row 100 10 0; demo_row 110 10 2].

Lemma text_parsed t r f p :
  p ∈ label_texts → stamp r = NFlt f → t.1 = NFlt f → is_finite (NFlt f) = true →
  t.2 !! AutoLabel.LABEL_COL = Some p.1 → label r = NInt p.2 → parsed t r.
Proof. intros. split; [by exists f|by exists p]. Qed.

Lemma text_clean : clean text_frame = df_rows text_frame.
Proof.
  assert (H : bool_decide (clean text_frame = df_rows text_frame) = true) by (vm_compute; reflexivity).
  exact (bool_decide_eq_true_1 _ H).
Qed.

Lemma sessions_agree_witness :
  ∃ tagged, _assign_sessions text_rows = Ok tagged ∧ tagged.*2 = [1; 1; 2; 3].
Proof.
  destruct (stamp_rows text_rows) as [stamped|] eqn:Hs; [|vm_compute in Hs; discriminate Hs].
  destruct (sessions_agree id text_frame text_rows stamped Hs) as (tagged & Ht & H).
  - vm_compute in Hs. injection Hs as <-.
    change (id (clean text_frame)) with (clean text_frame). rewrite text_clean.
    match goal with |- Forall2 _ ?l _ => let l' := eval vm_compute in l in change l with l' end.
    unfold text_frame. cbn [df_rows].
    do 3 (apply Forall2_cons; split;
      [eapply (text_parsed _ _ _ (NORMAL, 0)); [left|vm_compute; reflexivity..]|]).
    apply Forall2_cons; split; [|apply Forall2_nil_2].
    eapply (text_parsed _ _ _ (DDOS, 2)); [right; right; left|vm_compute; reflexivity..].
  - exists tagged. split; [exact Ht|]. rewrite H. vm_compute. reflexivity.
Defined.

(** ** The benchmark on the small set *)

Definition demo_prepared : list (frow * Z) := prepare id FLASHCROWD_WARMUP_SECONDS demo_frame.

Lemma demo_bench :
  match rf_loso demo_learner demo_resample demo_prepared (bench_eligible_sessions demo_prepared) with
  | Ok b => match be_pred b with Some _ => bool_decide (be_depth b = Some 1) | None => false end
  | Exn _ => false
  end = true.
Proof. vm_compute. reflexivity. Qed.

Lemma bench_predictions_held_out_witness :
  ∃ b pred, rf_loso demo_learner demo_resample demo_prepared (bench_eligible_sessions demo_prepared) = Ok b ∧
    be_pred b = Some pred ∧ length pred = length demo_prepared.
Proof.
  pose proof demo_bench as Hb.
  destruct (rf_loso demo_learner demo_resample demo_prepared (bench_eligible_sessions demo_prepared)) as [b|e] eqn:He; [|discriminate Hb].
  destruct (be_pred b) as [pred|] eqn:Hp; [|discriminate Hb]. exists b, pred. split; [reflexivity|]. split; [exact Hp|].
  exact (proj1 (bench_predictions_held_out demo_learner demo_resample demo_prepared b pred He Hp)).
Defined.

(** ** Where programs that say they do the same differ *)

Definition demo_candidates_at (thr : num) : res Candidate :=
  candidates ← map_res (evaluate_depth demo_learner demo_resample thr demo_prepared) CANDIDATE_MAX_DEPTHS;
  pick_depth candidates ACCURACY_TOLERANCE CONFIDENT_SHARE_TOLERANCE.

Lemma demo_picked :
  match demo_candidates_at AUTO_LABEL_CONFIDENCE_THRESHOLD with
  | Ok c => bool_decide (cd_param c = Some 2) && (length (distinct neq (cd_true c ++ cd_pred c)) =? 2)%nat
  | Exn _ => false
  end = true.
Proof. vm_compute. reflexivity. Qed.

Lemma select_depth_picks cr :
  select_depth demo_learner demo_resample cr AUTO_LABEL_CONFIDENCE_THRESHOLD demo_prepared =
    (c ← demo_candidates_at AUTO_LABEL_CONFIDENCE_THRESHOLD;
     _ ← cr (cd_true c) (cd_pred c) target_names; Ok (cd_param c)).
Proof.
  unfold select_depth, demo_candidates_at. pose proof demo_eligible as He. fold demo_prepared in He. rewrite He.
  destruct (map_res (evaluate_depth demo_learner demo_resample AUTO_LABEL_CONFIDENCE_THRESHOLD demo_prepared)
              CANDIDATE_MAX_DEPTHS) as [cs|e]; reflexivity.
Qed.

(** train.py skips a label with one session instead of refusing the data, but
    the report it then prints names three classes: when the held-out rows and
    the predictions hold two, sklearn raises and no model is saved. *)
Theorem two_label_report_crashes cr path :
  (∀ t p names, length (distinct neq (t ++ p)) ≠ length names → cr t p names = Exn ValueError) →
  train_main demo_learner demo_resample cr (λ _, true) (λ _, Ok demo_frame) "training_data.csv" "model" id
    FLASHCROWD_WARMUP_SECONDS AUTO_LABEL_CONFIDENCE_THRESHOLD [path] = Exn ValueError ∧
  ∃ m, fit_all demo_learner demo_resample (Some 2) demo_prepared = Ok m.
Proof.
  intros Hcr. split.
  - unfold train_main, load_frame. cbn [csv_argument mbind res_bind].
    replace (missing_cols demo_frame) with (@nil string) by (vm_compute; reflexivity). cbn [mbind res_bind].
    fold demo_prepared. rewrite select_depth_picks. pose proof demo_picked as Hp.
    destruct (demo_candidates_at AUTO_LABEL_CONFIDENCE_THRESHOLD) as [c|e]; [|discriminate Hp].
    apply andb_prop in Hp as [_ Hn]. apply Nat.eqb_eq in Hn. cbn [mbind res_bind].
    rewrite Hcr; [reflexivity|]. rewrite Hn. intros H. discriminate H.
  - unfold fit_all. cbn [ln_fit demo_learner].
    assert (H : labels_known (balance_classes demo_resample (samples demo_prepared)) = true) by (vm_compute; reflexivity).
    rewrite H. by eexists.
Qed.

(** The benchmark takes the first depth of strictly highest accuracy; train.py
    takes the simplest of those that are also confident. *)
Theorem bench_depth_differs :
  (∃ b, rf_loso demo_learner demo_resample demo_prepared (bench_eligible_sessions demo_prepared) = Ok b ∧ be_depth b = Some 1) ∧
  select_depth demo_learner demo_resample (λ _ _ _, Ok tt) AUTO_LABEL_CONFIDENCE_THRESHOLD demo_prepared = Ok (Some 2).
Proof.
  split.
  - pose proof demo_bench as Hb. destruct (rf_loso _ _ _ _) as [b|e]; [|discriminate Hb]. exists b. split; [reflexivity|].
    destruct (be_pred b); [|discriminate Hb]. by apply bool_decide_eq_true_1 in Hb.
  - rewrite select_depth_picks. pose proof demo_picked as Hp.
    destruct (demo_candidates_at AUTO_LABEL_CONFIDENCE_THRESHOLD) as [c|e]; [|discriminate Hp].
    apply andb_prop in Hp as [Hp _]. apply bool_decide_eq_true_1 in Hp. cbn [mbind res_bind]. by rewrite Hp.
Qed.

(** The benchmark's loader drops Flash Crowd rows by rate, train.py by the time
    since the session began: of two rows each keeps the other one. *)
Definition flash_frame : frame := mkFrame demo_columns [demo_row 0 500 1; demo_row 20 50 1].

Theorem bench_rows_differ :
  (λ x, stamp x.1) <$> prepare id FLASHCROWD_WARMUP_SECONDS flash_frame = [flt 20 1] ∧
  (λ x, stamp x.1) <$> bench_rows id flash_frame = [flt 0 1].
Proof. split; vm_compute; reflexivity. Qed.

(** Without DDoS rows train_isolation_forest.py falls back to 0.05; the
    benchmark compares with the mean of nothing and takes the first candidate. *)
Definition calm_rows : list (frow * Z) := take 4 demo_prepared.

Theorem bench_contamination_differs :
  (res_map fst (fit_forest demo_forest calm_rows.*1) = Ok (flt 5 100)) ∧
  (res_map fst (if_pick_contamination demo_forest calm_rows) = Ok (flt 1 100)).
Proof. split; vm_compute; reflexivity. Qed.

(** train.py drops a row with a NaN before it looks for sessions, the balance
    step does not: 20 seconds on either side of it, training sees a gap of 40. *)
Definition nan_frame : frame :=
  mkFrame demo_columns [demo_row 0 10 0; <["entropy"%string := NFlt S754_nan]> (demo_row 20 10 0); demo_row 40 10 0].
Definition nan_text : list (list string) := [demo_line "2" "0" "0"; demo_line "nan" "20" "0"; demo_line "2" "40" "0"].

Theorem nan_row_splits_session :
  (detect id nan_frame).*2 = [1; 2] ∧ res_map (fmap snd) (_assign_sessions nan_text) = Ok [1; 1; 1].
Proof. split; vm_compute; reflexivity. Qed.

(** With one benign class the Isolation Forest's cap is its size; the balance
    step, which it is said to follow, counts the other class as zero. *)
Theorem one_benign_class_caps_differ :
  length (List.filter is_ddos_label (cap_ddos demo_sample
            [demo_row 0 10 0; demo_row 1 10 0; demo_row 2 900 2; demo_row 3 901 2; demo_row 4 902 2])) = 2%nat ∧
  res_map snd (trim_ddos_sessions id [demo_line "2" "0" "0"; demo_line "2" "1" "0"; demo_line "2" "2" "2"]) = Ok 0%nat.
Proof. split; vm_compute; reflexivity. Qed.
