(* ===== verification/ThresholdReport.v ===== *)
(** * What benchmark_fixed_threshold.py prints

    Each function that prints is the list of its lines; a line feed at the front
    of a text is an empty line. Widths count bytes. Whatever the benchmark
    measured, it is printed to the end: the one division that is not guarded has
    a number of rows below it, which is never zero. *)

From stdpp Require Import pretty.
From Stdlib Require Import SpecFloat.
From S2P Require Import Prelude PyNum PyStat PyStr PyTime PyPrint BenchReport AutoLabel TrainData TrainRun ThresholdBench.
From S2P Require Import TrainFacts TrainChecks.

#[local] Open Scope Z_scope.
#[local] Open Scope string_scope.
#[local] Open Scope list_scope.

Definition LABEL_NAMES (lbl : Z) : string :=
  match lbl with 0 => "Normal" | 1 => "Flash Crowd" | _ => "DDoS" end.

Fixpoint rule (n : nat) : string := match n with O => EmptyString | S n' => String "-" (rule n') end.

(** ** The resource table *)

Definition resource_header : line :=
  left 32 "Phase" ^^ right 10 "Wall" ^^ right 10 "CPU" ^^ right 8 "Cores~" ^^ right 12 "Peak RSS".

(** The text of a row: seconds with their unit, a column of cores, megabytes. *)
Definition resource_cells (name : string) (wall cpu : num) (cores : string) (rss_mb : num) : line :=
  left 32 name ^^ right 9 (fmt_fixed wall 1) ^^ "s" ^^ right 9 (fmt_fixed cpu 1) ^^ "s" ^^ right 8 cores ^^
  right 10 (fmt_fixed rss_mb 0) ^^ " MB".
Definition resource_line (row : string * num * num * option num * num) : line :=
  let '(name, wall, cpu, cores, rss_mb) := row in
  resource_cells name wall cpu (match cores with Some c => fmt_fixed c 1 | None => "n/a" end) rss_mb.

(** The totals are the last mark's; the ratio is taken of a positive time. *)
Definition total_line (phases : list PhaseMark) : line :=
  let '(wall, cpu, rss) := match last phases with
                           | Some p => (pm_wall p, pm_cpu p, pm_rss_mb p)
                           | None => (flt 0 1, flt 0 1, flt 0 1)
                           end in
  let cores := if nlt (NInt 0) wall then NFlt (SFdiv prec64 emax64 (to_float cpu) (to_float wall)) else flt 0 1 in
  resource_cells "total" wall cpu (fmt_fixed cores 1) rss.

(** Bytes used at the start and at the end, and free at the end. *)
Definition disk_lines (used_start used_end free_end : Z) : list line :=
  [EmptyString;
   "Disk: " ^^ fmt_signed (flt (used_end - used_start) 1024) 0 ^^ " KB used over the run (" ^^
   fmt_fixed (flt free_end (1024 ^ 3)) 1 ^^ " GB free at the end). This workload's own " ^^
   "footprint is a few hundred KB of model files; a swing much larger than " ^^
   "that reflects something else on the host, not this script."].

Definition tracker_lines (phases : list PhaseMark) (used_start used_end free_end : Z) : list line :=
  [EmptyString; "=== System Resource Usage ===";
   "Measured from this process's own CPU accounting (getrusage), not an";
   "external sampler. Peak RSS is a whole-process high-water mark: each";
   "phase's figure is the peak up to and including that phase, not an";
   "isolated reading for it alone."; EmptyString;
   resource_header; rule (String.length resource_header)] ++
  (resource_line <$> tracker_report phases) ++
  [rule (String.length resource_header); total_line phases] ++
  disk_lines used_start used_end free_end.

(** ** Detection *)

Definition method_names : list string := ["RandomForest"; "Isolation Forest"; "Fixed"].

Definition scenario_line (row : Z * nat * list num) : line :=
  let '(lbl, n, rates) := row in
  left 14 (LABEL_NAMES lbl) ^^ right 8 (pretty (Z.of_nat n)) ^^ concat_cells ((λ r, right 22 (fmt_pct r)) <$> rates).

Definition print_scenario_table (rows : list (Z * nat * list num)) : list line :=
  [EmptyString;
   left 14 "Scenario" ^^ right 8 "Rows" ^^ concat_cells ((λ name, right 22 (name ^^ " flag rate")) <$> method_names);
   rule (14 + 8 + 22 * length method_names)] ++
  (scenario_line <$> rows) ++
  [EmptyString; "For Normal and Flash Crowd, flag rate is a false-positive rate";
   "(lower is better). For DDoS, flag rate is recall or outlier rate"; "(higher is better)."].

Definition count_text (n : nat) : string := pretty (Z.of_nat n).

Definition print_confusion_table (name : string) (c : Confusion) : list line :=
  [EmptyString; name;
   "  TP=" ^^ count_text (cf_tp c) ^^ "  FP=" ^^ count_text (cf_fp c) ^^ "  FN=" ^^ count_text (cf_fn c) ^^
   "  TN=" ^^ count_text (cf_tn c);
   "  precision=" ^^ fmt_pct (cf_precision c) ^^ "  recall=" ^^ fmt_pct (cf_recall c) ^^ "  f1=" ^^ fmt_pct (cf_f1 c) ^^
   "  fpr=" ^^ fmt_pct (cf_fpr c) ^^ "  fnr=" ^^ fmt_pct (cf_fnr c)].

Definition left_alone_lines (shares : option (string * string * string)) : list line :=
  match shares with
  | None => []
  | Some (rf, isof, fixed) =>
      [EmptyString; "Flash Crowd traffic correctly left alone (the operational number this";
       "benchmark exists to surface, since a fixed threshold cannot structurally";
       "tell a legitimate surge from an attack the way the trained models can):";
       "  RandomForest:      " ^^ rf; "  Isolation Forest:  " ^^ isof; "  Fixed threshold:   " ^^ fixed]
  end.

(** ** Cost *)

(** [1000 * predict_seconds / predict_rows]: a Python division. *)
Definition perf_lines (name : string) (p : Perf) : res (list line) :=
  ms_per_row ← ndiv (nmul (NInt 1000) (pf_predict_seconds p)) (NInt (Z.of_nat (pf_predict_rows p)));
  Ok [name ^^ ":";
      "  fit:     " ^^ fmt_fixed (pf_fit_seconds p) 2 ^^ "s on " ^^ count_text (pf_fit_rows p) ^^ " rows";
      "  predict: " ^^ fmt_fixed (pf_predict_seconds p) 3 ^^ "s on " ^^ count_text (pf_predict_rows p) ^^ " rows (" ^^
      fmt_fixed (pf_rows_per_second p) 0 ^^ " rows/sec, " ^^ fmt_fixed ms_per_row 3 ^^ " ms/row)";
      "  model size on disk: " ^^ fmt_fixed (pf_size_kb p) 1 ^^ " KB"; EmptyString].

Definition print_performance_report (perf : Perf * Perf) (rf_sweep_seconds if_loso_seconds : num) : res (list line) :=
  rf ← perf_lines "RandomForest" perf.1;
  isof ← perf_lines "Isolation Forest" perf.2;
  Ok ([EmptyString; "=== Performance ===";
       "Training and prediction cost of a single fit on the full";
       "dataset (the LOSO sweeps above exist to pick a hyperparameter and";
       "measure generalisation, and say nothing about cost). This is CSV-replay";
       "cost only: packets/sec, Gbps, and Stage 1 overhead need a live traffic";
       "phase and are out of reach of this script by construction."; EmptyString] ++ rf ++ isof ++
      ["RandomForest LOSO depth sweep (11 depths, evaluation only): " ^^ fmt_fixed rf_sweep_seconds 1 ^^ "s";
       "Isolation Forest LOSO evaluation (1 contamination, evaluation only): " ^^ fmt_fixed if_loso_seconds 1 ^^ "s"]).

(** What main prints from the comparison on. *)
Definition comparison_lines (r : BenchReport) (rf_sweep_seconds if_loso_seconds : num)
    (phases : list PhaseMark) (used_start used_end free_end : Z) : res (list line) :=
  perf ← print_performance_report (br_perf r) rf_sweep_seconds if_loso_seconds;
  Ok ([EmptyString; "=== Detection comparison: RandomForest vs. Isolation Forest vs. Fixed threshold ==="] ++
      print_scenario_table (br_scenarios r) ++
      print_confusion_table "RandomForest (trained classifier, held-out)" (br_rf r) ++
      print_confusion_table "Isolation Forest (held-out, outlier-as-DDoS-vote)" (br_if r) ++
      print_confusion_table "Fixed threshold" (br_fixed r) ++
      left_alone_lines (br_left_alone r) ++
      [EmptyString; "--- Measuring production-shaped training and prediction performance ---"] ++
      perf ++ tracker_lines phases used_start used_end free_end).

(** ** Columns *)

Lemma length_right w s : (String.length s ≤ w)%nat → String.length (right w s) = w.
Proof. intros H. unfold right. rewrite length_app_str, length_spaces. lia. Qed.

Lemma length_left w s : (String.length s ≤ w)%nat → String.length (left w s) = w.
Proof. intros H. unfold left. rewrite length_app_str, length_spaces. lia. Qed.

(** Rows whose figures fit are as long as each other, and as the total. *)
Lemma resource_cells_length name wall cpu cores rss :
  (String.length name ≤ 32)%nat → (String.length (fmt_fixed wall 1) ≤ 9)%nat →
  (String.length (fmt_fixed cpu 1) ≤ 9)%nat → (String.length cores ≤ 8)%nat →
  (String.length (fmt_fixed rss 0) ≤ 10)%nat →
  String.length (resource_cells name wall cpu cores rss) = 73%nat.
Proof.
  intros. unfold resource_cells. rewrite !length_app_str, length_left, !length_right by done. reflexivity.
Qed.

(** One line per mark, between the rules. *)
Lemma tracker_lines_rows phases u1 u2 f :
  length (tracker_lines phases u1 u2 f) = (13 + length phases)%nat.
Proof.
  unfold tracker_lines. rewrite !length_app, length_fmap. cbn [length disk_lines].
  assert (H : ∀ prev, length (report_rows prev phases) = length phases)
    by (induction phases as [|p ps IH]; intros prev; cbn [report_rows length]; [done|by rewrite IH]).
  unfold tracker_report. rewrite H. lia.
Qed.

(** ** The report is printed *)

Lemma perf_lines_ok name p :
  (0 < pf_predict_rows p)%nat → ∃ ls, perf_lines name p = Ok ls.
Proof.
  intros Hp. unfold perf_lines, ndiv.
  rewrite int_not_zero by lia. by eexists.
Qed.

Lemma if_folds_length F l contamination sids flags flags' :
  length flags = length l → if_folds F l contamination sids flags = Ok flags' → length flags' = length l.
Proof.
  revert flags. induction sids as [|sid sids IH]; intros flags Hl; cbn [if_folds]; [by intros [= <-]|].
  destruct (fo_fit _ _ _) as [m|]; cbn [mbind res_bind]; [|done].
  destruct (assign_mask _ _ flags) as [flags1|] eqn:Ha; cbn [mbind res_bind]; [|done].
  apply assign_mask_spec in Ha as [Hl1 _]; [|by rewrite length_fmap]. apply IH. congruence.
Qed.

Lemma rf_pred_length L resample l b :
  rf_loso L resample l (bench_eligible_sessions l) = Ok b → length (default (no_series l) (be_pred b)) = length l.
Proof.
  intros [->|(d & acc & pred & -> & Hf)]%rf_sweep_from; cbn [be_pred default]; [by unfold no_series; rewrite length_fmap|].
  apply rf_folds_spec in Hf as [Hlen _]; [done|apply bench_eligible_NoDup|by unfold no_series; rewrite length_fmap].
Qed.

(** A session that can be held out has rows that are scored. *)
Lemma held_rows_exist {A B} (l : list (frow * Z)) (pred : list A) (flags : list B) sid rest :
  bench_eligible_sessions l = sid :: rest → length pred = length l → length flags = length l →
  (0 < length (List.filter (λ x, held_out (sid :: rest) x.1) (zip l (zip pred flags))))%nat.
Proof.
  intros He Hp Hf. assert (Hsid : sid ∈ bench_eligible_sessions l) by (rewrite He; by left).
  unfold bench_eligible_sessions in Hsid. apply list_elem_of_In, filter_In in Hsid as [Hsid _].
  apply list_elem_of_In, sessions_of_spec in Hsid as (x & Hx & Hxs).
  apply list_elem_of_lookup in Hx as [i Hi]. pose proof (lookup_lt_Some _ _ _ Hi) as Hlt.
  destruct (lookup_lt_is_Some_2 pred i) as [p Hpi]; [lia|]. destruct (lookup_lt_is_Some_2 flags i) as [f Hfi]; [lia|].
  assert (Hin : (x, (p, f)) ∈ List.filter (λ x, held_out (sid :: rest) x.1) (zip l (zip pred flags))).
  { apply list_elem_of_In, filter_In. split.
    - apply list_elem_of_In, list_elem_of_lookup. exists i. rewrite !lookup_zip_with, Hi, Hpi, Hfi. done.
    - unfold held_out. apply bool_decide_eq_true. cbn. rewrite Hxs. by left. }
  destruct (List.filter _ _); [by apply not_elem_of_nil in Hin|cbn; lia].
Qed.

(** Whatever the models answered and the clock read, a benchmark that was run to
    its end is printed to its end. *)
Theorem benchmark_is_printed L F resample exists_file read_csv sort_values cr col_mean csv tick rf_size if_size
    path multiplier r rf_secs if_secs phases u1 u2 f :
  bench_main L F resample exists_file read_csv sort_values cr col_mean csv tick rf_size if_size path multiplier = Ok r →
  ∃ lines, comparison_lines r rf_secs if_secs phases u1 u2 f = Ok lines.
Proof.
  intros Hm. assert (Hrows : (0 < pf_predict_rows (br_perf r).1 ∧ 0 < pf_predict_rows (br_perf r).2)%nat).
  { unfold bench_main in Hm. destruct (load_and_prepare _ _ _ _) as [l|]; cbn [mbind res_bind] in Hm; [|done].
    destruct (bench_eligible_sessions l) as [|sid rest] eqn:He; [done|].
    destruct (rf_loso _ _ _ _) as [b|] eqn:Hb; cbn [mbind res_bind] in Hm; [|done].
    destruct (if_pick_contamination _ _) as [picked|]; cbn [mbind res_bind] in Hm; [|done].
    destruct (if_loso _ _ _ _) as [flags|] eqn:Hf; cbn [mbind res_bind] in Hm; [|done].
    rewrite <-He in Hb. apply rf_pred_length in Hb.
    apply if_folds_length in Hf; [|by unfold no_series; rewrite length_fmap].
    pose proof (held_rows_exist l _ flags sid rest He Hb Hf) as Hheld. cbv zeta in Hm.
    set (held := List.filter _ _) in *. rewrite <-(length_fmap fst held) in Hheld.
    destruct (cr _ _ _); cbn [mbind res_bind] in Hm; [|done].
    destruct (pick_fixed_threshold _ _ _) as [t ?]. unfold measure_performance in Hm.
    destruct (ln_fit _ _ _); cbn [mbind res_bind] in Hm; [|done]. destruct (fo_fit _ _ _); cbn [mbind res_bind] in Hm; [|done].
    injection Hm as <-. done. }
  destruct Hrows as [H1 H2]. unfold comparison_lines, print_performance_report.
  destruct (perf_lines_ok "RandomForest" _ H1) as [? ->], (perf_lines_ok "Isolation Forest" _ H2) as [? ->].
  cbn [mbind res_bind]. by eexists.
Qed.

(** Two phases, the first too short for a ratio. *)
Example demo_tracker_lines :
  take 4 (drop 7 (tracker_lines
    [mkPhaseMark "load and prepare" (flt 1 4) (flt 1 2) (flt 180 1); mkPhaseMark "fit" (flt 41 4) (flt 41 2) (flt 240 1)]
    0 2048 (5 * 1024 ^ 3))) =
  ["Phase                                 Wall       CPU  Cores~    Peak RSS";
   "------------------------------------------------------------------------";
   "load and prepare                      0.2s      0.5s     n/a       180 MB";
   "fit                                  10.0s     20.0s     2.0       240 MB"].
Proof. vm_compute. reflexivity. Qed.
